(** * ML-Sensors: the Bristlemouth message layer and the Spotter buoy client

    A shallow embedding of [ml_sensors/bristlemouth/protocol.py],
    [sensors.py] and [spotter.py], followed by the properties proved of it.

    Conventions of the embedding:
    - a Python [int] is a [Z]; a [bytes] object is a [list byte];
      a [str] is the list of its code points;
    - a Python [float] is an IEEE 754 binary64 number, represented by the
      Standard Library's [spec_float] (all NaNs are identified);
    - a call that may raise returns a [result]; a method of a mutable object
      returns the new state of the object next to its result, so that what an
      exception leaves behind stays visible;
    - [time.time()] is an explicit argument [now] of whatever reads the clock. *)

From Stdlib Require Import String Ascii.
From Stdlib Require Import ZArith List Bool Lia Arith Sorted.
From Stdlib Require Import Strings.Byte Floats.SpecFloat.
Import ListNotations.
Open Scope Z_scope.

Set Implicit Arguments.

(* ================================================================= *)
(** * Part I: the embedding                                           *)
(* ================================================================= *)

(** ** Python values and exceptions *)

(** A [str]: the sequence of its Unicode code points. *)
Definition pystr := list Z.

Definition codepoint_of_ascii (c : ascii) : Z := Z.of_N (N_of_ascii c).

(** A literal of the source, written as a Rocq string (one character per
    code point). *)
Definition lit (s : string) : pystr := map codepoint_of_ascii (list_ascii_of_string s).

(** The sensor kinds, used by the validators' messages. *)
Inductive SensorKind := Temperature | Pressure | Salinity | CurrentMeter | Turbidity.

(** The values a caller may hand to the codecs and the sensors. A [bool] is
    an [int] for [isinstance]. *)
Inductive PyValue :=
| PyFloat (f : spec_float)
| PyInt (z : Z)
| PyBool (b : bool)
| PyStr (s : pystr)
| PyBytes (b : list byte)
| PyNone.

(** The second component of a validator's answer. The source formats the
    offending value and the bound into the text; here they are kept as data. *)
Inductive ValidationMessage :=
| MustBeNumeric (k : SensorKind)                       (* "<Kind> must be numeric" *)
| BelowMinimum (k : SensorKind) (v : PyValue) (lo : spec_float)  (* "... below minimum ..." / "... cannot be negative" *)
| AboveMaximum (k : SensorKind) (v : PyValue) (hi : spec_float)  (* "... above maximum ..." *)
| Valid.                                               (* "Valid" *)

(** The exceptions the modelled code can raise. The first group are the
    [ValueError]s raised by the source itself, one constructor per message. *)
Inductive PyError :=
| TopicNameEmpty                      (* ValueError("Topic name cannot be empty") *)
| TopicNameTooLong                    (* ValueError("Topic name cannot exceed 64 characters") *)
| PayloadTooLarge (size : Z)          (* ValueError("Payload size {size} exceeds maximum 1400") *)
| MessageTooShort                     (* ValueError("Message too short") *)
| InvalidMagicByte (magic : Z)        (* ValueError("Invalid magic byte: {magic:#x}") *)
| ChecksumMismatch                    (* ValueError("Checksum mismatch") *)
| ValueMustBeBytes                    (* ValueError("Value must be bytes for BYTES data type") *)
| UnknownDataType (t : Z)             (* ValueError("Unknown data type: {t}") *)
| QualityOutOfRange                   (* ValueError("Quality must be between 0 and 100") *)
| InvalidReading (m : ValidationMessage) (* ValueError("Invalid reading: {msg}") *)
| DirectionOutOfRange                 (* ValueError("Direction must be between 0 and 360 degrees") *)
| NotAValidMessageType (v : Z)        (* ValueError("{v} is not a valid MessageType"), raised by the enum *)
| MaxlenNegative                      (* ValueError("maxlen must be non-negative"), raised by deque *)
| FloatNaNToInt                       (* ValueError("cannot convert float NaN to integer") *)
| ConversionError                     (* ValueError / TypeError of int(), float() on an unsuitable value *)
| UnicodeDecodeError                  (* a subclass of ValueError *)
| UnicodeEncodeError                  (* a subclass of ValueError *)
| StructError                         (* struct.error *)
| IndexError                          (* IndexError *)
| OverflowError                       (* OverflowError *)
| OtherException (name : string).     (* any other exception, by the name of its class *)

Inductive result (A : Type) :=
| Ok (a : A)
| Raise (e : PyError).
Arguments Ok {A} a.
Arguments Raise {A} e.

Definition bind {A B} (r : result A) (k : A -> result B) : result B :=
  match r with
  | Ok a => k a
  | Raise e => Raise e
  end.

Declare Scope py_scope.
Delimit Scope py_scope with py.
Notation "x <- r ;; k" := (bind r (fun x => k))
  (at level 61, r at next level, right associativity) : py_scope.
Notation "' p <- r ;; k" := (bind r (fun x => let p := x in k))
  (at level 61, p pattern, r at next level, right associativity) : py_scope.
Open Scope py_scope.

Definition is_ok {A} (r : result A) : bool :=
  match r with Ok _ => true | Raise _ => false end.

(** ** Bytes *)

Definition Z_of_byte (b : byte) : Z := Z.of_N (Byte.to_N b).

Definition byte_of_Z (z : Z) : byte :=
  match Byte.of_N (Z.to_N (z mod 256)) with
  | Some b => b
  | None => x00
  end.

Definition bytes_eqb (a b : list byte) : bool :=
  if list_eq_dec Byte.byte_eq_dec a b then true else false.

Definition len {A} (l : list A) : Z := Z.of_nat (length l).

(** [data[a:b]] for [0 <= a <= b]: the slice is clipped to the data. *)
Definition slice {A} (data : list A) (a b : nat) : list A :=
  firstn (b - a) (skipn a data).

(** [n] bytes of [z], most significant first (network byte order). *)
Fixpoint be_bytes (n : nat) (z : Z) : list byte :=
  match n with
  | O => []
  | S k => byte_of_Z (z / 256 ^ Z.of_nat k) :: be_bytes k z
  end.

Definition be_value (bs : list byte) : Z :=
  fold_left (fun acc b => acc * 256 + Z_of_byte b) bs 0.

(** [n] bytes of [z], least significant first. *)
Fixpoint le_bytes (n : nat) (z : Z) : list byte :=
  match n with
  | O => []
  | S k => byte_of_Z z :: le_bytes k (z / 256)
  end.

Definition le_value (bs : list byte) : Z :=
  fold_right (fun b acc => Z_of_byte b + 256 * acc) 0 bs.

(** ** The [struct] module, network byte order

    [pack] of an integer outside the format's range and [unpack] of a buffer
    whose length is not the format's size raise [struct.error]. *)

Definition pack_uint (n : nat) (v : Z) : result (list byte) :=
  if (0 <=? v) && (v <? 256 ^ Z.of_nat n) then Ok (be_bytes n v) else Raise StructError.

Definition unpack_uint (n : nat) (bs : list byte) : result Z :=
  if Nat.eqb (length bs) n then Ok (be_value bs) else Raise StructError.

Definition pack_sint (n : nat) (v : Z) : result (list byte) :=
  let half := 256 ^ Z.of_nat n / 2 in
  if (- half <=? v) && (v <? half) then Ok (be_bytes n (v mod 256 ^ Z.of_nat n))
  else Raise StructError.

Definition unpack_sint (n : nat) (bs : list byte) : result Z :=
  if Nat.eqb (length bs) n then
    let u := be_value bs in
    Ok (if u <? 256 ^ Z.of_nat n / 2 then u else u - 256 ^ Z.of_nat n)
  else Raise StructError.

(** Format ['{n}s']: the bytes, cut or padded with zero bytes to [n]. *)
Definition pack_s (n : nat) (bs : list byte) : list byte :=
  firstn n bs ++ repeat x00 (n - length bs).

(** Format ['?']. *)
Definition pack_bool (b : bool) : list byte := [if b then x01 else x00].

Definition unpack_bool (bs : list byte) : result bool :=
  match bs with
  | [b] => Ok (negb (Byte.eqb b x00))
  | _ => Raise StructError
  end.

(** ** UTF-8

    [str.encode('utf-8')] and [bytes.decode('utf-8')], both strict: a
    surrogate code point does not encode, and only the shortest encoding of a
    code point other than a surrogate decodes. *)

Definition is_surrogate (cp : Z) : bool := (0xD800 <=? cp) && (cp <=? 0xDFFF).

Definition utf8_encode_char (cp : Z) : result (list byte) :=
  if cp <? 0 then Raise UnicodeEncodeError
  else if cp <? 0x80 then Ok [byte_of_Z cp]
  else if cp <? 0x800 then Ok [byte_of_Z (0xC0 + cp / 64); byte_of_Z (0x80 + cp mod 64)]
  else if cp <? 0x10000 then
    if is_surrogate cp then Raise UnicodeEncodeError
    else Ok [byte_of_Z (0xE0 + cp / 4096); byte_of_Z (0x80 + (cp / 64) mod 64);
             byte_of_Z (0x80 + cp mod 64)]
  else if cp <? 0x110000 then
    Ok [byte_of_Z (0xF0 + cp / 262144); byte_of_Z (0x80 + (cp / 4096) mod 64);
        byte_of_Z (0x80 + (cp / 64) mod 64); byte_of_Z (0x80 + cp mod 64)]
  else Raise UnicodeEncodeError.

Fixpoint utf8_encode (s : pystr) : result (list byte) :=
  match s with
  | [] => Ok []
  | cp :: rest =>
      bs <- utf8_encode_char cp ;;
      more <- utf8_encode rest ;;
      Ok (bs ++ more)
  end.

(** A continuation byte [10xxxxxx]; its six payload bits. *)
Definition is_cont (b : byte) : bool := (0x80 <=? Z_of_byte b) && (Z_of_byte b <=? 0xBF).
Definition cont_bits (b : byte) : Z := Z_of_byte b - 0x80.

Fixpoint utf8_decode (bs : list byte) : result pystr :=
  match bs with
  | [] => Ok []
  | b0 :: r0 =>
      let z0 := Z_of_byte b0 in
      if z0 <? 0x80 then
        s <- utf8_decode r0 ;; Ok (z0 :: s)
      else if (0xC2 <=? z0) && (z0 <=? 0xDF) then
        match r0 with
        | b1 :: r1 =>
            if is_cont b1 then
              s <- utf8_decode r1 ;; Ok ((z0 - 0xC0) * 64 + cont_bits b1 :: s)
            else Raise UnicodeDecodeError
        | _ => Raise UnicodeDecodeError
        end
      else if (0xE0 <=? z0) && (z0 <=? 0xEF) then
        match r0 with
        | b1 :: b2 :: r2 =>
            let cp := (z0 - 0xE0) * 4096 + cont_bits b1 * 64 + cont_bits b2 in
            if is_cont b1 && is_cont b2 && (0x800 <=? cp) && negb (is_surrogate cp) then
              s <- utf8_decode r2 ;; Ok (cp :: s)
            else Raise UnicodeDecodeError
        | _ => Raise UnicodeDecodeError
        end
      else if (0xF0 <=? z0) && (z0 <=? 0xF4) then
        match r0 with
        | b1 :: b2 :: b3 :: r3 =>
            let cp := (z0 - 0xF0) * 262144 + cont_bits b1 * 4096
                      + cont_bits b2 * 64 + cont_bits b3 in
            if is_cont b1 && is_cont b2 && is_cont b3
               && (0x10000 <=? cp) && (cp <? 0x110000) then
              s <- utf8_decode r3 ;; Ok (cp :: s)
            else Raise UnicodeDecodeError
        | _ => Raise UnicodeDecodeError
        end
      else Raise UnicodeDecodeError
  end.

(** ** Floating point

    A Python [float] is a binary64 number ([prec = 53], [emax = 1024]); the
    ['f'] format of [struct] goes through binary32 ([prec = 24],
    [emax = 128]). Arithmetic rounds to nearest, ties to even, as
    [SpecFloat] does. *)

Definition float := spec_float.

Definition prec64 : Z := 53.
Definition emax64 : Z := 1024.
Definition prec32 : Z := 24.
Definition emax32 : Z := 128.

Definition valid_float (f : float) : Prop := valid_binary prec64 emax64 f = true.
Definition valid_single (f : spec_float) : Prop := valid_binary prec32 emax32 f = true.

Definition fmul : float -> float -> float := SFmul prec64 emax64.
Definition fdiv : float -> float -> float := SFdiv prec64 emax64.
Definition flt : float -> float -> bool := SFltb.
Definition fle : float -> float -> bool := SFleb.
Definition fopp : float -> float := SFopp.

(** [float(z)] of an integer: the nearest float; [OverflowError] beyond the
    largest one. *)
Definition float_of_int (z : Z) : result float :=
  match binary_normalize prec64 emax64 z 0 false with
  | S754_infinity _ => Raise OverflowError
  | f => Ok f
  end.

(** An integer literal used as a float ([1000] in [timestamp * 1000]); the
    ones of the source are all exact. *)
Definition float_lit (z : Z) : float := binary_normalize prec64 emax64 z 0 false.

(** A decimal literal [n / 10^d] of the source, correctly rounded (for
    [|n| < 2^53] and [d <= 22] both operands are exact floats). *)
Definition dec (n : Z) (d : Z) : float := fdiv (float_lit n) (float_lit (10 ^ d)).

(** [int(f)]: truncation towards zero. *)
Definition int_of_float (f : float) : result Z :=
  match f with
  | S754_nan => Raise FloatNaNToInt
  | S754_infinity _ => Raise OverflowError
  | S754_zero _ => Ok 0
  | S754_finite s m e =>
      Ok (cond_Zopp s (if 0 <=? e then Zpos m * 2 ^ e else Zpos m / 2 ^ (- e)))
  end.

(** Truthiness of a float: [0.0] and [-0.0] are false. *)
Definition float_truthy (f : float) : bool :=
  match f with S754_zero _ => false | _ => true end.

(** Exact comparison of an integer with a float, as Python compares them. *)
Definition int_float_compare (z : Z) (f : float) : option comparison :=
  match f with
  | S754_nan => None
  | S754_infinity s => Some (if s then Gt else Lt)
  | S754_zero _ => Some (z ?= 0)
  | S754_finite s m e =>
      let v := cond_Zopp s (Zpos m) in
      Some (if 0 <=? e then z ?= v * 2 ^ e else z * 2 ^ (- e) ?= v)
  end.

(** The interchange encoding of a format with [mw] stored mantissa bits and
    [ew] exponent bits: sign, biased exponent, fraction. *)
Section Bits.
Variables mw ew : Z.

Let prec := mw + 1.
Let emax := 2 ^ (ew - 1).

Definition bits_of_float (f : spec_float) : Z :=
  let sign (s : bool) := if s then 2 ^ (mw + ew) else 0 in
  match f with
  | S754_zero s => sign s
  | S754_infinity s => sign s + (2 ^ ew - 1) * 2 ^ mw
  | S754_nan => (2 ^ ew - 1) * 2 ^ mw + 2 ^ (mw - 1)
  | S754_finite s m e =>
      if Zpos m <? 2 ^ mw then sign s + Zpos m
      else sign s + (e - emin prec emax + 1) * 2 ^ mw + (Zpos m - 2 ^ mw)
  end.

Definition float_of_bits (x : Z) : spec_float :=
  let s := Z.odd (x / 2 ^ (mw + ew)) in
  let biased := (x / 2 ^ mw) mod 2 ^ ew in
  let frac := x mod 2 ^ mw in
  if biased =? 0 then
    match frac with
    | Zpos m => S754_finite s m (emin prec emax)
    | _ => S754_zero s
    end
  else if biased =? 2 ^ ew - 1 then
    if frac =? 0 then S754_infinity s else S754_nan
  else
    match frac + 2 ^ mw with
    | Zpos m => S754_finite s m (biased - 1 + emin prec emax)
    | _ => S754_nan
    end.
End Bits.

(** Format ['d']: the eight bytes of the float. *)
Definition pack_d (f : float) : list byte := be_bytes 8 (bits_of_float 52 11 f).

Definition unpack_d (bs : list byte) : result float :=
  if Nat.eqb (length bs) 8 then Ok (float_of_bits 52 11 (be_value bs)) else Raise StructError.

(** Conversion to single precision as ['f'] does it: rounding to the nearest
    binary32; a finite float that rounds to an infinity raises
    [OverflowError]. *)
Definition to_single (f : float) : result spec_float :=
  match f with
  | S754_finite s m e =>
      match binary_round prec32 emax32 s m e with
      | S754_infinity _ => Raise OverflowError
      | r => Ok r
      end
  | _ => Ok f
  end.

(** A binary32 number as a float: exact. *)
Definition of_single (f : spec_float) : float :=
  match f with
  | S754_finite s m e => binary_round prec64 emax64 s m e
  | _ => f
  end.

Definition pack_f (f : float) : result (list byte) :=
  r <- to_single f ;; Ok (be_bytes 4 (bits_of_float 23 8 r)).

Definition unpack_f (bs : list byte) : result float :=
  if Nat.eqb (length bs) 4 then Ok (of_single (float_of_bits 23 8 (be_value bs)))
  else Raise StructError.

(** ** MD5 (RFC 1321), the digest behind [hashlib.md5] *)

Definition md5_K : list Z :=
  [
     0xd76aa478; 0xe8c7b756; 0x242070db; 0xc1bdceee;
     0xf57c0faf; 0x4787c62a; 0xa8304613; 0xfd469501;
     0x698098d8; 0x8b44f7af; 0xffff5bb1; 0x895cd7be;
     0x6b901122; 0xfd987193; 0xa679438e; 0x49b40821;
     0xf61e2562; 0xc040b340; 0x265e5a51; 0xe9b6c7aa;
     0xd62f105d; 0x02441453; 0xd8a1e681; 0xe7d3fbc8;
     0x21e1cde6; 0xc33707d6; 0xf4d50d87; 0x455a14ed;
     0xa9e3e905; 0xfcefa3f8; 0x676f02d9; 0x8d2a4c8a;
     0xfffa3942; 0x8771f681; 0x6d9d6122; 0xfde5380c;
     0xa4beea44; 0x4bdecfa9; 0xf6bb4b60; 0xbebfbc70;
     0x289b7ec6; 0xeaa127fa; 0xd4ef3085; 0x04881d05;
     0xd9d4d039; 0xe6db99e5; 0x1fa27cf8; 0xc4ac5665;
     0xf4292244; 0x432aff97; 0xab9423a7; 0xfc93a039;
     0x655b59c3; 0x8f0ccc92; 0xffeff47d; 0x85845dd1;
     0x6fa87e4f; 0xfe2ce6e0; 0xa3014314; 0x4e0811a1;
     0xf7537e82; 0xbd3af235; 0x2ad7d2bb; 0xeb86d391 ].

Definition md5_S : list Z :=
  [
     7; 12; 17; 22; 7; 12; 17; 22; 7; 12; 17; 22; 7; 12; 17; 22;
     5; 9; 14; 20; 5; 9; 14; 20; 5; 9; 14; 20; 5; 9; 14; 20;
     4; 11; 16; 23; 4; 11; 16; 23; 4; 11; 16; 23; 4; 11; 16; 23;
     6; 10; 15; 21; 6; 10; 15; 21; 6; 10; 15; 21; 6; 10; 15; 21 ].

Definition add32 (a b : Z) : Z := (a + b) mod 2 ^ 32.
Definition not32 (a : Z) : Z := Z.lxor a 0xFFFFFFFF.
Definition rotl32 (x c : Z) : Z :=
  Z.lor (Z.shiftl x c mod 2 ^ 32) (Z.shiftr x (32 - c)).

Definition md5_round (M : list Z) (st : Z * Z * Z * Z) (i : nat) : Z * Z * Z * Z :=
  let '(a, b, c, d) := st in
  let '(f, g) :=
    if (i <? 16)%nat then (Z.lor (Z.land b c) (Z.land (not32 b) d), i)
    else if (i <? 32)%nat then (Z.lor (Z.land d b) (Z.land (not32 d) c), (5 * i + 1) mod 16)%nat
    else if (i <? 48)%nat then (Z.lxor b (Z.lxor c d), (3 * i + 5) mod 16)%nat
    else (Z.lxor c (Z.lor b (not32 d)), (7 * i) mod 16)%nat in
  let f' := add32 (add32 (add32 f a) (nth i md5_K 0)) (nth g M 0) in
  (d, add32 b (rotl32 f' (nth i md5_S 0)), b, c).

(** The sixteen little-endian words of a 64-byte block. *)
Definition md5_words (block : list byte) : list Z :=
  map (fun j => le_value (slice block (4 * j) (4 * j + 4))) (seq 0 16).

Definition md5_block (st : Z * Z * Z * Z) (block : list byte) : Z * Z * Z * Z :=
  let '(a0, b0, c0, d0) := st in
  let '(a, b, c, d) := fold_left (md5_round (md5_words block)) (seq 0 64) st in
  (add32 a0 a, add32 b0 b, add32 c0 c, add32 d0 d).

(** The message, a one bit, zero bits up to 56 modulo 64 bytes, and the
    length in bits as a little-endian 64-bit word. *)
Definition md5_pad (data : list byte) : list byte :=
  data ++ [x80] ++ repeat x00 (Z.to_nat ((55 - len data) mod 64))
       ++ le_bytes 8 ((8 * len data) mod 2 ^ 64).

Fixpoint chunks (k : nat) (l : list byte) : list (list byte) :=
  match k with
  | O => []
  | S k' => firstn 64 l :: chunks k' (skipn 64 l)
  end.

Definition md5 (data : list byte) : list byte :=
  let padded := md5_pad data in
  let '(a, b, c, d) :=
    fold_left md5_block (chunks (length padded / 64) padded)
              (0x67452301, 0xefcdab89, 0x98badcfe, 0x10325476) in
  le_bytes 4 a ++ le_bytes 4 b ++ le_bytes 4 c ++ le_bytes 4 d.

(** ** protocol.py *)

Definition BCMP_PROTOCOL_VERSION : Z := 0x01.
Definition BCMP_HEADER_MAGIC : Z := 0xBC.
Definition MAX_PAYLOAD_SIZE : Z := 1400.

Module MessageType.
Inductive t :=
| HEARTBEAT | SENSOR_DATA | CONFIG | ACK | NACK | DISCOVERY
| SUBSCRIBE | UNSUBSCRIBE | PUBLISH | REQUEST | RESPONSE.

Definition value (m : t) : Z :=
  match m with
  | HEARTBEAT => 0x00 | SENSOR_DATA => 0x01 | CONFIG => 0x02 | ACK => 0x03
  | NACK => 0x04 | DISCOVERY => 0x05 | SUBSCRIBE => 0x06 | UNSUBSCRIBE => 0x07
  | PUBLISH => 0x08 | REQUEST => 0x09 | RESPONSE => 0x0A
  end.

(** [MessageType(v)]: the member with that value, or [ValueError]. *)
Definition of_int (v : Z) : result t :=
  match v with
  | 0 => Ok HEARTBEAT | 1 => Ok SENSOR_DATA | 2 => Ok CONFIG | 3 => Ok ACK
  | 4 => Ok NACK | 5 => Ok DISCOVERY | 6 => Ok SUBSCRIBE | 7 => Ok UNSUBSCRIBE
  | 8 => Ok PUBLISH | 9 => Ok REQUEST | 10 => Ok RESPONSE
  | _ => Raise (NotAValidMessageType v)
  end.
End MessageType.

Module DataType.
Definition FLOAT32 : Z := 0x01.
Definition FLOAT64 : Z := 0x02.
Definition INT8 : Z := 0x03.
Definition INT16 : Z := 0x04.
Definition INT32 : Z := 0x05.
Definition INT64 : Z := 0x06.
Definition UINT8 : Z := 0x07.
Definition UINT16 : Z := 0x08.
Definition UINT32 : Z := 0x09.
Definition UINT64 : Z := 0x0A.
Definition STRING : Z := 0x0B.
Definition BYTES : Z := 0x0C.
Definition BOOL : Z := 0x0D.
End DataType.

Module BristlemouthTopic.
Record t := mk {
  name : pystr;
  version : Z;
  node_id : option pystr
}.

(** The constructor with its [__post_init__]. *)
Definition init (name : pystr) (version : Z) (node_id : option pystr) : result t :=
  match name with
  | [] => Raise TopicNameEmpty
  | _ =>
      if 64 <? len name then Raise TopicNameTooLong
      else Ok (mk name version node_id)
  end.

Definition to_bytes (self : t) : result (list byte) :=
  name_bytes <- utf8_encode (name self) ;;
  v <- pack_uint 1 (version self) ;;
  l <- pack_uint 2 (len name_bytes) ;;
  Ok (v ++ l ++ name_bytes).

Definition from_bytes (data : list byte) : result t :=
  match data with
  | [] => Raise IndexError
  | b0 :: _ =>
      let version := Z_of_byte b0 in
      name_len <- unpack_uint 2 (slice data 1 3) ;;
      name <- utf8_decode (slice data 3 (3 + Z.to_nat name_len)) ;;
      init name version None
  end.
End BristlemouthTopic.

Module SpotterTopics.
Import BristlemouthTopic.
Definition TEMPERATURE := mk (lit "spotter/sensor/temperature") 1 None.
Definition PRESSURE := mk (lit "spotter/sensor/pressure") 1 None.
Definition SALINITY := mk (lit "spotter/sensor/salinity") 1 None.
Definition CURRENT := mk (lit "spotter/sensor/current") 1 None.
Definition TURBIDITY := mk (lit "spotter/sensor/turbidity") 1 None.
Definition WAVES := mk (lit "spotter/sensor/waves") 1 None.
Definition GPS := mk (lit "spotter/sensor/gps") 1 None.
Definition TRANSMIT_DATA := mk (lit "spotter/transmit-data") 1 None.
Definition CONFIG := mk (lit "spotter/config") 1 None.
Definition STATUS := mk (lit "spotter/status") 1 None.
End SpotterTopics.

Module BristlemouthMessage.
Record t := mk {
  topic : BristlemouthTopic.t;
  payload : list byte;
  message_type : MessageType.t;
  version : Z;
  sequence_number : Z;
  timestamp : float;
  source_node_id : option (list byte)
}.

(** The constructor with its [__post_init__]: an absent timestamp becomes
    the current time, an oversized payload is refused. *)
Definition init (now : float) (topic : BristlemouthTopic.t) (payload : list byte)
    (message_type : MessageType.t) (version sequence_number : Z)
    (timestamp : option float) (source_node_id : option (list byte)) : result t :=
  let timestamp := match timestamp with None => now | Some ts => ts end in
  if MAX_PAYLOAD_SIZE <? len payload then Raise (PayloadTooLarge (len payload))
  else Ok (mk topic payload message_type version sequence_number timestamp source_node_id).

(** [int(self.timestamp * 1000)]. *)
Definition timestamp_ms (ts : float) : result Z :=
  int_of_float (fmul ts (float_lit 1000)).

Definition _pack_without_checksum (self : t) : result (list byte) :=
  topic_bytes <- BristlemouthTopic.to_bytes (topic self) ;;
  let source_id :=
    match source_node_id self with
    | None | Some [] => repeat x00 6
    | Some id => id
    end in
  ms <- timestamp_ms (timestamp self) ;;
  header <- (magic <- pack_uint 1 BCMP_HEADER_MAGIC ;;
             v <- pack_uint 1 (version self) ;;
             ty <- pack_uint 2 (MessageType.value (message_type self)) ;;
             sq <- pack_uint 4 (sequence_number self) ;;
             ts <- pack_uint 8 ms ;;
             Ok (magic ++ v ++ ty ++ sq ++ ts ++ pack_s 6 source_id)) ;;
  tl <- pack_uint 2 (len topic_bytes) ;;
  pl <- pack_uint 2 (len (payload self)) ;;
  Ok (header ++ tl ++ topic_bytes ++ pl ++ payload self).

Definition calculate_checksum (self : t) : result (list byte) :=
  data <- _pack_without_checksum self ;;
  Ok (firstn 4 (md5 data)).

Definition to_bytes (self : t) : result (list byte) :=
  data <- _pack_without_checksum self ;;
  checksum <- calculate_checksum self ;;
  Ok (data ++ checksum).

(** [struct.unpack('!BBHIQ6s', header)]. *)
Definition unpack_header (h : list byte) : result (Z * Z * Z * Z * Z * list byte) :=
  if Nat.eqb (length h) 22 then
    Ok (be_value (slice h 0 1), be_value (slice h 1 2), be_value (slice h 2 4),
        be_value (slice h 4 8), be_value (slice h 8 16), slice h 16 22)
  else Raise StructError.

Definition from_bytes (now : float) (data : list byte) : result t :=
  let header_size := 22%nat in
  if (length data <? header_size)%nat then Raise MessageTooShort
  else
    '(magic, version, msg_type, seq_num, timestamp_ms, source_id)
        <- unpack_header (slice data 0 header_size) ;;
    if negb (magic =? BCMP_HEADER_MAGIC) then Raise (InvalidMagicByte magic)
    else
      let offset := header_size in
      topic_len <- unpack_uint 2 (slice data offset (offset + 2)) ;;
      let offset := (offset + 2)%nat in
      topic <- BristlemouthTopic.from_bytes (slice data offset (offset + Z.to_nat topic_len)) ;;
      let offset := (offset + Z.to_nat topic_len)%nat in
      payload_len <- unpack_uint 2 (slice data offset (offset + 2)) ;;
      let offset := (offset + 2)%nat in
      let payload := slice data offset (offset + Z.to_nat payload_len) in
      let offset := (offset + Z.to_nat payload_len)%nat in
      let received_checksum := slice data offset (offset + 4) in
      message_type <- MessageType.of_int msg_type ;;
      ms <- float_of_int timestamp_ms ;;
      msg <- init now topic payload message_type version seq_num
                  (Some (fdiv ms (float_lit 1000))) (Some source_id) ;;
      expected_checksum <- calculate_checksum msg ;;
      if negb (bytes_eqb received_checksum expected_checksum) then Raise ChecksumMismatch
      else Ok msg.
(** [from_bytes] up to the point where the checksum is verified: the
message rebuilt from the fields, and the four bytes received after the
payload. *)
Definition decode_fields (now : float) (data : list byte) : result (t * list byte) :=
  let header_size := 22%nat in
  if (length data <? header_size)%nat then Raise MessageTooShort
  else
    '(magic, version, msg_type, seq_num, timestamp_ms, source_id)
        <- unpack_header (slice data 0 header_size) ;;
    if negb (magic =? BCMP_HEADER_MAGIC) then Raise (InvalidMagicByte magic)
    else
      let offset := header_size in
      topic_len <- unpack_uint 2 (slice data offset (offset + 2)) ;;
      let offset := (offset + 2)%nat in
      topic <- BristlemouthTopic.from_bytes (slice data offset (offset + Z.to_nat topic_len)) ;;
      let offset := (offset + Z.to_nat topic_len)%nat in
      payload_len <- unpack_uint 2 (slice data offset (offset + 2)) ;;
      let offset := (offset + 2)%nat in
      let payload := slice data offset (offset + Z.to_nat payload_len) in
      let offset := (offset + Z.to_nat payload_len)%nat in
      let received_checksum := slice data offset (offset + 4) in
      message_type <- MessageType.of_int msg_type ;;
      ms <- float_of_int timestamp_ms ;;
      msg <- init now topic payload message_type version seq_num
                  (Some (fdiv ms (float_lit 1000))) (Some source_id) ;;
      Ok (msg, received_checksum).

End BristlemouthMessage.

(** ** The scalar value codec of protocol.py

    [float(v)], [int(v)] and [str(v)] are Python's own conversions. On
    numbers and booleans they are written out; the reading of a number from a
    text and the printing of a value other than a [str] are the builtins',
    taken here as they are. *)
Section ScalarCodec.
Variable float_of_text : PyValue -> result float.
Variable int_of_text : PyValue -> result Z.
Variable str_of : PyValue -> pystr.

Definition py_float (v : PyValue) : result float :=
  match v with
  | PyFloat f => Ok f
  | PyInt z => float_of_int z
  | PyBool b => Ok (float_lit (if b then 1 else 0))
  | PyStr _ | PyBytes _ => float_of_text v
  | PyNone => Raise ConversionError
  end.

Definition py_int (v : PyValue) : result Z :=
  match v with
  | PyFloat f => int_of_float f
  | PyInt z => Ok z
  | PyBool b => Ok (if b then 1 else 0)
  | PyStr _ | PyBytes _ => int_of_text v
  | PyNone => Raise ConversionError
  end.

Definition py_str (v : PyValue) : pystr :=
  match v with
  | PyStr s => s
  | _ => str_of v
  end.

Definition py_bool (v : PyValue) : bool :=
  match v with
  | PyFloat f => float_truthy f
  | PyInt z => negb (z =? 0)
  | PyBool b => b
  | PyStr [] | PyBytes [] | PyNone => false
  | PyStr _ | PyBytes _ => true
  end.

Definition encode_sensor_value (value : PyValue) (data_type : Z) : result (list byte) :=
  if data_type =? DataType.FLOAT32 then f <- py_float value ;; pack_f f
  else if data_type =? DataType.FLOAT64 then f <- py_float value ;; Ok (pack_d f)
  else if data_type =? DataType.INT8 then z <- py_int value ;; pack_sint 1 z
  else if data_type =? DataType.INT16 then z <- py_int value ;; pack_sint 2 z
  else if data_type =? DataType.INT32 then z <- py_int value ;; pack_sint 4 z
  else if data_type =? DataType.INT64 then z <- py_int value ;; pack_sint 8 z
  else if data_type =? DataType.UINT8 then z <- py_int value ;; pack_uint 1 z
  else if data_type =? DataType.UINT16 then z <- py_int value ;; pack_uint 2 z
  else if data_type =? DataType.UINT32 then z <- py_int value ;; pack_uint 4 z
  else if data_type =? DataType.UINT64 then z <- py_int value ;; pack_uint 8 z
  else if data_type =? DataType.STRING then
    encoded <- utf8_encode (py_str value) ;;
    l <- pack_uint 2 (len encoded) ;;
    Ok (l ++ encoded)
  else if data_type =? DataType.BYTES then
    match value with
    | PyBytes b => l <- pack_uint 2 (len b) ;; Ok (l ++ b)
    | _ => Raise ValueMustBeBytes
    end
  else if data_type =? DataType.BOOL then Ok (pack_bool (py_bool value))
  else Raise (UnknownDataType data_type).

Definition decode_sensor_value (data : list byte) (data_type : Z) : result (PyValue * Z) :=
  if data_type =? DataType.FLOAT32 then f <- unpack_f (slice data 0 4) ;; Ok (PyFloat f, 4)
  else if data_type =? DataType.FLOAT64 then f <- unpack_d (slice data 0 8) ;; Ok (PyFloat f, 8)
  else if data_type =? DataType.INT8 then z <- unpack_sint 1 (slice data 0 1) ;; Ok (PyInt z, 1)
  else if data_type =? DataType.INT16 then z <- unpack_sint 2 (slice data 0 2) ;; Ok (PyInt z, 2)
  else if data_type =? DataType.INT32 then z <- unpack_sint 4 (slice data 0 4) ;; Ok (PyInt z, 4)
  else if data_type =? DataType.INT64 then z <- unpack_sint 8 (slice data 0 8) ;; Ok (PyInt z, 8)
  else if data_type =? DataType.UINT8 then z <- unpack_uint 1 (slice data 0 1) ;; Ok (PyInt z, 1)
  else if data_type =? DataType.UINT16 then z <- unpack_uint 2 (slice data 0 2) ;; Ok (PyInt z, 2)
  else if data_type =? DataType.UINT32 then z <- unpack_uint 4 (slice data 0 4) ;; Ok (PyInt z, 4)
  else if data_type =? DataType.UINT64 then z <- unpack_uint 8 (slice data 0 8) ;; Ok (PyInt z, 8)
  else if data_type =? DataType.STRING then
    length <- unpack_uint 2 (slice data 0 2) ;;
    s <- utf8_decode (slice data 2 (2 + Z.to_nat length)) ;;
    Ok (PyStr s, 2 + length)
  else if data_type =? DataType.BYTES then
    length <- unpack_uint 2 (slice data 0 2) ;;
    Ok (PyBytes (slice data 2 (2 + Z.to_nat length)), 2 + length)
  else if data_type =? DataType.BOOL then b <- unpack_bool (slice data 0 1) ;; Ok (PyBool b, 1)
  else Raise (UnknownDataType data_type).
End ScalarCodec.

(** ** sensors.py *)

Module SensorUnit.
Inductive t :=
| CELSIUS | FAHRENHEIT | KELVIN | DECIBAR | PASCAL | BAR | PSU | PPT
| METERS_PER_SECOND | CENTIMETERS_PER_SECOND | NTU | FNU | METERS | DEGREES
| HERTZ | MILLIGRAMS_PER_LITER | PERCENT.
End SensorUnit.

(** [isinstance(value, (int, float))]. *)
Definition is_numeric (v : PyValue) : bool :=
  match v with
  | PyFloat _ | PyInt _ | PyBool _ => true
  | _ => false
  end.

(** [value ? bound] for a numeric value and a float bound; [None] when the
    two are unordered (a NaN on either side). *)
Definition num_compare (v : PyValue) (bound : float) : option comparison :=
  match v with
  | PyFloat f => SFcompare f bound
  | PyInt z => int_float_compare z bound
  | PyBool b => int_float_compare (if b then 1 else 0) bound
  | _ => None
  end.

Definition num_lt (v : PyValue) (bound : float) : bool :=
  match num_compare v bound with Some Lt => true | _ => false end.

Definition num_gt (v : PyValue) (bound : float) : bool :=
  match num_compare v bound with Some Gt => true | _ => false end.

(** The argument of format ['d']: a float, or an integer converted to one;
    anything [struct] cannot turn into a double is a [struct.error]. *)
Definition as_double (v : PyValue) : result float :=
  match v with
  | PyFloat f => Ok f
  | PyInt z =>
      match float_of_int z with Ok f => Ok f | Raise _ => Raise StructError end
  | PyBool b => Ok (float_lit (if b then 1 else 0))
  | _ => Raise StructError
  end.

Module SensorReading.
Record t := mk {
  value : PyValue;
  unit : SensorUnit.t;
  timestamp : float;
  quality : Z;
  sensor_id : option pystr;
  depth_m : option float
}.

(** The constructor with its [__post_init__]. *)
Definition init (now : float) (value : PyValue) (unit : SensorUnit.t)
    (timestamp : option float) (quality : Z) (sensor_id : option pystr)
    (depth_m : option float) : result t :=
  let timestamp := match timestamp with None => now | Some ts => ts end in
  if negb ((0 <=? quality) && (quality <=? 100)) then Raise QualityOutOfRange
  else Ok (mk value unit timestamp quality sensor_id depth_m).

Definition to_bytes (self : t) : result (list byte) :=
  let depth := match depth_m self with Some d => d | None => fopp (float_lit 1) end in
  ms <- BristlemouthMessage.timestamp_ms (timestamp self) ;;
  v <- as_double (value self) ;;
  t <- pack_uint 8 ms ;;
  q <- pack_uint 1 (quality self) ;;
  d <- pack_f depth ;;
  Ok (pack_d v ++ t ++ q ++ d).

Definition from_bytes (now : float) (data : list byte) (unit : SensorUnit.t) : result t :=
  let buf := slice data 0 21 in
  if negb (Nat.eqb (length buf) 21) then Raise StructError
  else
    value <- unpack_d (slice buf 0 8) ;;
    let timestamp_ms := be_value (slice buf 8 16) in
    let quality := be_value (slice buf 16 17) in
    depth <- unpack_f (slice buf 17 21) ;;
    ms <- float_of_int timestamp_ms ;;
    init now (PyFloat value) unit (Some (fdiv ms (float_lit 1000))) quality None
         (if fle (float_lit 0) depth then Some depth else None).
End SensorReading.

(** [BaseSensor] and its five subclasses. What the subclasses add to the
    state ([_direction_readings] of the current meter) is a field of the one
    record; [kind] selects the validator's wording. *)
Module Sensor.
Record t := mk {
  kind : SensorKind;
  sensor_id : pystr;
  topic : BristlemouthTopic.t;
  default_unit : SensorUnit.t;
  min_value : float;
  max_value : float;
  _sequence_number : Z;
  _readings : list SensorReading.t;
  _direction_readings : list (PyValue * float)
}.

Definition TemperatureSensor (sensor_id : pystr) (min_temp_c max_temp_c : float) : t :=
  mk Temperature sensor_id SpotterTopics.TEMPERATURE SensorUnit.CELSIUS
     min_temp_c max_temp_c 0 [] [].

Definition PressureSensor (sensor_id : pystr) (min_pressure_dbar max_pressure_dbar : float) : t :=
  mk Pressure sensor_id SpotterTopics.PRESSURE SensorUnit.DECIBAR
     min_pressure_dbar max_pressure_dbar 0 [] [].

Definition SalinitySensor (sensor_id : pystr) (min_salinity_psu max_salinity_psu : float) : t :=
  mk Salinity sensor_id SpotterTopics.SALINITY SensorUnit.PSU
     min_salinity_psu max_salinity_psu 0 [] [].

Definition CurrentMeterSensor (sensor_id : pystr) (max_speed_ms : float) : t :=
  mk CurrentMeter sensor_id SpotterTopics.CURRENT SensorUnit.METERS_PER_SECOND
     (float_lit 0) max_speed_ms 0 [] [].

Definition TurbiditySensor (sensor_id : pystr) (min_turbidity_ntu max_turbidity_ntu : float) : t :=
  mk Turbidity sensor_id SpotterTopics.TURBIDITY SensorUnit.NTU
     min_turbidity_ntu max_turbidity_ntu 0 [] [].

(** The five [validate_reading] methods differ in their wording only. *)
Definition validate_reading (self : t) (value : PyValue) : bool * ValidationMessage :=
  if negb (is_numeric value) then (false, MustBeNumeric (kind self))
  else if num_lt value (min_value self) then
    (false, BelowMinimum (kind self) value (min_value self))
  else if num_gt value (max_value self) then
    (false, AboveMaximum (kind self) value (max_value self))
  else (true, Valid).

Definition set_readings (self : t) (rs : list SensorReading.t) : t :=
  mk (kind self) (sensor_id self) (topic self) (default_unit self) (min_value self)
     (max_value self) (_sequence_number self) rs (_direction_readings self).

Definition set_sequence_number (self : t) (n : Z) : t :=
  mk (kind self) (sensor_id self) (topic self) (default_unit self) (min_value self)
     (max_value self) n (_readings self) (_direction_readings self).

Definition set_direction_readings (self : t) (ds : list (PyValue * float)) : t :=
  mk (kind self) (sensor_id self) (topic self) (default_unit self) (min_value self)
     (max_value self) (_sequence_number self) (_readings self) ds.

Definition create_reading (now : float) (self : t) (value : PyValue)
    (unit : option SensorUnit.t) (timestamp : option float) (quality : Z)
    (depth_m : option float) : result SensorReading.t * t :=
  let '(is_valid, msg) := validate_reading self value in
  if negb is_valid then (Raise (InvalidReading msg), self)
  else
    let unit := match unit with Some u => u | None => default_unit self end in
    let timestamp :=
      match timestamp with
      | Some ts => if float_truthy ts then ts else now
      | None => now
      end in
    match SensorReading.init now value unit (Some timestamp) quality
                             (Some (sensor_id self)) depth_m with
    | Raise e => (Raise e, self)
    | Ok reading => (Ok reading, set_readings self (_readings self ++ [reading]))
    end.

Definition wrap_reading (now : float) (self : t) (reading : SensorReading.t)
    : result BristlemouthMessage.t * t :=
  match SensorReading.to_bytes reading with
  | Raise e => (Raise e, self)
  | Ok payload =>
      let self := set_sequence_number self (_sequence_number self + 1) in
      (BristlemouthMessage.init now (topic self) payload MessageType.SENSOR_DATA
         BCMP_PROTOCOL_VERSION (_sequence_number self)
         (Some (SensorReading.timestamp reading)) None,
       self)
  end.

Definition create_and_wrap (now : float) (self : t) (value : PyValue)
    (unit : option SensorUnit.t) (timestamp : option float) (quality : Z)
    (depth_m : option float) : result BristlemouthMessage.t * t :=
  match create_reading now self value unit timestamp quality depth_m with
  | (Raise e, self) => (Raise e, self)
  | (Ok reading, self) => wrap_reading now self reading
  end.

Definition get_readings (self : t) : list SensorReading.t := _readings self.

Definition clear_readings (self : t) : t := set_readings self [].

(** [CurrentMeterSensor.create_current_reading]. *)
Definition create_current_reading (now : float) (self : t) (speed_ms : PyValue)
    (direction_deg : float) (timestamp : option float) (quality : Z)
    (depth_m : option float) : result (SensorReading.t * float) * t :=
  if negb (fle (float_lit 0) direction_deg && fle direction_deg (float_lit 360)) then
    (Raise DirectionOutOfRange, self)
  else
    match create_reading now self speed_ms None timestamp quality depth_m with
    | (Raise e, self) => (Raise e, self)
    | (Ok reading, self) =>
        (Ok (reading, direction_deg),
         set_direction_readings self
           (_direction_readings self ++ [(speed_ms, direction_deg)]))
    end.

(** [CurrentMeterSensor.wrap_current_reading]. *)
Definition wrap_current_reading (now : float) (self : t) (reading : SensorReading.t)
    (direction_deg : float) : result BristlemouthMessage.t * t :=
  match (r <- SensorReading.to_bytes reading ;;
         d <- pack_f direction_deg ;;
         Ok (r ++ d)) with
  | Raise e => (Raise e, self)
  | Ok payload =>
      let self := set_sequence_number self (_sequence_number self + 1) in
      (BristlemouthMessage.init now (topic self) payload MessageType.SENSOR_DATA
         BCMP_PROTOCOL_VERSION (_sequence_number self)
         (Some (SensorReading.timestamp reading)) None,
       self)
  end.

(** [TurbiditySensor.classify_turbidity]. *)
Definition classify_turbidity (value : float) : string :=
  if flt value (float_lit 1) then "Excellent"
  else if flt value (float_lit 5) then "Good"
  else if flt value (float_lit 50) then "Fair"
  else if flt value (float_lit 500) then "Poor"
  else "Very Poor".
End Sensor.

(** ** collections.deque with a maximum length *)

Module deque.
Record t (A : Type) := mk {
  items : list A;
  maxlen : Z
}.
Arguments mk {A} items maxlen.
Arguments items {A} _.
Arguments maxlen {A} _.

(** [deque(maxlen=n)]. *)
Definition new {A} (n : Z) : result (t A) :=
  if n <? 0 then Raise MaxlenNegative else Ok (mk [] n).

(** [append]: the item goes to the right end; a deque grown beyond its
    maximum length then drops one item from the left end. *)
Definition append {A} (q : t A) (x : A) : t A :=
  let items' := items q ++ [x] in
  if maxlen q <? len items' then mk (tl items') (maxlen q) else mk items' (maxlen q).

Definition popleft {A} (q : t A) : result (A * t A) :=
  match items q with
  | [] => Raise IndexError
  | x :: rest => Ok (x, mk rest (maxlen q))
  end.

Definition clear {A} (q : t A) : t A := mk [] (maxlen q).
End deque.

(** ** spotter.py *)

Module TransmissionMode.
Inductive t := SATELLITE | CELLULAR | HYBRID | LOCAL.

Definition value (m : t) : string :=
  match m with
  | SATELLITE => "satellite" | CELLULAR => "cellular"
  | HYBRID => "hybrid" | LOCAL => "local"
  end.
End TransmissionMode.

Module ConnectionState.
Inductive t := DISCONNECTED | CONNECTING | CONNECTED | ERROR.

Definition value (s : t) : string :=
  match s with
  | DISCONNECTED => "disconnected" | CONNECTING => "connecting"
  | CONNECTED => "connected" | ERROR => "error"
  end.

Definition eqb (a b : t) : bool :=
  match a, b with
  | DISCONNECTED, DISCONNECTED | CONNECTING, CONNECTING
  | CONNECTED, CONNECTED | ERROR, ERROR => true
  | _, _ => false
  end.
End ConnectionState.

Module SpotterConfig.
Record t := mk {
  device_id : pystr;
  transmission_mode : TransmissionMode.t;
  sample_interval_seconds : Z;
  transmit_interval_seconds : Z;
  max_queue_size : Z;
  enable_compression : bool;
  api_endpoint : pystr
}.

(** The defaults of the dataclass. *)
Definition default (device_id : pystr) : t :=
  mk device_id TransmissionMode.HYBRID 60 3600 1000 true
     (lit "https://api.sofarocean.com/api").
End SpotterConfig.

Module TransmissionResult.
Record t := mk {
  success : bool;
  message_count : Z;
  bytes_transmitted : Z;
  timestamp : float;
  error_message : option pystr;
  transmission_mode : option TransmissionMode.t
}.
End TransmissionResult.

(** The dictionary [create_status_message] serialises. *)
Module Status.
Record t := mk {
  device_id : pystr;
  state : string;
  queue_size : Z;
  registered_sensors : list pystr;
  transmission_mode : string;
  timestamp : float
}.
End Status.

(** A [dict] with [str] keys: insertion-ordered, assignment to a present key
    keeps its place. *)
Fixpoint pystr_eqb (a b : pystr) : bool :=
  match a, b with
  | [], [] => true
  | x :: a', y :: b' => (x =? y) && pystr_eqb a' b'
  | _, _ => false
  end.

Fixpoint dict_set {V} (d : list (pystr * V)) (k : pystr) (v : V) : list (pystr * V) :=
  match d with
  | [] => [(k, v)]
  | (k', v') :: rest =>
      if pystr_eqb k' k then (k', v) :: rest else (k', v') :: dict_set rest k v
  end.

Fixpoint dict_get {V} (d : list (pystr * V)) (k : pystr) : option V :=
  match d with
  | [] => None
  | (k', v') :: rest => if pystr_eqb k' k then Some v' else dict_get rest k
  end.

Fixpoint dict_del {V} (d : list (pystr * V)) (k : pystr) : list (pystr * V) :=
  match d with
  | [] => []
  | (k', v') :: rest => if pystr_eqb k' k then rest else (k', v') :: dict_del rest k
  end.

(** [l[start:]] for any integer [start]. *)
Definition slice_from {A} (l : list A) (start : Z) : list A :=
  if start <? 0 then skipn (Z.to_nat (Z.max (len l + start) 0)) l
  else skipn (Z.to_nat start) l.

(** The bytes a list of messages takes on the wire, when each of them
    encodes. *)
Fixpoint encoded_size (ms : list BristlemouthMessage.t) : result Z :=
  match ms with
  | [] => Ok 0
  | m :: rest =>
      bs <- BristlemouthMessage.to_bytes m ;;
      n <- encoded_size rest ;;
      Ok (len bs + n)
  end.

Module SpotterBuoyClient.
Section Client.
(** What the listeners act on: the world outside the client. *)
Variable W : Type.

(** [json.dumps] of the status dictionary. *)
Variable json_dumps : Status.t -> pystr.

(** One call of a listener: the world it leaves behind and, when the call
    raised instead of returning, the exception. *)
Definition listener_call := W -> W * option PyError.

Definition transmit_listener := TransmissionResult.t -> listener_call.
Definition error_listener := PyError -> listener_call.
Definition state_listener := ConnectionState.t -> ConnectionState.t -> listener_call.

(** [for callback in callbacks: callback(...)]: the calls are made in the
    order of the list; the first that raises ends the loop, its exception
    being the loop's, and the callbacks after it are not called. *)
Fixpoint for_each (A : Type) (call : A -> listener_call) (callbacks : list A) (w : W)
    : W * option PyError :=
  match callbacks with
  | [] => (w, None)
  | callback :: rest =>
      match call callback w with
      | (w, None) => for_each call rest w
      | (w, Some e) => (w, Some e)
      end
  end.

(** A sensor object is held by reference: the registry stores where the
    sensor lives, not a copy of it. *)
Definition sensor_ref := nat.

Record t := mk {
  config : SpotterConfig.t;
  device_id : pystr;
  _sensors : list (pystr * sensor_ref);
  _message_queue : deque.t BristlemouthMessage.t;
  _transmission_history : list TransmissionResult.t;
  _state : ConnectionState.t;
  _sequence_number : Z;
  on_transmit_callbacks : list transmit_listener;
  on_error_callbacks : list error_listener;
  on_state_change_callbacks : list state_listener
}.

Definition init (device_id : pystr) (config : option SpotterConfig.t) : result t :=
  let config := match config with Some c => c | None => SpotterConfig.default device_id end in
  q <- deque.new (SpotterConfig.max_queue_size config) ;;
  Ok (mk config device_id [] q [] ConnectionState.DISCONNECTED 0 [] [] []).

Definition set_sensors (self : t) (s : list (pystr * sensor_ref)) : t :=
  mk (config self) (device_id self) s (_message_queue self) (_transmission_history self)
     (_state self) (_sequence_number self) (on_transmit_callbacks self)
     (on_error_callbacks self) (on_state_change_callbacks self).

Definition set_message_queue (self : t) (q : deque.t BristlemouthMessage.t) : t :=
  mk (config self) (device_id self) (_sensors self) q (_transmission_history self)
     (_state self) (_sequence_number self) (on_transmit_callbacks self)
     (on_error_callbacks self) (on_state_change_callbacks self).

Definition set_transmission_history (self : t) (h : list TransmissionResult.t) : t :=
  mk (config self) (device_id self) (_sensors self) (_message_queue self) h
     (_state self) (_sequence_number self) (on_transmit_callbacks self)
     (on_error_callbacks self) (on_state_change_callbacks self).

Definition set__state (self : t) (s : ConnectionState.t) : t :=
  mk (config self) (device_id self) (_sensors self) (_message_queue self)
     (_transmission_history self) s (_sequence_number self) (on_transmit_callbacks self)
     (on_error_callbacks self) (on_state_change_callbacks self).

Definition set_sequence_number (self : t) (n : Z) : t :=
  mk (config self) (device_id self) (_sensors self) (_message_queue self)
     (_transmission_history self) (_state self) n (on_transmit_callbacks self)
     (on_error_callbacks self) (on_state_change_callbacks self).

(** The [state] property: its getter and its setter. *)
Definition state (self : t) : ConnectionState.t := _state self.

(** The world after the calls of [callbacks], made in the order of the
    list, each of which has returned. *)
Definition after_calls (A : Type) (call : A -> listener_call) (callbacks : list A) (w : W)
    : W :=
  fold_left (fun w callback => fst (call callback w)) callbacks w.

(** The new state is stored before the listeners are called: it stays
    stored when one of them raises. *)
Definition set_state (self : t) (new_state : ConnectionState.t) (w : W)
    : result unit * t * W :=
  let old_state := _state self in
  let self := set__state self new_state in
  if negb (ConnectionState.eqb old_state new_state) then
    match for_each (fun callback => callback old_state new_state)
                   (on_state_change_callbacks self) w with
    | (w, None) => (Ok tt, self, w)
    | (w, Some e) => (Raise e, self, w)
    end
  else (Ok tt, self, w).

Definition register_sensor (self : t) (sensor : Sensor.t) (ref : sensor_ref) : t :=
  set_sensors self (dict_set (_sensors self) (Sensor.sensor_id sensor) ref).

Definition unregister_sensor (self : t) (sensor_id : pystr) : bool * t :=
  match dict_get (_sensors self) sensor_id with
  | Some _ => (true, set_sensors self (dict_del (_sensors self) sensor_id))
  | None => (false, self)
  end.

Definition get_sensor (self : t) (sensor_id : pystr) : option sensor_ref :=
  dict_get (_sensors self) sensor_id.

Definition list_sensors (self : t) : list pystr := map fst (_sensors self).

(** The sensor is the caller's object: its new state is returned next to
    the client's. *)
Definition queue_reading (now : float) (self : t) (sensor : Sensor.t)
    (reading : SensorReading.t) : result BristlemouthMessage.t * t * Sensor.t :=
  match Sensor.wrap_reading now sensor reading with
  | (Raise e, sensor) => (Raise e, self, sensor)
  | (Ok message, sensor) =>
      (Ok message, set_message_queue self (deque.append (_message_queue self) message),
       sensor)
  end.

Definition queue_message (self : t) (message : BristlemouthMessage.t) : t :=
  set_message_queue self (deque.append (_message_queue self) message).

Definition queue_raw_data (now : float) (self : t) (topic : BristlemouthTopic.t)
    (data : list byte) (message_type : MessageType.t)
    : result BristlemouthMessage.t * t :=
  let self := set_sequence_number self (_sequence_number self + 1) in
  match BristlemouthMessage.init now topic data message_type BCMP_PROTOCOL_VERSION
          (_sequence_number self) None None with
  | Raise e => (Raise e, self)
  | Ok message =>
      (Ok message, set_message_queue self (deque.append (_message_queue self) message))
  end.

Definition get_queue_size (self : t) : Z := len (deque.items (_message_queue self)).

Definition clear_queue (self : t) : Z * t :=
  (len (deque.items (_message_queue self)),
   set_message_queue self (deque.clear (_message_queue self))).

(** [list(queue)[:count]]; a negative [count] counts from the end. *)
Definition peek_queue (self : t) (count : Z) : list BristlemouthMessage.t :=
  let l := deque.items (_message_queue self) in
  if count <? 0 then firstn (Z.to_nat (Z.max (len l + count) 0)) l
  else firstn (Z.to_nat count) l.

(** The loop of [transmit]: [n] rounds, each taking the head of the queue
    if there is one. An exception leaves the queue as it was when raised. *)
Fixpoint transmit_loop (n : nat) (q : deque.t BristlemouthMessage.t)
    (transmitted_messages : list BristlemouthMessage.t) (total_bytes : Z)
    : result (list BristlemouthMessage.t * Z) * deque.t BristlemouthMessage.t :=
  match n with
  | O => (Ok (transmitted_messages, total_bytes), q)
  | S n' =>
      match deque.items q with
      | [] => transmit_loop n' q transmitted_messages total_bytes
      | msg :: rest =>
          let q := deque.mk rest (deque.maxlen q) in
          match BristlemouthMessage.to_bytes msg with
          | Raise e => (Raise e, q)
          | Ok bs =>
              transmit_loop n' q (transmitted_messages ++ [msg]) (total_bytes + len bs)
          end
      end
  end.

Definition transmit (now : float) (self : t) (mode : option TransmissionMode.t)
    (max_messages : option Z) (w : W) : result TransmissionResult.t * t * W :=
  let mode :=
    match mode with
    | Some m => m
    | None => SpotterConfig.transmission_mode (config self)
    end in
  match deque.items (_message_queue self) with
  | [] => (Ok (TransmissionResult.mk true 0 0 now None (Some mode)), self, w)
  | _ =>
      let queue_len := len (deque.items (_message_queue self)) in
      let messages_to_send :=
        match max_messages with
        | None | Some 0 => queue_len
        | Some k => k
        end in
      let messages_to_send := Z.min messages_to_send queue_len in
      match transmit_loop (Z.to_nat messages_to_send) (_message_queue self) [] 0 with
      | (Raise e, q) => (Raise e, set_message_queue self q, w)
      | (Ok (transmitted_messages, total_bytes), q) =>
          let result :=
            TransmissionResult.mk true (len transmitted_messages) total_bytes now
                                  None (Some mode) in
          let self := set_message_queue self q in
          let self :=
            set_transmission_history self (_transmission_history self ++ [result]) in
          match for_each (fun callback => callback result)
                         (on_transmit_callbacks self) w with
          | (w, None) => (Ok result, self, w)
          | (w, Some e) => (Raise e, self, w)
          end
      end
  end.

Definition get_transmission_history (self : t) (limit : option Z)
    : list TransmissionResult.t :=
  match limit with
  | None | Some 0 => _transmission_history self
  | Some limit => slice_from (_transmission_history self) (- limit)
  end.

(** The clock is read twice: for the status, then by the message's
    constructor. *)
Definition create_status_message (now now' : float) (self : t)
    : result BristlemouthMessage.t * t :=
  let status :=
    Status.mk (device_id self) (ConnectionState.value (_state self))
              (len (deque.items (_message_queue self))) (map fst (_sensors self))
              (TransmissionMode.value (SpotterConfig.transmission_mode (config self)))
              now in
  match utf8_encode (json_dumps status) with
  | Raise e => (Raise e, self)
  | Ok payload =>
      let self := set_sequence_number self (_sequence_number self + 1) in
      (BristlemouthMessage.init now' SpotterTopics.STATUS payload MessageType.SENSOR_DATA
         BCMP_PROTOCOL_VERSION (_sequence_number self) None None,
       self)
  end.

Definition on_transmit (self : t) (callback : transmit_listener) : t :=
  mk (config self) (device_id self) (_sensors self) (_message_queue self)
     (_transmission_history self) (_state self) (_sequence_number self)
     (on_transmit_callbacks self ++ [callback])
     (on_error_callbacks self) (on_state_change_callbacks self).

Definition on_error (self : t) (callback : error_listener) : t :=
  mk (config self) (device_id self) (_sensors self) (_message_queue self)
     (_transmission_history self) (_state self) (_sequence_number self)
     (on_transmit_callbacks self)
     (on_error_callbacks self ++ [callback]) (on_state_change_callbacks self).

Definition on_state_change (self : t) (callback : state_listener) : t :=
  mk (config self) (device_id self) (_sensors self) (_message_queue self)
     (_transmission_history self) (_state self) (_sequence_number self)
     (on_transmit_callbacks self)
     (on_error_callbacks self) (on_state_change_callbacks self ++ [callback]).

(** The public interface as data: one constructor per method (the [state]
    property has two), and what a call leaves behind, whether it returned
    or raised. The caller's sensor object is not part of what is kept. *)
Inductive call :=
| Get_state
| Set_state (new_state : ConnectionState.t)
| Register_sensor (sensor : Sensor.t) (ref : sensor_ref)
| Unregister_sensor (sensor_id : pystr)
| Get_sensor (sensor_id : pystr)
| List_sensors
| Queue_reading (now : float) (sensor : Sensor.t) (reading : SensorReading.t)
| Queue_message (message : BristlemouthMessage.t)
| Queue_raw_data (now : float) (topic : BristlemouthTopic.t) (data : list byte)
                 (message_type : MessageType.t)
| Get_queue_size
| Clear_queue
| Peek_queue (count : Z)
| Transmit (now : float) (mode : option TransmissionMode.t) (max_messages : option Z)
| Get_transmission_history (limit : option Z)
| Create_status_message (now now' : float)
| On_transmit (callback : transmit_listener)
| On_error (callback : error_listener)
| On_state_change (callback : state_listener).

Definition run (k : call) (self : t) (w : W) : t * W :=
  match k with
  | Get_state | Get_sensor _ | List_sensors | Get_queue_size | Peek_queue _
  | Get_transmission_history _ => (self, w)
  | Set_state new_state => let '(_, self, w) := set_state self new_state w in (self, w)
  | Register_sensor sensor ref => (register_sensor self sensor ref, w)
  | Unregister_sensor sensor_id => (snd (unregister_sensor self sensor_id), w)
  | Queue_reading now sensor reading => (snd (fst (queue_reading now self sensor reading)), w)
  | Queue_message message => (queue_message self message, w)
  | Queue_raw_data now topic data message_type =>
      (snd (queue_raw_data now self topic data message_type), w)
  | Clear_queue => (snd (clear_queue self), w)
  | Transmit now mode max_messages =>
      let '(_, self, w) := transmit now self mode max_messages w in (self, w)
  | Create_status_message now now' => (snd (create_status_message now now' self), w)
  | On_transmit callback => (on_transmit self callback, w)
  | On_error callback => (on_error self callback, w)
  | On_state_change callback => (on_state_change self callback, w)
  end.

Definition run_all (ks : list call) (self : t) (w : W) : t * W :=
  fold_left (fun cw k => run k (fst cw) (snd cw)) ks (self, w).



End Client.
End SpotterBuoyClient.

(** [create_spotter_client]. *)
Definition create_spotter_client (W : Type) (device_id : pystr)
    (transmission_mode : TransmissionMode.t) (sample_interval : Z)
    : result (SpotterBuoyClient.t W) :=
  let d := SpotterConfig.default device_id in
  SpotterBuoyClient.init W device_id
    (Some (SpotterConfig.mk device_id transmission_mode sample_interval
             (SpotterConfig.transmit_interval_seconds d) (SpotterConfig.max_queue_size d)
             (SpotterConfig.enable_compression d) (SpotterConfig.api_endpoint d))).

(** ** Vocabulary of the properties *)

(** *** Errors and messages *)

(** The three kinds of failure the specification tells apart among the
    [ValueError]s of the source, by message. *)
Inductive ErrorKind := FormatError | IntegrityError | ValidationError.

Definition error_kind (e : PyError) : option ErrorKind :=
  match e with
  | TopicNameEmpty | TopicNameTooLong | PayloadTooLarge _ | MessageTooShort
  | InvalidMagicByte _ | UnknownDataType _ => Some FormatError
  | ChecksumMismatch => Some IntegrityError
  | QualityOutOfRange | InvalidReading _ | DirectionOutOfRange => Some ValidationError
  | _ => None
  end.

(** The byte [b] with its bit [j] flipped. *)
Definition flip_bit (b : byte) (j : Z) : byte :=
  byte_of_Z (Z.lxor (Z_of_byte b) (2 ^ j)).

(** [data] with bit [j] of the byte at index [i] flipped. *)
Definition flip_bit_at (data : list byte) (i : nat) (j : Z) : list byte :=
  firstn i data
  ++ match skipn i data with
     | [] => []
     | b :: rest => flip_bit b j :: rest
     end.

(** [data] with its first byte replaced. *)
Definition set_first (data : list byte) (b : byte) : list byte :=
  match data with
  | [] => []
  | _ :: rest => b :: rest
  end.

(** The six bytes [_pack_without_checksum] takes the source node id from,
    and the header it builds around a millisecond count. *)
Definition source_id_of (m : BristlemouthMessage.t) : list byte :=
  match BristlemouthMessage.source_node_id m with
  | None | Some [] => repeat x00 6
  | Some id => id
  end.

Definition header_of (m : BristlemouthMessage.t) (ms : Z) : list byte :=
  be_bytes 1 BCMP_HEADER_MAGIC ++ be_bytes 1 (BristlemouthMessage.version m)
  ++ be_bytes 2 (MessageType.value (BristlemouthMessage.message_type m))
  ++ be_bytes 4 (BristlemouthMessage.sequence_number m)
  ++ be_bytes 8 ms ++ pack_s 6 (source_id_of m).

(** The three errors [from_bytes] raises in its own name. *)
Definition framing (e : PyError) : bool :=
  match e with
  | MessageTooShort | InvalidMagicByte _ | ChecksumMismatch => true
  | _ => false
  end.

(** *** Floats *)

(** The bits a right shift by [n] places has dropped, [rem] out of [2 ^ n],
    as the round bit and the sticky bit record them. *)
Definition dropped (n rem : Z) (r s : bool) : Prop :=
  match r, s with
  | false, false => rem = 0
  | false, true => 0 < 2 * rem < 2 ^ n
  | true, false => 2 * rem = 2 ^ n
  | true, true => 2 ^ n < 2 * rem < 2 * 2 ^ n
  end.

(** A float counted in units of [2 ^ -1074], the smallest positive float:
    an integer for every valid float. *)
Definition units (f : float) : Z :=
  match f with
  | S754_finite s m e => (if s then -1 else 1) * (Zpos m * 2 ^ (e + 1074))
  | _ => 0
  end.

(** Zero or a finite number: neither an infinity nor a NaN. *)
Definition is_number (f : float) : bool :=
  match f with
  | S754_zero _ | S754_finite _ _ _ => true
  | _ => false
  end.

(** [x] is [y] within the relative tolerance [1 / den]:
    [|x - y| <= |y| / den]. *)
Definition within (den : Z) (x y : float) : bool :=
  is_number x && is_number y
  && (den * Z.abs (units x - units y) <=? Z.abs (units y)).

(** *** Scalar values *)

(** The integers a kind holds: [lo <= z < hi]. *)
Definition int_bounds (data_type : Z) : option (Z * Z) :=
  if data_type =? DataType.INT8 then Some (- 2 ^ 7, 2 ^ 7)
  else if data_type =? DataType.INT16 then Some (- 2 ^ 15, 2 ^ 15)
  else if data_type =? DataType.INT32 then Some (- 2 ^ 31, 2 ^ 31)
  else if data_type =? DataType.INT64 then Some (- 2 ^ 63, 2 ^ 63)
  else if data_type =? DataType.UINT8 then Some (0, 2 ^ 8)
  else if data_type =? DataType.UINT16 then Some (0, 2 ^ 16)
  else if data_type =? DataType.UINT32 then Some (0, 2 ^ 32)
  else if data_type =? DataType.UINT64 then Some (0, 2 ^ 64)
  else None.

(** The width of a kind whose encodings all have the same length. *)
Definition fixed_width (data_type : Z) : option Z :=
  if (data_type =? DataType.INT8) || (data_type =? DataType.UINT8)
     || (data_type =? DataType.BOOL) then Some 1
  else if (data_type =? DataType.INT16) || (data_type =? DataType.UINT16) then Some 2
  else if (data_type =? DataType.FLOAT32) || (data_type =? DataType.INT32)
          || (data_type =? DataType.UINT32) then Some 4
  else if (data_type =? DataType.FLOAT64) || (data_type =? DataType.INT64)
          || (data_type =? DataType.UINT64) then Some 8
  else None.

(** The values of a kind: a double for FLOAT64, a double that is a
    single-precision number for FLOAT32, an integer within the bounds of an
    integer kind, a boolean, a string or a byte block whose content has a
    length the two-byte prefix can hold. *)
Definition representable (data_type : Z) (v : PyValue) : Prop :=
  match v with
  | PyFloat f =>
      (data_type = DataType.FLOAT64 /\ valid_float f)
      \/ (data_type = DataType.FLOAT32 /\ exists r, valid_single r /\ f = of_single r)
  | PyInt z => exists lo hi, int_bounds data_type = Some (lo, hi) /\ lo <= z < hi
  | PyBool _ => data_type = DataType.BOOL
  | PyStr s =>
      data_type = DataType.STRING /\ exists bs, utf8_encode s = Ok bs /\ len bs < 2 ^ 16
  | PyBytes b => data_type = DataType.BYTES /\ len b < 2 ^ 16
  | PyNone => False
  end.

Definition content_length (v : PyValue) : Z :=
  match v with
  | PyStr s => match utf8_encode s with Ok bs => len bs | Raise _ => 0 end
  | PyBytes b => len b
  | _ => 0
  end.

Definition expected_width (data_type : Z) (v : PyValue) : Z :=
  match fixed_width data_type with
  | Some w => w
  | None => 2 + content_length v
  end.

(** *** Readings *)

(** The depth as [to_bytes] packs it. *)
Definition packed_depth (r : SensorReading.t) : float :=
  match SensorReading.depth_m r with
  | Some d => d
  | None => fopp (float_lit 1)
  end.

(** A reading as the constructor leaves it: the quality within its range,
    and floats for floats. *)
Definition well_formed (r : SensorReading.t) : Prop :=
  0 <= SensorReading.quality r <= 100
  /\ (forall x, SensorReading.value r = PyFloat x -> valid_float x)
  /\ (forall d, SensorReading.depth_m r = Some d -> valid_float d).

(** *** The queue *)


(** ** Concrete messages *)

Module MessageExamples.
Definition topic : BristlemouthTopic.t := BristlemouthTopic.mk (lit "test") 1 None.

Definition payload : list byte := map byte_of_Z (lit "hi").

(** A message stamped [ts] seconds after the epoch. *)
Definition stamped (ts : float) : BristlemouthMessage.t :=
  BristlemouthMessage.mk topic payload MessageType.SENSOR_DATA BCMP_PROTOCOL_VERSION 42
                         ts None.

(** 1234567890.0, the timestamp of the test suite. *)
Definition in_2009 : BristlemouthMessage.t := stamped (float_lit 1234567890).

(** 1.0015 *)
Definition early : BristlemouthMessage.t := stamped (dec 10015 4).

(** 2173901344.0555, in November 2038. *)
Definition in_2038 : BristlemouthMessage.t := stamped (dec 21739013440555 4).

(** 33 bytes that start as a message does and announce a topic with an
    empty name. *)
Definition nameless : list byte :=
  map byte_of_Z
      [0xBC; 1; 0; 1; 0; 0; 0; 42; 0; 0; 1; 31; 113; 251; 4; 80; 0; 0; 0; 0; 0; 0;
       0; 3; 1; 0; 0; 0; 0; 0; 0; 0; 0].
End MessageExamples.

(** ** Concrete sensors *)

Module SensorExamples.
(** [TemperatureSensor()] with its defaults. *)
Definition thermometer : Sensor.t :=
  Sensor.TemperatureSensor (lit "temp_sensor_01") (fopp (float_lit 5)) (float_lit 50).

(** 22.5 *)
Definition warm : PyValue := PyFloat (dec 225 1).

Definition t0 : float := float_lit 1234567890.
End SensorExamples.

(** A reading of 22.5 degrees taken 5 m down, and one said to be taken 2 m
    above the surface. *)
Module ReadingExamples.
Definition at_depth (depth_m : float) : SensorReading.t :=
  SensorReading.mk SensorExamples.warm SensorUnit.CELSIUS SensorExamples.t0 95
                   (Some (lit "temp_sensor_01")) (Some depth_m).

Definition submerged : SensorReading.t := at_depth (float_lit 5).

Definition airborne : SensorReading.t := at_depth (fopp (float_lit 2)).

(** A depth of [- 2 ^ -160]. *)
Definition grazing : SensorReading.t :=
  at_depth (S754_finite true 4503599627370496 (-212)).
End ReadingExamples.

(** ** Concrete scalar values *)

(** The codec as a caller who hands it no text to convert sees it. *)
Module ScalarExamples.
Definition no_text {A : Type} (v : PyValue) : result A := Raise ConversionError.

Definition no_str (v : PyValue) : pystr := [].

Definition encode : PyValue -> Z -> result (list byte) :=
  encode_sensor_value no_text no_text no_str.
End ScalarExamples.

(** ** Concrete clients *)

Module Examples.
Import SpotterBuoyClient.

(** A world that records the calls made to the listeners: who was called,
    and with what. *)
Definition state_log := list (nat * ConnectionState.t * ConnectionState.t).

Definition state_recorder (i : nat) : state_listener state_log :=
  fun old_state new_state w => (w ++ [(i, old_state, new_state)], None).

(** A listener that raises. *)
Definition state_refuser : state_listener state_log :=
  fun old_state new_state w => (w, Some (OtherException "RuntimeError")).

Definition no_json : Status.t -> pystr := fun _ => [].

Definition device : pystr := lit "SPOT-1234".

(** A new client with two state-change listeners. *)
Definition watched_client : t state_log :=
  let c := mk (SpotterConfig.default device) device [] (deque.mk [] 1000) []
              ConnectionState.DISCONNECTED 0 [] [] [] in
  on_state_change (on_state_change c (state_recorder 1)) (state_recorder 2).

(** A new client with three state-change listeners, the second of which
    raises. *)
Definition guarded_client : t state_log :=
  let c := mk (SpotterConfig.default device) device [] (deque.mk [] 1000) []
              ConnectionState.DISCONNECTED 0 [] [] [] in
  on_state_change
    (on_state_change (on_state_change c (state_recorder 1)) state_refuser)
    (state_recorder 2).

Definition one_result : TransmissionResult.t :=
  TransmissionResult.mk true 1 60 (float_lit 0) None (Some TransmissionMode.HYBRID).

(** A client that has transmitted once. *)
Definition used_client : t unit :=
  mk (SpotterConfig.default device) device [] (deque.mk [] 1000) [one_result]
     ConnectionState.DISCONNECTED 0 [] [] [].
End Examples.

(** The clients of the remaining examples. *)
Module QueueExamples.
Import SpotterBuoyClient.

Definition t0 : float := float_lit 1234567890.

Definition transmit_log := list (nat * TransmissionResult.t).

Definition transmit_recorder (i : nat) : transmit_listener transmit_log :=
  fun result w => (w ++ [(i, result)], None).

(** A listener that raises. *)
Definition transmit_refuser : transmit_listener transmit_log :=
  fun result w => (w, Some (OtherException "RuntimeError")).

Definition config_with_capacity (n : Z) : SpotterConfig.t :=
  SpotterConfig.mk Examples.device TransmissionMode.HYBRID 60 3600 n true
                   (lit "https://api.sofarocean.com/api").

Definition topic : BristlemouthTopic.t := BristlemouthTopic.mk (lit "test") 1 None.

Definition message (seq : Z) : BristlemouthMessage.t :=
  BristlemouthMessage.mk topic [byte_of_Z seq] MessageType.SENSOR_DATA
                         BCMP_PROTOCOL_VERSION seq t0 None.

(** A client of capacity [n], just built, with two transmit listeners. *)
Definition fresh (n : Z) : t transmit_log :=
  let c := mk (config_with_capacity n) Examples.device [] (deque.mk [] n) []
              ConnectionState.DISCONNECTED 0 [] [] [] in
  on_transmit (on_transmit c (transmit_recorder 1)) (transmit_recorder 2).

(** The same with three messages waiting. *)
Definition loaded : t transmit_log :=
  queue_message (queue_message (queue_message (fresh 1000) (message 1)) (message 2))
                (message 3).

(** Three messages waiting and three transmit listeners, the second of
    which raises. *)
Definition guarded : t transmit_log :=
  let c := mk (config_with_capacity 1000) Examples.device []
              (deque.mk [message 1; message 2; message 3] 1000) []
              ConnectionState.DISCONNECTED 0 [] [] [] in
  on_transmit (on_transmit (on_transmit c (transmit_recorder 1)) transmit_refuser)
              (transmit_recorder 2).

End QueueExamples.

(** ** [bytes.hex] and [bytes.fromhex], and the methods built on them

    [hex] writes two lower-case digits for a byte. [fromhex] reads pairs of
    digits of either case, and skips ASCII whitespace before a pair (as
    Python does from 3.7 on); it is [None] where Python raises its
    [ValueError] (non-hexadecimal number found). *)

Definition hex_digit (n : Z) : Z := if n <? 10 then 48 + n else 87 + n.

Definition hex (bs : list byte) : pystr :=
  flat_map (fun b => [hex_digit (Z_of_byte b / 16); hex_digit (Z_of_byte b mod 16)]) bs.

Definition hex_value (c : Z) : option Z :=
  if (48 <=? c) && (c <=? 57) then Some (c - 48)
  else if (97 <=? c) && (c <=? 102) then Some (c - 87)
  else if (65 <=? c) && (c <=? 70) then Some (c - 55)
  else None.

(** Space, and the control characters from tab to carriage return. *)
Definition is_ascii_space (c : Z) : bool := (c =? 32) || ((9 <=? c) && (c <=? 13)).

Fixpoint fromhex (s : pystr) : option (list byte) :=
  match s with
  | [] => Some []
  | c :: rest =>
      if is_ascii_space c then fromhex rest
      else
        match hex_value c, rest with
        | Some top, d :: rest' =>
            match hex_value d with
            | Some bot =>
                match fromhex rest' with
                | Some bs => Some (byte_of_Z (16 * top + bot) :: bs)
                | None => None
                end
            | None => None
            end
        | _, _ => None
        end
  end.

(** [BristlemouthMessage.to_hex] and [from_hex]. *)
Definition to_hex (self : BristlemouthMessage.t) : result pystr :=
  bs <- BristlemouthMessage.to_bytes self ;; Ok (hex bs).

Definition from_hex (now : float) (hex_string : pystr)
    : option (result BristlemouthMessage.t) :=
  match fromhex hex_string with
  | Some data => Some (BristlemouthMessage.from_bytes now data)
  | None => None
  end.

(** A digit as [hex] writes it. *)
Definition is_lower_hex (c : Z) : bool :=
  ((48 <=? c) && (c <=? 57)) || ((97 <=? c) && (c <=? 102)).

(** The letters [a] to [z] in upper case, everything else as it is. *)
Definition upper (c : Z) : Z := if (97 <=? c) && (c <=? 122) then c - 32 else c.

(** ** Vocabulary of the further properties *)

(** *** Numbers *)

(** The number a value denotes, when it denotes one, in the units of
    [units]: an integer is itself, a boolean is 0 or 1. *)
Definition number_of (v : PyValue) : option Z :=
  match v with
  | PyFloat f => if is_number f then Some (units f) else None
  | PyInt z => Some (z * 2 ^ 1074)
  | PyBool b => Some ((if b then 1 else 0) * 2 ^ 1074)
  | _ => None
  end.

(** The classes of [classify_turbidity], best first. *)
Definition turbidity_rank (class : string) : nat :=
  if String.eqb class "Excellent" then 0
  else if String.eqb class "Good" then 1
  else if String.eqb class "Fair" then 2
  else if String.eqb class "Poor" then 3
  else 4.

(** The bytes of [MessageExamples.in_2009]. *)
Definition encoded_in_2009 : list byte :=
  match BristlemouthMessage.to_bytes MessageExamples.in_2009 with
  | Ok bs => bs
  | Raise _ => []
  end.

(** *** Calls on a sensor *)

(** The methods that can change a sensor, as data. The two of the current
    meter exist on a current meter only: on another sensor they are an
    [AttributeError] and change nothing. *)
Inductive sensor_call :=
| Create_reading (now : float) (value : PyValue) (unit : option SensorUnit.t)
                 (timestamp : option float) (quality : Z) (depth_m : option float)
| Wrap_reading (now : float) (reading : SensorReading.t)
| Create_and_wrap (now : float) (value : PyValue) (unit : option SensorUnit.t)
                  (timestamp : option float) (quality : Z) (depth_m : option float)
| Clear_readings
| Create_current_reading (now : float) (speed_ms : PyValue) (direction_deg : float)
                         (timestamp : option float) (quality : Z) (depth_m : option float)
| Wrap_current_reading (now : float) (reading : SensorReading.t) (direction_deg : float).

Definition message_of (r : result BristlemouthMessage.t) : list BristlemouthMessage.t :=
  match r with Ok m => [m] | Raise _ => [] end.

(** The message a call returns, if it returns one, and the sensor it
    leaves. *)
Definition sensor_step (k : sensor_call) (s : Sensor.t)
    : list BristlemouthMessage.t * Sensor.t :=
  match k with
  | Create_reading now value unit timestamp quality depth_m =>
      ([], snd (Sensor.create_reading now s value unit timestamp quality depth_m))
  | Wrap_reading now reading =>
      let out := Sensor.wrap_reading now s reading in (message_of (fst out), snd out)
  | Create_and_wrap now value unit timestamp quality depth_m =>
      let out := Sensor.create_and_wrap now s value unit timestamp quality depth_m in
      (message_of (fst out), snd out)
  | Clear_readings => ([], Sensor.clear_readings s)
  | Create_current_reading now speed_ms direction_deg timestamp quality depth_m =>
      match Sensor.kind s with
      | CurrentMeter =>
          ([], snd (Sensor.create_current_reading now s speed_ms direction_deg timestamp
                      quality depth_m))
      | _ => ([], s)
      end
  | Wrap_current_reading now reading direction_deg =>
      match Sensor.kind s with
      | CurrentMeter =>
          let out := Sensor.wrap_current_reading now s reading direction_deg in
          (message_of (fst out), snd out)
      | _ => ([], s)
      end
  end.

(** The messages a sequence of calls returns, in order, and the sensor it
    leaves. *)
Fixpoint sensor_run (ks : list sensor_call) (s : Sensor.t)
    : list BristlemouthMessage.t * Sensor.t :=
  match ks with
  | [] => ([], s)
  | k :: ks' =>
      let out := sensor_step k s in
      let rest := sensor_run ks' (snd out) in
      (fst out ++ fst rest, snd rest)
  end.

(** A reading as [create_reading] of the sensor [s] logs it. *)
Definition logged_by (s : Sensor.t) (r : SensorReading.t) : Prop :=
  SensorReading.sensor_id r = Some (Sensor.sensor_id s)
  /\ 0 <= SensorReading.quality r <= 100
  /\ Sensor.validate_reading s (SensorReading.value r) = (true, Valid).

(** What a sensor is, as opposed to what it has recorded. *)
Definition same_sensor (s s' : Sensor.t) : Prop :=
  Sensor.kind s' = Sensor.kind s /\ Sensor.sensor_id s' = Sensor.sensor_id s
  /\ Sensor.topic s' = Sensor.topic s /\ Sensor.default_unit s' = Sensor.default_unit s
  /\ Sensor.min_value s' = Sensor.min_value s /\ Sensor.max_value s' = Sensor.max_value s.

(** The message [wrap_reading] builds around a payload. *)
Definition wrapped (s : Sensor.t) (r : SensorReading.t) (payload : list byte)
    : BristlemouthMessage.t :=
  BristlemouthMessage.mk (Sensor.topic s) payload MessageType.SENSOR_DATA
    BCMP_PROTOCOL_VERSION (Sensor._sequence_number s + 1) (SensorReading.timestamp r) None.

(** What one call does to a sensor. *)
Definition step_effect (s : Sensor.t) (ms : list BristlemouthMessage.t) (s' : Sensor.t) : Prop :=
  same_sensor s s'
  /\ Sensor._sequence_number s' = Sensor._sequence_number s + len ms
  /\ (ms = [] \/ exists m, ms = [m]
                           /\ BristlemouthMessage.sequence_number m
                              = Sensor._sequence_number s + 1
                           /\ BristlemouthMessage.topic m = Sensor.topic s
                           /\ BristlemouthMessage.message_type m = MessageType.SENSOR_DATA
                           /\ BristlemouthMessage.source_node_id m = None
                           /\ (len (BristlemouthMessage.payload m) = 21
                               \/ len (BristlemouthMessage.payload m) = 25))
  /\ (Forall (logged_by s) (Sensor._readings s) ->
      Forall (logged_by s) (Sensor._readings s'))
  /\ (exists more, Sensor._direction_readings s'
                   = Sensor._direction_readings s ++ more).

(** *** Transmission *)

(** The number of rounds [transmit] settles on for a queue of [n]
    messages: [min(max_messages or n, n)], as [range] takes it. *)
Definition rounds (max_messages : option Z) (n : Z) : nat :=
  Z.to_nat (Z.min match max_messages with
                  | None | Some 0 => n
                  | Some k => k
                  end n).

(** *** The history and the numbers of a client *)

(** A result as [transmit] records it: a success. *)
Definition recorded_success (r : TransmissionResult.t) : Prop :=
  TransmissionResult.success r = true
  /\ TransmissionResult.error_message r = None
  /\ 0 <= TransmissionResult.message_count r
  /\ 0 <= TransmissionResult.bytes_transmitted r
  /\ TransmissionResult.transmission_mode r <> None.

Section ClientCalls.
Variable W : Type.
Variable json_dumps : Status.t -> pystr.

Definition is_transmit (k : SpotterBuoyClient.call W) : bool :=
  match k with
  | SpotterBuoyClient.Transmit _ _ _ _ => true
  | _ => false
  end.

(** The message a call numbers with the client's own counter, when it
    returns one: the other messages carry the number their maker gave
    them. *)
Definition numbered (k : SpotterBuoyClient.call W) (self : SpotterBuoyClient.t W)
    : list BristlemouthMessage.t :=
  match k with
  | SpotterBuoyClient.Queue_raw_data _ now topic data message_type =>
      message_of (fst (SpotterBuoyClient.queue_raw_data now self topic data message_type))
  | SpotterBuoyClient.Create_status_message _ now now' =>
      message_of (fst (SpotterBuoyClient.create_status_message json_dumps now now' self))
  | _ => []
  end.

(** The messages a sequence of calls numbers, in order. *)
Fixpoint numbered_all (ks : list (SpotterBuoyClient.call W)) (self : SpotterBuoyClient.t W)
    (w : W) : list BristlemouthMessage.t :=
  match ks with
  | [] => []
  | k :: ks' =>
      numbered k self
      ++ numbered_all ks' (fst (SpotterBuoyClient.run json_dumps k self w))
                      (snd (SpotterBuoyClient.run json_dumps k self w))
  end.
End ClientCalls.

Arguments is_transmit {W} k.
Arguments numbered {W} json_dumps k self.
Arguments numbered_all {W} json_dumps ks self w.

(** The client with other error listeners. *)
Definition with_error_listeners {W : Type} (c : SpotterBuoyClient.t W)
    (ls : list (SpotterBuoyClient.error_listener W)) : SpotterBuoyClient.t W :=
  SpotterBuoyClient.mk (SpotterBuoyClient.config c) (SpotterBuoyClient.device_id c)
    (SpotterBuoyClient._sensors c) (SpotterBuoyClient._message_queue c)
    (SpotterBuoyClient._transmission_history c) (SpotterBuoyClient._state c)
    (SpotterBuoyClient._sequence_number c) (SpotterBuoyClient.on_transmit_callbacks c)
    ls (SpotterBuoyClient.on_state_change_callbacks c).

(* ================================================================= *)
(** * Part II: properties                                             *)
(* ================================================================= *)

Unset Implicit Arguments.

(** ** Lists and slices *)

Lemma len_nonneg {A} (l : list A) : 0 <= len l.
Proof. unfold len. lia. Qed.

Lemma len_app {A} (l1 l2 : list A) : len (l1 ++ l2) = len l1 + len l2.
Proof. unfold len. rewrite length_app. lia. Qed.

Lemma skipn_nonempty {A} (k : nat) (l : list A) :
  (k < length l)%nat -> skipn k l <> [].
Proof.
  intros Hk Hnil.
  assert (Hlen : length (skipn k l) = (length l - k)%nat) by apply length_skipn.
  rewrite Hnil in Hlen. simpl in Hlen. lia.
Qed.

Lemma slice_from_last {A} (l : list A) (n : Z) :
  0 < n -> slice_from l (- n) = skipn (length l - Z.to_nat n) l.
Proof.
  intros Hn. unfold slice_from, len.
  destruct (- n <? 0) eqn:E; [| apply Z.ltb_ge in E; lia].
  f_equal. lia.
Qed.

(** ** Bytes and [struct] *)

Lemma Z_of_byte_range (b : byte) : 0 <= Z_of_byte b < 256.
Proof.
  unfold Z_of_byte. pose proof (Byte.to_N_bounded b) as H.
  split; [apply N2Z.is_nonneg | lia].
Qed.

Lemma Z_of_byte_of_Z (z : Z) : Z_of_byte (byte_of_Z z) = z mod 256.
Proof.
  unfold byte_of_Z, Z_of_byte.
  pose proof (Z.mod_pos_bound z 256 ltac:(lia)) as Hr.
  destruct (Byte.of_N (Z.to_N (z mod 256))) as [b |] eqn:E.
  - apply Byte.to_of_N in E. rewrite E. lia.
  - apply Byte.of_N_None_iff in E. lia.
Qed.

Lemma byte_of_Z_of_byte (b : byte) : byte_of_Z (Z_of_byte b) = b.
Proof.
  unfold byte_of_Z, Z_of_byte.
  pose proof (Byte.to_N_bounded b) as H.
  rewrite Z.mod_small by lia. rewrite N2Z.id, Byte.of_to_N. reflexivity.
Qed.

Lemma Z_of_byte_inj (a b : byte) : Z_of_byte a = Z_of_byte b -> a = b.
Proof.
  intros H. rewrite <- (byte_of_Z_of_byte a), <- (byte_of_Z_of_byte b). now rewrite H.
Qed.

Lemma bytes_eqb_eq (a b : list byte) : bytes_eqb a b = true <-> a = b.
Proof. unfold bytes_eqb. destruct (list_eq_dec _ a b); split; congruence. Qed.

Lemma bytes_eqb_refl (a : list byte) : bytes_eqb a a = true.
Proof. now apply bytes_eqb_eq. Qed.

Lemma be_bytes_length (n : nat) (z : Z) : length (be_bytes n z) = n.
Proof. induction n; simpl; congruence. Qed.

Lemma le_bytes_length (n : nat) (z : Z) : length (le_bytes n z) = n.
Proof. revert z. induction n; intros z; simpl; [reflexivity | now rewrite IHn]. Qed.

Lemma pow256_pos (n : nat) : 0 < 256 ^ Z.of_nat n.
Proof. apply Z.pow_pos_nonneg; lia. Qed.

Lemma pow256_succ (n : nat) : 256 ^ Z.of_nat (S n) = 256 ^ Z.of_nat n * 256.
Proof. rewrite Nat2Z.inj_succ, Z.pow_succ_r by lia. lia. Qed.

Lemma be_value_acc (bs : list byte) (acc : Z) :
  fold_left (fun acc b => acc * 256 + Z_of_byte b) bs acc
  = acc * 256 ^ Z.of_nat (length bs) + be_value bs.
Proof.
  unfold be_value. revert acc. induction bs as [| b bs IH]; intros acc.
  - simpl. lia.
  - cbn [fold_left length]. rewrite IH. rewrite (IH (0 * 256 + Z_of_byte b)).
    rewrite pow256_succ. ring.
Qed.

Lemma be_value_cons (b : byte) (bs : list byte) :
  be_value (b :: bs) = Z_of_byte b * 256 ^ Z.of_nat (length bs) + be_value bs.
Proof. unfold be_value at 1. cbn [fold_left]. rewrite be_value_acc. ring. Qed.

Lemma be_value_range (bs : list byte) : 0 <= be_value bs < 256 ^ Z.of_nat (length bs).
Proof.
  induction bs as [| b bs IH].
  - cbn. lia.
  - rewrite be_value_cons. cbn [length]. rewrite pow256_succ.
    pose proof (Z_of_byte_range b). pose proof (pow256_pos (length bs)). nia.
Qed.

Lemma be_value_be_bytes_mod (n : nat) (z : Z) :
  be_value (be_bytes n z) = z mod 256 ^ Z.of_nat n.
Proof.
  induction n as [| n IH].
  - cbn. now rewrite Z.mod_1_r.
  - cbn [be_bytes]. rewrite be_value_cons, be_bytes_length, IH, Z_of_byte_of_Z.
    rewrite pow256_succ. pose proof (pow256_pos n).
    rewrite (Z.rem_mul_r z (256 ^ Z.of_nat n) 256) by lia. ring.
Qed.

Lemma be_value_be_bytes (n : nat) (z : Z) :
  0 <= z < 256 ^ Z.of_nat n -> be_value (be_bytes n z) = z.
Proof. intros H. rewrite be_value_be_bytes_mod. now apply Z.mod_small. Qed.

Lemma pack_uint_ok (n : nat) (v : Z) (bs : list byte) :
  pack_uint n v = Ok bs ->
  bs = be_bytes n v /\ 0 <= v < 256 ^ Z.of_nat n /\ length bs = n.
Proof.
  unfold pack_uint. destruct (_ && _) eqn:E; [| discriminate].
  intros H. injection H as <-. apply andb_true_iff in E as [E1 E2].
  apply Z.leb_le in E1. apply Z.ltb_lt in E2.
  repeat split; try lia. apply be_bytes_length.
Qed.

Lemma pack_uint_in_range (n : nat) (v : Z) :
  0 <= v < 256 ^ Z.of_nat n -> pack_uint n v = Ok (be_bytes n v).
Proof.
  intros [H1 H2]. unfold pack_uint.
  apply Z.leb_le in H1. apply Z.ltb_lt in H2. now rewrite H1, H2.
Qed.

Lemma pack_uint_raises (n : nat) (v : Z) (e : PyError) :
  pack_uint n v = Raise e -> e = StructError /\ ~ (0 <= v < 256 ^ Z.of_nat n).
Proof.
  unfold pack_uint. destruct (_ && _) eqn:E; [discriminate |].
  intros H. injection H as <-. split; [reflexivity |].
  apply andb_false_iff in E as [E | E]; [apply Z.leb_gt in E | apply Z.ltb_ge in E]; lia.
Qed.

Lemma unpack_pack_uint (n : nat) (v : Z) (bs : list byte) :
  pack_uint n v = Ok bs -> unpack_uint n bs = Ok v.
Proof.
  intros H. apply pack_uint_ok in H as (-> & Hv & Hl).
  unfold unpack_uint. rewrite be_bytes_length, Nat.eqb_refl.
  now rewrite be_value_be_bytes.
Qed.

Lemma pack_s_length (n : nat) (bs : list byte) : length (pack_s n bs) = n.
Proof.
  unfold pack_s. rewrite length_app, length_firstn, repeat_length. lia.
Qed.

Lemma pack_s_exact (n : nat) (bs : list byte) : length bs = n -> pack_s n bs = bs.
Proof.
  intros <-. unfold pack_s. rewrite firstn_all, Nat.sub_diag. simpl. apply app_nil_r.
Qed.

(** Slices of a concatenation. *)
Lemma slice_0 {A} (l : list A) (n : nat) : slice l 0 n = firstn n l.
Proof. unfold slice. now rewrite Nat.sub_0_r. Qed.

Lemma slice_app_left {A} (l1 l2 : list A) (a b : nat) :
  (b <= length l1)%nat -> slice (l1 ++ l2) a b = slice l1 a b.
Proof.
  intros H. unfold slice. rewrite skipn_app, firstn_app, length_skipn.
  replace (b - a - (length l1 - a))%nat with 0%nat by lia.
  rewrite firstn_0. apply app_nil_r.
Qed.

Lemma slice_app_right {A} (l1 l2 : list A) (a b : nat) :
  (length l1 <= a)%nat ->
  slice (l1 ++ l2) a b = slice l2 (a - length l1) (b - length l1).
Proof.
  intros H. unfold slice. rewrite skipn_app.
  rewrite (skipn_all2 l1) by lia. simpl. f_equal. lia.
Qed.

Lemma slice_all {A} (l : list A) (n : nat) : n = length l -> slice l 0 n = l.
Proof. intros ->. rewrite slice_0. apply firstn_all. Qed.

Lemma slice_length_le {A} (l : list A) (a b : nat) : (length (slice l a b) <= b - a)%nat.
Proof. unfold slice. rewrite length_firstn. lia. Qed.

(** ** UTF-8 *)

Ltac bool_to_prop :=
  repeat match goal with
  | H : (_ && _) = true |- _ => apply andb_true_iff in H; destruct H
  | H : (_ && _) = false |- _ => apply andb_false_iff in H; destruct H
  | H : negb _ = true |- _ => apply negb_true_iff in H
  | H : negb _ = false |- _ => apply negb_false_iff in H
  | H : (_ <? _) = true |- _ => apply Z.ltb_lt in H
  | H : (_ <? _) = false |- _ => apply Z.ltb_ge in H
  | H : (_ <=? _) = true |- _ => apply Z.leb_le in H
  | H : (_ <=? _) = false |- _ => apply Z.leb_gt in H
  | H : (_ =? _) = true |- _ => apply Z.eqb_eq in H
  | H : (_ =? _) = false |- _ => apply Z.eqb_neq in H
  end.

Ltac divmod_lia := Z.to_euclidean_division_equations; lia.

Ltac step_if :=
  match goal with
  | |- context [if ?c then _ else _] =>
      let E := fresh "E" in
      destruct c eqn:E; bool_to_prop; try (exfalso; divmod_lia)
  end.

Lemma Z_of_byte_small (z : Z) : 0 <= z < 256 -> Z_of_byte (byte_of_Z z) = z.
Proof. intros H. rewrite Z_of_byte_of_Z. now apply Z.mod_small. Qed.

Lemma utf8_encode_char_length (cp : Z) (bs : list byte) :
  utf8_encode_char cp = Ok bs -> (1 <= length bs <= 4)%nat.
Proof.
  unfold utf8_encode_char.
  repeat (destruct (_ <? _)); try destruct (is_surrogate cp);
    intros H; inversion H; simpl; lia.
Qed.

Lemma utf8_encode_length (s : pystr) (bs : list byte) :
  utf8_encode s = Ok bs -> (length s <= length bs <= 4 * length s)%nat.
Proof.
  revert bs. induction s as [| cp s IH]; intros bs; simpl.
  - intros H. injection H as <-. simpl. lia.
  - destruct (utf8_encode_char cp) as [cbs |] eqn:Ec; [| discriminate]. simpl.
    destruct (utf8_encode s) as [more |] eqn:Es; [| discriminate]. simpl.
    intros H. injection H as <-. rewrite length_app.
    apply utf8_encode_char_length in Ec. specialize (IH more eq_refl). lia.
Qed.

Lemma Ok_inj {A} (a b : A) : Ok a = Ok b -> a = b.
Proof. congruence. Qed.

Lemma utf8_decode_encoded_char (cp : Z) (cbs more : list byte) :
  utf8_encode_char cp = Ok cbs ->
  utf8_decode (cbs ++ more) = (s <- utf8_decode more ;; Ok (cp :: s)).
Proof.
  unfold utf8_encode_char.
  destruct (cp <? 0) eqn:E0; [discriminate |].
  destruct (cp <? 128) eqn:E1; bool_to_prop.
  { intros H. apply Ok_inj in H. subst cbs. cbn [app utf8_decode].
    rewrite Z_of_byte_small by lia. step_if; reflexivity. }
  destruct (cp <? 2048) eqn:E2; bool_to_prop.
  { intros H. apply Ok_inj in H. subst cbs. cbn [app utf8_decode]. unfold is_cont, cont_bits.
    rewrite !Z_of_byte_small by divmod_lia.
    repeat step_if.
    replace ((192 + cp / 64 - 192) * 64 + (128 + cp mod 64 - 128)) with cp by divmod_lia.
    reflexivity. }
  destruct (cp <? 65536) eqn:E3; bool_to_prop.
  { destruct (is_surrogate cp) eqn:Es; [discriminate |].
    intros H. apply Ok_inj in H. subst cbs. cbn [app utf8_decode]. unfold is_cont, cont_bits.
    rewrite !Z_of_byte_small by divmod_lia.
    replace ((224 + cp / 4096 - 224) * 4096 + (128 + (cp / 64) mod 64 - 128) * 64
             + (128 + cp mod 64 - 128)) with cp by divmod_lia.
    rewrite Es. unfold is_surrogate in Es.
    repeat step_if; reflexivity. }
  destruct (cp <? 1114112) eqn:E4; bool_to_prop; [| discriminate].
  intros H. apply Ok_inj in H. subst cbs. cbn [app utf8_decode]. unfold is_cont, cont_bits.
  rewrite !Z_of_byte_small by divmod_lia.
  replace ((240 + cp / 262144 - 240) * 262144 + (128 + (cp / 4096) mod 64 - 128) * 4096
           + (128 + (cp / 64) mod 64 - 128) * 64 + (128 + cp mod 64 - 128))
    with cp by divmod_lia.
  repeat step_if; reflexivity.
Qed.

Lemma utf8_decode_encode (s : pystr) (bs : list byte) :
  utf8_encode s = Ok bs -> utf8_decode bs = Ok s.
Proof.
  revert bs. induction s as [| cp s IH]; intros bs; simpl.
  - intros H. now injection H as <-.
  - destruct (utf8_encode_char cp) as [cbs |] eqn:Ec; [| discriminate]. simpl.
    destruct (utf8_encode s) as [more |] eqn:Es; [| discriminate]. simpl.
    intros H. injection H as <-.
    rewrite (utf8_decode_encoded_char cp cbs more Ec), (IH more eq_refl). reflexivity.
Qed.

(** ** Topics *)

Lemma bind_ok {A B} (r : result A) (k : A -> result B) (b : B) :
  bind r k = Ok b -> exists a, r = Ok a /\ k a = Ok b.
Proof. destruct r as [a | e]; simpl; [eauto | discriminate]. Qed.

Lemma bind_raise {A B} (r : result A) (k : A -> result B) (e : PyError) :
  bind r k = Raise e -> r = Raise e \/ exists a, r = Ok a /\ k a = Raise e.
Proof. destruct r as [a | e']; simpl; [eauto | intros H; left; congruence]. Qed.

Lemma be_value_single (b : byte) : be_value [b] = Z_of_byte b.
Proof. reflexivity. Qed.

Lemma topic_to_bytes_ok (t : BristlemouthTopic.t) (bs : list byte) :
  BristlemouthTopic.to_bytes t = Ok bs ->
  exists nb, utf8_encode (BristlemouthTopic.name t) = Ok nb
             /\ 0 <= BristlemouthTopic.version t < 256
             /\ len nb < 65536
             /\ bs = be_bytes 1 (BristlemouthTopic.version t) ++ be_bytes 2 (len nb) ++ nb.
Proof.
  unfold BristlemouthTopic.to_bytes. intros H.
  apply bind_ok in H as (nb & Hnb & H).
  apply bind_ok in H as (v & Hv & H).
  apply bind_ok in H as (l & Hl & H).
  apply Ok_inj in H. subst bs.
  apply pack_uint_ok in Hv as (-> & Hv & _).
  apply pack_uint_ok in Hl as (-> & Hl & _).
  exists nb. repeat split; try tauto; try lia.
Qed.

(** Decoding an encoded topic runs the constructor on the same name and
    version. *)
Lemma topic_from_to_bytes (t : BristlemouthTopic.t) (bs : list byte) :
  BristlemouthTopic.to_bytes t = Ok bs ->
  BristlemouthTopic.from_bytes bs
  = BristlemouthTopic.init (BristlemouthTopic.name t) (BristlemouthTopic.version t) None.
Proof.
  intros H. apply topic_to_bytes_ok in H as (nb & Hnb & Hv & Hl & ->).
  unfold BristlemouthTopic.from_bytes. cbn [be_bytes app].
  rewrite Z_of_byte_small by (change (256 ^ Z.of_nat 0) with 1; rewrite Z.div_1_r; lia).
  change (256 ^ Z.of_nat 0) with 1. rewrite Z.div_1_r.
  change (byte_of_Z (BristlemouthTopic.version t)
            :: byte_of_Z (len nb / 256 ^ Z.of_nat 1) :: byte_of_Z (len nb / 1) :: nb)
    with ([byte_of_Z (BristlemouthTopic.version t)] ++ be_bytes 2 (len nb) ++ nb).
  rewrite (slice_app_right [_]) by (simpl; lia). cbn [length Nat.sub].
  rewrite slice_app_left by (rewrite be_bytes_length; lia).
  rewrite slice_all by now rewrite be_bytes_length.
  unfold unpack_uint. rewrite be_bytes_length. cbn [Nat.eqb bind].
  rewrite be_value_be_bytes by (change (256 ^ Z.of_nat 2) with 65536; pose proof (len_nonneg nb); lia).
  rewrite (slice_app_right [_]) by (simpl; lia). cbn [length].
  rewrite slice_app_right by (rewrite be_bytes_length; lia).
  rewrite be_bytes_length. unfold len. rewrite Nat2Z.id.
  replace (3 - 1 - 2)%nat with 0%nat by lia.
  replace (3 + length nb - 1 - 2)%nat with (length nb) by lia.
  rewrite slice_all by reflexivity.
  rewrite (utf8_decode_encode _ _ Hnb). reflexivity.
Qed.

Lemma init_topic_ok (name : pystr) (version : Z) (node_id : option pystr) :
  1 <= len name <= 64 ->
  BristlemouthTopic.init name version node_id = Ok (BristlemouthTopic.mk name version node_id).
Proof.
  unfold BristlemouthTopic.init, len. intros H.
  destruct name; [simpl in H; lia |].
  destruct (64 <? _) eqn:E; bool_to_prop; [lia | reflexivity].
Qed.

(** C6, amended. The constructor counts characters, not bytes: it accepts
    exactly the names of 1 to 64 code points; the empty name fails with
    "Topic name cannot be empty" and a name of more than 64 code points with
    "Topic name cannot exceed 64 characters". A name whose UTF-8 encoding is
    1 to 64 bytes long is therefore accepted, and the encoding of an accepted
    name is 1 to 256 bytes long. *)
Theorem topic_constructor_checks_characters (name : pystr) (version : Z)
    (node_id : option pystr) :
  let made := BristlemouthTopic.init name version node_id in
  (made = Ok (BristlemouthTopic.mk name version node_id) <-> 1 <= len name <= 64)
  /\ (made = Raise TopicNameEmpty <-> name = [])
  /\ (made = Raise TopicNameTooLong <-> 64 < len name)
  /\ (forall bs, utf8_encode name = Ok bs ->
        (1 <= len bs <= 64 -> made = Ok (BristlemouthTopic.mk name version node_id))
        /\ (made = Ok (BristlemouthTopic.mk name version node_id) -> 1 <= len bs <= 256)).
Proof.
  assert (Hcases : (name = [] /\ BristlemouthTopic.init name version node_id = Raise TopicNameEmpty)
                   \/ (64 < len name
                       /\ BristlemouthTopic.init name version node_id = Raise TopicNameTooLong)
                   \/ (1 <= len name <= 64
                       /\ BristlemouthTopic.init name version node_id
                          = Ok (BristlemouthTopic.mk name version node_id))).
  { unfold BristlemouthTopic.init, len. destruct name as [| c name]; [now left | right].
    destruct (64 <? _) eqn:E; bool_to_prop; [left | right]; split; try reflexivity;
      simpl length in *; lia. }
  assert (Hne : name <> [] -> 1 <= len name).
  { destruct name; [congruence | unfold len; simpl; lia]. }
  cbv zeta.
  destruct Hcases as [[Hn He] | [[Hn He] | [Hn He]]]; rewrite He.
  - subst name. split; [| split; [| split]].
    + split; [discriminate | unfold len; simpl; lia].
    + split; reflexivity.
    + split; [discriminate | unfold len; simpl; lia].
    + intros bs Hbs. simpl in Hbs. apply Ok_inj in Hbs. subst bs.
      split; [unfold len; simpl; lia | discriminate].
  - split; [| split; [| split]].
    + split; [discriminate | lia].
    + split; [discriminate | intros ->; unfold len in Hn; simpl in Hn; lia].
    + split; [intros _; exact Hn | reflexivity].
    + intros bs Hbs. apply utf8_encode_length in Hbs. unfold len in *.
      split; [lia | discriminate].
  - split; [| split; [| split]].
    + split; [intros _; exact Hn | reflexivity].
    + split; [discriminate | intros ->; unfold len in Hn; simpl in Hn; lia].
    + split; [discriminate | lia].
    + intros bs Hbs. apply utf8_encode_length in Hbs. unfold len in *.
      split; [reflexivity | lia].
Qed.

(** ** Messages *)

Lemma header_of_length m ms : length (header_of m ms) = 22%nat.
Proof.
  unfold header_of. rewrite !length_app, !be_bytes_length, pack_s_length. reflexivity.
Qed.

Lemma MessageType_value_range (mt : MessageType.t) : 0 <= MessageType.value mt <= 10.
Proof. destruct mt; simpl; lia. Qed.

Lemma MessageType_of_value (mt : MessageType.t) : MessageType.of_int (MessageType.value mt) = Ok mt.
Proof. destruct mt; reflexivity. Qed.

(** What a successful [_pack_without_checksum] produced, and from what. *)
Lemma pack_without_checksum_ok (m : BristlemouthMessage.t) (data : list byte) :
  BristlemouthMessage._pack_without_checksum m = Ok data ->
  exists tb ms,
    BristlemouthTopic.to_bytes (BristlemouthMessage.topic m) = Ok tb
    /\ BristlemouthMessage.timestamp_ms (BristlemouthMessage.timestamp m) = Ok ms
    /\ 0 <= BristlemouthMessage.version m < 256
    /\ 0 <= BristlemouthMessage.sequence_number m < 2 ^ 32
    /\ 0 <= ms < 2 ^ 64
    /\ len tb < 65536
    /\ len (BristlemouthMessage.payload m) < 65536
    /\ data = header_of m ms ++ be_bytes 2 (len tb) ++ tb
              ++ be_bytes 2 (len (BristlemouthMessage.payload m))
              ++ BristlemouthMessage.payload m.
Proof.
  unfold BristlemouthMessage._pack_without_checksum. intros H.
  apply bind_ok in H as (tb & Htb & H).
  apply bind_ok in H as (ms & Hms & H).
  apply bind_ok in H as (header & Hh & H).
  apply bind_ok in H as (tl & Htl & H).
  apply bind_ok in H as (pl & Hpl & H).
  apply Ok_inj in H. subst data.
  apply bind_ok in Hh as (b1 & Hb1 & Hh).
  apply bind_ok in Hh as (b2 & Hb2 & Hh).
  apply bind_ok in Hh as (b3 & Hb3 & Hh).
  apply bind_ok in Hh as (b4 & Hb4 & Hh).
  apply bind_ok in Hh as (b5 & Hb5 & Hh).
  apply Ok_inj in Hh. subst header.
  apply pack_uint_ok in Hb1 as (-> & _ & _).
  apply pack_uint_ok in Hb2 as (-> & Hv & _).
  apply pack_uint_ok in Hb3 as (-> & _ & _).
  apply pack_uint_ok in Hb4 as (-> & Hs & _).
  apply pack_uint_ok in Hb5 as (-> & Hm & _).
  apply pack_uint_ok in Htl as (-> & Ht & _).
  apply pack_uint_ok in Hpl as (-> & Hp & _).
  exists tb, ms. unfold header_of, source_id_of.
  repeat rewrite <- app_assoc.
  repeat split; try assumption; try lia.
Qed.

Ltac len_tac :=
  rewrite ?length_app, ?header_of_length, ?be_bytes_length, ?pack_s_length; simpl; lia.

Lemma unpack_header_of m ms :
  0 <= BristlemouthMessage.version m < 256 ->
  0 <= BristlemouthMessage.sequence_number m < 2 ^ 32 ->
  0 <= ms < 2 ^ 64 ->
  BristlemouthMessage.unpack_header (header_of m ms)
  = Ok (BCMP_HEADER_MAGIC, BristlemouthMessage.version m,
        MessageType.value (BristlemouthMessage.message_type m),
        BristlemouthMessage.sequence_number m, ms, pack_s 6 (source_id_of m)).
Proof.
  intros Hv Hs Hm. unfold BristlemouthMessage.unpack_header.
  rewrite header_of_length. cbn [Nat.eqb]. unfold header_of.
  pose proof (MessageType_value_range (BristlemouthMessage.message_type m)) as Ht.
  repeat f_equal.
  - rewrite slice_app_right by len_tac. rewrite be_bytes_length. cbn [Nat.sub].
    rewrite slice_app_left by len_tac. rewrite slice_all by len_tac.
    apply be_value_be_bytes. change (256 ^ Z.of_nat 1) with 256. lia.
  - do 2 (rewrite slice_app_right by len_tac; rewrite be_bytes_length; cbn [Nat.sub]).
    rewrite slice_app_left by len_tac. rewrite slice_all by len_tac.
    apply be_value_be_bytes. change (256 ^ Z.of_nat 2) with 65536. lia.
  - do 3 (rewrite slice_app_right by len_tac; rewrite be_bytes_length; cbn [Nat.sub]).
    rewrite slice_app_left by len_tac. rewrite slice_all by len_tac.
    apply be_value_be_bytes. exact Hs.
  - do 4 (rewrite slice_app_right by len_tac; rewrite be_bytes_length; cbn [Nat.sub]).
    rewrite slice_app_left by len_tac. rewrite slice_all by len_tac.
    apply be_value_be_bytes. exact Hm.
  - do 5 (rewrite slice_app_right by len_tac; rewrite be_bytes_length; cbn [Nat.sub]).
    apply slice_all. now rewrite pack_s_length.
Qed.

Lemma to_nat_len {A} (l : list A) : Z.to_nat (len l) = length l.
Proof. unfold len. apply Nat2Z.id. Qed.

Lemma from_bytes_split now data :
  BristlemouthMessage.from_bytes now data
  = (p <- BristlemouthMessage.decode_fields now data ;;
     expected <- BristlemouthMessage.calculate_checksum (fst p) ;;
     if negb (bytes_eqb (snd p) expected) then Raise ChecksumMismatch else Ok (fst p)).
Proof.
  unfold BristlemouthMessage.from_bytes, BristlemouthMessage.decode_fields.
  destruct (length data <? 22)%nat; [reflexivity |].
  destruct (BristlemouthMessage.unpack_header _) as [[[[[[magic v] ty] sq] ms] src] | e];
    [| reflexivity].
  cbn [bind]. destruct (negb (magic =? BCMP_HEADER_MAGIC)); [reflexivity |].
  destruct (unpack_uint 2 _) as [tl | e]; [| reflexivity]. cbn [bind].
  destruct (BristlemouthTopic.from_bytes _) as [tp | e]; [| reflexivity]. cbn [bind].
  destruct (unpack_uint 2 _) as [pl | e]; [| reflexivity]. cbn [bind].
  destruct (MessageType.of_int ty) as [mt | e]; [| reflexivity]. cbn [bind].
  destruct (float_of_int ms) as [f | e]; [| reflexivity]. cbn [bind].
  destruct (BristlemouthMessage.init _ _ _ _ _ _ _ _) as [msg | e]; reflexivity.
Qed.

(** The fields read back from a packed message followed by four bytes. *)
Lemma decode_fields_packed now (m : BristlemouthMessage.t) (data cs : list byte) (ms : Z) :
  BristlemouthMessage._pack_without_checksum m = Ok data ->
  BristlemouthMessage.timestamp_ms (BristlemouthMessage.timestamp m) = Ok ms ->
  length cs = 4%nat ->
  BristlemouthMessage.decode_fields now (data ++ cs)
  = (topic <- BristlemouthTopic.init
                (BristlemouthTopic.name (BristlemouthMessage.topic m))
                (BristlemouthTopic.version (BristlemouthMessage.topic m)) None ;;
     f <- float_of_int ms ;;
     msg <- BristlemouthMessage.init now topic (BristlemouthMessage.payload m)
              (BristlemouthMessage.message_type m) (BristlemouthMessage.version m)
              (BristlemouthMessage.sequence_number m)
              (Some (fdiv f (float_lit 1000))) (Some (pack_s 6 (source_id_of m))) ;;
     Ok (msg, cs)).
Proof.
  intros Hpack Hms Hcs.
  apply pack_without_checksum_ok in Hpack
    as (tb & ms' & Htb & Hms' & Hv & Hs & Hm & Ht & Hp & ->).
  assert (ms' = ms) by congruence. subst ms'.
  set (payload := BristlemouthMessage.payload m) in *.
  unfold BristlemouthMessage.decode_fields.
  assert (Hlen : (length ((header_of m ms ++ be_bytes 2 (len tb) ++ tb
                            ++ be_bytes 2 (len payload) ++ payload) ++ cs) <? 22)%nat = false).
  { apply Nat.ltb_ge. rewrite !length_app, header_of_length. lia. }
  rewrite Hlen. clear Hlen.
  repeat rewrite <- app_assoc.
  rewrite slice_app_left by len_tac. rewrite slice_all by len_tac.
  rewrite unpack_header_of by assumption. cbn [bind].
  change (negb (BCMP_HEADER_MAGIC =? BCMP_HEADER_MAGIC)) with false. cbv iota.
  (* topic length *)
  rewrite slice_app_right by len_tac. rewrite header_of_length.
  replace (22 - 22)%nat with 0%nat by lia. replace (22 + 2 - 22)%nat with 2%nat by lia.
  rewrite slice_app_left by len_tac. rewrite slice_all by len_tac.
  unfold unpack_uint at 1. rewrite be_bytes_length. cbn [Nat.eqb bind].
  rewrite be_value_be_bytes
    by (change (256 ^ Z.of_nat 2) with 65536; pose proof (len_nonneg tb); lia).
  (* topic *)
  rewrite !to_nat_len.
  rewrite slice_app_right by len_tac. rewrite header_of_length.
  rewrite slice_app_right by len_tac. rewrite be_bytes_length.
  replace (22 + 2 - 22 - 2)%nat with 0%nat by lia.
  replace (22 + 2 + length tb - 22 - 2)%nat with (length tb) by lia.
  rewrite slice_app_left by len_tac. rewrite slice_all by len_tac.
  rewrite (topic_from_to_bytes _ _ Htb).
  destruct (BristlemouthTopic.init _ _ None) as [topic | e]; [| reflexivity]. cbn [bind].
  (* payload length *)
  rewrite slice_app_right by len_tac. rewrite header_of_length.
  rewrite slice_app_right by len_tac. rewrite be_bytes_length.
  rewrite slice_app_right by len_tac.
  replace (22 + 2 + length tb - 22 - 2 - length tb)%nat with 0%nat by lia.
  replace (22 + 2 + length tb + 2 - 22 - 2 - length tb)%nat with 2%nat by lia.
  rewrite slice_app_left by len_tac. rewrite slice_all by len_tac.
  unfold unpack_uint. rewrite be_bytes_length. cbn [Nat.eqb bind].
  rewrite be_value_be_bytes
    by (change (256 ^ Z.of_nat 2) with 65536; pose proof (len_nonneg payload); lia).
  rewrite !to_nat_len.
  (* payload and checksum *)
  rewrite MessageType_of_value. cbn [bind].
  destruct (float_of_int ms) as [f | e]; [| reflexivity]. cbn [bind].
  assert (Hpayload : slice (header_of m ms ++ be_bytes 2 (len tb) ++ tb
                            ++ be_bytes 2 (len payload) ++ payload ++ cs)
                           (22 + 2 + length tb + 2)
                           (22 + 2 + length tb + 2 + length payload) = payload).
  { rewrite slice_app_right by len_tac. rewrite header_of_length.
    rewrite slice_app_right by len_tac. rewrite be_bytes_length.
    rewrite slice_app_right by len_tac.
    rewrite slice_app_right by len_tac. rewrite be_bytes_length.
    replace (22 + 2 + length tb + 2 - 22 - 2 - length tb - 2)%nat with 0%nat by lia.
    replace (22 + 2 + length tb + 2 + length payload - 22 - 2 - length tb - 2)%nat
      with (length payload) by lia.
    rewrite slice_app_left by len_tac. now apply slice_all. }
  assert (Hchk : slice (header_of m ms ++ be_bytes 2 (len tb) ++ tb
                        ++ be_bytes 2 (len payload) ++ payload ++ cs)
                       (22 + 2 + length tb + 2 + length payload)
                       (22 + 2 + length tb + 2 + length payload + 4) = cs).
  { rewrite slice_app_right by len_tac. rewrite header_of_length.
    rewrite slice_app_right by len_tac. rewrite be_bytes_length.
    rewrite slice_app_right by len_tac.
    rewrite slice_app_right by len_tac. rewrite be_bytes_length.
    rewrite slice_app_right by len_tac.
    replace (22 + 2 + length tb + 2 + length payload - 22 - 2 - length tb - 2
             - length payload)%nat with 0%nat by lia.
    replace (22 + 2 + length tb + 2 + length payload + 4 - 22 - 2 - length tb - 2
             - length payload)%nat with 4%nat by lia.
    now apply slice_all. }
  rewrite Hpayload, Hchk. reflexivity.
Qed.

Lemma md5_length (data : list byte) : length (md5 data) = 16%nat.
Proof.
  unfold md5. destruct (fold_left md5_block _ _) as [[[a b] c] d].
  rewrite !length_app, !le_bytes_length. reflexivity.
Qed.

Lemma checksum_length (m : BristlemouthMessage.t) (cs : list byte) :
  BristlemouthMessage.calculate_checksum m = Ok cs -> length cs = 4%nat.
Proof.
  unfold BristlemouthMessage.calculate_checksum. intros H.
  apply bind_ok in H as (data & _ & H). apply Ok_inj in H. subst cs.
  rewrite length_firstn, md5_length. reflexivity.
Qed.

Lemma to_bytes_ok (m : BristlemouthMessage.t) (bs : list byte) :
  BristlemouthMessage.to_bytes m = Ok bs ->
  exists data cs,
    BristlemouthMessage._pack_without_checksum m = Ok data
    /\ BristlemouthMessage.calculate_checksum m = Ok cs
    /\ cs = firstn 4 (md5 data)
    /\ length cs = 4%nat
    /\ bs = data ++ cs.
Proof.
  unfold BristlemouthMessage.to_bytes. intros H.
  apply bind_ok in H as (data & Hd & H).
  apply bind_ok in H as (cs & Hc & H). apply Ok_inj in H. subst bs.
  exists data, cs. repeat split; try assumption.
  - unfold BristlemouthMessage.calculate_checksum in Hc. rewrite Hd in Hc.
    simpl in Hc. now apply Ok_inj in Hc.
  - now apply checksum_length in Hc.
Qed.

(** *** Flipping bits *)

Lemma flip_bit_changes (b : byte) (j : Z) : 0 <= j < 8 -> flip_bit b j <> b.
Proof.
  intros Hj Heq. apply (f_equal Z_of_byte) in Heq. unfold flip_bit in Heq.
  pose proof (Z_of_byte_range b) as Hb.
  assert (Hx : 0 <= Z.lxor (Z_of_byte b) (2 ^ j) < 256).
  { split.
    - apply Z.lxor_nonneg. split; intros _; [apply Z.pow_nonneg; lia | lia].
    - destruct (Z.eq_dec (Z.lxor (Z_of_byte b) (2 ^ j)) 0) as [-> | Hnz]; [lia |].
      assert (Hpos : 0 < Z.lxor (Z_of_byte b) (2 ^ j)).
      { assert (0 <= Z.lxor (Z_of_byte b) (2 ^ j)); [| lia].
        apply Z.lxor_nonneg. split; intros _; [apply Z.pow_nonneg; lia | lia]. }
      change 256 with (2 ^ 8). apply Z.log2_lt_pow2; [exact Hpos |].
      eapply Z.le_lt_trans; [apply Z.log2_lxor; [lia | apply Z.pow_nonneg; lia] |].
      apply Z.max_lub_lt.
      + destruct (Z.eq_dec (Z_of_byte b) 0) as [-> | Hne]; [simpl; lia |].
        apply Z.log2_lt_pow2; [lia |]. change (2 ^ 8) with 256. lia.
      + rewrite Z.log2_pow2 by lia. lia. }
  rewrite Z_of_byte_small in Heq by exact Hx.
  apply (f_equal (fun z => Z.testbit z j)) in Heq.
  rewrite Z.lxor_spec, Z.pow2_bits_true in Heq by lia.
  destruct (Z.testbit (Z_of_byte b) j); discriminate.
Qed.

Lemma flip_bit_at_length (l : list byte) (i : nat) (j : Z) :
  length (flip_bit_at l i j) = length l.
Proof.
  unfold flip_bit_at. rewrite length_app, length_firstn.
  pose proof (length_skipn i l) as Hs.
  destruct (skipn i l) as [| b rest]; simpl in *; lia.
Qed.

Lemma flip_bit_at_changes (l : list byte) (i : nat) (j : Z) :
  (i < length l)%nat -> 0 <= j < 8 -> flip_bit_at l i j <> l.
Proof.
  intros Hi Hj Heq. unfold flip_bit_at in Heq.
  rewrite <- (firstn_skipn i l) in Heq at 3.
  apply app_inv_head in Heq.
  pose proof (skipn_nonempty i l Hi) as Hne.
  destruct (skipn i l) as [| b rest]; [congruence |].
  injection Heq as Hb. now apply flip_bit_changes in Hb.
Qed.

Lemma flip_bit_at_app_right (l1 l2 : list byte) (i : nat) (j : Z) :
  (length l1 <= i)%nat ->
  flip_bit_at (l1 ++ l2) i j = l1 ++ flip_bit_at l2 (i - length l1) j.
Proof.
  intros Hi. unfold flip_bit_at.
  rewrite firstn_app, skipn_app, (firstn_all2 l1), (skipn_all2 l1) by lia.
  simpl. now rewrite <- app_assoc.
Qed.

(** *** Where an error can come from *)

Lemma unpack_uint_raises (n : nat) (bs : list byte) (e : PyError) :
  unpack_uint n bs = Raise e -> e = StructError.
Proof. unfold unpack_uint. destruct (Nat.eqb _ _); congruence. Qed.

Lemma utf8_decode_raises (bs : list byte) (e : PyError) :
  utf8_decode bs = Raise e -> e = UnicodeDecodeError.
Proof.
  remember (length bs) as n eqn:Hn. revert bs Hn.
  induction n as [n IH] using lt_wf_ind. intros bs Hn.
  assert (Hrec : forall r s0, (length r < n)%nat ->
            (s <- utf8_decode r ;; Ok (s0 :: s)) = Raise e -> e = UnicodeDecodeError).
  { intros r s0 Hr H. apply bind_raise in H as [H | (a & _ & H)]; [| discriminate].
    eapply (IH (length r)); eauto. }
  destruct bs as [| b0 r0]; [discriminate |]. cbn [utf8_decode].
  simpl in Hn.
  destruct (_ <? _); [apply Hrec; lia |].
  destruct (_ && _).
  { destruct r0 as [| b1 r1]; [congruence |].
    destruct (is_cont b1); [apply Hrec; simpl in *; lia | congruence]. }
  destruct (_ && _).
  { destruct r0 as [| b1 [| b2 r2]]; try congruence.
    destruct (_ && _); [apply Hrec; simpl in *; lia | congruence]. }
  destruct (_ && _); [| congruence].
  destruct r0 as [| b1 [| b2 [| b3 r3]]]; try congruence.
  destruct (_ && _); [apply Hrec; simpl in *; lia | congruence].
Qed.

Lemma utf8_encode_raises (s : pystr) (e : PyError) :
  utf8_encode s = Raise e -> e = UnicodeEncodeError.
Proof.
  induction s as [| cp s IH]; simpl; [discriminate |]. intros H.
  apply bind_raise in H as [H | (cbs & _ & H)].
  - unfold utf8_encode_char in H.
    repeat (destruct (_ <? _); try congruence). destruct (is_surrogate cp); congruence.
  - apply bind_raise in H as [H | (more & _ & H)]; [auto | discriminate].
Qed.

Lemma topic_init_raises name version node_id e :
  BristlemouthTopic.init name version node_id = Raise e -> framing e = false.
Proof.
  unfold BristlemouthTopic.init. destruct name; [intros H; now inversion H |].
  destruct (_ <? _); intros H; now inversion H.
Qed.

Lemma topic_from_bytes_raises data e :
  BristlemouthTopic.from_bytes data = Raise e -> framing e = false.
Proof.
  unfold BristlemouthTopic.from_bytes. destruct data as [| b0 rest]; [intros H; now inversion H |].
  intros H. apply bind_raise in H as [H | (l & _ & H)].
  - apply unpack_uint_raises in H. now subst.
  - apply bind_raise in H as [H | (nm & _ & H)].
    + apply utf8_decode_raises in H. now subst.
    + now apply topic_init_raises in H.
Qed.

Lemma topic_to_bytes_raises t e :
  BristlemouthTopic.to_bytes t = Raise e -> framing e = false.
Proof.
  unfold BristlemouthTopic.to_bytes. intros H.
  apply bind_raise in H as [H | (nb & _ & H)]; [apply utf8_encode_raises in H; now subst |].
  apply bind_raise in H as [H | (v & _ & H)]; [apply pack_uint_raises in H as [-> _]; reflexivity |].
  apply bind_raise in H as [H | (l & _ & H)]; [apply pack_uint_raises in H as [-> _]; reflexivity |].
  discriminate.
Qed.

Lemma timestamp_ms_raises ts e :
  BristlemouthMessage.timestamp_ms ts = Raise e -> framing e = false.
Proof.
  unfold BristlemouthMessage.timestamp_ms, int_of_float.
  destruct (fmul ts _); intros H; now inversion H.
Qed.

Lemma pack_without_checksum_raises m e :
  BristlemouthMessage._pack_without_checksum m = Raise e -> framing e = false.
Proof.
  unfold BristlemouthMessage._pack_without_checksum. intros H.
  apply bind_raise in H as [H | (tb & _ & H)]; [now apply topic_to_bytes_raises in H |].
  apply bind_raise in H as [H | (ms & _ & H)]; [now apply timestamp_ms_raises in H |].
  apply bind_raise in H as [H | (hd & _ & H)].
  { repeat (apply bind_raise in H as [H | (? & _ & H)];
            [apply pack_uint_raises in H as [-> _]; reflexivity |]).
    discriminate. }
  repeat (apply bind_raise in H as [H | (? & _ & H)];
          [apply pack_uint_raises in H as [-> _]; reflexivity |]).
  discriminate.
Qed.

Lemma calculate_checksum_raises m e :
  BristlemouthMessage.calculate_checksum m = Raise e -> framing e = false.
Proof.
  unfold BristlemouthMessage.calculate_checksum. intros H.
  apply bind_raise in H as [H | (d & _ & H)]; [now apply pack_without_checksum_raises in H |].
  discriminate.
Qed.

Lemma unpack_header_magic (h : list byte) magic v ty sq ms src :
  BristlemouthMessage.unpack_header h = Ok (magic, v, ty, sq, ms, src) ->
  magic = Z_of_byte (hd x00 h).
Proof.
  unfold BristlemouthMessage.unpack_header.
  destruct (Nat.eqb (length h) 22) eqn:E; [| discriminate].
  apply Nat.eqb_eq in E. intros H. inversion H; subst.
  destruct h as [| b h']; [discriminate |]. reflexivity.
Qed.

(** The ways [decode_fields] ends: too short, a wrong first byte, an error
    of one of the steps after the magic check, or the fields. *)
Lemma decode_fields_cases now data :
  let magic := Z_of_byte (hd x00 data) in
  ((length data < 22)%nat /\ BristlemouthMessage.decode_fields now data = Raise MessageTooShort)
  \/ ((22 <= length data)%nat /\ magic <> BCMP_HEADER_MAGIC
      /\ BristlemouthMessage.decode_fields now data = Raise (InvalidMagicByte magic))
  \/ ((22 <= length data)%nat /\ magic = BCMP_HEADER_MAGIC
      /\ ((exists e, BristlemouthMessage.decode_fields now data = Raise e /\ framing e = false)
          \/ exists p, BristlemouthMessage.decode_fields now data = Ok p)).
Proof.
  intros magic. unfold BristlemouthMessage.decode_fields.
  destruct (length data <? 22)%nat eqn:El.
  { left. apply Nat.ltb_lt in El. split; [exact El | reflexivity]. }
  apply Nat.ltb_ge in El. right.
  assert (Hh : length (slice data 0 22) = 22%nat).
  { rewrite slice_0, length_firstn. lia. }
  assert (Hhd : hd x00 (slice data 0 22) = hd x00 data).
  { rewrite slice_0. destruct data; reflexivity. }
  destruct (BristlemouthMessage.unpack_header (slice data 0 22))
    as [[[[[[mg v] ty] sq] ms] src] | e] eqn:Eh.
  2:{ unfold BristlemouthMessage.unpack_header in Eh. rewrite Hh in Eh. discriminate. }
  apply unpack_header_magic in Eh. rewrite Hhd in Eh. fold magic in Eh. subst mg.
  cbn [bind].
  destruct (magic =? BCMP_HEADER_MAGIC) eqn:Em; bool_to_prop; cbn [negb].
  2:{ left. repeat split; assumption. }
  right. split; [exact El |]. split; [exact Em |].
  match goal with |- (exists e, ?r = Raise e /\ _) \/ _ => destruct r as [p | e] eqn:Er end;
    [right; eauto | left].
  exists e. split; [reflexivity |].
  apply bind_raise in Er as [H | (tl & _ & Er)]; [apply unpack_uint_raises in H; now subst |].
  apply bind_raise in Er as [H | (tp & _ & Er)]; [now apply topic_from_bytes_raises in H |].
  apply bind_raise in Er as [H | (pl & _ & Er)]; [apply unpack_uint_raises in H; now subst |].
  apply bind_raise in Er as [H | (mt & _ & Er)].
  { unfold MessageType.of_int in H.
    repeat match type of H with
           | match ?x with _ => _ end = _ => destruct x; try discriminate
           end; now inversion H. }
  apply bind_raise in Er as [H | (f & _ & Er)].
  { unfold float_of_int in H. destruct (binary_normalize _ _ _ _ _); now inversion H. }
  apply bind_raise in Er as [H | (msg & _ & Er)]; [| discriminate].
  unfold BristlemouthMessage.init in H. destruct (_ <? _); now inversion H.
Qed.

Lemma from_bytes_framing now data e :
  BristlemouthMessage.from_bytes now data = Raise e -> framing e = true ->
  let magic := Z_of_byte (hd x00 data) in
  (e = MessageTooShort /\ (length data < 22)%nat)
  \/ (e = InvalidMagicByte magic /\ (22 <= length data)%nat /\ magic <> BCMP_HEADER_MAGIC)
  \/ (e = ChecksumMismatch
      /\ exists msg received expected,
           BristlemouthMessage.decode_fields now data = Ok (msg, received)
           /\ BristlemouthMessage.calculate_checksum msg = Ok expected
           /\ received <> expected).
Proof.
  intros H Hf magic. rewrite from_bytes_split in H.
  destruct (decode_fields_cases now data) as [[Hl Hd] | [(Hl & Hm & Hd) | (Hl & Hm & Hd)]].
  - rewrite Hd in H. simpl in H. left. split; [congruence | exact Hl].
  - rewrite Hd in H. simpl in H. right. left. fold magic in Hm, H.
    repeat split; [congruence | exact Hl | exact Hm].
  - destruct Hd as [(e' & Hd & Hnf) | ([msg received] & Hd)]; rewrite Hd in H; simpl in H.
    + assert (e' = e) by congruence. subst e'. congruence.
    + destruct (BristlemouthMessage.calculate_checksum msg) as [expected | e'] eqn:Ec;
        simpl in H.
      * destruct (bytes_eqb received expected) eqn:Eb; simpl in H; [discriminate |].
        right. right. split; [congruence |].
        exists msg, received, expected. repeat split; try assumption.
        intros Heq. apply bytes_eqb_eq in Heq. congruence.
      * apply calculate_checksum_raises in Ec. assert (e' = e) by congruence. subst e'.
        congruence.
Qed.

Lemma from_bytes_checksum_mismatch now data msg received expected :
  BristlemouthMessage.decode_fields now data = Ok (msg, received) ->
  BristlemouthMessage.calculate_checksum msg = Ok expected ->
  received <> expected ->
  BristlemouthMessage.from_bytes now data = Raise ChecksumMismatch.
Proof.
  intros Hd Hc Hne. rewrite from_bytes_split, Hd. simpl. rewrite Hc. simpl.
  destruct (bytes_eqb received expected) eqn:Eb; [| reflexivity].
  apply bytes_eqb_eq in Eb. contradiction.
Qed.

Lemma packed_length (m : BristlemouthMessage.t) (data : list byte) :
  BristlemouthMessage._pack_without_checksum m = Ok data ->
  (22 <= length data)%nat /\ hd x00 data = byte_of_Z BCMP_HEADER_MAGIC.
Proof.
  intros H. apply pack_without_checksum_ok in H as (tb & ms & _ & _ & _ & _ & _ & _ & _ & ->).
  split; [rewrite length_app, header_of_length; lia | reflexivity].
Qed.

(** C4, amended. [from_bytes] fails with "Message too short" exactly when
    the input has fewer than 22 bytes, and with "Invalid magic byte" exactly
    when it has at least 22 and the first is not 0xBC; these are not its only
    format errors (the constructors of the topic and of the message raise
    theirs from inside it). It fails with "Checksum mismatch" exactly when all
    fields were read and the checksum recomputed from them differs from the
    four bytes after the payload. For an encoded message that decodes,
    flipping any one bit of the last four bytes gives "Checksum mismatch";
    for any encoded message, another first byte gives "Invalid magic byte". *)
Theorem decode_failures now :
  (forall data,
     BristlemouthMessage.from_bytes now data = Raise MessageTooShort
     <-> (length data < 22)%nat)
  /\ (forall data magic,
        BristlemouthMessage.from_bytes now data = Raise (InvalidMagicByte magic)
        <-> (22 <= length data)%nat /\ magic = Z_of_byte (hd x00 data)
            /\ magic <> BCMP_HEADER_MAGIC)
  /\ (forall data,
        BristlemouthMessage.from_bytes now data = Raise ChecksumMismatch
        <-> exists msg received expected,
              BristlemouthMessage.decode_fields now data = Ok (msg, received)
              /\ BristlemouthMessage.calculate_checksum msg = Ok expected
              /\ received <> expected)
  /\ (forall m bs i j,
        BristlemouthMessage.to_bytes m = Ok bs ->
        is_ok (BristlemouthMessage.from_bytes now bs) = true ->
        (length bs - 4 <= i < length bs)%nat -> 0 <= j < 8 ->
        BristlemouthMessage.from_bytes now (flip_bit_at bs i j) = Raise ChecksumMismatch)
  /\ (forall m bs b,
        BristlemouthMessage.to_bytes m = Ok bs ->
        Z_of_byte b <> BCMP_HEADER_MAGIC ->
        BristlemouthMessage.from_bytes now (set_first bs b)
        = Raise (InvalidMagicByte (Z_of_byte b))).
Proof.
  split; [| split; [| split; [| split]]].
  - intros data. split.
    + intros H. destruct (from_bytes_framing now data _ H eq_refl)
        as [[_ Hl] | [[He _] | [He _]]]; [exact Hl | discriminate | discriminate].
    + intros Hl. unfold BristlemouthMessage.from_bytes.
      apply Nat.ltb_lt in Hl. now rewrite Hl.
  - intros data magic. split.
    + intros H. destruct (from_bytes_framing now data _ H eq_refl)
        as [[He _] | [(He & Hl & Hm) | [He _]]]; try discriminate.
      injection He as He. rewrite <- He in Hm. repeat split; assumption.
    + intros (Hl & -> & Hm). rewrite from_bytes_split.
      destruct (decode_fields_cases now data) as [[Hl' Hd] | [(_ & _ & Hd) | (_ & Hm' & _)]].
      * lia.
      * rewrite Hd. reflexivity.
      * contradiction.
  - intros data. split.
    + intros H. destruct (from_bytes_framing now data _ H eq_refl)
        as [[He _] | [[He _] | [_ Hex]]]; try discriminate. exact Hex.
    + intros (msg & received & expected & Hd & Hc & Hne).
      eapply from_bytes_checksum_mismatch; eassumption.
  - intros m bs i j Hbs Hok Hi Hj.
    apply to_bytes_ok in Hbs as (data & cs & Hpack & Hcs & _ & Hlen & ->).
    destruct (pack_without_checksum_ok _ _ Hpack) as (tb & ms & _ & Hms & _).
    rewrite length_app in Hi.
    rewrite flip_bit_at_app_right by lia.
    set (cs' := flip_bit_at cs (i - length data) j).
    assert (Hlen' : length cs' = 4%nat) by (unfold cs'; now rewrite flip_bit_at_length).
    assert (Hne : cs' <> cs) by (apply flip_bit_at_changes; lia).
    rewrite from_bytes_split in Hok.
    rewrite (decode_fields_packed now m data cs ms Hpack Hms Hlen) in Hok.
    pose proof (decode_fields_packed now m data cs' ms Hpack Hms Hlen') as Hd'.
    destruct (BristlemouthTopic.init _ _ None) as [tp | e]; [| discriminate]. cbn [bind] in *.
    destruct (float_of_int ms) as [f | e]; [| discriminate]. cbn [bind] in *.
    destruct (BristlemouthMessage.init _ _ _ _ _ _ _ _) as [msg | e]; [| discriminate].
    cbn [bind fst snd] in *.
    destruct (BristlemouthMessage.calculate_checksum msg) as [expected | e] eqn:Ec;
      [| discriminate].
    cbn [bind] in Hok.
    destruct (bytes_eqb cs expected) eqn:Eb; [| discriminate].
    apply bytes_eqb_eq in Eb. subst expected.
    eapply from_bytes_checksum_mismatch; eassumption.
  - intros m bs b Hbs Hb.
    apply to_bytes_ok in Hbs as (data & cs & Hpack & _ & _ & _ & ->).
    apply packed_length in Hpack as [Hl _].
    rewrite from_bytes_split.
    destruct data as [| b0 rest]; [simpl in Hl; lia |]. cbn [app set_first].
    destruct (decode_fields_cases now (b :: rest ++ cs))
      as [[Hl' Hd] | [(_ & _ & Hd) | (_ & Hm' & _)]].
    + simpl in Hl, Hl'. rewrite length_app in Hl'. lia.
    + rewrite Hd. reflexivity.
    + simpl in Hm'. contradiction.
Qed.

(** The message a decoder rebuilds from the encoding of [m] when the
    millisecond count [ms] on the wire survives the division by 1000.0 and
    the multiplication by 1000: the same topic name and version, payload,
    kind, version and sequence number, and the timestamp [ms / 1000.0]. *)
Lemma message_round_trip now (m : BristlemouthMessage.t) (bs : list byte) (ms : Z) (f : float) :
  BristlemouthMessage.to_bytes m = Ok bs ->
  1 <= len (BristlemouthTopic.name (BristlemouthMessage.topic m)) <= 64 ->
  len (BristlemouthMessage.payload m) <= MAX_PAYLOAD_SIZE ->
  BristlemouthMessage.timestamp_ms (BristlemouthMessage.timestamp m) = Ok ms ->
  float_of_int ms = Ok f ->
  BristlemouthMessage.timestamp_ms (fdiv f (float_lit 1000)) = Ok ms ->
  BristlemouthMessage.from_bytes now bs
  = Ok (BristlemouthMessage.mk
          (BristlemouthTopic.mk (BristlemouthTopic.name (BristlemouthMessage.topic m))
                                (BristlemouthTopic.version (BristlemouthMessage.topic m)) None)
          (BristlemouthMessage.payload m) (BristlemouthMessage.message_type m)
          (BristlemouthMessage.version m) (BristlemouthMessage.sequence_number m)
          (fdiv f (float_lit 1000)) (Some (pack_s 6 (source_id_of m)))).
Proof.
  intros Hbs Hname Hpayload Hms Hf Hstable.
  apply to_bytes_ok in Hbs as (data & cs & Hpack & Hcs & _ & Hlen & ->).
  rewrite from_bytes_split.
  rewrite (decode_fields_packed now m data cs ms Hpack Hms Hlen).
  rewrite init_topic_ok by exact Hname. cbn [bind]. rewrite Hf. cbn [bind].
  unfold BristlemouthMessage.init at 1.
  assert (Hp : (MAX_PAYLOAD_SIZE <? len (BristlemouthMessage.payload m)) = false)
    by (apply Z.ltb_ge; exact Hpayload).
  rewrite Hp. cbn [bind fst snd].
  set (m' := BristlemouthMessage.mk _ _ _ _ _ _ _).
  assert (Hpack' : BristlemouthMessage._pack_without_checksum m' = Ok data).
  { rewrite <- Hpack. unfold BristlemouthMessage._pack_without_checksum, m'.
    cbn [BristlemouthMessage.topic BristlemouthMessage.payload BristlemouthMessage.version
         BristlemouthMessage.message_type BristlemouthMessage.sequence_number
         BristlemouthMessage.timestamp BristlemouthMessage.source_node_id].
    rewrite Hstable, Hms.
    change (BristlemouthTopic.to_bytes
              (BristlemouthTopic.mk (BristlemouthTopic.name (BristlemouthMessage.topic m))
                 (BristlemouthTopic.version (BristlemouthMessage.topic m)) None))
      with (BristlemouthTopic.to_bytes (BristlemouthMessage.topic m)).
    fold (source_id_of m).
    assert (Hsrc : match pack_s 6 (source_id_of m) with
                   | [] => repeat x00 6
                   | _ :: _ => pack_s 6 (source_id_of m)
                   end = pack_s 6 (source_id_of m)).
    { pose proof (pack_s_length 6 (source_id_of m)) as Hl6.
      destruct (pack_s 6 (source_id_of m)); [discriminate | reflexivity]. }
    rewrite Hsrc. rewrite (pack_s_exact 6 (pack_s 6 (source_id_of m)))
      by apply pack_s_length.
    reflexivity. }
  unfold BristlemouthMessage.calculate_checksum in *. rewrite Hpack'. rewrite Hpack in Hcs.
  cbn [bind] in *. apply Ok_inj in Hcs. rewrite Hcs, bytes_eqb_refl. reflexivity.
Qed.

(** ** Floating point *)

(** *** Digits *)

Lemma digits2_pos_log2 (m : positive) : Zpos (digits2_pos m) = Z.log2 (Zpos m) + 1.
Proof.
  induction m as [m IH | m IH |]; cbn [digits2_pos]; rewrite ?Pos2Z.inj_succ, ?IH.
  - rewrite Pos2Z.inj_xI. rewrite Z.log2_succ_double by lia. lia.
  - rewrite Pos2Z.inj_xO. rewrite Z.log2_double by lia. lia.
  - reflexivity.
Qed.

Lemma digits2_pos_bounds (m : positive) :
  2 ^ (Zpos (digits2_pos m) - 1) <= Zpos m < 2 ^ Zpos (digits2_pos m).
Proof.
  rewrite digits2_pos_log2. replace (Z.log2 (Zpos m) + 1 - 1) with (Z.log2 (Zpos m)) by lia.
  pose proof (Z.log2_spec (Zpos m) ltac:(lia)) as H.
  replace (Z.log2 (Zpos m) + 1) with (Z.succ (Z.log2 (Zpos m))) by lia. exact H.
Qed.

Lemma digits2_pos_unique (m : positive) (d : Z) :
  2 ^ (d - 1) <= Zpos m < 2 ^ d -> Zpos (digits2_pos m) = d.
Proof.
  intros H. rewrite digits2_pos_log2.
  assert (0 < d).
  { destruct (Z_lt_le_dec 0 d) as [Hd | Hd]; [exact Hd |].
    destruct H as [_ H]. destruct d as [| p | p]; simpl in H; lia. }
  rewrite (Z.log2_unique (Zpos m) (d - 1)); [lia | lia |].
  replace (Z.succ (d - 1)) with d by lia. exact H.
Qed.

(** *** The interchange encoding *)

Section BitsProperties.
Variables mw ew : Z.
Hypothesis mw_pos : 1 <= mw.
Hypothesis ew_pos : 2 <= ew.

Let prec := mw + 1.
Let emax := 2 ^ (ew - 1).

Lemma emax_double : 2 ^ ew = 2 * emax.
Proof.
  unfold emax. replace ew with (Z.succ (ew - 1)) at 1 by lia.
  rewrite Z.pow_succ_r by lia. reflexivity.
Qed.

Lemma emax_ge_2 : 2 <= emax.
Proof.
  unfold emax. change 2 with (2 ^ 1) at 1. apply Z.pow_le_mono_r; lia.
Qed.

(** The two shapes of a valid finite number. *)
Lemma valid_finite_shape (s : bool) (m : positive) (e : Z) :
  valid_binary prec emax (S754_finite s m e) = true ->
  (2 ^ mw <= Zpos m < 2 ^ (mw + 1) /\ emin prec emax <= e <= emax - prec)
  \/ (Zpos m < 2 ^ mw /\ e = emin prec emax).
Proof.
  unfold valid_binary, bounded, canonical_mantissa, fexp. intros H.
  apply andb_true_iff in H as [Hc He]. apply Z.eqb_eq in Hc. apply Z.leb_le in He.
  pose proof (digits2_pos_bounds m) as Hd.
  destruct (Z.max_spec (Zpos (digits2_pos m) + e - prec) (emin prec emax)) as [[Hlt Hmax] | [Hge Hmax]];
    rewrite Hmax in Hc.
  - right. split; [| lia].
    assert (Hdp : Zpos (digits2_pos m) <= mw) by (unfold prec in *; lia).
    eapply Z.lt_le_trans; [apply Hd |]. apply Z.pow_le_mono_r; lia.
  - left. assert (Hdp : Zpos (digits2_pos m) = mw + 1) by (unfold prec in *; lia).
    rewrite Hdp in Hd. replace (mw + 1 - 1) with mw in Hd by lia. split; [exact Hd | lia].
Qed.

Lemma split_fields (M E sgn biased frac : Z) :
  0 < M -> 0 < E -> 0 <= sgn -> 0 <= biased < E -> 0 <= frac < M ->
  let x := sgn * (M * E) + biased * M + frac in
  x mod M = frac /\ (x / M) mod E = biased /\ x / (M * E) = sgn.
Proof.
  intros HM HE Hs Hb Hf x.
  assert (H1 : x mod M = frac).
  { symmetry. apply (Z.mod_unique_pos x M (sgn * E + biased) frac Hf). unfold x. ring. }
  assert (H2 : x / M = sgn * E + biased).
  { symmetry. apply (Z.div_unique_pos x M (sgn * E + biased) frac Hf). unfold x. ring. }
  split; [exact H1 |]. split.
  - rewrite H2. symmetry. apply (Z.mod_unique_pos _ E sgn biased Hb). ring.
  - rewrite <- Z.div_div by lia. rewrite H2.
    symmetry. apply (Z.div_unique_pos _ E sgn biased Hb). ring.
Qed.

Lemma bits_of_float_range (f : spec_float) :
  valid_binary prec emax f = true ->
  0 <= bits_of_float mw ew f < 2 ^ (1 + ew + mw).
Proof.
  intros Hv.
  assert (HM : 0 < 2 ^ mw) by (apply Z.pow_pos_nonneg; lia).
  assert (HE : 0 < 2 ^ ew) by (apply Z.pow_pos_nonneg; lia).
  assert (Hhalf : 2 * 2 ^ (mw - 1) = 2 ^ mw).
  { replace mw with (Z.succ (mw - 1)) at 2 by lia. rewrite Z.pow_succ_r by lia. reflexivity. }
  assert (Htot : 2 ^ (1 + ew + mw) = 2 * (2 ^ mw * 2 ^ ew)).
  { rewrite <- Z.pow_add_r by lia. replace (1 + ew + mw) with (Z.succ (mw + ew)) by lia.
    rewrite Z.pow_succ_r by lia. reflexivity. }
  assert (Hsum : 2 ^ (mw + ew) = 2 ^ mw * 2 ^ ew) by (apply Z.pow_add_r; lia).
  assert (Hsign : forall s : bool, 0 <= (if s then 2 ^ (mw + ew) else 0) <= 2 ^ mw * 2 ^ ew).
  { intros []; rewrite ?Hsum; nia. }
  rewrite Htot. unfold bits_of_float.
  destruct f as [s | s | | s m e].
  - specialize (Hsign s). nia.
  - specialize (Hsign s). nia.
  - nia.
  - pose proof emax_double as Hed. pose proof emax_ge_2 as He2.
    specialize (Hsign s).
    destruct (valid_finite_shape s m e Hv) as [[[Hm1 Hm2] He] | [Hm He]].
    + assert (Hlt : (Zpos m <? 2 ^ mw) = false) by (apply Z.ltb_ge; lia). rewrite Hlt.
      replace (mw + 1) with (Z.succ mw) in Hm2 by lia. rewrite Z.pow_succ_r in Hm2 by lia.
      fold prec emax. unfold emin in *. fold emax in Hed. nia.
    + assert (Hlt : (Zpos m <? 2 ^ mw) = true) by (apply Z.ltb_lt; lia). rewrite Hlt. nia.
Qed.

Lemma float_of_bits_of_float (f : spec_float) :
  valid_binary prec emax f = true ->
  float_of_bits mw ew (bits_of_float mw ew f) = f.
Proof.
  intros Hv.
  assert (HM : 0 < 2 ^ mw) by (apply Z.pow_pos_nonneg; lia).
  assert (HE : 0 < 2 ^ ew) by (apply Z.pow_pos_nonneg; lia).
  assert (Hhalf : 2 * 2 ^ (mw - 1) = 2 ^ mw).
  { replace mw with (Z.succ (mw - 1)) at 2 by lia. rewrite Z.pow_succ_r by lia. reflexivity. }
  assert (Hsum : 2 ^ (mw + ew) = 2 ^ mw * 2 ^ ew) by (apply Z.pow_add_r; lia).
  pose proof emax_double as Hed. pose proof emax_ge_2 as He2.
  assert (Hfields : forall (s : bool) biased frac,
            0 <= biased < 2 ^ ew -> 0 <= frac < 2 ^ mw ->
            let x := (if s then 2 ^ (mw + ew) else 0) + biased * 2 ^ mw + frac in
            x mod 2 ^ mw = frac /\ (x / 2 ^ mw) mod 2 ^ ew = biased
            /\ Z.odd (x / 2 ^ (mw + ew)) = s).
  { intros s biased frac Hb Hf x.
    destruct (split_fields (2 ^ mw) (2 ^ ew) (if s then 1 else 0) biased frac HM HE
                ltac:(destruct s; lia) Hb Hf) as (H1 & H2 & H3).
    assert (Hx : x = (if s then 1 else 0) * (2 ^ mw * 2 ^ ew) + biased * 2 ^ mw + frac).
    { unfold x. rewrite Hsum. destruct s; ring. }
    rewrite Hx, Hsum. rewrite H1, H2, H3. repeat split. now destruct s. }
  unfold float_of_bits, bits_of_float.
  destruct f as [s | s | | s m e].
  - destruct (Hfields s 0 0 ltac:(lia) ltac:(lia)) as (H1 & H2 & H3).
    rewrite Z.mul_0_l, !Z.add_0_r in H1, H2, H3. rewrite H1, H2, H3. reflexivity.
  - destruct (Hfields s (2 ^ ew - 1) 0 ltac:(lia) ltac:(lia)) as (H1 & H2 & H3).
    rewrite !Z.add_0_r in H1, H2, H3. rewrite H1, H2, H3.
    assert (Hne : (2 ^ ew - 1 =? 0) = false) by (apply Z.eqb_neq; lia).
    rewrite Hne, Z.eqb_refl. reflexivity.
  - destruct (Hfields false (2 ^ ew - 1) (2 ^ (mw - 1)) ltac:(lia) ltac:(lia))
      as (H1 & H2 & H3).
    cbn [Z.add] in H1, H2, H3. rewrite H1, H2.
    assert (Hne : (2 ^ ew - 1 =? 0) = false) by (apply Z.eqb_neq; lia).
    assert (Hnz : (2 ^ (mw - 1) =? 0) = false) by (apply Z.eqb_neq; lia).
    rewrite Hne, Z.eqb_refl, Hnz. reflexivity.
  - destruct (valid_finite_shape s m e Hv) as [[[Hm1 Hm2] He] | [Hm He]].
    + assert (Hlt : (Zpos m <? 2 ^ mw) = false) by (apply Z.ltb_ge; lia). rewrite Hlt.
      replace (mw + 1) with (Z.succ mw) in Hm2 by lia. rewrite Z.pow_succ_r in Hm2 by lia.
      fold prec emax.
      assert (Hb : 0 <= e - emin prec emax + 1 < 2 ^ ew).
      { unfold emin in *. fold emax in Hed. lia. }
      destruct (Hfields s (e - emin prec emax + 1) (Zpos m - 2 ^ mw) Hb ltac:(lia))
        as (H1 & H2 & H3).
      rewrite H1, H2, H3.
      assert (Hne : (e - emin prec emax + 1 =? 0) = false) by (apply Z.eqb_neq; lia).
      assert (Hni : (e - emin prec emax + 1 =? 2 ^ ew - 1) = false).
      { apply Z.eqb_neq. unfold emin in *. fold emax in Hed. lia. }
      rewrite Hne, Hni.
      replace (Zpos m - 2 ^ mw + 2 ^ mw) with (Zpos m) by lia.
      f_equal. lia.
    + assert (Hlt : (Zpos m <? 2 ^ mw) = true) by (apply Z.ltb_lt; lia). rewrite Hlt.
      destruct (Hfields s 0 (Zpos m) ltac:(lia) ltac:(lia)) as (H1 & H2 & H3).
      rewrite Z.mul_0_l, Z.add_0_r in H1, H2, H3. rewrite H1, H2, H3.
      fold prec emax. rewrite He. reflexivity.
Qed.

End BitsProperties.

(** *** Rounding yields valid numbers *)

Lemma Zdigits2_log2 (z : Z) : 0 < z -> Zdigits2 z = Z.log2 z + 1.
Proof. destruct z as [| p | p]; try lia. intros _. apply digits2_pos_log2. Qed.

Lemma Zdigits2_mono (a b : Z) : 0 < a <= b -> Zdigits2 a <= Zdigits2 b.
Proof.
  intros H. rewrite !Zdigits2_log2 by lia.
  pose proof (Z.log2_le_mono a b ltac:(lia)). lia.
Qed.

Lemma Zdigits2_shiftr (m n : Z) :
  0 < m -> 0 <= n -> 0 < m / 2 ^ n -> Zdigits2 (m / 2 ^ n) = Zdigits2 m - n.
Proof.
  intros Hm Hn Hq. rewrite !Zdigits2_log2 by lia.
  rewrite <- Z.shiftr_div_pow2 by lia. rewrite Z.log2_shiftr by lia.
  assert (Hle : n <= Z.log2 m).
  { apply Z.log2_le_pow2; [lia |].
    destruct (Z_lt_le_dec m (2 ^ n)) as [Hlt | Hge]; [| exact Hge].
    rewrite Z.div_small in Hq by lia. lia. }
  lia.
Qed.

Lemma Zdigits2_shiftl (m : positive) (k : Z) :
  0 <= k -> Zdigits2 (Zpos m * 2 ^ k) = Zdigits2 (Zpos m) + k.
Proof.
  intros Hk. assert (0 < 2 ^ k) by (apply Z.pow_pos_nonneg; lia).
  rewrite !Zdigits2_log2 by nia. rewrite Z.log2_mul_pow2 by lia. lia.
Qed.

Lemma Zdigits2_small (m n : Z) : 0 < m -> 0 <= n -> m / 2 ^ n = 0 -> Zdigits2 m <= n.
Proof.
  intros Hm Hn Hq. rewrite Zdigits2_log2 by lia.
  assert (Hlt : m < 2 ^ n).
  { apply Z.div_small_iff in Hq; [| apply Z.pow_nonzero; lia].
    destruct Hq as [Hq | Hq]; [lia |].
    assert (0 < 2 ^ n) by (apply Z.pow_pos_nonneg; lia). lia. }
  apply Z.log2_lt_pow2 in Hlt; lia.
Qed.

Lemma iter_xO (m d : positive) : Zpos (Pos.iter xO m d) = Zpos m * 2 ^ Zpos d.
Proof.
  induction d as [| d IH] using Pos.peano_ind.
  - simpl. lia.
  - rewrite Pos.iter_succ, Pos2Z.inj_xO, IH, Pos2Z.inj_succ, Z.pow_succ_r by lia. ring.
Qed.

Lemma shr_1_m (mrs : shr_record) :
  0 <= shr_m mrs -> shr_m (shr_1 mrs) = shr_m mrs / 2 /\ 0 <= shr_m (shr_1 mrs).
Proof.
  destruct mrs as [m r s]. cbn [shr_m]. intros Hm.
  destruct m as [| p | p]; [| | lia].
  - simpl. split; [reflexivity | lia].
  - destruct p as [p | p |]; cbn [shr_1 shr_m].
    + split; [| lia]. rewrite (Pos2Z.inj_xI p).
      apply (Z.div_unique_pos _ 2 (Zpos p) 1); lia.
    + split; [| lia]. rewrite (Pos2Z.inj_xO p).
      apply (Z.div_unique_pos _ 2 (Zpos p) 0); lia.
    + split; [reflexivity | lia].
Qed.

Lemma iter_pos_shr_m (p : positive) (mrs : shr_record) :
  0 <= shr_m mrs ->
  shr_m (iter_pos shr_1 p mrs) = shr_m mrs / 2 ^ Zpos p
  /\ 0 <= shr_m (iter_pos shr_1 p mrs).
Proof.
  revert mrs. induction p as [p IH | p IH |]; intros mrs Hm; cbn [iter_pos].
  - destruct (shr_1_m mrs Hm) as [H1 H1'].
    destruct (IH _ H1') as [H2 H2']. destruct (IH _ H2') as [H3 H3'].
    split; [| exact H3']. rewrite H3, H2, H1.
    rewrite !Z.div_div
      by (first [lia | apply Z.pow_nonzero; lia | apply Z.pow_pos_nonneg; lia]).
    f_equal. rewrite (Pos2Z.inj_xI p).
    replace (2 * Zpos p + 1) with (1 + Zpos p + Zpos p) by lia.
    rewrite !Z.pow_add_r by lia. change (2 ^ 1) with 2. ring.
  - destruct (IH _ Hm) as [H2 H2']. destruct (IH _ H2') as [H3 H3'].
    split; [| exact H3']. rewrite H3, H2.
    rewrite !Z.div_div
      by (first [lia | apply Z.pow_nonzero; lia | apply Z.pow_pos_nonneg; lia]).
    f_equal. rewrite (Pos2Z.inj_xO p).
    replace (2 * Zpos p) with (Zpos p + Zpos p) by lia.
    rewrite !Z.pow_add_r by lia. ring.
  - destruct (shr_1_m mrs Hm) as [H1 H1']. split; [| exact H1']. rewrite H1. reflexivity.
Qed.

Section Rounding.
Variables prec emax : Z.
Hypothesis prec_pos : 0 < prec.

Lemma fexp_mono (x y : Z) : x <= y -> fexp prec emax x <= fexp prec emax y.
Proof. unfold fexp. lia. Qed.

Lemma fexp_ge_emin (x : Z) : emin prec emax <= fexp prec emax x.
Proof. unfold fexp. lia. Qed.

Lemma shr_record_of_loc_m (m : Z) (l : location) : shr_m (shr_record_of_loc m l) = m.
Proof. destruct l as [| []]; reflexivity. Qed.

(** A right shift down to the exponent [fexp] asks for leaves nothing, or a
    mantissa in canonical position. *)
Lemma shr_fexp_canonical (m e : Z) (l : location) :
  0 <= m -> e <= fexp prec emax (Zdigits2 m + e) ->
  let mrs := fst (shr_fexp prec emax m e l) in
  let e' := snd (shr_fexp prec emax m e l) in
  e' = fexp prec emax (Zdigits2 m + e)
  /\ shr_m mrs = m / 2 ^ (e' - e)
  /\ 0 <= shr_m mrs
  /\ (0 < shr_m mrs -> fexp prec emax (Zdigits2 (shr_m mrs) + e') = e').
Proof.
  intros Hm He. unfold shr_fexp, shr.
  set (f := fexp prec emax (Zdigits2 m + e)) in *.
  destruct (f - e) as [| p | p] eqn:En; cbn [fst snd]; try lia.
  - rewrite Z.sub_diag, Z.pow_0_r, Z.div_1_r, shr_record_of_loc_m.
    split; [lia |]. split; [reflexivity |]. split; [lia |]. intros _. fold f. lia.
  - destruct (iter_pos_shr_m p (shr_record_of_loc m l)) as [H1 H2];
      [rewrite shr_record_of_loc_m; exact Hm |].
    rewrite shr_record_of_loc_m in H1.
    replace (e + Zpos p - e) with (Zpos p) by lia.
    split; [lia |]. split; [exact H1 |]. split; [exact H2 |].
    intros Hpos. rewrite H1 in *.
    assert (Hm' : 0 < m).
    { destruct (Z.eq_dec m 0) as [Hz | ?]; [| lia].
      rewrite Hz, Z.div_0_l in Hpos by (apply Z.pow_nonzero; lia). lia. }
    rewrite Zdigits2_shiftr by lia.
    replace (Zdigits2 m - Zpos p + (e + Zpos p)) with (Zdigits2 m + e) by lia.
    fold f. lia.
Qed.

Lemma round_nearest_even_cases (mx : Z) (lx : location) :
  round_nearest_even mx lx = mx \/ round_nearest_even mx lx = mx + 1.
Proof.
  destruct lx as [| []]; simpl; auto. destruct (Z.even mx); auto.
Qed.

Lemma binary_round_aux_valid (sx : bool) (mx ex : Z) (lx : location) :
  0 < mx -> ex <= fexp prec emax (Zdigits2 mx + ex) ->
  valid_binary prec emax (binary_round_aux prec emax sx mx ex lx) = true.
Proof.
  intros Hm He. unfold binary_round_aux.
  destruct (shr_fexp_canonical mx ex lx ltac:(lia) He) as (He1 & Hm1 & Hp1 & Hc1).
  destruct (shr_fexp prec emax mx ex lx) as [mrs' e']. cbn [fst snd] in *.
  set (mr := round_nearest_even (shr_m mrs') (loc_of_shr_record mrs')).
  assert (Hmr : mr = shr_m mrs' \/ mr = shr_m mrs' + 1) by apply round_nearest_even_cases.
  assert (He' : 0 < mr -> e' <= fexp prec emax (Zdigits2 mr + e')).
  { intros Hpos. destruct (Z.eq_dec (shr_m mrs') 0) as [H0 | Hn0].
    - (* everything was shifted out: the exponent is the minimal one *)
      assert (e' = emin prec emax).
      { rewrite H0 in Hm1. symmetry in Hm1.
        apply Zdigits2_small in Hm1; [| lia | lia].
        unfold fexp in He1. lia. }
      pose proof (fexp_ge_emin (Zdigits2 mr + e')). lia.
    - rewrite <- (Hc1 ltac:(lia)) at 1. apply fexp_mono.
      pose proof (Zdigits2_mono (shr_m mrs') mr ltac:(lia)). lia. }
  destruct (Z.eq_dec mr 0) as [Hz | Hnz].
  - (* nothing left *)
    rewrite Hz. unfold shr_fexp, shr. cbn [Zdigits2 shr_record_of_loc].
    destruct (fexp prec emax (0 + e') - e') as [| p | p]; try reflexivity.
    destruct (iter_pos_shr_m p {| shr_m := 0; shr_r := false; shr_s := false |} ltac:(simpl; lia))
      as [H _].
    cbn [shr_m] in H. rewrite Z.div_0_l in H by (apply Z.pow_nonzero; lia).
    rewrite H. reflexivity.
  - assert (Hpos : 0 < mr) by lia.
    destruct (shr_fexp_canonical mr e' loc_Exact ltac:(lia) (He' Hpos)) as (He2 & Hm2 & Hp2 & Hc2).
    destruct (shr_fexp prec emax mr e' loc_Exact) as [mrs'' e'']. cbn [fst snd] in *.
    destruct (shr_m mrs'') as [| m | m]; try reflexivity.
    destruct (e'' <=? emax - prec) eqn:Ele; [| reflexivity].
    unfold valid_binary, bounded, canonical_mantissa. rewrite Ele.
    change (Zpos (digits2_pos m)) with (Zdigits2 (Zpos m)).
    rewrite (Hc2 ltac:(lia)), Z.eqb_refl. reflexivity.
Qed.

Lemma shl_align_spec (mx : positive) (ex : Z) :
  let f := fexp prec emax (Zpos (digits2_pos mx) + ex) in
  let mz := fst (shl_align mx ex f) in
  let ez := snd (shl_align mx ex f) in
  ez <= fexp prec emax (Zdigits2 (Zpos mz) + ez)
  /\ ez = Z.min ex f
  /\ Zpos mz = Zpos mx * 2 ^ (ex - ez).
Proof.
  intros f. unfold shl_align.
  destruct (f - ex) as [| d | d] eqn:Ed; cbn [fst snd].
  - assert (f = ex) by lia. rewrite Z.sub_diag, Z.pow_0_r.
    split; [change (Zdigits2 (Zpos mx)) with (Zpos (digits2_pos mx)); fold f; lia |].
    split; lia.
  - rewrite Z.sub_diag, Z.pow_0_r.
    split; [change (Zdigits2 (Zpos mx)) with (Zpos (digits2_pos mx)); fold f; lia |].
    split; lia.
  - rewrite iter_xO. replace (ex - f) with (Zpos d) by lia.
    split; [| split; [lia | reflexivity]].
    rewrite Zdigits2_shiftl by lia. change (Zdigits2 (Zpos mx)) with (Zpos (digits2_pos mx)).
    replace (Zpos (digits2_pos mx) + Zpos d + f) with (Zpos (digits2_pos mx) + ex) by lia.
    fold f. lia.
Qed.

Lemma binary_round_valid (sx : bool) (mx : positive) (ex : Z) :
  valid_binary prec emax (binary_round prec emax sx mx ex) = true.
Proof.
  unfold binary_round.
  destruct (shl_align_spec mx ex) as (H & _ & _).
  destruct (shl_align mx ex _) as [mz ez]. cbn [fst snd] in H.
  apply binary_round_aux_valid; [lia | exact H].
Qed.

Lemma binary_normalize_valid (m e : Z) (szero : bool) :
  valid_binary prec emax (binary_normalize prec emax m e szero) = true.
Proof. destruct m; simpl; [reflexivity | apply binary_round_valid ..]. Qed.
End Rounding.

(** *** Exact cases of rounding *)

Lemma shr_1_exact (z : Z) :
  0 <= z ->
  shr_1 {| shr_m := 2 * z; shr_r := false; shr_s := false |}
  = {| shr_m := z; shr_r := false; shr_s := false |}.
Proof. destruct z; try lia; reflexivity. Qed.

Lemma iter_pos_shr_exact (p : positive) (z : Z) :
  0 <= z ->
  iter_pos shr_1 p {| shr_m := 2 ^ Zpos p * z; shr_r := false; shr_s := false |}
  = {| shr_m := z; shr_r := false; shr_s := false |}.
Proof.
  revert z. induction p as [p IH | p IH |]; intros z Hz; cbn [iter_pos].
  - assert (Hp : 0 < 2 ^ Zpos p) by (apply Z.pow_pos_nonneg; lia).
    replace (2 ^ Zpos p~1 * z) with (2 * (2 ^ Zpos p * (2 ^ Zpos p * z))).
    + rewrite shr_1_exact by nia. rewrite IH by nia. apply IH. exact Hz.
    + rewrite (Pos2Z.inj_xI p). replace (2 * Zpos p + 1) with (1 + Zpos p + Zpos p) by lia.
      rewrite !Z.pow_add_r by lia. change (2 ^ 1) with 2. ring.
  - assert (Hp : 0 < 2 ^ Zpos p) by (apply Z.pow_pos_nonneg; lia).
    replace (2 ^ Zpos p~0 * z) with (2 ^ Zpos p * (2 ^ Zpos p * z)).
    + rewrite IH by nia. apply IH. exact Hz.
    + rewrite (Pos2Z.inj_xO p). replace (2 * Zpos p) with (Zpos p + Zpos p) by lia.
      rewrite !Z.pow_add_r by lia. ring.
  - change (2 ^ 1) with 2. now apply shr_1_exact.
Qed.

Section ExactRounding.
Variables prec emax : Z.

(** A mantissa followed by [k] zero bits, [k] places below its canonical
    position, rounds to itself. *)
Lemma binary_round_aux_exact (s : bool) (m : positive) (e k : Z) :
  0 <= k ->
  fexp prec emax (Zpos (digits2_pos m) + e) = e ->
  e <= emax - prec ->
  binary_round_aux prec emax s (Zpos m * 2 ^ k) (e - k) loc_Exact = S754_finite s m e.
Proof.
  intros Hk Hc He. unfold binary_round_aux.
  assert (Hpos : 0 < Zpos m * 2 ^ k).
  { assert (0 < 2 ^ k) by (apply Z.pow_pos_nonneg; lia). nia. }
  assert (Hd : Zdigits2 (Zpos m * 2 ^ k) + (e - k) = Zpos (digits2_pos m) + e).
  { rewrite Zdigits2_shiftl by lia. cbn [Zdigits2]. lia. }
  assert (Hfirst : shr_fexp prec emax (Zpos m * 2 ^ k) (e - k) loc_Exact
                   = ({| shr_m := Zpos m; shr_r := false; shr_s := false |}, e)).
  { unfold shr_fexp. rewrite Hd, Hc. replace (e - (e - k)) with k by lia.
    unfold shr. destruct k as [| p | p]; try lia.
    - rewrite Z.pow_0_r, Z.mul_1_r, Z.sub_0_r. reflexivity.
    - cbn [shr_record_of_loc]. rewrite (Z.mul_comm (Zpos m)).
      rewrite iter_pos_shr_exact by lia. f_equal. lia. }
  rewrite Hfirst. cbn [shr_m loc_of_shr_record round_nearest_even].
  assert (Hsecond : shr_fexp prec emax (Zpos m) e loc_Exact
                    = ({| shr_m := Zpos m; shr_r := false; shr_s := false |}, e)).
  { unfold shr_fexp. cbn [Zdigits2]. rewrite Hc, Z.sub_diag. reflexivity. }
  rewrite Hsecond. cbn [shr_m].
  apply Z.leb_le in He. rewrite He. reflexivity.
Qed.

End ExactRounding.

Lemma valid_single_shape (s : bool) (m : positive) (e : Z) :
  valid_single (S754_finite s m e) ->
  fexp prec32 emax32 (Zpos (digits2_pos m) + e) = e
  /\ -149 <= e <= 104 /\ 1 <= Zpos (digits2_pos m) <= 24.
Proof.
  unfold valid_single, valid_binary, bounded, canonical_mantissa. intros H.
  apply andb_true_iff in H as [Hc He]. apply Z.eqb_eq in Hc. apply Z.leb_le in He.
  split; [exact Hc |]. unfold fexp, emin, prec32, emax32 in *. lia.
Qed.

(** A binary32 number as a float: the same mantissa, in the position that is
    canonical for binary64. *)
Lemma of_single_finite (s : bool) (m : positive) (e : Z) :
  valid_single (S754_finite s m e) ->
  let k := 53 - Zpos (digits2_pos m) in
  exists mz, Zpos mz = Zpos m * 2 ^ k
             /\ of_single (S754_finite s m e) = S754_finite s mz (e - k).
Proof.
  intros Hv k. destruct (valid_single_shape s m e Hv) as (Hc & He & Hd).
  assert (Hk : 0 < k) by (unfold k; lia).
  unfold of_single, binary_round.
  destruct (shl_align_spec prec64 emax64 m e) as (_ & Hez & Hmz).
  destruct (shl_align m e _) as [mz ez]. cbn [fst snd] in *.
  assert (Hf : fexp prec64 emax64 (Zpos (digits2_pos m) + e) = e - k).
  { unfold fexp, emin, prec64, emax64, k. lia. }
  rewrite Hf in Hez. replace (Z.min e (e - k)) with (e - k) in Hez by lia. subst ez.
  replace (e - (e - k)) with k in Hmz by lia.
  exists mz. split; [exact Hmz |].
  assert (Hdz : Zpos (digits2_pos mz) = 53).
  { change (Zpos (digits2_pos mz)) with (Zdigits2 (Zpos mz)).
    rewrite Hmz, Zdigits2_shiftl by lia. cbn [Zdigits2]. unfold k. lia. }
  pose proof (binary_round_aux_exact prec64 emax64 s mz (e - k) 0 ltac:(lia)) as H.
  rewrite Z.pow_0_r, Z.mul_1_r, Z.sub_0_r in H. apply H.
  - rewrite Hdz. unfold fexp, emin, prec64, emax64, k. lia.
  - unfold prec64, emax64. lia.
Qed.

(** Single precision numbers survive the passage through a float. *)
Lemma to_single_of_single (r : spec_float) :
  valid_single r -> to_single (of_single r) = Ok r.
Proof.
  intros Hv. destruct r as [s | s | | s m e]; try reflexivity.
  destruct (valid_single_shape s m e Hv) as (Hc & He & Hd).
  destruct (of_single_finite s m e Hv) as (mz & Hmz & ->).
  set (k := 53 - Zpos (digits2_pos m)) in *.
  assert (Hk : 0 < k) by (unfold k; lia).
  unfold to_single, binary_round.
  destruct (shl_align_spec prec32 emax32 mz (e - k)) as (_ & Hez & Hmz').
  destruct (shl_align mz (e - k) _) as [mz' ez']. cbn [fst snd] in *.
  assert (Hdz : Zpos (digits2_pos mz) + (e - k) = Zpos (digits2_pos m) + e).
  { change (Zpos (digits2_pos mz)) with (Zdigits2 (Zpos mz)).
    rewrite Hmz, Zdigits2_shiftl by lia. cbn [Zdigits2]. lia. }
  rewrite Hdz, Hc in Hez. replace (Z.min (e - k) e) with (e - k) in Hez by lia. subst ez'.
  rewrite Z.sub_diag, Z.pow_0_r, Z.mul_1_r in Hmz'. rewrite Hmz', Hmz.
  rewrite (binary_round_aux_exact prec32 emax32 s m e k); [reflexivity | lia | exact Hc |].
  unfold prec32, emax32. lia.
Qed.

(** *** The exponent after rounding *)

Section RoundingExponent.
Variables prec emax : Z.
Hypothesis prec_pos : 0 < prec.

(** Rounding overflows only if the canonical exponent of a number one bit
    longer is beyond the largest one. *)
Lemma binary_round_aux_overflow (sx : bool) (mx ex : Z) (lx : location) (s' : bool) :
  0 < mx -> ex <= fexp prec emax (Zdigits2 mx + ex) ->
  binary_round_aux prec emax sx mx ex lx = S754_infinity s' ->
  emax - prec < fexp prec emax (Zdigits2 mx + ex + 1).
Proof.
  intros Hm He. unfold binary_round_aux.
  destruct (shr_fexp_canonical prec emax mx ex lx ltac:(lia) He)
    as (He1 & Hm1 & Hp1 & Hc1).
  destruct (shr_fexp prec emax mx ex lx) as [mrs' e']. cbn [fst snd] in *.
  set (mr := round_nearest_even (shr_m mrs') (loc_of_shr_record mrs')).
  assert (Hmr : mr = shr_m mrs' \/ mr = shr_m mrs' + 1) by apply round_nearest_even_cases.
  destruct (Z.eq_dec mr 0) as [Hz | Hnz].
  - rewrite Hz. unfold shr_fexp, shr. cbn [Zdigits2 shr_record_of_loc].
    destruct (fexp prec emax (0 + e') - e') as [| p | p]; try discriminate.
    destruct (iter_pos_shr_m p {| shr_m := 0; shr_r := false; shr_s := false |} ltac:(simpl; lia))
      as [H _].
    cbn [shr_m] in H. rewrite Z.div_0_l in H by (apply Z.pow_nonzero; lia).
    cbn [fst snd]. rewrite H. discriminate.
  - assert (Hpos : 0 < mr) by lia.
    assert (Hdg : fexp prec emax (Zdigits2 mr + e')
                  <= fexp prec emax (Zdigits2 mx + ex + 1)).
    { destruct (Z.eq_dec (shr_m mrs') 0) as [H0 | Hn0].
      - assert (Hone : mr = 1) by lia.
        assert (Hemin : e' = emin prec emax).
        { rewrite H0 in Hm1. symmetry in Hm1.
          apply Zdigits2_small in Hm1; [| lia | lia].
          unfold fexp in He1. lia. }
        rewrite Hone. cbn [Zdigits2 digits2_pos].
        pose proof (fexp_ge_emin prec emax (Zdigits2 mx + ex + 1)).
        unfold fexp in *. lia.
      - assert (Hd1 : Zdigits2 (shr_m mrs') = Zdigits2 mx - (e' - ex)).
        { rewrite Hm1. apply Zdigits2_shiftr; [lia | lia | lia]. }
        assert (Hd2 : Zdigits2 mr <= Zdigits2 (shr_m mrs') + 1).
        { destruct Hmr as [-> | ->]; [lia |].
          rewrite !Zdigits2_log2 by lia.
          pose proof (Z.log2_succ_le (shr_m mrs')). unfold Z.succ in *. lia. }
        apply fexp_mono. lia. }
    assert (He' : e' <= fexp prec emax (Zdigits2 mr + e')).
    { destruct (Z.eq_dec (shr_m mrs') 0) as [H0 | Hn0].
      - assert (e' = emin prec emax).
        { rewrite H0 in Hm1. symmetry in Hm1.
          apply Zdigits2_small in Hm1; [| lia | lia].
          unfold fexp in He1. lia. }
        pose proof (fexp_ge_emin prec emax (Zdigits2 mr + e')). lia.
      - rewrite <- (Hc1 ltac:(lia)) at 1. apply fexp_mono.
        pose proof (Zdigits2_mono (shr_m mrs') mr ltac:(lia)). lia. }
    destruct (shr_fexp_canonical prec emax mr e' loc_Exact ltac:(lia) He')
      as (He2 & Hm2 & Hp2 & Hc2).
    destruct (shr_fexp prec emax mr e' loc_Exact) as [mrs'' e'']. cbn [fst snd] in *.
    destruct (shr_m mrs'') as [| m | m]; try discriminate.
    destruct (e'' <=? emax - prec) eqn:Ele; [discriminate |].
    intros _. apply Z.leb_gt in Ele. lia.
Qed.

Lemma binary_round_overflow (sx : bool) (mx : positive) (ex : Z) (s' : bool) :
  binary_round prec emax sx mx ex = S754_infinity s' ->
  emax - prec < fexp prec emax (Zpos (digits2_pos mx) + ex + 1).
Proof.
  unfold binary_round.
  destruct (shl_align_spec prec emax mx ex) as (H & Hez & Hmz).
  destruct (shl_align mx ex _) as [mz ez]. cbn [fst snd] in *.
  intros Hinf. apply binary_round_aux_overflow in Hinf; [| lia | exact H].
  assert (Hd : Zdigits2 (Zpos mz) + ez = Zpos (digits2_pos mx) + ex).
  { rewrite Hmz, Zdigits2_shiftl by lia. cbn [Zdigits2]. lia. }
  rewrite Hd in Hinf. exact Hinf.
Qed.

End RoundingExponent.

(** *** Floats on the wire *)

Lemma float_of_int_valid (z : Z) (f : float) : float_of_int z = Ok f -> valid_float f.
Proof.
  unfold float_of_int. pose proof (binary_normalize_valid prec64 emax64 ltac:(reflexivity) z 0 false) as H.
  destruct (binary_normalize prec64 emax64 z 0 false); intros E; inversion E; subst; exact H.
Qed.

Lemma float_lit_valid (z : Z) : valid_float (float_lit z).
Proof. apply binary_normalize_valid. reflexivity. Qed.

(** An integer of 64 bits converts. *)
Lemma float_of_int_u64 (z : Z) : 0 <= z < 2 ^ 64 -> exists f, float_of_int z = Ok f.
Proof.
  intros Hz. unfold float_of_int.
  destruct (binary_normalize prec64 emax64 z 0 false) as [s | s | | s m e] eqn:E; eauto.
  exfalso. destruct z as [| p | p]; try lia; simpl in E; [discriminate |].
  apply binary_round_overflow in E; [| reflexivity].
  assert (Hd : Zpos (digits2_pos p) <= 64).
  { pose proof (digits2_pos_bounds p) as [Hlo _].
    destruct (Z_le_gt_dec (Zpos (digits2_pos p)) 64) as [Hle | Hgt]; [exact Hle |].
    assert (2 ^ 64 <= 2 ^ (Zpos (digits2_pos p) - 1)) by (apply Z.pow_le_mono_r; lia). lia. }
  unfold fexp, emin, prec64, emax64 in E. lia.
Qed.

Lemma unpack_pack_d (f : float) : valid_float f -> unpack_d (pack_d f) = Ok f.
Proof.
  intros Hv. unfold unpack_d, pack_d. rewrite be_bytes_length. cbn [Nat.eqb].
  pose proof (bits_of_float_range 52 11 ltac:(lia) ltac:(lia) f Hv) as Hr.
  rewrite be_value_be_bytes by (change (256 ^ Z.of_nat 8) with (2 ^ (1 + 11 + 52)); exact Hr).
  now rewrite (float_of_bits_of_float 52 11 ltac:(lia) ltac:(lia) f Hv).
Qed.

Lemma to_single_valid (f : float) (r : spec_float) :
  valid_float f -> to_single f = Ok r -> valid_single r.
Proof.
  intros Hv. unfold to_single. destruct f as [s | s | | s m e].
  - intros H. now inversion H.
  - intros H. now inversion H.
  - intros H. now inversion H.
  - pose proof (binary_round_valid prec32 emax32 ltac:(reflexivity) s m e) as Hr.
    destruct (binary_round prec32 emax32 s m e); intros H; inversion H; subst; exact Hr.
Qed.

Lemma of_single_valid (r : spec_float) : valid_float (of_single r).
Proof.
  destruct r as [s | s | | s m e]; try reflexivity.
  apply binary_round_valid. reflexivity.
Qed.

Lemma pack_f_ok (f : float) (bs : list byte) :
  valid_float f -> pack_f f = Ok bs ->
  exists r, to_single f = Ok r /\ valid_single r /\ length bs = 4%nat
            /\ unpack_f bs = Ok (of_single r).
Proof.
  intros Hv H. unfold pack_f in H. apply bind_ok in H as (r & Hr & H).
  apply Ok_inj in H. subst bs. exists r.
  pose proof (to_single_valid f r Hv Hr) as Hvr.
  split; [exact Hr |]. split; [exact Hvr |]. split; [apply be_bytes_length |].
  unfold unpack_f. rewrite be_bytes_length. cbn [Nat.eqb].
  pose proof (bits_of_float_range 23 8 ltac:(lia) ltac:(lia) r Hvr) as Hrange.
  rewrite be_value_be_bytes by (change (256 ^ Z.of_nat 4) with (2 ^ (1 + 8 + 23)); exact Hrange).
  now rewrite (float_of_bits_of_float 23 8 ltac:(lia) ltac:(lia) r Hvr).
Qed.

(** *** The error of rounding *)

Lemma shr_1_dropped (mrs : shr_record) (n rem M : Z) :
  0 <= n -> 0 <= shr_m mrs ->
  M = shr_m mrs * 2 ^ n + rem -> dropped n rem (shr_r mrs) (shr_s mrs) ->
  exists rem',
    M = shr_m (shr_1 mrs) * 2 ^ (n + 1) + rem'
    /\ dropped (n + 1) rem' (shr_r (shr_1 mrs)) (shr_s (shr_1 mrs))
    /\ 0 <= shr_m (shr_1 mrs).
Proof.
  intros Hn Hm HM Hd. destruct mrs as [m r s]. cbn [shr_m shr_r shr_s] in *.
  assert (HP : 0 < 2 ^ n) by (apply Z.pow_pos_nonneg; lia).
  unfold dropped in *. rewrite !(Z.pow_add_r 2 n 1) by lia. change (2 ^ 1) with 2.
  set (P := 2 ^ n) in *. clearbody P.
  destruct m as [| p | p]; [| | lia].
  - exists rem. cbn [shr_1 shr_m shr_r shr_s].
    split; [lia |]. split; [| lia]. destruct r, s; cbn [orb]; lia.
  - destruct p as [p | p |]; cbn [shr_1 shr_m shr_r shr_s].
    + exists (P + rem). rewrite (Pos2Z.inj_xI p) in HM.
      split; [lia |]. split; [| lia]. destruct r, s; cbn [orb]; lia.
    + exists rem. rewrite (Pos2Z.inj_xO p) in HM.
      split; [lia |]. split; [| lia]. destruct r, s; cbn [orb]; lia.
    + exists (P + rem). split; [lia |]. split; [| lia]. destruct r, s; cbn [orb]; lia.
Qed.

Lemma iter_pos_shr_dropped (p : positive) (mrs : shr_record) (n rem M : Z) :
  0 <= n -> 0 <= shr_m mrs ->
  M = shr_m mrs * 2 ^ n + rem -> dropped n rem (shr_r mrs) (shr_s mrs) ->
  let mrs' := iter_pos shr_1 p mrs in
  exists rem',
    M = shr_m mrs' * 2 ^ (n + Zpos p) + rem'
    /\ dropped (n + Zpos p) rem' (shr_r mrs') (shr_s mrs')
    /\ 0 <= shr_m mrs'.
Proof.
  revert mrs n rem. induction p as [p IH | p IH |]; intros mrs n rem Hn Hm HM Hd;
    cbn [iter_pos].
  - destruct (shr_1_dropped mrs n rem M Hn Hm HM Hd) as (r1 & H1 & D1 & P1).
    destruct (IH _ (n + 1) _ ltac:(lia) P1 H1 D1) as (r2 & H2 & D2 & P2).
    destruct (IH _ (n + 1 + Zpos p) _ ltac:(lia) P2 H2 D2) as (r3 & H3 & D3 & P3).
    replace (n + Zpos p~1) with (n + 1 + Zpos p + Zpos p) by lia. eauto.
  - destruct (IH _ _ _ Hn Hm HM Hd) as (r2 & H2 & D2 & P2).
    destruct (IH _ (n + Zpos p) _ ltac:(lia) P2 H2 D2) as (r3 & H3 & D3 & P3).
    replace (n + Zpos p~0) with (n + Zpos p + Zpos p) by lia. eauto.
  - exact (shr_1_dropped mrs n rem M Hn Hm HM Hd).
Qed.

Lemma round_nearest_even_error (m n rem : Z) (r s : bool) :
  0 <= n -> dropped n rem r s ->
  let mr := round_nearest_even m (loc_of_shr_record {| shr_m := m; shr_r := r; shr_s := s |}) in
  2 * Z.abs (mr * 2 ^ n - (m * 2 ^ n + rem)) <= 2 ^ n.
Proof.
  intros Hn Hd. assert (HP : 0 < 2 ^ n) by (apply Z.pow_pos_nonneg; lia).
  unfold dropped in Hd. set (P := 2 ^ n) in *. clearbody P.
  destruct r, s; cbn [loc_of_shr_record round_nearest_even]; try lia.
  destruct (Z.even m); lia.
Qed.

Lemma succ_digit_power (m : Z) :
  0 < m -> Zdigits2 (m + 1) = Zdigits2 m + 1 -> m + 1 = 2 * 2 ^ (Zdigits2 m - 1).
Proof.
  intros Hm Hd. rewrite !Zdigits2_log2 in * by lia.
  destruct (Z.log2_spec m Hm) as [_ Hhi].
  destruct (Z.log2_spec (m + 1) ltac:(lia)) as [Hlo _].
  replace (Z.log2 (m + 1)) with (Z.succ (Z.log2 m)) in Hlo by lia.
  replace (Z.log2 m + 1 - 1) with (Z.log2 m) by lia.
  rewrite Z.pow_succ_r in Hhi, Hlo by apply Z.log2_nonneg. lia.
Qed.

Section RoundingError.
Variables prec emax : Z.
Hypothesis prec_pos : 0 < prec.

Lemma shr_fexp_dropped (m e : Z) :
  0 <= m -> e <= fexp prec emax (Zdigits2 m + e) ->
  exists rem,
    m = shr_m (fst (shr_fexp prec emax m e loc_Exact))
        * 2 ^ (fexp prec emax (Zdigits2 m + e) - e) + rem
    /\ dropped (fexp prec emax (Zdigits2 m + e) - e) rem
         (shr_r (fst (shr_fexp prec emax m e loc_Exact)))
         (shr_s (fst (shr_fexp prec emax m e loc_Exact))).
Proof.
  intros Hm He. unfold shr_fexp, shr.
  destruct (fexp prec emax (Zdigits2 m + e) - e) as [| p | p] eqn:En; cbn [fst]; [| | lia].
  - exists 0. cbn [shr_record_of_loc shr_m shr_r shr_s dropped]. split; [| reflexivity]. lia.
  - destruct (iter_pos_shr_dropped p (shr_record_of_loc m loc_Exact) 0 0 m)
      as (rem & H1 & H2 & _); cbn [shr_record_of_loc shr_m shr_r shr_s dropped];
      try lia; try reflexivity.
    exists rem. rewrite Z.add_0_l in H1, H2. split; assumption.
Qed.

(** Rounding to nearest moves a number by at most half a unit of the
    position it is rounded at. *)
Lemma binary_round_aux_error (sx : bool) (mx ex : Z) :
  0 < mx -> ex <= fexp prec emax (Zdigits2 mx + ex) ->
  match binary_round_aux prec emax sx mx ex loc_Exact with
  | S754_finite s m e =>
      s = sx /\ ex <= e
      /\ 2 * Z.abs (Zpos m * 2 ^ (e - ex) - mx) <= 2 ^ (fexp prec emax (Zdigits2 mx + ex) - ex)
  | S754_zero _ => 2 * mx <= 2 ^ (fexp prec emax (Zdigits2 mx + ex) - ex)
  | S754_infinity _ => True
  | S754_nan => False
  end.
Proof.
  intros Hm He. unfold binary_round_aux.
  destruct (shr_fexp_canonical prec emax mx ex loc_Exact ltac:(lia) He)
    as (He1 & Hm1 & Hp1 & Hc1).
  destruct (shr_fexp_dropped mx ex ltac:(lia) He) as (rem & Hrem & Hdrop).
  destruct (shr_fexp prec emax mx ex loc_Exact) as [mrs' e']. cbn [fst snd] in *.
  set (n := fexp prec emax (Zdigits2 mx + ex) - ex) in *.
  assert (Hn : 0 <= n) by (unfold n; lia).
  assert (He'n : e' = ex + n) by (unfold n; lia).
  destruct mrs' as [m1 r1 s1]. cbn [shr_m shr_r shr_s] in *.
  pose proof (round_nearest_even_error m1 n rem r1 s1 Hn Hdrop) as Herr.
  pose proof (round_nearest_even_cases m1
                (loc_of_shr_record {| shr_m := m1; shr_r := r1; shr_s := s1 |})) as Hmr.
  cbv zeta in Herr. rewrite <- Hrem in Herr.
  set (mr := round_nearest_even m1 _) in *. clearbody mr.
  assert (HP : 0 < 2 ^ n) by (apply Z.pow_pos_nonneg; lia).
  destruct (Z.eq_dec mr 0) as [Hz | Hnz].
  - rewrite Hz in *. unfold shr_fexp, shr. cbn [Zdigits2 shr_record_of_loc].
    assert (H0 : 2 * mx <= 2 ^ n) by lia.
    destruct (fexp prec emax (0 + e') - e') as [| p | p]; try exact H0.
    destruct (iter_pos_shr_m p {| shr_m := 0; shr_r := false; shr_s := false |} ltac:(simpl; lia))
      as [H _].
    cbn [shr_m] in H. rewrite Z.div_0_l in H by (apply Z.pow_nonzero; lia).
    rewrite H. exact H0.
  - assert (Hpos : 0 < mr) by lia.
    (* the second shift is by at most one place, and drops a zero *)
    assert (Hsecond : fexp prec emax (Zdigits2 mr + e') = e'
                      \/ (fexp prec emax (Zdigits2 mr + e') = e' + 1
                          /\ exists h, mr = 2 * h)).
    { destruct (Z.eq_dec m1 0) as [H0 | Hn0].
      - left. assert (Hone : mr = 1) by lia.
        assert (Hemin : e' = emin prec emax).
        { rewrite H0 in Hm1. symmetry in Hm1.
          apply Zdigits2_small in Hm1; [| lia | lia].
          unfold fexp in He1. lia. }
        rewrite Hone. cbn [Zdigits2 digits2_pos]. unfold fexp, emin in *. lia.
      - pose proof (Hc1 ltac:(lia)) as Hc.
        destruct Hmr as [-> | Hsucc]; [left; exact Hc |].
        assert (Hd2 : Zdigits2 m1 <= Zdigits2 mr <= Zdigits2 m1 + 1).
        { rewrite Hsucc. rewrite !Zdigits2_log2 by lia.
          pose proof (Z.log2_succ_le m1). pose proof (Z.log2_le_mono m1 (m1 + 1) ltac:(lia)).
          unfold Z.succ in *. lia. }
        destruct (Z.eq_dec (Zdigits2 mr) (Zdigits2 m1)) as [Hsame | Hdiff].
        + left. rewrite Hsame. exact Hc.
        + assert (Hd3 : Zdigits2 (m1 + 1) = Zdigits2 m1 + 1) by (rewrite <- Hsucc; lia).
          pose proof (succ_digit_power m1 ltac:(lia) Hd3) as Hpow.
          destruct (Z.eq_dec (fexp prec emax (Zdigits2 mr + e')) e') as [Hq | Hq];
            [left; exact Hq | right].
          split; [unfold fexp in *; lia |].
          exists (2 ^ (Zdigits2 m1 - 1)). lia. }
    assert (He' : e' <= fexp prec emax (Zdigits2 mr + e')) by lia.
    destruct (shr_fexp_canonical prec emax mr e' loc_Exact ltac:(lia) He')
      as (He2 & Hm2 & Hp2 & Hc2).
    destruct (shr_fexp prec emax mr e' loc_Exact) as [mrs'' e'']. cbn [fst snd] in *.
    assert (Hexact : shr_m mrs'' * 2 ^ (e'' - e') = mr).
    { rewrite Hm2. destruct Hsecond as [Hs | [Hs [h Hh]]].
      - replace (e'' - e') with 0 by lia. rewrite Z.pow_0_r, Z.div_1_r. lia.
      - replace (e'' - e') with 1 by lia. change (2 ^ 1) with 2. rewrite Hh.
        rewrite (Z.mul_comm 2 h), Z.div_mul by lia. lia. }
    destruct (shr_m mrs'') as [| m | m] eqn:Em.
    + rewrite Z.mul_0_l in Hexact. lia.
    + destruct (e'' <=? emax - prec); [| exact I].
      split; [reflexivity |]. split; [lia |].
      replace (e'' - ex) with ((e'' - e') + n) by lia.
      rewrite Z.pow_add_r by lia. rewrite Z.mul_assoc, Hexact. exact Herr.
    + lia.
Qed.

Lemma binary_round_error (s : bool) (m : positive) (e : Z) :
  let f := fexp prec emax (Zpos (digits2_pos m) + e) in
  let ez := Z.min e f in
  match binary_round prec emax s m e with
  | S754_finite s' m' e' =>
      s' = s /\ ez <= e'
      /\ 2 * Z.abs (Zpos m' * 2 ^ (e' - ez) - Zpos m * 2 ^ (e - ez)) <= 2 ^ (f - ez)
  | S754_zero _ => 2 * (Zpos m * 2 ^ (e - ez)) <= 2 ^ (f - ez)
  | S754_infinity _ => True
  | S754_nan => False
  end.
Proof.
  intros f ez. unfold binary_round. fold f.
  destruct (shl_align_spec prec emax m e) as (Hcan & Hez & Hmz).
  fold f in Hcan, Hez, Hmz.
  destruct (shl_align m e f) as [mz ez']. cbn [fst snd] in *.
  fold ez in Hez. subst ez'.
  pose proof (binary_round_aux_error s (Zpos mz) ez ltac:(lia) Hcan) as H.
  assert (Hd : Zdigits2 (Zpos mz) + ez = Zpos (digits2_pos m) + e).
  { rewrite Hmz, Zdigits2_shiftl by lia. cbn [Zdigits2]. lia. }
  rewrite Hd in H. fold f in H. rewrite <- Hmz. exact H.
Qed.

End RoundingError.

Lemma within_positive (den : Z) (x y : float) :
  2 <= den -> 0 < units y -> within den x y = true -> 0 < units x.
Proof.
  intros Hden Hy H. unfold within in H.
  apply andb_true_iff in H as [_ H]. apply Z.leb_le in H. nia.
Qed.

Lemma units_pos_fle (x : float) : 0 < units x -> fle (float_lit 0) x = true.
Proof.
  destruct x as [s | s | | s m e]; cbn [units]; try lia.
  destruct s; [lia | reflexivity].
Qed.

Lemma valid_float_exponent (s : bool) (m : positive) (e : Z) :
  valid_float (S754_finite s m e) -> -1074 <= e /\ Zpos (digits2_pos m) <= 53.
Proof.
  unfold valid_float, valid_binary, bounded, canonical_mantissa. intros H.
  apply andb_true_iff in H as [Hc He]. apply Z.eqb_eq in Hc.
  unfold fexp, emin, prec64, emax64 in *. lia.
Qed.

Lemma units_of_single (r : spec_float) : valid_single r -> units (of_single r) = units r.
Proof.
  intros Hv. destruct r as [s | s | | s m e]; try reflexivity.
  destruct (valid_single_shape s m e Hv) as (_ & He & Hd).
  destruct (of_single_finite s m e Hv) as (mz & Hmz & ->).
  cbn [units]. rewrite Hmz. f_equal. rewrite <- Z.mul_assoc. f_equal.
  rewrite <- Z.pow_add_r by lia. f_equal. lia.
Qed.

Lemma is_number_of_single (r : spec_float) :
  valid_single r -> is_number (of_single r) = is_number r.
Proof.
  intros Hv. destruct r as [s | s | | s m e]; try reflexivity.
  destruct (of_single_finite s m e Hv) as (mz & _ & ->). reflexivity.
Qed.

(** Conversion to single precision of a float of magnitude [2 ^ -126] or
    more, the smallest normal single, changes it by at most one part in
    [2 ^ 24]: it is within every relative tolerance down to that one. *)
Lemma single_precision_error (f : float) (r : spec_float) (den : Z) :
  valid_float f -> to_single f = Ok r -> 2 ^ 948 <= Z.abs (units f) ->
  den <= 2 ^ 24 ->
  within den (of_single r) f = true.
Proof.
  intros Hv Hr Hbig Hden. destruct f as [s | s | | s m e]; try (cbn in Hbig; lia).
  pose proof (to_single_valid _ _ Hv Hr) as Hvr.
  destruct (valid_float_exponent s m e Hv) as [He Hdig].
  unfold within. rewrite (is_number_of_single r Hvr), (units_of_single r Hvr).
  unfold to_single in Hr.
  pose proof (binary_round_error prec32 emax32 ltac:(reflexivity) s m e) as Herr.
  cbv zeta in Herr.
  pose proof (digits2_pos_bounds m) as Hd.
  set (d := Zpos (digits2_pos m)) in *.
  assert (Hdpos : 0 < d) by (unfold d; lia). clearbody d.
  assert (Hmag : -125 <= d + e).
  { destruct (Z_lt_le_dec (d + e) (-125)) as [Hlt | Hge]; [exfalso | exact Hge].
    cbn [units] in Hbig.
    assert (Hu : Zpos m * 2 ^ (e + 1074) < 2 ^ (d + (e + 1074))).
    { rewrite (Z.pow_add_r 2 d (e + 1074)) by lia. apply Z.mul_lt_mono_pos_r; [apply Z.pow_pos_nonneg; lia | lia]. }
    assert (Hle : 2 ^ (d + (e + 1074)) <= 2 ^ 948) by (apply Z.pow_le_mono_r; lia).
    assert (0 < 2 ^ (e + 1074)) by (apply Z.pow_pos_nonneg; lia).
    destruct s; lia. }
  assert (Hf : fexp prec32 emax32 (d + e) = d + e - 24).
  { unfold fexp, emin, prec32, emax32. lia. }
  rewrite Hf in Herr.
  set (ez := Z.min e (d + e - 24)) in *.
  assert (Hez : -1074 <= ez <= e /\ ez <= d + e - 24) by (unfold ez; lia).
  assert (HU : 0 < 2 ^ (ez + 1074)) by (apply Z.pow_pos_nonneg; lia).
  assert (HB : 2 ^ 23 * 2 ^ (d + e - 24 - ez) <= Zpos m * 2 ^ (e - ez)).
  { rewrite <- Z.pow_add_r by lia.
    replace (23 + (d + e - 24 - ez)) with ((d - 1) + (e - ez)) by lia.
    rewrite Z.pow_add_r by lia.
    apply Z.mul_le_mono_nonneg_r; [apply Z.pow_nonneg; lia | lia]. }
  assert (HN : 0 < 2 ^ (d + e - 24 - ez)) by (apply Z.pow_pos_nonneg; lia).
  assert (Hfu : Zpos m * 2 ^ (e + 1074) = Zpos m * 2 ^ (e - ez) * 2 ^ (ez + 1074)).
  { rewrite <- Z.mul_assoc, <- Z.pow_add_r by lia. do 2 f_equal. lia. }
  destruct (binary_round prec32 emax32 s m e) as [s' | s' | | s' m' e'] eqn:Er.
  - exfalso. lia.
  - discriminate.
  - destruct Herr.
  - apply Ok_inj in Hr. subst r. destruct Herr as (-> & He' & Herr).
    cbn [is_number andb units]. apply Z.leb_le.
    assert (Hru : Zpos m' * 2 ^ (e' + 1074) = Zpos m' * 2 ^ (e' - ez) * 2 ^ (ez + 1074)).
    { rewrite <- Z.mul_assoc, <- Z.pow_add_r by lia. do 2 f_equal. lia. }
    rewrite Hru, Hfu.
    set (A := Zpos m' * 2 ^ (e' - ez)) in *. set (B := Zpos m * 2 ^ (e - ez)) in *.
    set (U := 2 ^ (ez + 1074)) in *. set (N := 2 ^ (d + e - 24 - ez)) in *.
    change (2 ^ 23) with 8388608 in HB. change (2 ^ 24) with 16777216 in Hden.
    clearbody A B U N.
    assert (Habs : den * Z.abs (A - B) <= B) by nia.
    assert (HBpos : 0 <= B) by lia.
    replace ((if s then -1 else 1) * (A * U) - (if s then -1 else 1) * (B * U))
      with ((if s then -1 else 1) * ((A - B) * U)) by (destruct s; ring).
    replace (Z.abs ((if s then -1 else 1) * ((A - B) * U))) with (Z.abs (A - B) * U)
      by (destruct s; rewrite ?Z.abs_mul; simpl Z.abs; rewrite (Z.abs_eq U) by lia; lia).
    replace (Z.abs ((if s then -1 else 1) * (B * U))) with (B * U)
      by (destruct s; rewrite ?Z.abs_mul; simpl Z.abs; rewrite (Z.abs_eq U), (Z.abs_eq B) by lia; lia).
    rewrite Z.mul_assoc. apply Z.mul_le_mono_nonneg_r; [lia | exact Habs].
Qed.

Lemma binary_round_zero_sign (prec emax : Z) (s : bool) (m : positive) (e : Z) (s' : bool) :
  binary_round prec emax s m e = S754_zero s' -> s' = s.
Proof.
  unfold binary_round, binary_round_aux.
  destruct (shl_align m e _) as [mz ez].
  destruct (shr_fexp prec emax (Zpos mz) ez loc_Exact) as [mrs' e'].
  destruct (shr_fexp prec emax _ e' loc_Exact) as [mrs'' e''].
  destruct (shr_m mrs'') as [| p | p]; [congruence | | discriminate].
  destruct (e'' <=? emax - prec); discriminate.
Qed.

(** Conversion to single precision of a negative float. Beyond [2 ^ -150]
    in magnitude, half the smallest positive single, the result is negative;
    below, it is the negative zero. *)
Lemma to_single_negative (m : positive) (e : Z) (r : spec_float) :
  valid_float (S754_finite true m e) ->
  to_single (S754_finite true m e) = Ok r ->
  (2 ^ 924 < Zpos m * 2 ^ (e + 1074) -> exists m' e', r = S754_finite true m' e')
  /\ (Zpos m * 2 ^ (e + 1074) < 2 ^ 924 -> r = S754_zero true).
Proof.
  intros Hv Hr.
  pose proof (to_single_valid _ _ Hv Hr) as Hvr.
  destruct (valid_float_exponent true m e Hv) as [He Hdig].
  unfold to_single in Hr.
  pose proof (binary_round_error prec32 emax32 ltac:(reflexivity) true m e) as Herr.
  cbv zeta in Herr.
  pose proof (binary_round_zero_sign prec32 emax32 true m e) as Hsign.
  pose proof (digits2_pos_bounds m) as Hd.
  set (d := Zpos (digits2_pos m)) in *.
  assert (Hdpos : 0 < d) by (unfold d; lia). clearbody d.
  set (f := fexp prec32 emax32 (d + e)) in *.
  assert (Hf : f = Z.max (d + e - 24) (-149)).
  { unfold f, fexp, emin, prec32, emax32. lia. }
  set (ez := Z.min e f) in *.
  assert (Hez : -1074 <= ez <= e /\ ez <= f) by (unfold ez; lia).
  assert (HU : 0 < 2 ^ (ez + 1074)) by (apply Z.pow_pos_nonneg; lia).
  assert (Hfu : Zpos m * 2 ^ (e + 1074) = Zpos m * 2 ^ (e - ez) * 2 ^ (ez + 1074)).
  { rewrite <- Z.mul_assoc, <- Z.pow_add_r by lia. do 2 f_equal. lia. }
  assert (Hff : 2 ^ (f + 1074) = 2 ^ (f - ez) * 2 ^ (ez + 1074)).
  { rewrite <- Z.pow_add_r by lia. f_equal. lia. }
  assert (Hlow : 2 ^ (d - 1 + e + 1074) <= Zpos m * 2 ^ (e + 1074)).
  { replace (d - 1 + e + 1074) with ((d - 1) + (e + 1074)) by lia.
    rewrite Z.pow_add_r by lia.
    apply Z.mul_le_mono_nonneg_r; [apply Z.pow_nonneg; lia | lia]. }
  split.
  - intros Hbig.
    destruct (binary_round prec32 emax32 true m e) as [s' | s' | | s' m' e'] eqn:Er.
    + exfalso.
      assert (H2 : 2 * (Zpos m * 2 ^ (e + 1074)) <= 2 ^ (f + 1074)).
      { rewrite Hfu, Hff. rewrite Z.mul_assoc.
        apply Z.mul_le_mono_nonneg_r; [lia | exact Herr]. }
      destruct (Z.le_gt_cases (d + e - 24) (-149)) as [Hsub | Hnorm].
      * replace f with (-149) in H2 by lia. change (2 ^ (-149 + 1074)) with (2 * 2 ^ 924) in H2.
        lia.
      * replace f with (d + e - 24) in H2 by lia.
        assert (2 ^ (d + e - 24 + 1074) < 2 ^ (d - 1 + e + 1074))
          by (apply Z.pow_lt_mono_r; lia).
        lia.
    + discriminate.
    + destruct Herr.
    + apply Ok_inj in Hr. subst r. destruct Herr as (-> & _). eauto.
  - intros Hsmall.
    assert (Hde : d + e <= -150).
    { destruct (Z.le_gt_cases (d + e) (-150)) as [H | H]; [exact H | exfalso].
      assert (2 ^ 924 <= 2 ^ (d - 1 + e + 1074)) by (apply Z.pow_le_mono_r; lia). lia. }
    assert (Hf' : f = -149) by lia.
    destruct (binary_round prec32 emax32 true m e) as [s' | s' | | s' m' e'] eqn:Er.
    + apply Ok_inj in Hr. subst r. now rewrite (Hsign s' eq_refl).
    + discriminate.
    + destruct Herr.
    + exfalso. apply Ok_inj in Hr. subst r.
      destruct (valid_single_shape s' m' e' Hvr) as (_ & He' & _).
      destruct Herr as (_ & Hee & Herr).
      assert (HA : 2 ^ (f - ez) <= Zpos m' * 2 ^ (e' - ez)).
      { assert (2 ^ (f - ez) <= 2 ^ (e' - ez)) by (apply Z.pow_le_mono_r; lia).
        assert (0 < 2 ^ (e' - ez)) by (apply Z.pow_pos_nonneg; lia). nia. }
      assert (HB : 2 * (Zpos m * 2 ^ (e - ez)) < 2 ^ (f - ez)).
      { apply (Z.mul_lt_mono_pos_r (2 ^ (ez + 1074))); [exact HU |].
        rewrite <- Hff, <- Z.mul_assoc, <- Hfu. rewrite Hf'.
        change (2 ^ (-149 + 1074)) with (2 * 2 ^ 924). lia. }
      lia.
Qed.

(** Conversion to single precision of a float beyond [2 ^ 128] in
    magnitude overflows. *)
Lemma to_single_overflows (f : float) :
  valid_float f -> 2 ^ 1202 < Z.abs (units f) -> to_single f = Raise OverflowError.
Proof.
  intros Hv Hbig. destruct f as [s | s | | s m e]; try (cbn in Hbig; lia).
  destruct (valid_float_exponent s m e Hv) as [He Hdig].
  unfold to_single.
  pose proof (binary_round_error prec32 emax32 ltac:(reflexivity) s m e) as Herr.
  pose proof (binary_round_valid prec32 emax32 ltac:(reflexivity) s m e) as Hvr.
  cbv zeta in Herr.
  pose proof (digits2_pos_bounds m) as Hd.
  set (d := Zpos (digits2_pos m)) in *.
  assert (Hdpos : 0 < d) by (unfold d; lia). clearbody d.
  assert (Hpow : 0 < 2 ^ (e + 1074)) by (apply Z.pow_pos_nonneg; lia).
  assert (Hm : 2 ^ 1202 < Zpos m * 2 ^ (e + 1074)).
  { cbn [units] in Hbig. destruct s; lia. }
  assert (Hmag : 129 <= d + e).
  { destruct (Z.le_gt_cases 129 (d + e)) as [H | H]; [exact H | exfalso].
    assert (Hu : Zpos m * 2 ^ (e + 1074) < 2 ^ (d + (e + 1074))).
    { rewrite (Z.pow_add_r 2 d (e + 1074)) by lia.
      apply Z.mul_lt_mono_pos_r; [exact Hpow | lia]. }
    assert (Hle : 2 ^ (d + (e + 1074)) <= 2 ^ 1202) by (apply Z.pow_le_mono_r; lia).
    lia. }
  assert (Hf : fexp prec32 emax32 (d + e) = d + e - 24).
  { unfold fexp, emin, prec32, emax32. lia. }
  rewrite Hf in Herr.
  set (ez := Z.min e (d + e - 24)) in *.
  assert (Hez : -1074 <= ez <= e /\ ez <= d + e - 24) by (unfold ez; lia).
  assert (HU : 0 < 2 ^ (ez + 1074)) by (apply Z.pow_pos_nonneg; lia).
  assert (Hfu : Zpos m * 2 ^ (e + 1074) = Zpos m * 2 ^ (e - ez) * 2 ^ (ez + 1074)).
  { rewrite <- Z.mul_assoc, <- Z.pow_add_r by lia. do 2 f_equal. lia. }
  assert (HN : 2 ^ (d + e - 24 + 1074) = 2 ^ (d + e - 24 - ez) * 2 ^ (ez + 1074)).
  { rewrite <- Z.pow_add_r by lia. f_equal. lia. }
  assert (HB : 2 ^ 23 * 2 ^ (d + e - 24 + 1074) <= Zpos m * 2 ^ (e + 1074)).
  { rewrite <- Z.pow_add_r by lia.
    replace (23 + (d + e - 24 + 1074)) with ((d - 1) + (e + 1074)) by lia.
    rewrite Z.pow_add_r by lia.
    apply Z.mul_le_mono_nonneg_r; [lia | lia]. }
  assert (HNbig : 2 ^ 1179 <= 2 ^ (d + e - 24 + 1074)) by (apply Z.pow_le_mono_r; lia).
  destruct (binary_round prec32 emax32 s m e) as [s' | s' | | s' m' e'] eqn:Er.
  - exfalso.
    assert (H2 : 2 * (Zpos m * 2 ^ (e + 1074)) <= 2 ^ (d + e - 24 + 1074)).
    { rewrite Hfu, HN, Z.mul_assoc. apply Z.mul_le_mono_nonneg_r; [lia | exact Herr]. }
    lia.
  - reflexivity.
  - destruct Herr.
  - exfalso. destruct Herr as (_ & Hee & Herr).
    destruct (valid_single_shape s' m' e' Hvr) as (_ & He' & Hd').
    pose proof (digits2_pos_bounds m') as Hm'.
    assert (Hm24 : Zpos m' < 2 ^ 24).
    { assert (2 ^ Zpos (digits2_pos m') <= 2 ^ 24) by (apply Z.pow_le_mono_r; lia). lia. }
    assert (Hru : Zpos m' * 2 ^ (e' + 1074) = Zpos m' * 2 ^ (e' - ez) * 2 ^ (ez + 1074)).
    { rewrite <- Z.mul_assoc, <- Z.pow_add_r by lia. do 2 f_equal. lia. }
    assert (HA : Zpos m' * 2 ^ (e' + 1074) <= (2 ^ 24 - 1) * 2 ^ 1178).
    { assert (2 ^ (e' + 1074) <= 2 ^ 1178) by (apply Z.pow_le_mono_r; lia).
      assert (0 < 2 ^ (e' + 1074)) by (apply Z.pow_pos_nonneg; lia).
      change (2 ^ 24) with 16777216 in *. nia. }
    assert (Hdiff : 2 * (Zpos m * 2 ^ (e + 1074) - Zpos m' * 2 ^ (e' + 1074))
                    <= 2 ^ (d + e - 24 + 1074)).
    { rewrite Hfu, Hru, HN.
      set (A := Zpos m' * 2 ^ (e' - ez)) in *. set (B := Zpos m * 2 ^ (e - ez)) in *.
      set (U := 2 ^ (ez + 1074)) in *. set (N := 2 ^ (d + e - 24 - ez)) in *.
      clearbody A B U N. nia. }
    destruct (Z.eq_dec (d + e) 129) as [E | E].
    + replace (d + e - 24 + 1074) with 1179 in * by lia.
      change (2 ^ 1179) with (2 * 2 ^ 1178) in *.
      change (2 ^ 1202) with (2 ^ 24 * 2 ^ 1178) in *.
      set (P := 2 ^ 1178) in *. assert (0 < P) by reflexivity. clearbody P. lia.
    + assert (HN2 : 2 ^ 1180 <= 2 ^ (d + e - 24 + 1074)) by (apply Z.pow_le_mono_r; lia).
      set (NU := 2 ^ (d + e - 24 + 1074)) in *. clearbody NU.
      change (2 ^ 1180) with (4 * 2 ^ 1178) in *.
      change (2 ^ 1202) with (2 ^ 24 * 2 ^ 1178) in *.
      set (P := 2 ^ 1178) in *. assert (0 < P) by reflexivity. clearbody P.
      change (2 ^ 24) with 16777216 in *. change (2 ^ 23) with 8388608 in *. lia.
Qed.

(** ** Sensors *)

Lemma validate_reading_spec (s : Sensor.t) (value : PyValue) :
  let refused := negb (is_numeric value) || num_lt value (Sensor.min_value s)
                 || num_gt value (Sensor.max_value s) in
  fst (Sensor.validate_reading s value) = negb refused
  /\ (refused = false -> snd (Sensor.validate_reading s value) = Valid).
Proof.
  unfold Sensor.validate_reading.
  destruct (is_numeric value); simpl; [| split; [reflexivity | discriminate]].
  destruct (num_lt value (Sensor.min_value s)); simpl; [split; [reflexivity | discriminate] |].
  destruct (num_gt value (Sensor.max_value s)); simpl; split; try reflexivity; discriminate.
Qed.

(** [create_reading] by cases. *)
Lemma create_reading_cases now (s : Sensor.t) (value : PyValue)
    (unit : option SensorUnit.t) (timestamp : option float) (quality : Z)
    (depth_m : option float) :
  let refused := negb (is_numeric value) || num_lt value (Sensor.min_value s)
                 || num_gt value (Sensor.max_value s) in
  let reading :=
    SensorReading.mk value
      (match unit with Some u => u | None => Sensor.default_unit s end)
      (match timestamp with
       | Some ts => if float_truthy ts then ts else now
       | None => now
       end)
      quality (Some (Sensor.sensor_id s)) depth_m in
  Sensor.create_reading now s value unit timestamp quality depth_m
  = if refused
    then (Raise (InvalidReading (snd (Sensor.validate_reading s value))), s)
    else if (0 <=? quality) && (quality <=? 100)
         then (Ok reading, Sensor.set_readings s (Sensor._readings s ++ [reading]))
         else (Raise QualityOutOfRange, s).
Proof.
  intros refused reading.
  destruct (validate_reading_spec s value) as [Hv Hmsg]. fold refused in Hv, Hmsg.
  unfold Sensor.create_reading.
  destruct (Sensor.validate_reading s value) as [is_valid msg]. simpl in Hv, Hmsg |- *.
  subst is_valid. destruct refused; simpl; [reflexivity |].
  unfold SensorReading.init. fold reading.
  destruct ((0 <=? quality) && (quality <=? 100)); reflexivity.
Qed.

(** C8, amended. [create_reading] fails with "Invalid reading: ...", carrying
    the validator's message, exactly when the value is not a number,
    compares below the sensor's minimum or compares above its maximum (a NaN
    does neither, and passes). For a value that passes it fails with "Quality
    must be between 0 and 100" exactly when the quality is outside [0, 100].
    Both are validation errors; they are its only failures, and a failure
    produces no reading and leaves the sensor's log as it was. Otherwise the
    reading is built from the arguments, appended to the log and returned.
    [create_current_reading] fails with "Direction must be between 0 and 360
    degrees" exactly when the direction is not within [0, 360], before
    anything else is looked at and leaving the sensor untouched; otherwise it
    does what [create_reading] does with the speed, and on success records
    the pair of speed and direction. *)
Theorem create_reading_validates now (s : Sensor.t) (value : PyValue)
    (unit : option SensorUnit.t) (timestamp : option float) (quality : Z)
    (depth_m : option float) (direction_deg : float) :
  let refused := negb (is_numeric value) || num_lt value (Sensor.min_value s)
                 || num_gt value (Sensor.max_value s) in
  let out := Sensor.create_reading now s value unit timestamp quality depth_m in
  let reading :=
    SensorReading.mk value
      (match unit with Some u => u | None => Sensor.default_unit s end)
      (match timestamp with
       | Some ts => if float_truthy ts then ts else now
       | None => now
       end)
      quality (Some (Sensor.sensor_id s)) depth_m in
  let direction_ok := fle (float_lit 0) direction_deg && fle direction_deg (float_lit 360) in
  let outc := Sensor.create_current_reading now s value direction_deg timestamp quality
                                            depth_m in
  (* the value *)
  (refused = true <->
   out = (Raise (InvalidReading (snd (Sensor.validate_reading s value))), s))
  (* the quality *)
  /\ (refused = false /\ ~ (0 <= quality <= 100) <-> out = (Raise QualityOutOfRange, s))
  (* nothing else fails, and a failure is a validation error that changes nothing *)
  /\ (forall e, fst out = Raise e ->
        error_kind e = Some ValidationError /\ snd out = s
        /\ (e = QualityOutOfRange
            \/ e = InvalidReading (snd (Sensor.validate_reading s value))))
  (* success *)
  /\ (refused = false /\ 0 <= quality <= 100 <->
      out = (Ok reading, Sensor.set_readings s (Sensor._readings s ++ [reading])))
  (* a NaN passes the validator *)
  /\ (value = PyFloat S754_nan -> refused = false)
  (* the current meter *)
  /\ (direction_ok = false <-> outc = (Raise DirectionOutOfRange, s))
  /\ (direction_ok = true ->
      outc = match Sensor.create_reading now s value None timestamp quality depth_m with
             | (Raise e, s') => (Raise e, s')
             | (Ok r, s') =>
                 (Ok (r, direction_deg),
                  Sensor.set_direction_readings s'
                    (Sensor._direction_readings s' ++ [(value, direction_deg)]))
             end)
  /\ error_kind DirectionOutOfRange = Some ValidationError.
Proof.
  intros refused out reading direction_ok outc.
  pose proof (create_reading_cases now s value unit timestamp quality depth_m) as Hout.
  pose proof (create_reading_cases now s value None timestamp quality depth_m) as Hout0.
  cbv zeta in Hout, Hout0. fold refused in Hout, Hout0. fold reading in Hout. fold out in Hout.
  assert (Houtc : outc = if direction_ok
                         then match Sensor.create_reading now s value None timestamp
                                                          quality depth_m with
                              | (Raise e, s') => (Raise e, s')
                              | (Ok r, s') =>
                                  (Ok (r, direction_deg),
                                   Sensor.set_direction_readings s'
                                     (Sensor._direction_readings s'
                                      ++ [(value, direction_deg)]))
                              end
                         else (Raise DirectionOutOfRange, s)).
  { unfold outc, Sensor.create_current_reading. fold direction_ok.
    destruct direction_ok; simpl; [| reflexivity].
    destruct (Sensor.create_reading now s value None timestamp quality depth_m)
      as [[r | e] s']; reflexivity. }
  rewrite Hout0 in *. clear Hout0.
  assert (Hnan : value = PyFloat S754_nan -> refused = false) by (intros ->; reflexivity).
  clearbody refused direction_ok out outc.
  assert (Hq : (0 <=? quality) && (quality <=? 100) = true <-> 0 <= quality <= 100).
  { rewrite andb_true_iff, Z.leb_le, Z.leb_le. tauto. }
  assert (Hfin : forall e e' : PyError, Raise (A := SensorReading.t) e = Raise e' -> e = e')
    by (intros e e' H; now inversion H).
  destruct ((0 <=? quality) && (quality <=? 100)) eqn:Eq.
  - assert (Hin : 0 <= quality <= 100) by now apply Hq.
    subst out outc. destruct refused, direction_ok; simpl;
      repeat split; intros;
      repeat match goal with
             | H : _ /\ _ |- _ => destruct H
             | H : Raise _ = Raise _ |- _ => apply Hfin in H; subst
             end;
      simpl in *; try reflexivity; try discriminate; try tauto; auto.
  - assert (Hin : ~ 0 <= quality <= 100) by (intros H; apply Hq in H; discriminate).
    subst out outc. destruct refused, direction_ok; simpl;
      repeat split; intros;
      repeat match goal with
             | H : _ /\ _ |- _ => destruct H
             | H : Raise _ = Raise _ |- _ => apply Hfin in H; subst
             end;
      simpl in *; try reflexivity; try discriminate; try tauto; auto.
Qed.

(** *** The reading on the wire *)

Lemma as_double_valid (v : PyValue) (f : float) :
  (forall x, v = PyFloat x -> valid_float x) -> as_double v = Ok f -> valid_float f.
Proof.
  intros Hv. destruct v as [x | z | b | s | b |]; simpl; try discriminate.
  - intros H. apply Ok_inj in H. subst. now apply Hv.
  - destruct (float_of_int z) as [g |] eqn:E; [| discriminate].
    intros H. apply Ok_inj in H. subst. now apply float_of_int_valid in E.
  - intros H. apply Ok_inj in H. subst. apply float_lit_valid.
Qed.

Lemma reading_to_bytes_ok (r : SensorReading.t) (bs : list byte) :
  SensorReading.to_bytes r = Ok bs ->
  exists ms v d,
    BristlemouthMessage.timestamp_ms (SensorReading.timestamp r) = Ok ms
    /\ as_double (SensorReading.value r) = Ok v
    /\ pack_f (packed_depth r) = Ok d
    /\ 0 <= ms < 2 ^ 64
    /\ 0 <= SensorReading.quality r < 256
    /\ bs = pack_d v ++ be_bytes 8 ms ++ be_bytes 1 (SensorReading.quality r) ++ d.
Proof.
  unfold SensorReading.to_bytes. fold (packed_depth r). intros H.
  apply bind_ok in H as (ms & Hms & H).
  apply bind_ok in H as (v & Hv & H).
  apply bind_ok in H as (t & Ht & H).
  apply bind_ok in H as (q & Hq & H).
  apply bind_ok in H as (d & Hd & H).
  apply Ok_inj in H. subst bs.
  apply pack_uint_ok in Ht as (-> & Ht & _).
  apply pack_uint_ok in Hq as (-> & Hq & _).
  exists ms, v, d. repeat split; try assumption; try lia.
Qed.

Lemma pack_d_length (f : float) : length (pack_d f) = 8%nat.
Proof. apply be_bytes_length. Qed.

Lemma fopp_one_valid : valid_float (fopp (float_lit 1)).
Proof. reflexivity. Qed.

(** C5, amended. A well-formed reading that encodes does so in 21 bytes, and
    these decode to a reading with the same value (as a float, bit for bit),
    the same quality, and the timestamp of the millisecond count. Its depth
    is the original rounded to single precision when the rounded depth is
    not below zero (so exactly the original when it is a non-negative single
    precision number, and within one part in [2 ^ 24] of it, hence within
    [1e-6], when it is [2 ^ -126] or more), and absent otherwise. The depth
    comes back absent when the original was absent, a NaN, the negative
    infinity, or negative and beyond [2 ^ -150] in magnitude. A negative
    depth below [2 ^ -150] in magnitude is not absent: it rounds to the
    negative zero, which is not below zero, and comes back as that. The
    payload of the current meter is these 21 bytes followed by the 4 of the
    direction in single precision, and decodes to the same reading. *)
Theorem reading_round_trip now (r : SensorReading.t) (unit : SensorUnit.t) (bs : list byte) :
  well_formed r ->
  SensorReading.to_bytes r = Ok bs ->
  exists v ms msf single,
    as_double (SensorReading.value r) = Ok v
    /\ BristlemouthMessage.timestamp_ms (SensorReading.timestamp r) = Ok ms
    /\ float_of_int ms = Ok msf
    /\ to_single (packed_depth r) = Ok single
    /\ length bs = 21%nat
    /\ SensorReading.from_bytes now bs unit
       = Ok (SensorReading.mk (PyFloat v) unit (fdiv msf (float_lit 1000))
               (SensorReading.quality r) None
               (if fle (float_lit 0) (of_single single) then Some (of_single single)
                else None))
    (* an absent depth comes back absent *)
    /\ (SensorReading.depth_m r = None -> fle (float_lit 0) (of_single single) = false)
    (* a single precision depth comes back as it was, if it is not below zero *)
    /\ (forall d s32, SensorReading.depth_m r = Some d -> valid_single s32 ->
          d = of_single s32 -> of_single single = d)
    (* a depth of normal size comes back within the tolerance *)
    /\ (forall d den, SensorReading.depth_m r = Some d -> 2 ^ 948 <= units d ->
          den <= 2 ^ 24 ->
          fle (float_lit 0) (of_single single) = true
          /\ within den (of_single single) d = true)
    (* a NaN and the negative infinity come back absent *)
    /\ (forall d, SensorReading.depth_m r = Some d ->
          d = S754_nan \/ d = S754_infinity true ->
          fle (float_lit 0) (of_single single) = false)
    (* a negative depth beyond 2 ^ -150 comes back absent *)
    /\ (forall d, SensorReading.depth_m r = Some d -> units d < - 2 ^ 924 ->
          fle (float_lit 0) (of_single single) = false)
    (* a negative depth below 2 ^ -150 comes back as the negative zero *)
    /\ (forall d, SensorReading.depth_m r = Some d -> - 2 ^ 924 < units d < 0 ->
          of_single single = S754_zero true
          /\ fle (float_lit 0) (of_single single) = true)
    (* the payload of the current meter *)
    /\ (forall direction dir4, pack_f direction = Ok dir4 ->
          length (bs ++ dir4) = 25%nat
          /\ SensorReading.from_bytes now (bs ++ dir4) unit
             = SensorReading.from_bytes now bs unit
          /\ forall s, exists msg,
               fst (Sensor.wrap_current_reading now s r direction) = Ok msg
               /\ BristlemouthMessage.payload msg = bs ++ dir4).
Proof.
  intros (Hq & Hval & Hdepth) Hbs.
  destruct (reading_to_bytes_ok r bs Hbs) as (ms & v & d & Hms & Hv & Hd & Hmsr & _ & ->).
  assert (Hvd : valid_float (packed_depth r)).
  { unfold packed_depth. destruct (SensorReading.depth_m r) as [x |] eqn:E;
      [now apply Hdepth | apply fopp_one_valid]. }
  destruct (pack_f_ok _ _ Hvd Hd) as (single & Hsingle & Hvs & Hlen4 & Hunpack).
  destruct (float_of_int_u64 ms Hmsr) as [msf Hmsf].
  pose proof (as_double_valid _ _ Hval Hv) as Hvv.
  set (q := SensorReading.quality r) in *.
  assert (Hlen : length (pack_d v ++ be_bytes 8 ms ++ be_bytes 1 q ++ d) = 21%nat).
  { rewrite !length_app, pack_d_length, !be_bytes_length, Hlen4. reflexivity. }
  assert (Hfrom : forall extra,
            SensorReading.from_bytes now ((pack_d v ++ be_bytes 8 ms ++ be_bytes 1 q ++ d) ++ extra)
                                     unit
            = Ok (SensorReading.mk (PyFloat v) unit (fdiv msf (float_lit 1000)) q None
                    (if fle (float_lit 0) (of_single single) then Some (of_single single)
                     else None))).
  { intros extra. unfold SensorReading.from_bytes.
    rewrite slice_app_left by lia. rewrite slice_all by (symmetry; exact Hlen).
    rewrite Hlen. cbn [Nat.eqb negb].
    assert (S1 : slice (pack_d v ++ be_bytes 8 ms ++ be_bytes 1 q ++ d) 0 8 = pack_d v).
    { rewrite slice_app_left by (rewrite pack_d_length; lia).
      apply slice_all. now rewrite pack_d_length. }
    assert (S2 : slice (pack_d v ++ be_bytes 8 ms ++ be_bytes 1 q ++ d) 8 16 = be_bytes 8 ms).
    { rewrite slice_app_right by (rewrite pack_d_length; lia). rewrite pack_d_length.
      rewrite slice_app_left by (rewrite be_bytes_length; lia).
      apply slice_all. now rewrite be_bytes_length. }
    assert (S3 : slice (pack_d v ++ be_bytes 8 ms ++ be_bytes 1 q ++ d) 16 17 = be_bytes 1 q).
    { rewrite slice_app_right by (rewrite pack_d_length; lia). rewrite pack_d_length.
      rewrite slice_app_right by (rewrite be_bytes_length; lia). rewrite be_bytes_length.
      rewrite slice_app_left by (rewrite be_bytes_length; lia).
      apply slice_all. now rewrite be_bytes_length. }
    assert (S4 : slice (pack_d v ++ be_bytes 8 ms ++ be_bytes 1 q ++ d) 17 21 = d).
    { rewrite slice_app_right by (rewrite pack_d_length; lia). rewrite pack_d_length.
      rewrite slice_app_right by (rewrite be_bytes_length; lia). rewrite be_bytes_length.
      rewrite slice_app_right by (rewrite be_bytes_length; lia). rewrite be_bytes_length.
      apply slice_all. cbn [Nat.sub]. now rewrite Hlen4. }
    rewrite S1, S2, S3, S4.
    rewrite (unpack_pack_d v Hvv). cbn [bind].
    rewrite Hunpack. cbn [bind].
    rewrite be_value_be_bytes by exact Hmsr.
    rewrite be_value_be_bytes by (change (256 ^ Z.of_nat 1) with 256; lia).
    rewrite Hmsf. cbn [bind]. unfold SensorReading.init.
    assert (Hqok : (0 <=? q) && (q <=? 100) = true).
    { apply andb_true_iff. split; apply Z.leb_le; lia. }
    rewrite Hqok. reflexivity. }
  exists v, ms, msf, single.
  split; [exact Hv |]. split; [exact Hms |]. split; [exact Hmsf |]. split; [exact Hsingle |].
  split; [exact Hlen |].
  split; [rewrite <- (app_nil_r (pack_d v ++ _)); apply Hfrom |].
  split; [| split; [| split; [| split; [| split; [| split]]]]].
  - intros Hnone. unfold packed_depth in Hsingle. rewrite Hnone in Hsingle.
    vm_compute in Hsingle. apply Ok_inj in Hsingle. subst single. reflexivity.
  - intros x s32 Hx Hs32 ->. unfold packed_depth in Hsingle. rewrite Hx in Hsingle.
    rewrite (to_single_of_single s32 Hs32) in Hsingle. apply Ok_inj in Hsingle.
    now subst single.
  - intros x den Hx Hbig Hden. unfold packed_depth in Hsingle, Hvd. rewrite Hx in Hsingle, Hvd.
    assert (Habs : 2 ^ 948 <= Z.abs (units x)) by lia.
    split; [| exact (single_precision_error x single den Hvd Hsingle Habs Hden)].
    apply units_pos_fle.
    apply (within_positive 2 (of_single single) x); [lia | lia |].
    apply single_precision_error; [exact Hvd | exact Hsingle | exact Habs | lia].
  - intros x Hx Hnan. unfold packed_depth in Hsingle. rewrite Hx in Hsingle.
    destruct Hnan as [-> | ->]; cbn [to_single] in Hsingle; apply Ok_inj in Hsingle;
      subst single; reflexivity.
  - intros x Hx Hneg. unfold packed_depth in Hsingle, Hvd. rewrite Hx in Hsingle, Hvd.
    destruct x as [s | s | | s m e]; cbn [units] in Hneg; try lia.
    assert (Hpos : 0 < Zpos m * 2 ^ (e + 1074)).
    { apply Z.mul_pos_pos; [lia |].
      apply Z.pow_pos_nonneg; [lia | destruct (valid_float_exponent s m e Hvd); lia]. }
    destruct s; [| lia].
    destruct (to_single_negative m e single Hvd Hsingle) as [Hbig _].
    destruct (Hbig ltac:(lia)) as (m' & e' & ->).
    destruct (of_single_finite true m' e' (to_single_valid _ _ Hvd Hsingle))
      as (mz & _ & ->).
    reflexivity.
  - intros x Hx Hneg. unfold packed_depth in Hsingle, Hvd. rewrite Hx in Hsingle, Hvd.
    destruct x as [s | s | | s m e]; cbn [units] in Hneg; try lia.
    destruct s; [| lia].
    destruct (to_single_negative m e single Hvd Hsingle) as [_ Hsmall].
    rewrite (Hsmall ltac:(lia)). split; reflexivity.
  - intros direction dir4 Hdir.
    assert (Hdl : length dir4 = 4%nat).
    { unfold pack_f in Hdir. apply bind_ok in Hdir as (x & _ & Hdir).
      apply Ok_inj in Hdir. subst dir4. apply be_bytes_length. }
    split; [rewrite length_app, Hlen, Hdl; reflexivity |].
    split.
    { rewrite Hfrom. symmetry. rewrite <- (app_nil_r (pack_d v ++ _)). apply Hfrom. }
    intros s. unfold Sensor.wrap_current_reading. rewrite Hbs, Hdir. cbn [bind].
    unfold BristlemouthMessage.init.
    assert (Hsmall : (MAX_PAYLOAD_SIZE
                      <? len ((pack_d v ++ be_bytes 8 ms ++ be_bytes 1 q ++ d) ++ dir4)) = false).
    { apply Z.ltb_ge. unfold len. rewrite length_app, Hlen, Hdl. unfold MAX_PAYLOAD_SIZE. lia. }
    rewrite Hsmall. eexists. split; reflexivity.
Qed.

(** ** Scalar values *)

Lemma unpack_pack_sint (n : nat) (v : Z) :
  256 ^ Z.of_nat n = 2 * (256 ^ Z.of_nat n / 2) ->
  - (256 ^ Z.of_nat n / 2) <= v < 256 ^ Z.of_nat n / 2 ->
  exists bs, pack_sint n v = Ok bs /\ length bs = n /\ unpack_sint n bs = Ok v.
Proof.
  intros Heven Hv. exists (be_bytes n (v mod 256 ^ Z.of_nat n)).
  unfold pack_sint, unpack_sint. cbv zeta.
  destruct (Z.leb_spec (- (256 ^ Z.of_nat n / 2)) v); [| lia].
  destruct (Z.ltb_spec v (256 ^ Z.of_nat n / 2)); [| lia].
  cbn [andb]. rewrite be_bytes_length, Nat.eqb_refl, be_value_be_bytes_mod.
  split; [reflexivity |]. split; [reflexivity |]. f_equal.
  pose proof (pow256_pos n) as Hp. rewrite Z.mod_mod by lia.
  destruct (Z.ltb_spec (v mod 256 ^ Z.of_nat n) (256 ^ Z.of_nat n / 2)) as [Hlt | Hge].
  - destruct (Z.neg_nonneg_cases v) as [Hneg | Hpos].
    + rewrite <- (Z.mod_add v 1) in Hlt by lia. rewrite Z.mod_small in Hlt by lia. lia.
    + apply Z.mod_small. lia.
  - destruct (Z.neg_nonneg_cases v) as [Hneg | Hpos].
    + rewrite <- (Z.mod_add v 1) by lia. rewrite Z.mod_small by lia. lia.
    + rewrite Z.mod_small in Hge by lia. lia.
Qed.

Lemma unpack_uint_defined (n : nat) (data : list byte) :
  (Z.of_nat n <= len data -> exists z, unpack_uint n (slice data 0 n) = Ok z)
  /\ (len data < Z.of_nat n -> unpack_uint n (slice data 0 n) = Raise StructError).
Proof.
  unfold unpack_uint, len. rewrite slice_0, length_firstn. split; intros H.
  - rewrite Nat.min_l by lia. rewrite Nat.eqb_refl. eauto.
  - rewrite Nat.min_r by lia. destruct (Nat.eqb_spec (length data) n); [lia | reflexivity].
Qed.

Lemma unpack_sint_defined (n : nat) (data : list byte) :
  (Z.of_nat n <= len data -> exists z, unpack_sint n (slice data 0 n) = Ok z)
  /\ (len data < Z.of_nat n -> unpack_sint n (slice data 0 n) = Raise StructError).
Proof.
  unfold unpack_sint, len. rewrite slice_0, length_firstn. split; intros H.
  - rewrite Nat.min_l by lia. rewrite Nat.eqb_refl. eauto.
  - rewrite Nat.min_r by lia. destruct (Nat.eqb_spec (length data) n); [lia | reflexivity].
Qed.

Lemma unpack_d_defined (data : list byte) :
  (8 <= len data -> exists f, unpack_d (slice data 0 8) = Ok f)
  /\ (len data < 8 -> unpack_d (slice data 0 8) = Raise StructError).
Proof.
  unfold unpack_d, len. rewrite slice_0, length_firstn. split; intros H.
  - rewrite Nat.min_l by lia. rewrite Nat.eqb_refl. eauto.
  - rewrite Nat.min_r by lia. destruct (Nat.eqb_spec (length data) 8); [lia | reflexivity].
Qed.

Lemma unpack_f_defined (data : list byte) :
  (4 <= len data -> exists f, unpack_f (slice data 0 4) = Ok f)
  /\ (len data < 4 -> unpack_f (slice data 0 4) = Raise StructError).
Proof.
  unfold unpack_f, len. rewrite slice_0, length_firstn. split; intros H.
  - rewrite Nat.min_l by lia. rewrite Nat.eqb_refl. eauto.
  - rewrite Nat.min_r by lia. destruct (Nat.eqb_spec (length data) 4); [lia | reflexivity].
Qed.

Lemma unpack_bool_defined (data : list byte) :
  (1 <= len data -> exists b, unpack_bool (slice data 0 1) = Ok b)
  /\ (len data < 1 -> unpack_bool (slice data 0 1) = Raise StructError).
Proof.
  unfold len. destruct data as [| b rest]; cbn [length]; split; intros H; try lia.
  - reflexivity.
  - rewrite slice_0. cbn. eauto.
Qed.

Lemma unpack_pack_bool (b : bool) : unpack_bool (pack_bool b) = Ok b.
Proof. now destruct b. Qed.

Section ScalarCodecProperties.
Variable float_of_text : PyValue -> result float.
Variable int_of_text : PyValue -> result Z.
Variable str_of : PyValue -> pystr.

Let encode := encode_sensor_value float_of_text int_of_text str_of.

Lemma encode_signed_round_trip (k : Z) (n : nat) (z : Z) :
  encode (PyInt z) k = pack_sint n z ->
  (forall data, decode_sensor_value data k
                = (z <- unpack_sint n (slice data 0 n) ;; Ok (PyInt z, Z.of_nat n))) ->
  256 ^ Z.of_nat n = 2 * (256 ^ Z.of_nat n / 2) ->
  - (256 ^ Z.of_nat n / 2) <= z < 256 ^ Z.of_nat n / 2 ->
  exists bs, encode (PyInt z) k = Ok bs /\ len bs = Z.of_nat n
             /\ decode_sensor_value bs k = Ok (PyInt z, Z.of_nat n).
Proof.
  intros He Hd Heven Hz.
  destruct (unpack_pack_sint n z Heven Hz) as (bs & Hp & Hl & Hu).
  exists bs. rewrite He, Hd. split; [exact Hp |]. split; [unfold len; now rewrite Hl |].
  rewrite slice_all by (symmetry; exact Hl). now rewrite Hu.
Qed.

Lemma encode_unsigned_round_trip (k : Z) (n : nat) (z : Z) :
  encode (PyInt z) k = pack_uint n z ->
  (forall data, decode_sensor_value data k
                = (z <- unpack_uint n (slice data 0 n) ;; Ok (PyInt z, Z.of_nat n))) ->
  0 <= z < 256 ^ Z.of_nat n ->
  exists bs, encode (PyInt z) k = Ok bs /\ len bs = Z.of_nat n
             /\ decode_sensor_value bs k = Ok (PyInt z, Z.of_nat n).
Proof.
  intros He Hd Hz. exists (be_bytes n z). rewrite He, Hd.
  pose proof (pack_uint_in_range n z Hz) as Hp.
  split; [exact Hp |]. split; [unfold len; now rewrite be_bytes_length |].
  rewrite slice_all by (now rewrite be_bytes_length).
  now rewrite (unpack_pack_uint n z _ Hp).
Qed.

Lemma length_prefixed (content more : list byte) :
  len content < 2 ^ 16 ->
  exists l, pack_uint 2 (len content) = Ok l
            /\ len (l ++ content) = 2 + len content
            /\ unpack_uint 2 (slice (l ++ content ++ more) 0 2) = Ok (len content)
            /\ slice (l ++ content ++ more) 2 (2 + Z.to_nat (len content)) = content.
Proof.
  intros Hlen. pose proof (len_nonneg content) as Hnn.
  assert (Hr : 0 <= len content < 256 ^ Z.of_nat 2) by (change (256 ^ Z.of_nat 2) with (2 ^ 16); lia).
  pose proof (pack_uint_in_range 2 (len content) Hr) as Hp.
  exists (be_bytes 2 (len content)). split; [exact Hp |].
  assert (Hl : length (be_bytes 2 (len content)) = 2%nat) by apply be_bytes_length.
  split; [rewrite len_app; unfold len at 1; rewrite Hl; lia |].
  split.
  - rewrite slice_app_left by lia. rewrite slice_all by (now rewrite Hl).
    exact (unpack_pack_uint 2 _ _ Hp).
  - rewrite to_nat_len. unfold slice. rewrite skipn_app, Hl. cbn [Nat.sub].
    rewrite skipn_all2 by lia. cbn [app skipn].
    replace (2 + length content - 2)%nat with (length content + 0)%nat by lia.
    rewrite firstn_app_2. cbn [firstn]. apply app_nil_r.
Qed.

Lemma unknown_kind_tests (k : Z) :
  ~ (1 <= k <= 13) ->
  (k =? DataType.FLOAT32) = false /\ (k =? DataType.FLOAT64) = false
  /\ (k =? DataType.INT8) = false /\ (k =? DataType.INT16) = false
  /\ (k =? DataType.INT32) = false /\ (k =? DataType.INT64) = false
  /\ (k =? DataType.UINT8) = false /\ (k =? DataType.UINT16) = false
  /\ (k =? DataType.UINT32) = false /\ (k =? DataType.UINT64) = false
  /\ (k =? DataType.STRING) = false /\ (k =? DataType.BYTES) = false
  /\ (k =? DataType.BOOL) = false.
Proof.
  intros H. repeat split; apply Z.eqb_neq; intros ->; apply H; vm_compute; split; discriminate.
Qed.

Lemma unknown_kind_raises (k : Z) (v : PyValue) (data : list byte) :
  ~ (1 <= k <= 13) ->
  encode v k = Raise (UnknownDataType k)
  /\ decode_sensor_value data k = Raise (UnknownDataType k).
Proof.
  intros H.
  destruct (unknown_kind_tests k H)
    as (E1 & E2 & E3 & E4 & E5 & E6 & E7 & E8 & E9 & E10 & E11 & E12 & E13).
  unfold encode, encode_sensor_value, decode_sensor_value.
  rewrite E1, E2, E3, E4, E5, E6, E7, E8, E9, E10, E11, E12, E13. split; reflexivity.
Qed.

Lemma known_kinds (k : Z) :
  1 <= k <= 13 ->
  k = DataType.FLOAT32 \/ k = DataType.FLOAT64 \/ k = DataType.INT8 \/ k = DataType.INT16
  \/ k = DataType.INT32 \/ k = DataType.INT64 \/ k = DataType.UINT8 \/ k = DataType.UINT16
  \/ k = DataType.UINT32 \/ k = DataType.UINT64 \/ k = DataType.STRING \/ k = DataType.BYTES
  \/ k = DataType.BOOL.
Proof.
  intros H.
  assert (Hk : k = 1 \/ k = 2 \/ k = 3 \/ k = 4 \/ k = 5 \/ k = 6 \/ k = 7 \/ k = 8 \/ k = 9
               \/ k = 10 \/ k = 11 \/ k = 12 \/ k = 13) by lia.
  exact Hk.
Qed.

Lemma fixed_width_defined (k w : Z) (data : list byte) :
  fixed_width k = Some w ->
  (w <= len data -> exists v, decode_sensor_value data k = Ok (v, w))
  /\ (len data < w -> decode_sensor_value data k = Raise StructError).
Proof.
  intros Hw.
  assert (Hk : 1 <= k <= 13).
  { destruct (Z.le_gt_cases 1 k) as [H1 | H1]; [destruct (Z.le_gt_cases k 13) as [H2 | H2] |];
      [lia | exfalso | exfalso];
      (destruct (unknown_kind_tests k ltac:(lia))
        as (E1 & E2 & E3 & E4 & E5 & E6 & E7 & E8 & E9 & E10 & E11 & E12 & E13);
       unfold fixed_width in Hw;
       rewrite E1, E2, E3, E4, E5, E6, E7, E8, E9, E10, E13 in Hw; discriminate). }
  destruct (known_kinds k Hk)
    as [-> | [-> | [-> | [-> | [-> | [-> | [-> | [-> | [-> | [-> | [-> | [-> | ->]]]]]]]]]]]];
    vm_compute in Hw; try discriminate; injection Hw as <-.
  - change (decode_sensor_value data DataType.FLOAT32)
      with (f <- unpack_f (slice data 0 4) ;; Ok (PyFloat f, 4)).
    destruct (unpack_f_defined data) as [H1 H2]. split; intros H.
    + destruct (H1 H) as [f ->]. now eexists.
    + now rewrite (H2 H).
  - change (decode_sensor_value data DataType.FLOAT64)
      with (f <- unpack_d (slice data 0 8) ;; Ok (PyFloat f, 8)).
    destruct (unpack_d_defined data) as [H1 H2]. split; intros H.
    + destruct (H1 H) as [f ->]. now eexists.
    + now rewrite (H2 H).
  - change (decode_sensor_value data DataType.INT8)
      with (z <- unpack_sint 1 (slice data 0 1) ;; Ok (PyInt z, 1)).
    destruct (unpack_sint_defined 1 data) as [H1 H2]. split; intros H.
    + destruct (H1 H) as [z ->]. now eexists.
    + now rewrite (H2 H).
  - change (decode_sensor_value data DataType.INT16)
      with (z <- unpack_sint 2 (slice data 0 2) ;; Ok (PyInt z, 2)).
    destruct (unpack_sint_defined 2 data) as [H1 H2]. split; intros H.
    + destruct (H1 H) as [z ->]. now eexists.
    + now rewrite (H2 H).
  - change (decode_sensor_value data DataType.INT32)
      with (z <- unpack_sint 4 (slice data 0 4) ;; Ok (PyInt z, 4)).
    destruct (unpack_sint_defined 4 data) as [H1 H2]. split; intros H.
    + destruct (H1 H) as [z ->]. now eexists.
    + now rewrite (H2 H).
  - change (decode_sensor_value data DataType.INT64)
      with (z <- unpack_sint 8 (slice data 0 8) ;; Ok (PyInt z, 8)).
    destruct (unpack_sint_defined 8 data) as [H1 H2]. split; intros H.
    + destruct (H1 H) as [z ->]. now eexists.
    + now rewrite (H2 H).
  - change (decode_sensor_value data DataType.UINT8)
      with (z <- unpack_uint 1 (slice data 0 1) ;; Ok (PyInt z, 1)).
    destruct (unpack_uint_defined 1 data) as [H1 H2]. split; intros H.
    + destruct (H1 H) as [z ->]. now eexists.
    + now rewrite (H2 H).
  - change (decode_sensor_value data DataType.UINT16)
      with (z <- unpack_uint 2 (slice data 0 2) ;; Ok (PyInt z, 2)).
    destruct (unpack_uint_defined 2 data) as [H1 H2]. split; intros H.
    + destruct (H1 H) as [z ->]. now eexists.
    + now rewrite (H2 H).
  - change (decode_sensor_value data DataType.UINT32)
      with (z <- unpack_uint 4 (slice data 0 4) ;; Ok (PyInt z, 4)).
    destruct (unpack_uint_defined 4 data) as [H1 H2]. split; intros H.
    + destruct (H1 H) as [z ->]. now eexists.
    + now rewrite (H2 H).
  - change (decode_sensor_value data DataType.UINT64)
      with (z <- unpack_uint 8 (slice data 0 8) ;; Ok (PyInt z, 8)).
    destruct (unpack_uint_defined 8 data) as [H1 H2]. split; intros H.
    + destruct (H1 H) as [z ->]. now eexists.
    + now rewrite (H2 H).
  - change (decode_sensor_value data DataType.BOOL)
      with (b <- unpack_bool (slice data 0 1) ;; Ok (PyBool b, 1)).
    destruct (unpack_bool_defined data) as [H1 H2]. split; intros H.
    + destruct (H1 H) as [b ->]. now eexists.
    + now rewrite (H2 H).
Qed.

(** C7, amended. A value of one of the thirteen kinds encodes, in the
    kind's width (for strings and byte blocks, two bytes more than the
    content), and decodes to itself and that width; floats are equal as
    data, not merely within a tolerance, since a FLOAT32 value is a single
    precision number. A float that is not one still encodes as FLOAT32
    unless it is too large, and decodes to the nearest single precision
    number, which is within one part in [2 ^ 24] of it (hence within [1e-6])
    when its magnitude is [2 ^ -126] or more. Decoding a kind of fixed width
    succeeds on every buffer of at least that width, whatever its content,
    and fails with [struct.error] on a shorter one. A kind that is none of
    the thirteen fails with the format error [Unknown data type], in both
    directions. With a kind that is one of them, encoding fails too: with
    [struct.error] for every integer outside the bounds of an integer kind,
    with [OverflowError] for a float as FLOAT32 exactly when it rounds to an
    infinity, as every float beyond [2 ^ 128] in magnitude does, and with
    the [ValueError] [Value must be bytes] for every value as BYTES that is
    not a byte block; none of these is a format error. *)
Theorem scalar_round_trip :
  (forall k v, representable k v ->
     exists bs,
       encode v k = Ok bs
       /\ len bs = expected_width k v
       /\ decode_sensor_value bs k = Ok (v, expected_width k v))
  /\ (forall f bs, valid_float f -> encode (PyFloat f) DataType.FLOAT32 = Ok bs ->
        exists r,
          to_single f = Ok r
          /\ len bs = 4
          /\ decode_sensor_value bs DataType.FLOAT32 = Ok (PyFloat (of_single r), 4)
          /\ (forall den, 2 ^ 948 <= Z.abs (units f) -> den <= 2 ^ 24 ->
                within den (of_single r) f = true))
  /\ (forall k w data, fixed_width k = Some w ->
        (w <= len data -> exists v, decode_sensor_value data k = Ok (v, w))
        /\ (len data < w -> decode_sensor_value data k = Raise StructError))
  /\ (forall k v data, ~ (1 <= k <= 13) ->
        encode v k = Raise (UnknownDataType k)
        /\ decode_sensor_value data k = Raise (UnknownDataType k)
        /\ error_kind (UnknownDataType k) = Some FormatError)
  (* an integer outside the bounds of its kind does not encode *)
  /\ (forall k lo hi z, int_bounds k = Some (lo, hi) -> ~ (lo <= z < hi) ->
        encode (PyInt z) k = Raise StructError)
  (* a float does not encode as FLOAT32 when it rounds to an infinity *)
  /\ (forall f e, encode (PyFloat f) DataType.FLOAT32 = Raise e ->
        e = OverflowError
        /\ exists s m x s',
             f = S754_finite s m x
             /\ binary_round prec32 emax32 s m x = S754_infinity s')
  /\ (forall s m x s', binary_round prec32 emax32 s m x = S754_infinity s' ->
        encode (PyFloat (S754_finite s m x)) DataType.FLOAT32 = Raise OverflowError)
  /\ (forall f, valid_float f -> 2 ^ 1202 < Z.abs (units f) ->
        encode (PyFloat f) DataType.FLOAT32 = Raise OverflowError)
  (* only a byte block encodes as BYTES *)
  /\ (forall v, (forall b, v <> PyBytes b) ->
        encode v DataType.BYTES = Raise ValueMustBeBytes)
  /\ error_kind StructError = None /\ error_kind OverflowError = None
  /\ error_kind ValueMustBeBytes = None.
Proof.
  split; [| split; [| split; [| split; [| split; [| split; [| split; [| split; [| split]]]]]]]].
  - intros k v Hr. destruct v as [f | z | b | s | b |]; cbn [representable] in Hr.
    + destruct Hr as [[-> Hv] | [-> (r & Hvr & ->)]].
      * exists (pack_d f). split; [reflexivity |]. split; [reflexivity |].
        change (decode_sensor_value (pack_d f) DataType.FLOAT64)
          with (x <- unpack_d (slice (pack_d f) 0 8) ;; Ok (PyFloat x, 8)).
        rewrite slice_all by (now rewrite pack_d_length).
        now rewrite (unpack_pack_d f Hv).
      * exists (be_bytes 4 (bits_of_float 23 8 r)).
        change (encode (PyFloat (of_single r)) DataType.FLOAT32) with (pack_f (of_single r)).
        assert (Hp : pack_f (of_single r) = Ok (be_bytes 4 (bits_of_float 23 8 r))).
        { unfold pack_f. now rewrite (to_single_of_single r Hvr). }
        split; [exact Hp |]. split; [reflexivity |].
        destruct (pack_f_ok _ _ (of_single_valid r) Hp) as (r' & Hr' & _ & Hl & Hu).
        rewrite (to_single_of_single r Hvr) in Hr'. apply Ok_inj in Hr'. subst r'.
        change (decode_sensor_value (be_bytes 4 (bits_of_float 23 8 r)) DataType.FLOAT32)
          with (x <- unpack_f (slice (be_bytes 4 (bits_of_float 23 8 r)) 0 4) ;;
                Ok (PyFloat x, 4)).
        rewrite slice_all by (now rewrite be_bytes_length). now rewrite Hu.
    + destruct Hr as (lo & hi & Hb & Hz).
      assert (Hk : 1 <= k <= 13).
      { destruct (Z.le_gt_cases 1 k) as [H1 | H1]; [destruct (Z.le_gt_cases k 13) as [H2 | H2] |];
          [lia | exfalso | exfalso];
          (destruct (unknown_kind_tests k ltac:(lia))
            as (E1 & E2 & E3 & E4 & E5 & E6 & E7 & E8 & E9 & E10 & E11 & E12 & E13);
           unfold int_bounds in Hb;
           rewrite E3, E4, E5, E6, E7, E8, E9, E10 in Hb; discriminate). }
      destruct (known_kinds k Hk)
        as [-> | [-> | [-> | [-> | [-> | [-> | [-> | [-> | [-> | [-> | [-> | [-> | ->]]]]]]]]]]]];
        vm_compute in Hb; try discriminate; injection Hb as <- <-.
      * apply (encode_signed_round_trip DataType.INT8 1 z);
          [reflexivity | intros; reflexivity | reflexivity | exact Hz].
      * apply (encode_signed_round_trip DataType.INT16 2 z);
          [reflexivity | intros; reflexivity | reflexivity | exact Hz].
      * apply (encode_signed_round_trip DataType.INT32 4 z);
          [reflexivity | intros; reflexivity | reflexivity | exact Hz].
      * apply (encode_signed_round_trip DataType.INT64 8 z);
          [reflexivity | intros; reflexivity | reflexivity | exact Hz].
      * apply (encode_unsigned_round_trip DataType.UINT8 1 z);
          [reflexivity | intros; reflexivity | exact Hz].
      * apply (encode_unsigned_round_trip DataType.UINT16 2 z);
          [reflexivity | intros; reflexivity | exact Hz].
      * apply (encode_unsigned_round_trip DataType.UINT32 4 z);
          [reflexivity | intros; reflexivity | exact Hz].
      * apply (encode_unsigned_round_trip DataType.UINT64 8 z);
          [reflexivity | intros; reflexivity | exact Hz].
    + subst k. exists (pack_bool b). split; [reflexivity |]. split; [reflexivity |].
      destruct b; reflexivity.
    + destruct Hr as (-> & content & Hutf & Hlen).
      destruct (length_prefixed content [] Hlen) as (l & Hl & Hw & Hu & Hs).
      rewrite app_nil_r in Hu, Hs.
      exists (l ++ content).
      change (encode (PyStr s) DataType.STRING)
        with (encoded <- utf8_encode s ;; l <- pack_uint 2 (len encoded) ;; Ok (l ++ encoded)).
      change (expected_width DataType.STRING (PyStr s))
        with (2 + match utf8_encode s with Ok bs => len bs | Raise _ => 0 end).
      rewrite Hutf. cbn [bind]. rewrite Hl. cbn [bind].
      split; [reflexivity |]. split; [exact Hw |].
      change (decode_sensor_value (l ++ content) DataType.STRING)
        with (length <- unpack_uint 2 (slice (l ++ content) 0 2) ;;
              s <- utf8_decode (slice (l ++ content) 2 (2 + Z.to_nat length)) ;;
              Ok (PyStr s, 2 + length)).
      rewrite Hu. cbn [bind]. rewrite Hs.
      rewrite (utf8_decode_encode s content Hutf). reflexivity.
    + destruct Hr as (-> & Hlen).
      destruct (length_prefixed b [] Hlen) as (l & Hl & Hw & Hu & Hs).
      rewrite app_nil_r in Hu, Hs.
      exists (l ++ b).
      change (encode (PyBytes b) DataType.BYTES)
        with (l <- pack_uint 2 (len b) ;; Ok (l ++ b)).
      change (expected_width DataType.BYTES (PyBytes b)) with (2 + len b).
      rewrite Hl. cbn [bind].
      split; [reflexivity |]. split; [exact Hw |].
      change (decode_sensor_value (l ++ b) DataType.BYTES)
        with (length <- unpack_uint 2 (slice (l ++ b) 0 2) ;;
              Ok (PyBytes (slice (l ++ b) 2 (2 + Z.to_nat length)), 2 + length)).
      rewrite Hu. cbn [bind]. rewrite Hs. reflexivity.
    + destruct Hr.
  - intros f bs Hv Hbs.
    change (encode (PyFloat f) DataType.FLOAT32) with (pack_f f) in Hbs.
    destruct (pack_f_ok f bs Hv Hbs) as (r & Hr & Hvr & Hl & Hu).
    exists r. split; [exact Hr |]. split; [unfold len; now rewrite Hl |].
    split.
    + change (decode_sensor_value bs DataType.FLOAT32)
        with (x <- unpack_f (slice bs 0 4) ;; Ok (PyFloat x, 4)).
      rewrite slice_all by (symmetry; exact Hl). now rewrite Hu.
    + intros den Hbig Hden. exact (single_precision_error f r den Hv Hr Hbig Hden).
  - intros k w data. apply fixed_width_defined.
  - intros k v data Hk. destruct (unknown_kind_raises k v data Hk) as [H1 H2].
    split; [exact H1 |]. split; [exact H2 | reflexivity].
  - intros k lo hi z Hb Hz.
    assert (Hk : 1 <= k <= 13).
    { destruct (Z.le_gt_cases 1 k) as [H1 | H1]; [destruct (Z.le_gt_cases k 13) as [H2 | H2] |];
        [lia | exfalso | exfalso];
        (destruct (unknown_kind_tests k ltac:(lia))
          as (E1 & E2 & E3 & E4 & E5 & E6 & E7 & E8 & E9 & E10 & E11 & E12 & E13);
         unfold int_bounds in Hb;
         rewrite E3, E4, E5, E6, E7, E8, E9, E10 in Hb; discriminate). }
    assert (Hs : forall n, ~ (- (256 ^ Z.of_nat n / 2) <= z < 256 ^ Z.of_nat n / 2) ->
                 pack_sint n z = Raise StructError).
    { intros n Hn. unfold pack_sint. cbv zeta.
      destruct (Z.leb_spec (- (256 ^ Z.of_nat n / 2)) z);
        destruct (Z.ltb_spec z (256 ^ Z.of_nat n / 2)); cbn [andb]; try reflexivity.
      exfalso. apply Hn. lia. }
    assert (Hu : forall n, ~ (0 <= z < 256 ^ Z.of_nat n) -> pack_uint n z = Raise StructError).
    { intros n Hn. unfold pack_uint.
      destruct (Z.leb_spec 0 z); destruct (Z.ltb_spec z (256 ^ Z.of_nat n)); cbn [andb];
        try reflexivity.
      exfalso. apply Hn. lia. }
    destruct (known_kinds k Hk)
      as [-> | [-> | [-> | [-> | [-> | [-> | [-> | [-> | [-> | [-> | [-> | [-> | ->]]]]]]]]]]]];
      vm_compute in Hb; try discriminate; injection Hb as <- <-.
    + exact (Hs 1%nat Hz).
    + exact (Hs 2%nat Hz).
    + exact (Hs 4%nat Hz).
    + exact (Hs 8%nat Hz).
    + exact (Hu 1%nat Hz).
    + exact (Hu 2%nat Hz).
    + exact (Hu 4%nat Hz).
    + exact (Hu 8%nat Hz).
  - intros f e. change (encode (PyFloat f) DataType.FLOAT32) with (pack_f f).
    unfold pack_f, to_single.
    destruct f as [s | s | | s m x]; cbn [bind]; try discriminate.
    destruct (binary_round prec32 emax32 s m x) as [s' | s' | | s' m' e'] eqn:Er;
      cbn [bind]; try discriminate.
    intros H. injection H as <-. split; [reflexivity |]. now exists s, m, x, s'.
  - intros s m x s' Hr.
    change (encode (PyFloat (S754_finite s m x)) DataType.FLOAT32)
      with (pack_f (S754_finite s m x)).
    unfold pack_f, to_single. now rewrite Hr.
  - intros f Hv Hbig. change (encode (PyFloat f) DataType.FLOAT32) with (pack_f f).
    unfold pack_f. now rewrite (to_single_overflows f Hv Hbig).
  - intros v Hv. destruct v as [f | z | b | s | b |]; try reflexivity.
    exfalso. exact (Hv b eq_refl).
  - repeat split.
Qed.

End ScalarCodecProperties.

(** ** The buoy client *)

Section ClientProperties.
Variable W : Type.
Variable json_dumps : Status.t -> pystr.

Let client := SpotterBuoyClient.t W.

Import SpotterBuoyClient.

Lemma set__state_same (c : client) : set__state c (_state c) = c.
Proof. destruct c; reflexivity. Qed.

Lemma on_state_change_all (ls : list (state_listener W)) (c : client) :
  on_state_change_callbacks (fold_left (@on_state_change W) ls c)
  = on_state_change_callbacks c ++ ls.
Proof.
  revert c. induction ls as [| l ls IH]; intros c; simpl.
  - now rewrite app_nil_r.
  - rewrite IH. simpl. now rewrite <- app_assoc.
Qed.

Lemma on_transmit_all (ls : list (transmit_listener W)) (c : client) :
  on_transmit_callbacks (fold_left (@on_transmit W) ls c)
  = on_transmit_callbacks c ++ ls.
Proof.
  revert c. induction ls as [| l ls IH]; intros c; simpl.
  - now rewrite app_nil_r.
  - rewrite IH. simpl. now rewrite <- app_assoc.
Qed.

Lemma ConnectionState_eqb_eq (a b : ConnectionState.t) :
  ConnectionState.eqb a b = true <-> a = b.
Proof. destruct a, b; simpl; split; congruence. Qed.

(** *** The loop over the listeners *)

Lemma for_each_app {A : Type} (call : A -> listener_call W) (l1 l2 : list A) (w : W) :
  for_each call (l1 ++ l2) w
  = match for_each call l1 w with
    | (w1, None) => for_each call l2 w1
    | (w1, Some e) => (w1, Some e)
    end.
Proof.
  revert w. induction l1 as [| x l1 IH]; intros w; cbn [app for_each]; [reflexivity |].
  destruct (call x w) as [w1 [e |]]; [reflexivity | apply IH].
Qed.

(** When the loop ends without an exception, every callback has been
    called, in the order of the list. *)
Lemma for_each_returned {A : Type} (call : A -> listener_call W) (l : list A) (w w' : W) :
  for_each call l w = (w', None) -> w' = after_calls call l w.
Proof.
  unfold after_calls. revert w. induction l as [| x l IH]; intros w; cbn [for_each fold_left].
  - congruence.
  - destruct (call x w) as [w1 [e |]]; cbn [fst]; [discriminate | apply IH].
Qed.

(** When the loop ends with an exception, a callback raised it, those
    before it had returned, and those after it have not been called. *)
Lemma for_each_raised {A : Type} (call : A -> listener_call W) (l : list A) (w w' : W)
      (e : PyError) :
  for_each call l w = (w', Some e) ->
  exists before callback after w1,
    l = before ++ callback :: after
    /\ for_each call before w = (w1, None)
    /\ call callback w1 = (w', Some e).
Proof.
  revert w. induction l as [| x l IH]; intros w; cbn [for_each]; [discriminate |].
  destruct (call x w) as [w1 [e1 |]] eqn:Ex.
  - intros H. exists [], x, l, w. cbn [for_each app]. split; [reflexivity |].
    split; [reflexivity | congruence].
  - intros H. destruct (IH w1 H) as (before & cb & after & w2 & -> & Hb & Hc).
    exists (x :: before), cb, after, w2. cbn [for_each app]. rewrite Ex.
    split; [reflexivity |]. split; assumption.
Qed.

Lemma for_each_raises {A : Type} (call : A -> listener_call W)
      (before after : list A) (callback : A) (w w1 w2 : W) (e : PyError) :
  for_each call before w = (w1, None) ->
  call callback w1 = (w2, Some e) ->
  for_each call (before ++ callback :: after) w = (w2, Some e).
Proof. intros Hb Hc. rewrite for_each_app, Hb. cbn [for_each]. now rewrite Hc. Qed.

(** What an assignment to [state] does, when the value is a new one. *)
Lemma set_state_changes (c : client) (new_state : ConnectionState.t) (w : W) :
  new_state <> state c ->
  let out := for_each (fun callback : state_listener W => callback (state c) new_state)
                      (on_state_change_callbacks c) w in
  set_state c new_state w
  = (match snd out with None => Ok tt | Some e => Raise e end,
     set__state c new_state, fst out).
Proof.
  intros Hneq. unfold set_state, state in *.
  destruct (ConnectionState.eqb (_state c) new_state) eqn:E.
  - apply ConnectionState_eqb_eq in E. congruence.
  - cbn [negb set__state on_state_change_callbacks].
    destruct (for_each _ _ _) as [w' [e |]]; reflexivity.
Qed.

Lemma set_state_client (c : client) (new_state : ConnectionState.t) (w : W) :
  snd (fst (set_state c new_state w)) = set__state c new_state.
Proof.
  unfold set_state. destruct (negb _); [| reflexivity].
  destruct (for_each _ _ _) as [w' [e |]]; reflexivity.
Qed.

Lemma run_set_state (new_state : ConnectionState.t) (c : client) (w : W) :
  fst (run json_dumps (Set_state W new_state) c w) = set__state c new_state.
Proof.
  cbn [run]. rewrite <- (set_state_client c new_state w).
  now destruct (set_state c new_state w) as [[r c'] w'].
Qed.

(** What [transmit] does on a queue that is not empty. *)
Lemma transmit_rounds now (c : client) mode max_messages (w : W) m0 rest :
  deque.items (_message_queue c) = m0 :: rest ->
  transmit now c mode max_messages w
  = match transmit_loop (rounds max_messages (len (m0 :: rest))) (_message_queue c) [] 0 with
    | (Raise e, q) => (Raise e, set_message_queue c q, w)
    | (Ok (transmitted_messages, total_bytes), q) =>
        let result :=
          TransmissionResult.mk true (len transmitted_messages) total_bytes now None
            (Some match mode with
                  | Some m => m
                  | None => SpotterConfig.transmission_mode (config c)
                  end) in
        let out := for_each (fun callback : transmit_listener W => callback result)
                            (on_transmit_callbacks c) w in
        (match snd out with None => Ok result | Some e => Raise e end,
         set_transmission_history (set_message_queue c q)
           (_transmission_history c ++ [result]),
         fst out)
    end.
Proof.
  intros Hq. unfold transmit, rounds. rewrite Hq.
  destruct (transmit_loop _ _ _ _) as [[[tm tb] | e] q]; [| reflexivity].
  cbv zeta. cbn [on_transmit_callbacks set_transmission_history set_message_queue].
  destruct (for_each _ _ _) as [w' [e |]]; reflexivity.
Qed.

(** The client [transmit] leaves is the one it was given, but for the
    queue and the history. *)
Lemma transmit_client now (c : client) mode max_messages (w : W) :
  exists q h,
    snd (fst (transmit now c mode max_messages w))
    = set_transmission_history (set_message_queue c q) h.
Proof.
  destruct (deque.items (_message_queue c)) as [| m0 rest] eqn:Eq.
  - exists (_message_queue c), (_transmission_history c). unfold transmit. rewrite Eq.
    now destruct c.
  - rewrite (transmit_rounds now c mode max_messages w m0 rest Eq).
    destruct (transmit_loop _ _ _ _) as [[[tm tb] | e] q].
    + eexists q, _. reflexivity.
    + exists q, (_transmission_history c). now destruct c.
Qed.

Lemma run_transmit now mode max_messages (c : client) (w : W) :
  run json_dumps (Transmit W now mode max_messages) c w
  = (snd (fst (transmit now c mode max_messages w)), snd (transmit now c mode max_messages w)).
Proof. cbn [run]. now destruct (transmit now c mode max_messages w) as [[r c'] w']. Qed.

Lemma transmit_keeps_state now (c : client) mode max_messages w :
  _state (snd (fst (transmit now c mode max_messages w))) = _state c.
Proof.
  destruct (transmit_client now c mode max_messages w) as (q & h & ->). reflexivity.
Qed.

(** Apart from the setter, no method touches the state. *)
Lemma run_keeps_state (k : call W) (c : client) (w : W) :
  (forall s, k <> Set_state W s) ->
  _state (fst (run json_dumps k c w)) = _state c.
Proof.
  intros Hk. destruct k; try reflexivity.
  - exfalso. eapply Hk. reflexivity.
  - cbn [run fst]. unfold unregister_sensor. destruct (dict_get _ _); reflexivity.
  - cbn [run fst]. unfold queue_reading.
    destruct (Sensor.wrap_reading _ _ _) as [[m | e] s]; reflexivity.
  - cbn [run fst]. unfold queue_raw_data.
    destruct (BristlemouthMessage.init _ _ _ _ _ _ _ _); reflexivity.
  - rewrite run_transmit. cbn [fst]. apply transmit_keeps_state.
  - cbn [run fst]. unfold create_status_message. destruct (utf8_encode _); reflexivity.
Qed.

(** C9, amended. Assigning the state its current value leaves the client
    and the world as they were: no state-change listener runs. Assigning
    another value stores it and then calls the registered state-change
    listeners in the order of registration ([on_state_change] appends), each
    with the old and the new state, up to the first that raises. When they
    all return, every one has been called and the assignment returns. When
    one raises, its exception is the assignment's: the listeners before it
    have been called, those after it have not, and the new state is stored
    all the same. No other method of the client changes the state: a call
    after which the state differs is an assignment. *)
Theorem state_assignment_notifies_listeners (c : client) (w : W) :
  let notify (new_state : ConnectionState.t) :=
    for_each (fun callback : state_listener W => callback (state c) new_state) in
  (* same value: nothing happens *)
  set_state c (state c) w = (Ok tt, c, w)
  (* another value: stored, then the listeners are called with (old, new) *)
  /\ (forall new_state, new_state <> state c ->
        let out := notify new_state (on_state_change_callbacks c) w in
        set_state c new_state w
        = (match snd out with None => Ok tt | Some e => Raise e end,
           set__state c new_state, fst out))
  (* they all return: every one has been called, in the order of the list *)
  /\ (forall new_state w', new_state <> state c ->
        notify new_state (on_state_change_callbacks c) w = (w', None) ->
        set_state c new_state w = (Ok tt, set__state c new_state, w')
        /\ w' = after_calls (fun callback : state_listener W => callback (state c) new_state)
                            (on_state_change_callbacks c) w)
  (* one raises: the assignment raises, the later listeners are not called *)
  /\ (forall new_state before callback after w1 w2 e, new_state <> state c ->
        on_state_change_callbacks c = before ++ callback :: after ->
        notify new_state before w = (w1, None) ->
        callback (state c) new_state w1 = (w2, Some e) ->
        set_state c new_state w = (Raise e, set__state c new_state, w2))
  (* an assignment that raises does so because a listener did *)
  /\ (forall new_state e c' w', set_state c new_state w = (Raise e, c', w') ->
        new_state <> state c /\ c' = set__state c new_state
        /\ exists before callback after w1,
             on_state_change_callbacks c = before ++ callback :: after
             /\ notify new_state before w = (w1, None)
             /\ callback (state c) new_state w1 = (w', Some e))
  (* listeners are kept in the order they were registered in *)
  /\ (forall ls, on_state_change_callbacks (fold_left (@on_state_change W) ls c)
                 = on_state_change_callbacks c ++ ls)
  (* the state moves by assignment only *)
  /\ (forall k, state (fst (run json_dumps k c w)) <> state c ->
        exists new_state, k = Set_state W new_state /\ new_state <> state c
                          /\ state (fst (run json_dumps k c w)) = new_state).
Proof.
  intros notify.
  assert (Hsame : set_state c (state c) w = (Ok tt, c, w)).
  { unfold set_state, state.
    assert (E : ConnectionState.eqb (_state c) (_state c) = true)
      by now apply ConnectionState_eqb_eq.
    rewrite E. cbn [negb]. now rewrite set__state_same. }
  split; [exact Hsame |]. split; [| split; [| split; [| split; [| split]]]].
  - intros new_state Hneq. apply set_state_changes. exact Hneq.
  - intros new_state w' Hneq Hall. subst notify. cbv beta in Hall.
    rewrite (set_state_changes c new_state w Hneq). cbv zeta. rewrite Hall. cbn [fst snd].
    split; [reflexivity |]. now apply for_each_returned.
  - intros new_state before callback after w1 w2 e Hneq Hl Hb Hc. subst notify.
    cbv beta in Hb.
    rewrite (set_state_changes c new_state w Hneq). cbv zeta.
    rewrite Hl, (for_each_raises _ before after callback w w1 w2 e Hb Hc). reflexivity.
  - intros new_state e c' w' H.
    assert (Hneq : new_state <> state c).
    { intros ->. rewrite Hsame in H. discriminate. }
    split; [exact Hneq |].
    rewrite (set_state_changes c new_state w Hneq) in H. cbv zeta in H.
    destruct (for_each _ (on_state_change_callbacks c) w) as [w1 [e1 |]] eqn:E;
      cbn [fst snd] in H; [| discriminate].
    injection H as <- <- <-. split; [reflexivity |].
    exact (for_each_raised _ _ _ _ _ E).
  - intros ls. apply on_state_change_all.
  - intros k Hchg. unfold state in *.
    destruct k;
      try (exfalso; apply Hchg; apply run_keeps_state; intros s; discriminate).
    exists new_state. rewrite run_set_state in *. cbn [_state set__state] in *.
    split; [reflexivity |]. split; [congruence | reflexivity].
Qed.

(** C10, amended. With a history that is not empty, a limit of 0 returns
    the whole history, exactly as an absent limit does, and so not the empty
    list; nor does any other count: a limit [n >= 1] returns the last [n]
    entries (all of them when there are fewer). A negative limit [-n]
    returns the history without its [n] oldest entries, which is the empty
    list when [n] is the length of the history or more: the limits that
    return no entry are exactly those at or below minus the length. *)
Theorem history_limit_zero_is_no_limit (c : client) :
  _transmission_history c <> [] ->
  get_transmission_history c (Some 0) = _transmission_history c
  /\ get_transmission_history c (Some 0) = get_transmission_history c None
  /\ (forall n : nat, get_transmission_history c (Some (Z.of_nat n)) <> [])
  /\ (forall n : nat, (1 <= n)%nat ->
        get_transmission_history c (Some (Z.of_nat n))
        = skipn (length (_transmission_history c) - n) (_transmission_history c))
  /\ (forall n : nat, (1 <= n)%nat ->
        get_transmission_history c (Some (- Z.of_nat n))
        = skipn n (_transmission_history c))
  /\ (forall limit : Z,
        get_transmission_history c (Some limit) = []
        <-> limit <= - len (_transmission_history c)).
Proof.
  intros Hne.
  assert (Hlast : forall n : nat, (1 <= n)%nat ->
            get_transmission_history c (Some (Z.of_nat n))
            = skipn (length (_transmission_history c) - n) (_transmission_history c)).
  { intros n Hn. unfold get_transmission_history.
    destruct (Z.of_nat n) eqn:E; try lia.
    rewrite <- E. rewrite slice_from_last by lia. now rewrite Nat2Z.id. }
  assert (Hfront : forall n : nat, (1 <= n)%nat ->
            get_transmission_history c (Some (- Z.of_nat n))
            = skipn n (_transmission_history c)).
  { intros n Hn. unfold get_transmission_history.
    destruct (- Z.of_nat n) as [| p | p] eqn:E; try lia.
    unfold slice_from. rewrite <- E.
    destruct (Z.ltb_spec (- - Z.of_nat n) 0) as [Hneg | _]; [lia |].
    f_equal. lia. }
  assert (Hcount : forall n : nat, get_transmission_history c (Some (Z.of_nat n)) <> []).
  { intros [| n].
    - exact Hne.
    - rewrite Hlast by lia. apply skipn_nonempty.
      destruct (_transmission_history c); [congruence | simpl; lia]. }
  assert (Hlen : 1 <= len (_transmission_history c)).
  { unfold len. destruct (_transmission_history c); [congruence | cbn [length]; lia]. }
  split; [reflexivity |]. split; [reflexivity |]. split; [exact Hcount |].
  split; [exact Hlast |]. split; [exact Hfront |].
  intros limit. destruct (Z.le_gt_cases 0 limit) as [Hpos | Hneg].
  - specialize (Hcount (Z.to_nat limit)). rewrite Z2Nat.id in Hcount by exact Hpos.
    split; [intros H; contradiction | lia].
  - specialize (Hfront (Z.to_nat (- limit)) ltac:(lia)).
    replace (- Z.of_nat (Z.to_nat (- limit))) with limit in Hfront by lia.
    rewrite Hfront. unfold len in *. split.
    + intros H. apply (f_equal (@length _)) in H. rewrite length_skipn in H.
      cbn [length] in H. lia.
    + intros H. apply skipn_all2. lia.
Qed.

(** *** The bounded queue *)













(** *** Transmission *)

Lemma transmit_loop_drains n (q : deque.t BristlemouthMessage.t) sent total s :
  (n <= length (deque.items q))%nat ->
  encoded_size (firstn n (deque.items q)) = Ok s ->
  transmit_loop n q sent total
  = (Ok (sent ++ firstn n (deque.items q), total + s),
     deque.mk (skipn n (deque.items q)) (deque.maxlen q)).
Proof.
  revert q sent total s. induction n as [| n IH]; intros [items maxlen] sent total s Hn Hs.
  - simpl in *. injection Hs as <-. rewrite app_nil_r, Z.add_0_r. reflexivity.
  - simpl in *. destruct items as [| msg rest]; [simpl in Hn; lia |].
    simpl in Hs. destruct (BristlemouthMessage.to_bytes msg) as [bs | e]; [| discriminate].
    simpl in Hs. destruct (encoded_size (firstn n rest)) as [s' | e] eqn:Es; [| discriminate].
    simpl in Hs. injection Hs as <-.
    rewrite (IH (deque.mk rest maxlen) (sent ++ [msg]) (total + len bs) s').
    + simpl. rewrite <- app_assoc. simpl. do 3 f_equal. lia.
    + simpl in *. lia.
    + exact Es.
Qed.

Lemma len_firstn {A} (k : Z) (l : list A) :
  0 <= k <= len l -> len (firstn (Z.to_nat k) l) = k.
Proof. unfold len. intros H. rewrite length_firstn. lia. Qed.

(** C1, amended. On an empty queue [transmit] returns a successful result
    with no message and no byte, and nothing else happens: the history is as
    it was and no listener is called. On a queue of [n] messages and for
    [1 <= k <= n], the first [k] of which encode, [transmit(max_messages=k)]
    removes exactly these [k] from the head, in order, and leaves the other
    [n - k]; a successful result that counts [k] messages and the sum of
    their encoded lengths is appended to the history, and then the transmit
    listeners are called with it, in the order of registration, up to the
    first that raises. When they all return, every one has been called and
    the result is returned. When one raises, its exception is the call's:
    the listeners after it are not called, the messages are gone from the
    queue and the result is in the history all the same. Without a maximum
    the whole queue is drained in the same way. *)
Theorem transmit_drains_head_of_queue now (c : client) mode (w : W) :
  let q := deque.items (_message_queue c) in
  let used := match mode with
              | Some m => m
              | None => SpotterConfig.transmission_mode (config c)
              end in
  let result (k total : Z) := TransmissionResult.mk true k total now None (Some used) in
  (* the client after the call: [k] messages gone, the result recorded *)
  let drained (k total : Z) :=
    set_transmission_history
      (set_message_queue c (deque.mk (skipn (Z.to_nat k) q)
                                     (deque.maxlen (_message_queue c))))
      (_transmission_history c ++ [result k total]) in
  let notify (k total : Z) :=
    for_each (fun callback : transmit_listener W => callback (result k total)) in
  let sent (k total : Z) :=
    let out := notify k total (on_transmit_callbacks c) w in
    (match snd out with None => Ok (result k total) | Some e => Raise e end,
     drained k total, fst out) in
  (q = [] -> forall max_messages,
     transmit now c mode max_messages w = (Ok (result 0 0), c, w))
  /\ (forall k total, 1 <= k <= len q ->
        encoded_size (firstn (Z.to_nat k) q) = Ok total ->
        transmit now c mode (Some k) w = sent k total)
  /\ (forall total, q <> [] -> encoded_size q = Ok total ->
        transmit now c mode None w = sent (len q) total)
  (* the listeners all return: every one has been called, in order *)
  /\ (forall k total w', 1 <= k <= len q ->
        encoded_size (firstn (Z.to_nat k) q) = Ok total ->
        notify k total (on_transmit_callbacks c) w = (w', None) ->
        transmit now c mode (Some k) w = (Ok (result k total), drained k total, w')
        /\ w' = after_calls (fun callback : transmit_listener W => callback (result k total))
                            (on_transmit_callbacks c) w)
  (* one raises: the call raises, the later listeners are not called *)
  /\ (forall k total before callback after w1 w2 e, 1 <= k <= len q ->
        encoded_size (firstn (Z.to_nat k) q) = Ok total ->
        on_transmit_callbacks c = before ++ callback :: after ->
        notify k total before w = (w1, None) ->
        callback (result k total) w1 = (w2, Some e) ->
        transmit now c mode (Some k) w = (Raise e, drained k total, w2)).
Proof.
  intros q used result drained notify sent.
  assert (Hgen : forall mm k total,
            1 <= k <= len q ->
            rounds mm (len q) = Z.to_nat k ->
            encoded_size (firstn (Z.to_nat k) q) = Ok total ->
            transmit now c mode mm w = sent k total).
  { intros mm k total Hk Hmin Hsize. subst sent notify drained result. fold used.
    subst q. cbv beta zeta in *.
    destruct (deque.items (_message_queue c)) as [| m0 rest] eqn:Eq;
      [unfold len in Hk; simpl in Hk; lia |].
    rewrite (transmit_rounds now c mode mm w m0 rest Eq), Hmin.
    rewrite (transmit_loop_drains (Z.to_nat k) (_message_queue c) [] 0 total).
    - rewrite Eq. cbn [app]. rewrite len_firstn by lia. reflexivity.
    - rewrite Eq. unfold len in Hk. lia.
    - rewrite Eq. exact Hsize. }
  assert (Hk : forall k total, 1 <= k <= len q ->
            encoded_size (firstn (Z.to_nat k) q) = Ok total ->
            transmit now c mode (Some k) w = sent k total).
  { intros k total Hk Hsize. apply Hgen; [exact Hk | | exact Hsize].
    unfold rounds. destruct k; lia. }
  split; [| split; [| split; [| split]]].
  - intros Hq max_messages. unfold transmit. fold q. rewrite Hq. reflexivity.
  - exact Hk.
  - intros total Hq Hsize.
    assert (Hpos : 1 <= len q).
    { destruct q; [congruence | unfold len; simpl; lia]. }
    apply Hgen; [lia | unfold rounds; lia |].
    unfold len. rewrite Nat2Z.id, firstn_all. exact Hsize.
  - intros k total w' Hkq Hsize Hall. rewrite (Hk k total Hkq Hsize).
    subst sent. cbv beta zeta. rewrite Hall. cbn [fst snd].
    split; [reflexivity |]. now apply for_each_returned.
  - intros k total before callback after w1 w2 e Hkq Hsize Hl Hb Hc.
    rewrite (Hk k total Hkq Hsize). subst sent. cbv beta zeta.
    unfold notify. rewrite Hl.
    rewrite (for_each_raises _ before after callback w w1 w2 e Hb Hc). reflexivity.
Qed.

End ClientProperties.

Lemma state_assignment_notifies_listeners_witness :
  snd (SpotterBuoyClient.set_state Examples.watched_client ConnectionState.CONNECTING [])
  = [(1%nat, ConnectionState.DISCONNECTED, ConnectionState.CONNECTING);
     (2%nat, ConnectionState.DISCONNECTED, ConnectionState.CONNECTING)].
Proof.
  destruct (state_assignment_notifies_listeners _ Examples.no_json Examples.watched_client [])
    as (_ & H & _).
  rewrite (H ConnectionState.CONNECTING); [reflexivity | discriminate].
Defined.

Lemma history_limit_zero_is_no_limit_witness :
  SpotterBuoyClient.get_transmission_history Examples.used_client (Some 0)
  = [Examples.one_result].
Proof.
  apply (history_limit_zero_is_no_limit _ Examples.used_client). discriminate.
Defined.

(** C10 as stated fails for a negative limit: with one entry in the
    history, a limit of -1 returns the empty list. *)
Lemma negative_limit_returns_no_entry :
  SpotterBuoyClient._transmission_history Examples.used_client <> []
  /\ SpotterBuoyClient.get_transmission_history Examples.used_client (Some (-1)) = [].
Proof. split; [discriminate | reflexivity]. Qed.

(** C9 as stated fails when a listener raises: of three registered
    listeners the second raises, the assignment of another state raises
    with it, and the third listener, registered as well, is not called. The
    new state is stored all the same. *)
Lemma state_listener_that_raises_silences_the_rest :
  let c := Examples.guarded_client in
  let out := SpotterBuoyClient.set_state c ConnectionState.CONNECTING [] in
  SpotterBuoyClient.state c = ConnectionState.DISCONNECTED
  /\ SpotterBuoyClient.on_state_change_callbacks c
     = [Examples.state_recorder 1; Examples.state_refuser; Examples.state_recorder 2]
  /\ fst (fst out) = Raise (OtherException "RuntimeError")
  /\ SpotterBuoyClient.state (snd (fst out)) = ConnectionState.CONNECTING
  /\ snd out = [(1%nat, ConnectionState.DISCONNECTED, ConnectionState.CONNECTING)]
  /\ ~ In (2%nat, ConnectionState.DISCONNECTED, ConnectionState.CONNECTING) (snd out).
Proof.
  cbv zeta. repeat split. cbn. intros [H | []]. discriminate.
Qed.

(** A transmit listener that raises: the call raises with it after the
    messages have left the queue and the result has been appended to the
    history, and the listener registered after it is not called. *)
Lemma transmit_listener_that_raises_silences_the_rest :
  let result :=
    TransmissionResult.mk true 2 76 QueueExamples.t0 None (Some TransmissionMode.HYBRID) in
  let c := QueueExamples.guarded in
  let out := SpotterBuoyClient.transmit QueueExamples.t0 c None (Some 2) [] in
  SpotterBuoyClient.on_transmit_callbacks c
  = [QueueExamples.transmit_recorder 1; QueueExamples.transmit_refuser;
     QueueExamples.transmit_recorder 2]
  /\ fst (fst out) = Raise (OtherException "RuntimeError")
  /\ deque.items (SpotterBuoyClient._message_queue (snd (fst out))) = [QueueExamples.message 3]
  /\ SpotterBuoyClient._transmission_history (snd (fst out)) = [result]
  /\ snd out = [(1%nat, result)].
Proof.
  cbv zeta. split; [reflexivity |]. vm_compute. repeat split.
Qed.



Lemma transmit_drains_head_of_queue_witness :
  let result :=
    TransmissionResult.mk true 2 76 QueueExamples.t0 None (Some TransmissionMode.HYBRID) in
  let out := SpotterBuoyClient.transmit QueueExamples.t0 QueueExamples.loaded None (Some 2) [] in
  fst (fst out) = Ok result
  /\ deque.items (SpotterBuoyClient._message_queue (snd (fst out))) = [QueueExamples.message 3]
  /\ SpotterBuoyClient._transmission_history (snd (fst out)) = [result]
  /\ snd out = [(1%nat, result); (2%nat, result)].
Proof.
  destruct (transmit_drains_head_of_queue QueueExamples.transmit_log QueueExamples.t0
              QueueExamples.loaded None []) as (_ & H & _).
  cbv zeta. rewrite (H 2 76); [| vm_compute; split; discriminate | vm_compute; reflexivity].
  vm_compute. repeat split.
Defined.

(** C1 as stated fails on the empty queue: the result is returned, but it is
    not appended to the history and no listener is called with it. *)
Lemma transmit_on_empty_queue_is_not_recorded :
  let result :=
    TransmissionResult.mk true 0 0 QueueExamples.t0 None (Some TransmissionMode.HYBRID) in
  let c := QueueExamples.fresh 1000 in
  let out := SpotterBuoyClient.transmit QueueExamples.t0 c None None [] in
  fst (fst out) = Ok result
  /\ SpotterBuoyClient._transmission_history (snd (fst out))
     <> SpotterBuoyClient._transmission_history c ++ [result]
  /\ snd out <> [(1%nat, result); (2%nat, result)]
  /\ SpotterBuoyClient._transmission_history (snd (fst out)) = []
  /\ snd out = [].
Proof.
  vm_compute. repeat split; discriminate.
Qed.

Lemma topic_constructor_checks_characters_witness :
  BristlemouthTopic.init (lit "spotter/sensor/temperature") 1 None
  = Ok SpotterTopics.TEMPERATURE.
Proof.
  apply (topic_constructor_checks_characters (lit "spotter/sensor/temperature") 1 None).
  vm_compute. split; discriminate.
Defined.

(** C6 as stated fails for a name of 33 two-byte characters: its UTF-8
    encoding is 66 bytes long, yet the constructor accepts it. *)
Lemma topic_name_of_66_bytes_is_accepted :
  let name := repeat 233 33 in
  (bs <- utf8_encode name ;; Ok (len bs)) = Ok 66
  /\ BristlemouthTopic.init name 1 None = Ok (BristlemouthTopic.mk name 1 None).
Proof. vm_compute. split; reflexivity. Qed.

Lemma decode_failures_witness :
  BristlemouthMessage.from_bytes (float_lit 0)
    (flip_bit_at
       (map byte_of_Z
            [188; 1; 0; 1; 0; 0; 0; 42; 0; 0; 1; 31; 113; 251; 4; 80; 0; 0; 0; 0; 0; 0;
             0; 7; 1; 0; 4; 116; 101; 115; 116; 0; 2; 104; 105; 24; 38; 99; 178])
       38 0)
  = Raise ChecksumMismatch.
Proof.
  destruct (decode_failures (float_lit 0)) as (_ & _ & _ & H & _).
  apply (H MessageExamples.in_2009).
  - vm_compute. reflexivity.
  - vm_compute. reflexivity.
  - simpl. lia.
  - lia.
Defined.

(** C4 as stated fails on an input of 33 bytes whose first byte is 0xBC: it
    is refused for its empty topic name, a format error that is neither "too
    short" nor "invalid magic". *)
Lemma format_error_with_length_and_magic_right :
  (22 <= length MessageExamples.nameless)%nat
  /\ Z_of_byte (hd x00 MessageExamples.nameless) = BCMP_HEADER_MAGIC
  /\ BristlemouthMessage.from_bytes (float_lit 0) MessageExamples.nameless
     = Raise TopicNameEmpty
  /\ error_kind TopicNameEmpty = Some FormatError.
Proof.
  split; [vm_compute; lia |]. split; [reflexivity |]. split; [| reflexivity].
  vm_compute. reflexivity.
Qed.

(** C3: the code fails on valid messages. Stamped 1.0015, the message goes
    out with 1001 milliseconds; the decoder turns them into 1.001, whose
    product with 1000 truncates to 1000, so the checksum it recomputes is
    that of another header. The same happens with 2173901344.0555, a time in
    November 2038. With 1234567890.0 the round trip works. *)
Lemma round_trip_fails_on_valid_messages :
  let decoded m := bs <- BristlemouthMessage.to_bytes m ;;
                   BristlemouthMessage.from_bytes (float_lit 0) bs in
  BristlemouthMessage.init (float_lit 0) MessageExamples.topic MessageExamples.payload
    MessageType.SENSOR_DATA BCMP_PROTOCOL_VERSION 42 (Some (dec 10015 4)) None
  = Ok MessageExamples.early
  /\ is_ok (BristlemouthMessage.to_bytes MessageExamples.early) = true
  /\ BristlemouthMessage.timestamp_ms (dec 10015 4) = Ok 1001
  /\ BristlemouthMessage.timestamp_ms (fdiv (float_lit 1001) (float_lit 1000)) = Ok 1000
  /\ decoded MessageExamples.early = Raise ChecksumMismatch
  /\ decoded MessageExamples.in_2038 = Raise ChecksumMismatch
  /\ is_ok (decoded MessageExamples.in_2009) = true.
Proof. vm_compute. repeat split. Qed.

Lemma create_reading_validates_witness :
  let s := SensorExamples.thermometer in
  let reading :=
    SensorReading.mk SensorExamples.warm SensorUnit.CELSIUS SensorExamples.t0 100
                     (Some (lit "temp_sensor_01")) None in
  Sensor.create_reading SensorExamples.t0 s SensorExamples.warm None None 100 None
  = (Ok reading, Sensor.set_readings s [reading]).
Proof.
  destruct (create_reading_validates SensorExamples.t0 SensorExamples.thermometer
              SensorExamples.warm None None 100 None (float_lit 0))
    as (_ & _ & _ & H & _).
  apply H. split; [vm_compute; reflexivity | lia].
Defined.

(** C8 as stated fails at a quality of 150: the value 22.5 is a number
    within the thermometer's range, and [create_reading] still fails with a
    validation error. *)
Lemma create_reading_fails_on_quality_alone :
  let s := SensorExamples.thermometer in
  is_numeric SensorExamples.warm = true
  /\ num_lt SensorExamples.warm (Sensor.min_value s) = false
  /\ num_gt SensorExamples.warm (Sensor.max_value s) = false
  /\ Sensor.create_reading SensorExamples.t0 s SensorExamples.warm None None 150 None
     = (Raise QualityOutOfRange, s)
  /\ error_kind QualityOutOfRange = Some ValidationError.
Proof. vm_compute. repeat split. Qed.

(** The round trip of a reading taken 5 m down: 5.0 is a single precision
    number, and comes back as it was. *)
Lemma reading_round_trip_witness :
  (bs <- SensorReading.to_bytes ReadingExamples.submerged ;;
   SensorReading.from_bytes (float_lit 0) bs SensorUnit.CELSIUS)
  = Ok (SensorReading.mk SensorExamples.warm SensorUnit.CELSIUS SensorExamples.t0 95 None
                         (Some (float_lit 5))).
Proof.
  destruct (SensorReading.to_bytes ReadingExamples.submerged) as [bs | e] eqn:Ebs;
    [| vm_compute in Ebs; discriminate].
  destruct (reading_round_trip (float_lit 0) ReadingExamples.submerged SensorUnit.CELSIUS bs)
    as (v & ms & msf & single & Hv & Hms & Hmsf & Hs & _ & Hfrom & _).
  - split; [vm_compute; split; discriminate |].
    split; intros x Hx; vm_compute in Hx; injection Hx as <-; reflexivity.
  - exact Ebs.
  - cbn [bind]. rewrite Hfrom.
    vm_compute in Hv, Hms, Hs. apply Ok_inj in Hv, Hms, Hs. subst v ms single.
    vm_compute in Hmsf. apply Ok_inj in Hmsf. subst msf.
    vm_compute. reflexivity.
Defined.

(** C5 as stated fails for a depth of -2.0: the reading has a depth, it
    encodes and decodes, and the decoded reading has none. *)
Lemma negative_depth_comes_back_absent :
  SensorReading.init (float_lit 0) SensorExamples.warm SensorUnit.CELSIUS
    (Some SensorExamples.t0) 95 (Some (lit "temp_sensor_01")) (Some (fopp (float_lit 2)))
  = Ok ReadingExamples.airborne
  /\ SensorReading.depth_m ReadingExamples.airborne = Some (fopp (float_lit 2))
  /\ (bs <- SensorReading.to_bytes ReadingExamples.airborne ;;
      SensorReading.from_bytes (float_lit 0) bs SensorUnit.CELSIUS)
     = Ok (SensorReading.mk SensorExamples.warm SensorUnit.CELSIUS SensorExamples.t0 95 None
                            None).
Proof. vm_compute. repeat split. Qed.

(** A negative depth of [2 ^ -160] is not absent after the round trip: it
    comes back as the negative zero. *)
Lemma tiny_negative_depth_comes_back_as_zero :
  well_formed ReadingExamples.grazing
  /\ units (S754_finite true 4503599627370496 (-212)) = - 2 ^ 914
  /\ (bs <- SensorReading.to_bytes ReadingExamples.grazing ;;
      SensorReading.from_bytes (float_lit 0) bs SensorUnit.CELSIUS)
     = Ok (SensorReading.mk SensorExamples.warm SensorUnit.CELSIUS SensorExamples.t0 95 None
                            (Some (S754_zero true))).
Proof.
  split; [| split; vm_compute; reflexivity].
  split; [vm_compute; split; discriminate |].
  split; intros x Hx; vm_compute in Hx; injection Hx as <-; reflexivity.
Qed.

(** The round trip at the 16-bit integer -1000. *)
Lemma scalar_round_trip_witness :
  ScalarExamples.encode (PyInt (-1000)) DataType.INT16 = Ok [xfc; x18]
  /\ decode_sensor_value [xfc; x18] DataType.INT16 = Ok (PyInt (-1000), 2).
Proof.
  destruct (scalar_round_trip ScalarExamples.no_text ScalarExamples.no_text
              ScalarExamples.no_str)
    as (H & _).
  destruct (H DataType.INT16 (PyInt (-1000))) as (bs & Hbs & _ & Hd).
  - exists (- 2 ^ 15), (2 ^ 15). split; [reflexivity | lia].
  - split; [reflexivity |].
    vm_compute in Hbs. apply Ok_inj in Hbs. subst bs. exact Hd.
Defined.

(** C7 as stated fails on its totality: with a valid kind, decoding a buffer
    shorter than the kind's width and encoding an integer beyond the kind's
    bounds raise [struct.error], encoding a float beyond the single precision
    range raises [OverflowError], and encoding a string as a byte block
    raises a [ValueError] that is not [Unknown data type]. *)
Lemma scalar_codec_is_partial :
  decode_sensor_value [x01] DataType.INT16 = Raise StructError
  /\ ScalarExamples.encode (PyInt 300) DataType.UINT8 = Raise StructError
  /\ valid_float (float_lit (10 ^ 39))
  /\ ScalarExamples.encode (PyFloat (float_lit (10 ^ 39))) DataType.FLOAT32
     = Raise OverflowError
  /\ ScalarExamples.encode (PyStr (lit "abc")) DataType.BYTES = Raise ValueMustBeBytes
  /\ error_kind StructError = None /\ error_kind OverflowError = None
  /\ error_kind ValueMustBeBytes = None.
Proof. vm_compute. repeat split. Qed.

(* ================================================================= *)
(** * Part III: more of the interface                                 *)
(* ================================================================= *)

(** Properties of the methods the ones above leave aside, and of the same
    methods on the inputs they leave aside. *)

(** ** The order of floats *)

Lemma valid_float_shape (s : bool) (m : positive) (e : Z) :
  valid_float (S754_finite s m e) ->
  (2 ^ 52 <= Zpos m < 2 ^ 53 /\ -1074 <= e <= 971) \/ (Zpos m < 2 ^ 52 /\ e = -1074).
Proof.
  intros H. exact (valid_finite_shape 52 11 ltac:(lia) ltac:(lia) s m e H).
Qed.

(** Of two positive valid floats, the one with the smaller exponent is the
    smaller. *)
Lemma scaled_lt (m1 m2 A B D : Z) :
  m1 < 2 * B -> B <= m2 -> 0 < B -> 2 <= D -> 0 < A -> m1 * A < m2 * (D * A).
Proof.
  intros H1 H2 HB HD HA.
  assert (S1 : m1 * A < 2 * B * A) by (apply Z.mul_lt_mono_pos_r; lia).
  assert (S2 : 2 * B * A <= D * B * A).
  { apply Z.mul_le_mono_nonneg_r; [lia |]. apply Z.mul_le_mono_nonneg_r; lia. }
  assert (S3 : D * B * A <= D * m2 * A).
  { apply Z.mul_le_mono_nonneg_r; [lia |]. apply Z.mul_le_mono_nonneg_l; lia. }
  replace (m2 * (D * A)) with (D * m2 * A) by ring. lia.
Qed.

Lemma exponent_orders (m1 m2 : positive) (e1 e2 : Z) (s1 s2 : bool) :
  valid_float (S754_finite s1 m1 e1) -> valid_float (S754_finite s2 m2 e2) ->
  e1 < e2 -> Zpos m1 * 2 ^ (e1 + 1074) < Zpos m2 * 2 ^ (e2 + 1074).
Proof.
  intros H1 H2 He.
  assert (Hgoal : -1074 <= e1 -> Zpos m1 < 2 * 2 ^ 52 -> 2 ^ 52 <= Zpos m2 ->
                  Zpos m1 * 2 ^ (e1 + 1074) < Zpos m2 * 2 ^ (e2 + 1074)).
  { intros Hx Hm1 Hm2.
    replace (e2 + 1074) with ((e2 - e1) + (e1 + 1074)) by lia.
    rewrite (Z.pow_add_r 2 (e2 - e1) (e1 + 1074)) by lia.
    apply (scaled_lt _ _ _ (2 ^ 52)); try assumption.
    - reflexivity.
    - change 2 with (2 ^ 1) at 1. apply Z.pow_le_mono_r; lia.
    - apply Z.pow_pos_nonneg; lia. }
  change (2 ^ 53) with (2 * 2 ^ 52) in *.
  destruct (valid_float_shape _ _ _ H1) as [[Hm1 Hx1] | [Hm1 Hx1]];
    destruct (valid_float_shape _ _ _ H2) as [[Hm2 Hx2] | [Hm2 Hx2]];
    first [lia | apply Hgoal; lia].
Qed.

Lemma units_sign (s : bool) (m : positive) (e : Z) :
  -1074 <= e -> if s then units (S754_finite s m e) < 0 else 0 < units (S754_finite s m e).
Proof.
  intros He. cbn [units].
  assert (0 < 2 ^ (e + 1074)) by (apply Z.pow_pos_nonneg; lia).
  destruct s; nia.
Qed.

(** Comparison of floats is comparison of the numbers they denote. *)
Lemma SFcompare_units (x y : float) :
  valid_float x -> valid_float y -> is_number x = true -> is_number y = true ->
  SFcompare x y = Some (units x ?= units y).
Proof.
  intros Hx Hy Nx Ny.
  destruct x as [sx | sx | | sx mx ex]; try discriminate;
    destruct y as [sy | sy | | sy my ey]; try discriminate.
  - reflexivity.
  - destruct (valid_float_exponent _ _ _ Hy) as [He _].
    pose proof (units_sign sy my ey He) as Hs. cbn [SFcompare]. f_equal.
    change (units (S754_zero sx)) with 0. symmetry.
    destruct sy; [apply Z.compare_gt_iff | apply Z.compare_lt_iff]; lia.
  - destruct (valid_float_exponent _ _ _ Hx) as [He _].
    pose proof (units_sign sx mx ex He) as Hs. cbn [SFcompare]. f_equal.
    change (units (S754_zero sy)) with 0. symmetry.
    destruct sx; [apply Z.compare_lt_iff | apply Z.compare_gt_iff]; lia.
  - destruct (valid_float_exponent _ _ _ Hx) as [Hex _].
    destruct (valid_float_exponent _ _ _ Hy) as [Hey _].
    pose proof (units_sign sx mx ex Hex) as Hsx.
    pose proof (units_sign sy my ey Hey) as Hsy.
    cbn [SFcompare]. f_equal. symmetry.
    destruct sx, sy.
    + cbn [units] in *.
      destruct (Z.compare_spec ex ey) as [Heq | Hlt | Hgt].
      * subst ey. rewrite Pos.compare_cont_spec. cbn [Pos.switch_Eq].
        assert (0 < 2 ^ (ex + 1074)) by (apply Z.pow_pos_nonneg; lia).
        change (Pos.compare mx my) with (Zpos mx ?= Zpos my).
        destruct (Z.compare_spec (Zpos mx) (Zpos my)) as [E | E | E]; cbn [CompOpp].
        -- rewrite E. apply Z.compare_refl.
        -- apply Z.compare_gt_iff. nia.
        -- apply Z.compare_lt_iff. nia.
      * pose proof (exponent_orders mx my ex ey true true Hx Hy Hlt).
        apply Z.compare_gt_iff. lia.
      * pose proof (exponent_orders my mx ey ex true true Hy Hx ltac:(lia)).
        apply Z.compare_lt_iff. lia.
    + apply Z.compare_lt_iff. lia.
    + apply Z.compare_gt_iff. lia.
    + cbn [units] in *.
      destruct (Z.compare_spec ex ey) as [Heq | Hlt | Hgt].
      * subst ey. rewrite Pos.compare_cont_spec. cbn [Pos.switch_Eq].
        assert (0 < 2 ^ (ex + 1074)) by (apply Z.pow_pos_nonneg; lia).
        change (Pos.compare mx my) with (Zpos mx ?= Zpos my).
        destruct (Z.compare_spec (Zpos mx) (Zpos my)) as [E | E | E].
        -- rewrite E. apply Z.compare_refl.
        -- apply Z.compare_lt_iff. nia.
        -- apply Z.compare_gt_iff. nia.
      * pose proof (exponent_orders mx my ex ey false false Hx Hy Hlt).
        apply Z.compare_lt_iff. lia.
      * pose proof (exponent_orders my mx ey ex false false Hy Hx ltac:(lia)).
        apply Z.compare_gt_iff. lia.
Qed.

Lemma flt_units (x y : float) :
  valid_float x -> valid_float y -> is_number x = true -> is_number y = true ->
  flt x y = true <-> units x < units y.
Proof.
  intros Hx Hy Nx Ny. unfold flt, SFltb. rewrite (SFcompare_units x y Hx Hy Nx Ny).
  destruct (Z.compare_spec (units x) (units y)); split; intros; try discriminate; try lia;
    reflexivity.
Qed.

Lemma fle_units (x y : float) :
  valid_float x -> valid_float y -> is_number x = true -> is_number y = true ->
  fle x y = true <-> units x <= units y.
Proof.
  intros Hx Hy Nx Ny. unfold fle, SFleb. rewrite (SFcompare_units x y Hx Hy Nx Ny).
  destruct (Z.compare_spec (units x) (units y)); split; intros; try discriminate; try lia;
    reflexivity.
Qed.

Lemma compare_scaled (a b k : Z) : 0 < k -> (a * k ?= b * k) = (a ?= b).
Proof.
  intros Hk. destruct (Z.compare_spec a b) as [E | E | E].
  - subst. apply Z.compare_refl.
  - apply Z.compare_lt_iff. nia.
  - apply Z.compare_gt_iff. nia.
Qed.

(** Comparison of an integer with a float is exact. *)
Lemma int_float_compare_units (z : Z) (y : float) :
  valid_float y -> is_number y = true ->
  int_float_compare z y = Some (z * 2 ^ 1074 ?= units y).
Proof.
  intros Hy Ny. destruct y as [sy | sy | | sy my ey]; try discriminate.
  - cbn [int_float_compare units]. f_equal.
    change (2 ^ 1074) with (Zpos (2 ^ 1074)%positive).
    destruct z; reflexivity.
  - destruct (valid_float_exponent _ _ _ Hy) as [He _].
    cbn [int_float_compare units]. f_equal.
    assert (HU : 0 < 2 ^ (ey + 1074)) by (apply Z.pow_pos_nonneg; lia).
    destruct (Z.leb_spec 0 ey) as [Hpos | Hneg].
    + assert (Hsplit : 2 ^ (ey + 1074) = 2 ^ ey * 2 ^ 1074) by (apply Z.pow_add_r; lia).
      assert (HE : 0 < 2 ^ ey) by (apply Z.pow_pos_nonneg; lia).
      assert (HK : 0 < 2 ^ 1074) by (apply Z.pow_pos_nonneg; lia).
      rewrite Hsplit. set (K := 2 ^ 1074) in *. set (E := 2 ^ ey) in *. clearbody K E.
      replace ((if sy then -1 else 1) * (Zpos my * (E * K)))
        with (cond_Zopp sy (Zpos my) * E * K) by (destruct sy; cbn [cond_Zopp]; ring).
      symmetry. apply compare_scaled. exact HK.
    + assert (Hsplit : 2 ^ 1074 = 2 ^ (- ey) * 2 ^ (ey + 1074)).
      { rewrite <- Z.pow_add_r by lia. f_equal. lia. }
      assert (HE : 0 < 2 ^ (- ey)) by (apply Z.pow_pos_nonneg; lia).
      rewrite Hsplit. set (U := 2 ^ (ey + 1074)) in *. set (E := 2 ^ (- ey)) in *.
      clearbody U E.
      replace ((if sy then -1 else 1) * (Zpos my * U))
        with (cond_Zopp sy (Zpos my) * U) by (destruct sy; cbn [cond_Zopp]; ring).
      rewrite Z.mul_assoc. symmetry. apply compare_scaled. exact HU.
Qed.

(** ** The validators and the classification *)

Lemma compare_ltb (a b : Z) : match a ?= b with Lt => true | _ => false end = (a <? b).
Proof. reflexivity. Qed.

Lemma compare_gtb (a b : Z) : match a ?= b with Gt => true | _ => false end = (b <? a).
Proof. unfold Z.ltb. rewrite (Z.compare_antisym a b). destruct (a ?= b); reflexivity. Qed.

Lemma num_compare_number (v : PyValue) (n : Z) (bound : float) :
  (forall f, v = PyFloat f -> valid_float f) ->
  valid_float bound -> is_number bound = true ->
  number_of v = Some n ->
  num_lt v bound = (n <? units bound) /\ num_gt v bound = (units bound <? n).
Proof.
  intros Hv Hb Nb Hn. unfold num_lt, num_gt.
  assert (Hc : num_compare v bound = Some (n ?= units bound)).
  { destruct v as [f | z | b | s | b |]; cbn [number_of] in Hn; try discriminate.
    - destruct (is_number f) eqn:Nf; [| discriminate]. injection Hn as <-.
      apply SFcompare_units; auto.
    - injection Hn as <-. now apply int_float_compare_units.
    - injection Hn as <-. now apply int_float_compare_units. }
  rewrite Hc. split; [apply compare_ltb | apply compare_gtb].
Qed.

Lemma compare_with_infinity (sign : bool) (bound : float) :
  is_number bound = true ->
  SFcompare (S754_infinity sign) bound = Some (if sign then Lt else Gt).
Proof. destruct bound; try discriminate; reflexivity. Qed.

Lemma compare_with_nan (bound : float) : SFcompare S754_nan bound = None.
Proof. reflexivity. Qed.

(** X1. A sensor whose bounds are numbers accepts exactly the numbers
    between them, bounds included, and NaN: a number below the minimum is
    refused as below it, one above the maximum as above it, an infinity as
    beyond the bound on its side, and what is not an [int] or a [float] as
    not numeric. An integer is compared exactly, not through its nearest
    float. *)
Theorem validate_reading_is_range_check (s : Sensor.t) (value : PyValue) :
  valid_float (Sensor.min_value s) -> is_number (Sensor.min_value s) = true ->
  valid_float (Sensor.max_value s) -> is_number (Sensor.max_value s) = true ->
  (forall f, value = PyFloat f -> valid_float f) ->
  let lo := Sensor.min_value s in
  let hi := Sensor.max_value s in
  Sensor.validate_reading s value
  = match number_of value with
    | Some n =>
        if n <? units lo then (false, BelowMinimum (Sensor.kind s) value lo)
        else if units hi <? n then (false, AboveMaximum (Sensor.kind s) value hi)
        else (true, Valid)
    | None =>
        match value with
        | PyFloat S754_nan => (true, Valid)
        | PyFloat (S754_infinity true) => (false, BelowMinimum (Sensor.kind s) value lo)
        | PyFloat _ => (false, AboveMaximum (Sensor.kind s) value hi)
        | _ => (false, MustBeNumeric (Sensor.kind s))
        end
    end.
Proof.
  intros Hlo Nlo Hhi Nhi Hv lo hi. unfold Sensor.validate_reading. fold lo hi.
  destruct (number_of value) as [n |] eqn:Hn.
  - destruct (num_compare_number value n lo Hv Hlo Nlo Hn) as [L1 _].
    destruct (num_compare_number value n hi Hv Hhi Nhi Hn) as [_ G2].
    rewrite L1, G2.
    destruct value; cbn [number_of] in Hn; try discriminate; reflexivity.
  - destruct value as [f | z | b | t | b |]; cbn [number_of] in Hn; try discriminate;
      try reflexivity.
    destruct f as [sf | sf | | sf mf ef]; try discriminate.
    + cbn [is_numeric negb]. unfold num_lt, num_gt, num_compare.
      rewrite !compare_with_infinity by assumption. destruct sf; reflexivity.
    + reflexivity.
Qed.

Lemma validate_reading_is_range_check_witness :
  Sensor.validate_reading SensorExamples.thermometer SensorExamples.warm = (true, Valid).
Proof.
  apply (validate_reading_is_range_check SensorExamples.thermometer SensorExamples.warm);
    try reflexivity.
  intros f Hf. injection Hf as <-. reflexivity.
Defined.

Lemma fle_flt_trans (x y c : float) :
  valid_float x -> valid_float y -> valid_float c -> is_number c = true ->
  fle x y = true -> flt y c = true -> flt x c = true.
Proof.
  intros Hx Hy Hc Nc Hle Hlt.
  destruct (is_number x) eqn:Nx; destruct (is_number y) eqn:Ny.
  - apply flt_units; auto. apply fle_units in Hle; auto. apply flt_units in Hlt; auto. lia.
  - exfalso. destruct y as [sy | sy | | sy my ey]; try discriminate.
    unfold flt, SFltb in Hlt. rewrite compare_with_infinity in Hlt by assumption.
    destruct sy; [| discriminate].
    destruct x as [sx | sx | | sx mx ex]; try discriminate; destruct sx; discriminate.
  - destruct x as [sx | sx | | sx mx ex]; try discriminate.
    unfold flt, SFltb. rewrite compare_with_infinity by assumption.
    destruct sx; [reflexivity | exfalso].
    destruct y as [sy | sy | | sy my ey]; try discriminate; destruct sy; discriminate.
  - destruct x as [sx | sx | | sx mx ex]; try discriminate.
    destruct y as [sy | sy | | sy my ey]; try discriminate.
    unfold flt, SFltb in *. rewrite compare_with_infinity in * by assumption.
    destruct sy; [| discriminate]. destruct sx; [reflexivity | discriminate].
Qed.

(** X2. The classification of turbidity is monotone: of two values, the
    one Python finds smaller or equal never falls into a worse class (so
    every negative value is "Excellent", with no check of the range); NaN,
    which is smaller than nothing, is "Very Poor". *)
Theorem classify_turbidity_monotone :
  (forall x y, valid_float x -> valid_float y -> fle x y = true ->
     (turbidity_rank (Sensor.classify_turbidity x)
      <= turbidity_rank (Sensor.classify_turbidity y))%nat)
  /\ (forall x, valid_float x -> fle x (float_lit 0) = true ->
        Sensor.classify_turbidity x = "Excellent"%string)
  /\ Sensor.classify_turbidity S754_nan = "Very Poor"%string.
Proof.
  assert (T : forall c x y, is_number (float_lit c) = true ->
                valid_float x -> valid_float y -> fle x y = true ->
                flt y (float_lit c) = true -> flt x (float_lit c) = true).
  { intros c x y Nc Hx Hy Hle Hlt.
    apply (fle_flt_trans x y (float_lit c)); auto. apply float_lit_valid. }
  split; [| split].
  - intros x y Hx Hy Hle. unfold Sensor.classify_turbidity.
    pose proof (T 1 x y eq_refl Hx Hy Hle) as T1. pose proof (T 5 x y eq_refl Hx Hy Hle) as T5.
    pose proof (T 50 x y eq_refl Hx Hy Hle) as T50.
    pose proof (T 500 x y eq_refl Hx Hy Hle) as T500.
    destruct (flt y (float_lit 1)); [rewrite T1 by reflexivity; vm_compute; lia |].
    destruct (flt y (float_lit 5));
      [rewrite T5 by reflexivity; destruct (flt x (float_lit 1)); vm_compute; lia |].
    destruct (flt y (float_lit 50));
      [rewrite T50 by reflexivity;
       destruct (flt x (float_lit 1)); [vm_compute; lia |];
       destruct (flt x (float_lit 5)); vm_compute; lia |].
    destruct (flt y (float_lit 500));
      [rewrite T500 by reflexivity;
       destruct (flt x (float_lit 1)); [vm_compute; lia |];
       destruct (flt x (float_lit 5)); [vm_compute; lia |];
       destruct (flt x (float_lit 50)); vm_compute; lia |].
    destruct (flt x (float_lit 1)); [vm_compute; lia |].
    destruct (flt x (float_lit 5)); [vm_compute; lia |].
    destruct (flt x (float_lit 50)); [vm_compute; lia |].
    destruct (flt x (float_lit 500)); vm_compute; lia.
  - intros x Hx Hle. unfold Sensor.classify_turbidity.
    rewrite (T 1 x (float_lit 0) eq_refl Hx ltac:(reflexivity) Hle ltac:(reflexivity)).
    reflexivity.
  - reflexivity.
Qed.

Lemma classify_turbidity_monotone_witness :
  (turbidity_rank (Sensor.classify_turbidity (dec 5 1))
   <= turbidity_rank (Sensor.classify_turbidity (float_lit 700)))%nat.
Proof.
  destruct classify_turbidity_monotone as (H & _).
  apply H; reflexivity.
Defined.

(** ** UTF-8, from bytes to text and back *)

Lemma byte_of_its_value (b : byte) (z : Z) : z = Z_of_byte b -> byte_of_Z z = b.
Proof. intros ->. apply byte_of_Z_of_byte. Qed.

(** One decoded character encodes to the bytes it came from. *)
Lemma utf8_encode_decoded (bs : list byte) (s : pystr) :
  utf8_decode bs = Ok s -> utf8_encode s = Ok bs.
Proof.
  remember (length bs) as n eqn:Hn. revert bs s Hn.
  induction n as [n IH] using lt_wf_ind. intros bs s Hn.
  destruct bs as [| b0 r0]; [intros H; apply Ok_inj in H; subst s; reflexivity |].
  cbn [utf8_decode]. simpl in Hn.
  pose proof (Z_of_byte_range b0) as R0.
  destruct (Z_of_byte b0 <? 128) eqn:E0.
  { bool_to_prop. intros Hdec. apply bind_ok in Hdec as (s' & Hs' & Hdec). apply Ok_inj in Hdec. subst s.
    cbn [utf8_encode]. rewrite (IH (length r0) ltac:(lia) r0 s' eq_refl Hs').
    unfold utf8_encode_char.
    destruct (Z.ltb_spec (Z_of_byte b0) 0); [lia |].
    destruct (Z.ltb_spec (Z_of_byte b0) 128); [| lia].
    cbn [bind app]. now rewrite byte_of_Z_of_byte. }
  clear E0. destruct ((194 <=? Z_of_byte b0) && (Z_of_byte b0 <=? 223)) eqn:E1.
  { bool_to_prop. destruct r0 as [| b1 r1]; [discriminate |].
    destruct (is_cont b1) eqn:C1; [| discriminate].
    unfold is_cont in C1. bool_to_prop. unfold cont_bits.
    intros Hdec. apply bind_ok in Hdec as (s' & Hs' & Hdec). apply Ok_inj in Hdec. subst s.
    cbn [utf8_encode]. rewrite (IH (length r1) ltac:(simpl in *; lia) r1 s' eq_refl Hs').
    set (cp := (Z_of_byte b0 - 192) * 64 + (Z_of_byte b1 - 128)).
    unfold utf8_encode_char.
    destruct (Z.ltb_spec cp 0); [unfold cp in *; lia |].
    destruct (Z.ltb_spec cp 128); [unfold cp in *; lia |].
    destruct (Z.ltb_spec cp 2048); [| unfold cp in *; lia].
    cbn [bind app].
    rewrite (byte_of_its_value b0) by (unfold cp; divmod_lia).
    rewrite (byte_of_its_value b1) by (unfold cp; divmod_lia). reflexivity. }
  clear E1. destruct ((224 <=? Z_of_byte b0) && (Z_of_byte b0 <=? 239)) eqn:E2.
  { bool_to_prop. destruct r0 as [| b1 [| b2 r2]]; try discriminate.
    set (cp := (Z_of_byte b0 - 224) * 4096 + cont_bits b1 * 64 + cont_bits b2).
    destruct (is_cont b1 && is_cont b2 && (2048 <=? cp) && negb (is_surrogate cp)) eqn:C;
      [| discriminate].
    apply andb_true_iff in C as [C Cs]. apply andb_true_iff in C as [C Cmin].
    apply andb_true_iff in C as [C1 C2]. apply negb_true_iff in Cs.
    unfold is_cont in C1, C2. bool_to_prop. unfold cont_bits in cp.
    intros Hdec. apply bind_ok in Hdec as (s' & Hs' & Hdec). apply Ok_inj in Hdec. subst s.
    cbn [utf8_encode]. rewrite (IH (length r2) ltac:(simpl in *; lia) r2 s' eq_refl Hs').
    unfold utf8_encode_char. rewrite Cs.
    destruct (Z.ltb_spec cp 0); [lia |].
    destruct (Z.ltb_spec cp 128); [lia |].
    destruct (Z.ltb_spec cp 2048); [lia |].
    destruct (Z.ltb_spec cp 65536); [| unfold cp in *; lia].
    cbn [bind app].
    rewrite (byte_of_its_value b0) by (unfold cp; divmod_lia).
    rewrite (byte_of_its_value b1) by (unfold cp; divmod_lia).
    rewrite (byte_of_its_value b2) by (unfold cp; divmod_lia). reflexivity. }
  clear E2. destruct ((240 <=? Z_of_byte b0) && (Z_of_byte b0 <=? 244)) eqn:E3; [| discriminate].
  bool_to_prop.
  destruct r0 as [| b1 [| b2 [| b3 r3]]]; try discriminate.
  set (cp := (Z_of_byte b0 - 240) * 262144 + cont_bits b1 * 4096
             + cont_bits b2 * 64 + cont_bits b3).
  destruct (is_cont b1 && is_cont b2 && is_cont b3 && (65536 <=? cp) && (cp <? 1114112))
    eqn:C; [| discriminate].
  apply andb_true_iff in C as [C Cmax]. apply andb_true_iff in C as [C Cmin].
  apply andb_true_iff in C as [C C3]. apply andb_true_iff in C as [C1 C2].
  unfold is_cont in C1, C2, C3. bool_to_prop. unfold cont_bits in cp.
  intros Hdec. apply bind_ok in Hdec as (s' & Hs' & Hdec). apply Ok_inj in Hdec. subst s.
  cbn [utf8_encode]. rewrite (IH (length r3) ltac:(simpl in *; lia) r3 s' eq_refl Hs').
  unfold utf8_encode_char.
  destruct (Z.ltb_spec cp 0); [lia |].
  destruct (Z.ltb_spec cp 128); [lia |].
  destruct (Z.ltb_spec cp 2048); [lia |].
  destruct (Z.ltb_spec cp 65536); [lia |].
  destruct (Z.ltb_spec cp 1114112); [| lia].
  cbn [bind app].
  rewrite (byte_of_its_value b0) by (unfold cp; divmod_lia).
  rewrite (byte_of_its_value b1) by (unfold cp; divmod_lia).
  rewrite (byte_of_its_value b2) by (unfold cp; divmod_lia).
  rewrite (byte_of_its_value b3) by (unfold cp; divmod_lia). reflexivity.
Qed.

(** ** Topics on the wire *)

Lemma be_bytes_2_of_value (hi lo : byte) : be_bytes 2 (be_value [hi; lo]) = [hi; lo].
Proof.
  unfold be_value. cbn [fold_left be_bytes]. change (256 ^ Z.of_nat 1) with 256.
  change (256 ^ Z.of_nat 0) with 1. rewrite Z.div_1_r.
  pose proof (Z_of_byte_range hi). pose proof (Z_of_byte_range lo).
  rewrite (byte_of_its_value hi) by divmod_lia.
  rewrite <- (byte_of_Z_of_byte lo) at 2.
  f_equal. f_equal.
  apply Z_of_byte_inj. rewrite !Z_of_byte_of_Z. divmod_lia.
Qed.

(** What [from_bytes] does with three bytes or more: the first is the
    version, the next two announce the length of the name, and the name is
    what is there of that many bytes. *)
Lemma topic_from_bytes_layout (v hi lo : byte) (rest : list byte) :
  BristlemouthTopic.from_bytes (v :: hi :: lo :: rest)
  = (name <- utf8_decode (firstn (Z.to_nat (be_value [hi; lo])) rest) ;;
     BristlemouthTopic.init name (Z_of_byte v) None).
Proof.
  unfold BristlemouthTopic.from_bytes.
  change (slice (v :: hi :: lo :: rest) 1 3) with [hi; lo].
  change (unpack_uint 2 [hi; lo]) with (Ok (be_value [hi; lo])). cbn [bind].
  unfold slice. replace (3 + Z.to_nat (be_value [hi; lo]) - 3)%nat
    with (Z.to_nat (be_value [hi; lo])) by lia.
  reflexivity.
Qed.

Lemma topic_init_ok_inv (name : pystr) (version : Z) (node_id : option pystr)
    (t : BristlemouthTopic.t) :
  BristlemouthTopic.init name version node_id = Ok t ->
  t = BristlemouthTopic.mk name version node_id /\ 1 <= len name <= 64.
Proof.
  unfold BristlemouthTopic.init. destruct name as [| c name]; [discriminate |].
  destruct (Z.ltb_spec 64 (len (c :: name))) as [Hgt | Hle]; [discriminate |].
  intros Ht. apply Ok_inj in Ht. subst t. split; [reflexivity |].
  unfold len in *. cbn [length] in *. lia.
Qed.

(** X3. A topic with a version that fits one byte and a name without
    surrogates encodes to the version, the length of the name in UTF-8 on
    two bytes, and the name: 4 to 259 bytes. Decoding these bytes, followed
    by anything, gives the same name and version and no node id: the node id
    is not on the wire. With any other version the topic does not
    encode. *)
Theorem topic_wire_round_trip (name : pystr) (version : Z) (node_id : option pystr)
    (t : BristlemouthTopic.t) (nb : list byte) :
  BristlemouthTopic.init name version node_id = Ok t ->
  utf8_encode name = Ok nb ->
  let bs := be_bytes 1 version ++ be_bytes 2 (len nb) ++ nb in
  (0 <= version < 256 ->
   BristlemouthTopic.to_bytes t = Ok bs
   /\ len bs = 3 + len nb /\ 4 <= len bs <= 259
   /\ forall extra,
        BristlemouthTopic.from_bytes (bs ++ extra)
        = Ok (BristlemouthTopic.mk name version None))
  /\ (~ 0 <= version < 256 -> BristlemouthTopic.to_bytes t = Raise StructError).
Proof.
  intros Hinit Hnb bs. apply topic_init_ok_inv in Hinit as [-> Hlen].
  pose proof (utf8_encode_length name nb Hnb) as Hl.
  assert (Hnbl : 1 <= len nb <= 256) by (unfold len in *; lia).
  unfold BristlemouthTopic.to_bytes. cbn [BristlemouthTopic.name BristlemouthTopic.version].
  rewrite Hnb. cbn [bind]. split.
  - intros Hv.
    rewrite (pack_uint_in_range 1 version) by (change (256 ^ Z.of_nat 1) with 256; lia).
    rewrite (pack_uint_in_range 2 (len nb)) by (change (256 ^ Z.of_nat 2) with 65536; lia).
    cbn [bind]. split; [reflexivity |].
    assert (Hbs : len bs = 3 + len nb).
    { unfold bs, len. rewrite !length_app, !be_bytes_length. lia. }
    split; [exact Hbs |]. split; [lia |].
    intros extra. unfold bs.
    assert (H2 : be_bytes 2 (len nb) = [byte_of_Z (len nb / 256); byte_of_Z (len nb)]).
    { cbn [be_bytes]. change (256 ^ Z.of_nat 1) with 256. change (256 ^ Z.of_nat 0) with 1.
      now rewrite Z.div_1_r. }
    assert (H1 : be_bytes 1 version = [byte_of_Z version]).
    { cbn [be_bytes]. change (256 ^ Z.of_nat 0) with 1. now rewrite Z.div_1_r. }
    assert (Hval : be_value [byte_of_Z (len nb / 256); byte_of_Z (len nb)] = len nb).
    { rewrite <- H2. apply be_value_be_bytes. change (256 ^ Z.of_nat 2) with 65536. lia. }
    rewrite H1, H2. cbn [app].
    rewrite topic_from_bytes_layout, Hval, to_nat_len, firstn_app, Nat.sub_diag, firstn_all.
    cbn [firstn]. rewrite app_nil_r, (utf8_decode_encode name nb Hnb). cbn [bind].
    rewrite Z_of_byte_small by lia.
    unfold BristlemouthTopic.init. destruct name as [| c name]; [unfold len in Hlen; simpl in Hlen; lia |].
    destruct (Z.ltb_spec 64 (len (c :: name))); [lia | reflexivity].
  - intros Hv. unfold pack_uint.
    destruct (Z.leb_spec 0 version); destruct (Z.ltb_spec version (256 ^ Z.of_nat 1));
      cbn [andb bind]; try reflexivity.
    change (256 ^ Z.of_nat 1) with 256 in *. lia.
Qed.

Lemma topic_wire_round_trip_witness :
  BristlemouthTopic.from_bytes
    (map byte_of_Z [1; 0; 4; 116; 101; 115; 116] ++ [x00; xff])
  = Ok (BristlemouthTopic.mk (lit "test") 1 None).
Proof.
  destruct (topic_wire_round_trip (lit "test") 1 (Some (lit "node1"))
              (BristlemouthTopic.mk (lit "test") 1 (Some (lit "node1")))
              (map byte_of_Z [116; 101; 115; 116]) eq_refl eq_refl)
    as [H _].
  destruct (H ltac:(lia)) as (_ & _ & _ & Hfrom).
  exact (Hfrom [x00; xff]).
Defined.

Lemma topic_to_bytes_value (name : pystr) (version : Z) (node_id : option pystr)
    (nb : list byte) :
  utf8_encode name = Ok nb -> 0 <= version < 256 -> len nb < 65536 ->
  BristlemouthTopic.to_bytes (BristlemouthTopic.mk name version node_id)
  = Ok (byte_of_Z version :: be_bytes 2 (len nb) ++ nb).
Proof.
  intros Hnb Hv Hl. unfold BristlemouthTopic.to_bytes.
  cbn [BristlemouthTopic.name BristlemouthTopic.version]. rewrite Hnb. cbn [bind].
  pose proof (len_nonneg nb).
  rewrite (pack_uint_in_range 1 version) by (change (256 ^ Z.of_nat 1) with 256; lia).
  rewrite (pack_uint_in_range 2 (len nb)) by (change (256 ^ Z.of_nat 2) with 65536; lia).
  cbn [bind be_bytes app]. change (256 ^ Z.of_nat 0) with 1. now rewrite !Z.div_1_r.
Qed.

(** X4. Decoding a topic fails with [IndexError] on no bytes and with
    [struct.error] on one or two. When it succeeds, the version is the first
    byte, there is no node id, the name has 1 to 64 characters and is the
    text of the bytes after the third, as many as the second and third byte
    announce or as many as there are, if fewer. The decoded topic encodes
    again, and when the announced bytes were all there it encodes to the
    bytes it was decoded from; what follows them is ignored. *)
Theorem topic_decoding :
  BristlemouthTopic.from_bytes [] = Raise IndexError
  /\ (forall data, (1 <= length data < 3)%nat ->
        BristlemouthTopic.from_bytes data = Raise StructError)
  /\ (forall data t, BristlemouthTopic.from_bytes data = Ok t ->
        exists v hi lo rest,
          data = v :: hi :: lo :: rest
          /\ let n := be_value [hi; lo] in
             let nb := firstn (Z.to_nat n) rest in
             BristlemouthTopic.version t = Z_of_byte v
             /\ BristlemouthTopic.node_id t = None
             /\ 1 <= len (BristlemouthTopic.name t) <= 64
             /\ utf8_encode (BristlemouthTopic.name t) = Ok nb
             /\ BristlemouthTopic.to_bytes t = Ok (v :: be_bytes 2 (len nb) ++ nb)
             /\ (n <= len rest ->
                 BristlemouthTopic.to_bytes t = Ok (firstn (3 + Z.to_nat n) data)
                 /\ forall extra, BristlemouthTopic.from_bytes (data ++ extra) = Ok t)).
Proof.
  split; [reflexivity |]. split.
  - intros [| v [| hi [| lo rest]]] Hl; simpl in Hl; try lia; reflexivity.
  - intros data t Hfrom.
    destruct data as [| v [| hi [| lo rest]]]; try discriminate.
    exists v, hi, lo, rest. split; [reflexivity |]. intros n nb.
    rewrite topic_from_bytes_layout in Hfrom. fold n nb in Hfrom.
    apply bind_ok in Hfrom as (name & Hname & Hinit).
    apply topic_init_ok_inv in Hinit as [-> Hlen].
    apply utf8_encode_decoded in Hname.
    cbn [BristlemouthTopic.name BristlemouthTopic.version BristlemouthTopic.node_id].
    pose proof (be_value_range [hi; lo]) as Hn. fold n in Hn.
    change (256 ^ Z.of_nat (length [hi; lo])) with 65536 in Hn.
    assert (Hnbl : len nb <= n).
    { unfold nb, len. rewrite length_firstn. lia. }
    pose proof (Z_of_byte_range v) as Hv.
    assert (Hto : BristlemouthTopic.to_bytes (BristlemouthTopic.mk name (Z_of_byte v) None)
                  = Ok (v :: be_bytes 2 (len nb) ++ nb)).
    { rewrite (topic_to_bytes_value name (Z_of_byte v) None nb Hname Hv ltac:(lia)).
      now rewrite byte_of_Z_of_byte. }
    split; [reflexivity |]. split; [reflexivity |]. split; [exact Hlen |].
    split; [exact Hname |]. split; [exact Hto |].
    intros Hall.
    assert (Hnb : len nb = n).
    { unfold nb, len in *. rewrite length_firstn. lia. }
    split.
    + rewrite Hto, Hnb. unfold n at 1. rewrite be_bytes_2_of_value.
      replace (3 + Z.to_nat n)%nat with (S (S (S (Z.to_nat n)))) by lia. reflexivity.
    + intros extra. cbn [app]. rewrite topic_from_bytes_layout. fold n.
      rewrite firstn_app.
      replace (Z.to_nat n - length rest)%nat with 0%nat by (unfold len in Hall; lia).
      cbn [firstn]. rewrite app_nil_r. fold nb.
      rewrite (utf8_decode_encode name nb Hname). cbn [bind].
      unfold BristlemouthTopic.init. destruct name as [| c name];
        [unfold len in Hlen; simpl in Hlen; lia |].
      destruct (Z.ltb_spec 64 (len (c :: name))); [lia | reflexivity].
Qed.

Lemma topic_decoding_witness :
  BristlemouthTopic.to_bytes (BristlemouthTopic.mk (lit "hi") 7 None)
  = Ok (map byte_of_Z [7; 0; 2; 104; 105]).
Proof.
  destruct topic_decoding as (_ & _ & H).
  destruct (H (map byte_of_Z [7; 0; 2; 104; 105; 33])
              (BristlemouthTopic.mk (lit "hi") 7 None) eq_refl)
    as (v & hi & lo & rest & Hdata & _ & _ & _ & _ & _ & Hall).
  injection Hdata as <- <- <- <-.
  exact (proj1 (Hall ltac:(vm_compute; discriminate))).
Defined.

(** ** Messages on the wire *)

(** X5. The layout of an encoded message: the 22 bytes of the header
    (magic byte 0xBC first), the length of the topic on two bytes, the
    topic (version, length of the name, name in UTF-8), the length of the
    payload on two bytes, the payload, and the first four bytes of the MD5
    digest of all that: 33 bytes and the name and the payload, 34 at
    least. *)
Theorem message_wire_layout (m : BristlemouthMessage.t) (bs : list byte) :
  BristlemouthMessage.to_bytes m = Ok bs ->
  exists nb ms,
    utf8_encode (BristlemouthTopic.name (BristlemouthMessage.topic m)) = Ok nb
    /\ BristlemouthMessage.timestamp_ms (BristlemouthMessage.timestamp m) = Ok ms
    /\ let body :=
         header_of m ms
         ++ be_bytes 2 (3 + len nb)
         ++ (be_bytes 1 (BristlemouthTopic.version (BristlemouthMessage.topic m))
             ++ be_bytes 2 (len nb) ++ nb)
         ++ be_bytes 2 (len (BristlemouthMessage.payload m))
         ++ BristlemouthMessage.payload m in
       bs = body ++ firstn 4 (md5 body)
       /\ len bs = 33 + len nb + len (BristlemouthMessage.payload m)
       /\ hd x00 bs = xbc.
Proof.
  intros H. apply to_bytes_ok in H as (data & cs & Hpack & _ & -> & Hcs & ->).
  apply pack_without_checksum_ok in Hpack
    as (tb & ms & Htb & Hms & _ & _ & _ & _ & _ & ->).
  apply topic_to_bytes_ok in Htb as (nb & Hnb & _ & _ & ->).
  exists nb, ms. split; [exact Hnb |]. split; [exact Hms |]. cbv zeta.
  assert (Htl : len (be_bytes 1 (BristlemouthTopic.version (BristlemouthMessage.topic m))
                     ++ be_bytes 2 (len nb) ++ nb) = 3 + len nb).
  { unfold len. rewrite !length_app, !be_bytes_length. lia. }
  rewrite Htl. split; [reflexivity |]. split.
  - unfold len in *.
    rewrite !length_app, length_firstn, md5_length, header_of_length, !be_bytes_length.
    lia.
  - reflexivity.
Qed.

Lemma message_wire_layout_witness :
  exists bs, BristlemouthMessage.to_bytes MessageExamples.in_2009 = Ok bs /\ len bs = 39.
Proof.
  destruct (BristlemouthMessage.to_bytes MessageExamples.in_2009) as [bs | e] eqn:E;
    [| vm_compute in E; discriminate].
  exists bs. split; [reflexivity |].
  destruct (message_wire_layout MessageExamples.in_2009 bs E)
    as (nb & ms & Hnb & _ & _ & Hlen & _).
  vm_compute in Hnb. apply Ok_inj in Hnb. subst nb. exact Hlen.
Defined.

(** X6. A message encodes exactly when every field fits its place on the
    wire: the name of the topic has no surrogate and at most 65532 bytes in
    UTF-8, the versions of the topic and of the message fit one byte, the
    sequence number four, the payload has fewer than 65536 bytes, and the
    timestamp in milliseconds is a number from 0 to [2 ^ 64 - 1]. A message
    kind always fits. *)
Theorem message_encodes_iff (m : BristlemouthMessage.t) :
  (exists bs, BristlemouthMessage.to_bytes m = Ok bs)
  <-> exists nb ms,
        utf8_encode (BristlemouthTopic.name (BristlemouthMessage.topic m)) = Ok nb
        /\ len nb <= 65532
        /\ 0 <= BristlemouthTopic.version (BristlemouthMessage.topic m) < 256
        /\ BristlemouthMessage.timestamp_ms (BristlemouthMessage.timestamp m) = Ok ms
        /\ 0 <= ms < 2 ^ 64
        /\ 0 <= BristlemouthMessage.version m < 256
        /\ 0 <= BristlemouthMessage.sequence_number m < 2 ^ 32
        /\ len (BristlemouthMessage.payload m) < 65536.
Proof.
  split.
  - intros [bs H]. apply to_bytes_ok in H as (data & cs & Hpack & _ & _ & _ & _).
    apply pack_without_checksum_ok in Hpack
      as (tb & ms & Htb & Hms & Hv & Hs & Hm & Htl & Hpl & _).
    apply topic_to_bytes_ok in Htb as (nb & Hnb & Htv & _ & ->).
    exists nb, ms. repeat split; try assumption; try lia.
    unfold len in *. rewrite !length_app, !be_bytes_length in Htl. lia.
  - intros (nb & ms & Hnb & Hnl & Htv & Hms & Hm & Hv & Hs & Hpl).
    pose proof (len_nonneg nb) as Hn0.
    pose proof (len_nonneg (BristlemouthMessage.payload m)) as Hp0.
    pose proof (MessageType_value_range (BristlemouthMessage.message_type m)) as Hty.
    assert (Hpack : exists data, BristlemouthMessage._pack_without_checksum m = Ok data).
    { unfold BristlemouthMessage._pack_without_checksum.
      destruct (BristlemouthMessage.topic m) as [name tv nid] eqn:Et.
      cbn [BristlemouthTopic.name BristlemouthTopic.version] in *.
      rewrite (topic_to_bytes_value name tv nid nb Hnb Htv ltac:(lia)). cbn [bind].
      rewrite Hms. cbn [bind].
      rewrite (pack_uint_in_range 1 BCMP_HEADER_MAGIC) by (vm_compute; split; congruence).
      rewrite (pack_uint_in_range 1 (BristlemouthMessage.version m))
        by (change (256 ^ Z.of_nat 1) with 256; lia).
      rewrite (pack_uint_in_range 2 (MessageType.value (BristlemouthMessage.message_type m)))
        by (change (256 ^ Z.of_nat 2) with 65536; lia).
      rewrite (pack_uint_in_range 4 (BristlemouthMessage.sequence_number m))
        by (change (256 ^ Z.of_nat 4) with (2 ^ 32); lia).
      rewrite (pack_uint_in_range 8 ms) by (change (256 ^ Z.of_nat 8) with (2 ^ 64); lia).
      cbn [bind].
      rewrite (pack_uint_in_range 2 (len (byte_of_Z tv :: be_bytes 2 (len nb) ++ nb))).
      2:{ change (256 ^ Z.of_nat 2) with 65536. unfold len in *.
          cbn [length]. rewrite length_app, be_bytes_length. lia. }
      rewrite (pack_uint_in_range 2 (len (BristlemouthMessage.payload m)))
        by (change (256 ^ Z.of_nat 2) with 65536; lia).
      cbn [bind]. eauto. }
    destruct Hpack as [data Hpack].
    exists (data ++ firstn 4 (md5 data)).
    unfold BristlemouthMessage.to_bytes, BristlemouthMessage.calculate_checksum.
    rewrite Hpack. reflexivity.
Qed.

Lemma message_encodes_iff_witness :
  ~ exists bs, BristlemouthMessage.to_bytes
                 (BristlemouthMessage.mk MessageExamples.topic MessageExamples.payload
                    MessageType.SENSOR_DATA 1 (2 ^ 32) (float_lit 0) None) = Ok bs.
Proof.
  intros H. apply message_encodes_iff in H as (nb & ms & _ & _ & _ & _ & _ & _ & Hs & _).
  cbn [BristlemouthMessage.sequence_number] in Hs. lia.
Defined.

(** *** What a message that decodes was decoded from *)

Lemma unpack_uint_ok_length (n : nat) (bs : list byte) (z : Z) :
  unpack_uint n bs = Ok z -> length bs = n /\ z = be_value bs.
Proof.
  unfold unpack_uint. destruct (Nat.eqb_spec (length bs) n); [| discriminate].
  intros H. apply Ok_inj in H. auto.
Qed.

Lemma slice_full {A} (l : list A) (a k : nat) :
  length (slice l a (a + k)) = k -> (0 < k)%nat -> (a + k <= length l)%nat.
Proof. unfold slice. rewrite length_firstn, length_skipn. lia. Qed.

(** The parts of an input that decodes, up to the checksum. *)
Lemma from_bytes_ok_inv now (data : list byte) (m : BristlemouthMessage.t) :
  BristlemouthMessage.from_bytes now data = Ok m ->
  exists magic v ty sq tms src tl topic pl mt f,
    BristlemouthMessage.unpack_header (slice data 0 22) = Ok (magic, v, ty, sq, tms, src)
    /\ magic = BCMP_HEADER_MAGIC
    /\ unpack_uint 2 (slice data 22 (22 + 2)) = Ok tl
    /\ BristlemouthTopic.from_bytes (slice data (22 + 2) (22 + 2 + Z.to_nat tl)) = Ok topic
    /\ unpack_uint 2 (slice data (22 + 2 + Z.to_nat tl) (22 + 2 + Z.to_nat tl + 2)) = Ok pl
    /\ MessageType.of_int ty = Ok mt
    /\ float_of_int tms = Ok f
    /\ BristlemouthMessage.init now topic
         (slice data (22 + 2 + Z.to_nat tl + 2) (22 + 2 + Z.to_nat tl + 2 + Z.to_nat pl))
         mt v sq (Some (fdiv f (float_lit 1000))) (Some src) = Ok m
    /\ BristlemouthMessage.calculate_checksum m
       = Ok (slice data (22 + 2 + Z.to_nat tl + 2 + Z.to_nat pl)
                        (22 + 2 + Z.to_nat tl + 2 + Z.to_nat pl + 4))
    /\ (22 + 2 + Z.to_nat tl + 2 + Z.to_nat pl + 4 <= length data)%nat.
Proof.
  unfold BristlemouthMessage.from_bytes. cbv zeta.
  destruct (Nat.ltb_spec (length data) 22) as [Hs | Hl]; [discriminate |].
  intros H. apply bind_ok in H as (hdr & Hh & H).
  destruct hdr as [[[[[magic v] ty] sq] tms] src]. cbv beta iota zeta in H.
  destruct (magic =? BCMP_HEADER_MAGIC) eqn:Emag; [| discriminate]. cbn [negb] in H.
  apply Z.eqb_eq in Emag.
  apply bind_ok in H as (tl & Etl & H).
  apply bind_ok in H as (topic & Etopic & H).
  apply bind_ok in H as (pl & Epl & H).
  apply bind_ok in H as (mt & Emt & H).
  apply bind_ok in H as (f & Ef & H).
  apply bind_ok in H as (msg & Emsg & H).
  apply bind_ok in H as (expected & Eexp & H).
  destruct (bytes_eqb _ expected) eqn:Ecs; [| discriminate]. cbn [negb] in H.
  apply Ok_inj in H. subst msg. apply bytes_eqb_eq in Ecs.
  exists magic, v, ty, sq, tms, src, tl, topic, pl, mt, f.
  repeat (split; [assumption |]).
  split; [rewrite Ecs; exact Eexp |].
  apply checksum_length in Eexp. rewrite <- Ecs in Eexp.
  apply slice_full in Eexp; lia.
Qed.

Lemma topic_from_bytes_ok_inv (data : list byte) (t : BristlemouthTopic.t) :
  BristlemouthTopic.from_bytes data = Ok t ->
  (4 <= length data)%nat
  /\ 0 <= BristlemouthTopic.version t < 256
  /\ BristlemouthTopic.node_id t = None
  /\ 1 <= len (BristlemouthTopic.name t) <= 64.
Proof.
  intros H. destruct data as [| v [| hi [| lo rest]]]; try discriminate.
  rewrite topic_from_bytes_layout in H.
  apply bind_ok in H as (name & Hname & Hinit).
  apply topic_init_ok_inv in Hinit as [-> Hlen].
  cbn [BristlemouthTopic.name BristlemouthTopic.version BristlemouthTopic.node_id].
  split; [| split; [apply Z_of_byte_range | split; [reflexivity | exact Hlen]]].
  destruct rest as [| b rest]; [| simpl; lia].
  rewrite firstn_nil in Hname. apply Ok_inj in Hname. subst name.
  unfold len in Hlen. simpl in Hlen. lia.
Qed.

Lemma message_init_ok_inv now topic payload mt v sq ts src (m : BristlemouthMessage.t) :
  BristlemouthMessage.init now topic payload mt v sq (Some ts) src = Ok m ->
  m = BristlemouthMessage.mk topic payload mt v sq ts src /\ len payload <= MAX_PAYLOAD_SIZE.
Proof.
  unfold BristlemouthMessage.init.
  destruct (Z.ltb_spec MAX_PAYLOAD_SIZE (len payload)) as [Hgt | Hle]; [discriminate |].
  intros H. apply Ok_inj in H. auto.
Qed.

Lemma unpack_header_ok_inv (h : list byte) magic v ty sq tms src :
  BristlemouthMessage.unpack_header h = Ok (magic, v, ty, sq, tms, src) ->
  length h = 22%nat
  /\ magic = be_value (slice h 0 1) /\ v = be_value (slice h 1 2)
  /\ ty = be_value (slice h 2 4) /\ sq = be_value (slice h 4 8)
  /\ tms = be_value (slice h 8 16) /\ src = slice h 16 22.
Proof.
  unfold BristlemouthMessage.unpack_header.
  destruct (Nat.eqb_spec (length h) 22) as [Hl | Hl]; [| discriminate].
  intros H. apply Ok_inj in H. injection H as <- <- <- <- <- <-. repeat split. exact Hl.
Qed.

Lemma slice_length {A} (l : list A) (a b : nat) :
  (b <= length l)%nat -> length (slice l a b) = (b - a)%nat.
Proof. intros H. unfold slice. rewrite length_firstn, length_skipn. lia. Qed.

Lemma slice_slice_0 {A} (l : list A) (n a b : nat) :
  (b <= n)%nat -> slice (slice l 0 n) a b = slice l a b.
Proof.
  intros H. unfold slice. rewrite Nat.sub_0_r, skipn_0, skipn_firstn_comm, firstn_firstn.
  f_equal. lia.
Qed.

(** X7. A message that decodes leaves no doubt about its frame: the input
    has the magic byte 0xBC first and at least 34 bytes, the payload and 34
    more at least; the decoded version fits one byte and the sequence number
    four; the source node id is there and has six bytes, the ones of the
    header; the payload has at most 1400 bytes; the topic has a name of 1 to
    64 characters and no node id; the timestamp is the millisecond count of
    the header divided by 1000.0, never the time of decoding. *)
Theorem decoded_message_shape now (data : list byte) (m : BristlemouthMessage.t) :
  BristlemouthMessage.from_bytes now data = Ok m ->
  hd x00 data = xbc
  /\ 34 + len (BristlemouthMessage.payload m) <= len data
  /\ 0 <= BristlemouthMessage.version m < 256
  /\ 0 <= BristlemouthMessage.sequence_number m < 2 ^ 32
  /\ BristlemouthMessage.source_node_id m = Some (slice data 16 22)
  /\ length (slice data 16 22) = 6%nat
  /\ len (BristlemouthMessage.payload m) <= 1400
  /\ BristlemouthTopic.node_id (BristlemouthMessage.topic m) = None
  /\ 1 <= len (BristlemouthTopic.name (BristlemouthMessage.topic m)) <= 64
  /\ 0 <= BristlemouthTopic.version (BristlemouthMessage.topic m) < 256
  /\ exists ms f,
       ms = be_value (slice data 8 16) /\ 0 <= ms < 2 ^ 64 /\ float_of_int ms = Ok f
       /\ BristlemouthMessage.timestamp m = fdiv f (float_lit 1000).
Proof.
  intros H.
  destruct (from_bytes_ok_inv now data m H)
    as (magic & v & ty & sq & tms & src & tl & topic & pl & mt & f
        & Hh & Hmag & Etl & Etopic & Epl & Emt & Ef & Emsg & Ecs & Hlen).
  apply unpack_header_ok_inv in Hh as (Hhl & Hm & Hv & Hty & Hsq & Htms & Hsrc).
  assert (H22 : (22 <= length data)%nat) by lia.
  rewrite slice_slice_0 in Hm, Hv, Hty, Hsq, Htms, Hsrc by lia.
  apply message_init_ok_inv in Emsg as [-> Hpl].
  cbn [BristlemouthMessage.version BristlemouthMessage.sequence_number
       BristlemouthMessage.source_node_id BristlemouthMessage.payload
       BristlemouthMessage.topic BristlemouthMessage.timestamp].
  destruct (topic_from_bytes_ok_inv _ _ Etopic) as (Htl4 & Htv & Hnid & Hname).
  pose proof (slice_length_le data (22 + 2) (22 + 2 + Z.to_nat tl)) as Htlb.
  apply unpack_uint_ok_length in Epl as [Epl1 Epl2].
  assert (Hpayload : length (slice data (22 + 2 + Z.to_nat tl + 2)
                                   (22 + 2 + Z.to_nat tl + 2 + Z.to_nat pl))
                     = Z.to_nat pl) by (rewrite slice_length; lia).
  assert (Hpl0 : 0 <= pl).
  { rewrite Epl2. apply be_value_range. }
  split.
  { destruct data as [| b0 data']; [simpl in H22; lia |].
    cbn [hd]. change (slice (b0 :: data') 0 1) with [b0] in Hm.
    rewrite be_value_single in Hm. apply Z_of_byte_inj.
    rewrite <- Hm, Hmag. reflexivity. }
  split; [unfold len in *; rewrite Hpayload; lia |].
  split.
  { rewrite Hv. pose proof (be_value_range (slice data 1 2)) as R.
    rewrite slice_length in R by lia. exact R. }
  split.
  { rewrite Hsq. pose proof (be_value_range (slice data 4 8)) as R.
    rewrite slice_length in R by lia. exact R. }
  split; [now rewrite Hsrc |].
  split; [rewrite slice_length; lia |].
  split; [exact Hpl |].
  split; [exact Hnid |]. split; [exact Hname |]. split; [exact Htv |].
  exists tms, f. split; [exact Htms |]. split; [| split; [exact Ef | reflexivity]].
  rewrite Htms. pose proof (be_value_range (slice data 8 16)) as R.
  rewrite slice_length in R by lia. exact R.
Qed.

(** X8. What follows the checksum is ignored: an input that decodes still
    decodes, to the same message, with any bytes appended. *)
Theorem decode_ignores_trailing_bytes now (data extra : list byte)
    (m : BristlemouthMessage.t) :
  BristlemouthMessage.from_bytes now data = Ok m ->
  BristlemouthMessage.from_bytes now (data ++ extra) = Ok m.
Proof.
  intros H.
  destruct (from_bytes_ok_inv now data m H)
    as (magic & v & ty & sq & tms & src & tl & topic & pl & mt & f
        & Hh & Hmag & Etl & Etopic & Epl & Emt & Ef & Emsg & Ecs & Hlen).
  unfold BristlemouthMessage.from_bytes. cbv zeta.
  destruct (Nat.ltb_spec (length (data ++ extra)) 22) as [Hs | _];
    [rewrite length_app in Hs; lia |].
  rewrite (slice_app_left data extra 0 22) by lia. rewrite Hh. cbn [bind].
  cbv beta iota zeta. rewrite Hmag, Z.eqb_refl. cbn [negb].
  rewrite (slice_app_left data extra 22 (22 + 2)) by lia. rewrite Etl. cbn [bind].
  rewrite (slice_app_left data extra (22 + 2) (22 + 2 + Z.to_nat tl)) by lia.
  rewrite Etopic. cbn [bind].
  rewrite (slice_app_left data extra (22 + 2 + Z.to_nat tl) (22 + 2 + Z.to_nat tl + 2))
    by lia.
  rewrite Epl. cbn [bind]. rewrite Emt. cbn [bind]. rewrite Ef. cbn [bind].
  rewrite (slice_app_left data extra (22 + 2 + Z.to_nat tl + 2)
             (22 + 2 + Z.to_nat tl + 2 + Z.to_nat pl)) by lia.
  rewrite Emsg. cbn [bind]. rewrite Ecs. cbn [bind].
  rewrite (slice_app_left data extra (22 + 2 + Z.to_nat tl + 2 + Z.to_nat pl)
             (22 + 2 + Z.to_nat tl + 2 + Z.to_nat pl + 4)) by lia.
  rewrite bytes_eqb_refl. reflexivity.
Qed.

Lemma decoded_message_shape_witness :
  exists m,
    BristlemouthMessage.from_bytes (float_lit 0) encoded_in_2009 = Ok m
    /\ BristlemouthMessage.source_node_id m = Some (repeat x00 6).
Proof.
  destruct (BristlemouthMessage.from_bytes (float_lit 0) encoded_in_2009) as [m | e] eqn:F;
    [| vm_compute in F; discriminate].
  exists m. split; [reflexivity |].
  destruct (decoded_message_shape _ _ _ F) as (_ & _ & _ & _ & Hsrc & _).
  rewrite Hsrc. reflexivity.
Defined.

Lemma decode_ignores_trailing_bytes_witness :
  BristlemouthMessage.from_bytes (float_lit 0) (encoded_in_2009 ++ [x01; x02; x03])
  = BristlemouthMessage.from_bytes (float_lit 0) encoded_in_2009.
Proof.
  destruct (BristlemouthMessage.from_bytes (float_lit 0) encoded_in_2009) as [m | e] eqn:F;
    [| vm_compute in F; discriminate].
  exact (decode_ignores_trailing_bytes _ _ [x01; x02; x03] _ F).
Defined.

Lemma pack_s_idem (x : list byte) :
  pack_s 6 match pack_s 6 x with [] => repeat x00 6 | _ :: _ => pack_s 6 x end
  = pack_s 6 x.
Proof.
  pose proof (pack_s_length 6 x) as H.
  destruct (pack_s 6 x) as [| b rest] eqn:E; [discriminate |].
  apply pack_s_exact. exact H.
Qed.

(** X9. Decoding is a normal form. When the millisecond count of an
    encoded message survives the division by 1000.0 and the multiplication
    by 1000, the bytes decode, and the decoded message, which has lost the
    node id of its topic and the fraction of a millisecond and has its
    source id filled up to six bytes, encodes to the same bytes. *)
Theorem reencoding_is_stable now (m : BristlemouthMessage.t) (bs : list byte) (ms : Z)
    (f : float) :
  BristlemouthMessage.to_bytes m = Ok bs ->
  1 <= len (BristlemouthTopic.name (BristlemouthMessage.topic m)) <= 64 ->
  len (BristlemouthMessage.payload m) <= MAX_PAYLOAD_SIZE ->
  BristlemouthMessage.timestamp_ms (BristlemouthMessage.timestamp m) = Ok ms ->
  float_of_int ms = Ok f ->
  BristlemouthMessage.timestamp_ms (fdiv f (float_lit 1000)) = Ok ms ->
  exists m',
    BristlemouthMessage.from_bytes now bs = Ok m'
    /\ BristlemouthMessage.to_bytes m' = Ok bs
    /\ BristlemouthMessage.payload m' = BristlemouthMessage.payload m
    /\ BristlemouthMessage.sequence_number m' = BristlemouthMessage.sequence_number m
    /\ BristlemouthMessage.message_type m' = BristlemouthMessage.message_type m
    /\ BristlemouthTopic.name (BristlemouthMessage.topic m')
       = BristlemouthTopic.name (BristlemouthMessage.topic m).
Proof.
  intros Hbs Hname Hpl Hms Hf Hstable.
  pose proof (message_round_trip now m bs ms f Hbs Hname Hpl Hms Hf Hstable) as Hfrom.
  eexists. split; [exact Hfrom |].
  split; [| repeat split].
  unfold BristlemouthMessage.to_bytes, BristlemouthMessage.calculate_checksum in *.
  assert (Hpack :
            BristlemouthMessage._pack_without_checksum
              (BristlemouthMessage.mk
                 (BristlemouthTopic.mk (BristlemouthTopic.name (BristlemouthMessage.topic m))
                    (BristlemouthTopic.version (BristlemouthMessage.topic m)) None)
                 (BristlemouthMessage.payload m) (BristlemouthMessage.message_type m)
                 (BristlemouthMessage.version m) (BristlemouthMessage.sequence_number m)
                 (fdiv f (float_lit 1000)) (Some (pack_s 6 (source_id_of m))))
            = BristlemouthMessage._pack_without_checksum m).
  { unfold BristlemouthMessage._pack_without_checksum.
    cbn [BristlemouthMessage.topic BristlemouthMessage.source_node_id
         BristlemouthMessage.timestamp BristlemouthMessage.version
         BristlemouthMessage.message_type BristlemouthMessage.sequence_number
         BristlemouthMessage.payload].
    rewrite Hstable, Hms.
    assert (Ht : BristlemouthTopic.to_bytes
                   (BristlemouthTopic.mk (BristlemouthTopic.name (BristlemouthMessage.topic m))
                      (BristlemouthTopic.version (BristlemouthMessage.topic m)) None)
                 = BristlemouthTopic.to_bytes (BristlemouthMessage.topic m)) by reflexivity.
    rewrite Ht.
    change (match BristlemouthMessage.source_node_id m with
            | Some (_ :: _ as id) => id
            | _ => repeat x00 6
            end) with (source_id_of m).
    rewrite (pack_s_idem (source_id_of m)). reflexivity. }
  rewrite Hpack. exact Hbs.
Qed.

Lemma reencoding_is_stable_witness :
  exists m',
    BristlemouthMessage.from_bytes (float_lit 0) encoded_in_2009 = Ok m'
    /\ BristlemouthMessage.to_bytes m' = Ok encoded_in_2009.
Proof.
  destruct (reencoding_is_stable (float_lit 0) MessageExamples.in_2009 encoded_in_2009
              1234567890000 (float_lit 1234567890000))
    as (m' & H1 & H2 & _).
  - vm_compute. reflexivity.
  - vm_compute. split; discriminate.
  - vm_compute. discriminate.
  - vm_compute. reflexivity.
  - vm_compute. reflexivity.
  - vm_compute. reflexivity.
  - exists m'. split; assumption.
Defined.

(** ** Messages in hexadecimal *)

Lemma hex_digit_spec (n : Z) :
  0 <= n < 16 ->
  is_ascii_space (hex_digit n) = false /\ hex_value (hex_digit n) = Some n
  /\ is_lower_hex (hex_digit n) = true.
Proof.
  intros Hn. replace n with (Z.of_nat (Z.to_nat n)) by lia.
  assert (Hk : (Z.to_nat n < 16)%nat) by lia. revert Hk.
  generalize (Z.to_nat n) as k. intros k Hk.
  do 16 (destruct k as [| k]; [repeat split |]). lia.
Qed.

Lemma fromhex_spaces (ws s : pystr) :
  forallb is_ascii_space ws = true -> fromhex (ws ++ s) = fromhex s.
Proof.
  induction ws as [| c ws IH]; [reflexivity |]. cbn [forallb app fromhex].
  intros H. apply andb_true_iff in H as [Hc Hws]. rewrite Hc. now apply IH.
Qed.

(** Reading what [hex] wrote, with whitespace after it and more text. *)
Lemma fromhex_hex_app (bs : list byte) (s : pystr) :
  fromhex (hex bs ++ s)
  = match fromhex s with Some more => Some (bs ++ more) | None => None end.
Proof.
  induction bs as [| b bs IH].
  - cbn. destruct (fromhex s); reflexivity.
  - pose proof (Z_of_byte_range b) as Hb.
    destruct (hex_digit_spec (Z_of_byte b / 16) ltac:(divmod_lia)) as (S1 & V1 & _).
    destruct (hex_digit_spec (Z_of_byte b mod 16) ltac:(divmod_lia)) as (_ & V2 & _).
    unfold hex in *. cbn [flat_map app fromhex]. rewrite S1, V1, V2, IH.
    destruct (fromhex s) as [more |]; [| reflexivity].
    rewrite (byte_of_its_value b) by divmod_lia. reflexivity.
Qed.

Lemma hex_app (a b : list byte) : hex (a ++ b) = hex a ++ hex b.
Proof. unfold hex. apply flat_map_app. Qed.

Lemma upper_keeps_meaning (c : Z) :
  is_ascii_space (upper c) = is_ascii_space c /\ hex_value (upper c) = hex_value c.
Proof.
  unfold upper. destruct ((97 <=? c) && (c <=? 122)) eqn:E; [| split; reflexivity].
  bool_to_prop. unfold is_ascii_space, hex_value.
  assert (Hs : (c - 32 =? 32) = false /\ (c =? 32) = false
               /\ (c - 32 <=? 13) = false /\ (c <=? 13) = false
               /\ (c - 32 <=? 57) = false /\ (c <=? 57) = false
               /\ (97 <=? c - 32) = false /\ (48 <=? c - 32) = true /\ (48 <=? c) = true
               /\ (65 <=? c - 32) = true /\ (97 <=? c) = true /\ (c <=? 70) = false).
  { repeat split; first [apply Z.eqb_neq | apply Z.leb_gt | apply Z.leb_le]; lia. }
  destruct Hs as (-> & -> & -> & -> & -> & -> & -> & -> & -> & -> & -> & ->).
  rewrite !andb_false_r. cbn [orb andb]. split; [reflexivity |].
  destruct (Z.leb_spec c 102) as [Hle | Hgt].
  - destruct (Z.leb_spec (c - 32) 70); [f_equal; lia | lia].
  - destruct (Z.leb_spec (c - 32) 70); [lia | reflexivity].
Qed.

Lemma fromhex_upper (s : pystr) : fromhex (map upper s) = fromhex s.
Proof.
  remember (length s) as n eqn:Hn. revert s Hn.
  induction n as [n IH] using lt_wf_ind. intros s Hn.
  destruct s as [| c rest]; [reflexivity |]. cbn [map fromhex].
  destruct (upper_keeps_meaning c) as [-> ->]. simpl in Hn.
  destruct (is_ascii_space c); [apply (IH (length rest)); [lia | reflexivity] |].
  destruct (hex_value c) as [top |]; [| reflexivity].
  destruct rest as [| d rest']; [reflexivity |]. cbn [map].
  destruct (upper_keeps_meaning d) as [_ ->].
  destruct (hex_value d) as [bot |]; [| reflexivity].
  rewrite (IH (length rest')); [reflexivity | simpl in Hn; lia | reflexivity].
Qed.

(** X10. The hexadecimal form of a message that encodes has two
    characters from [0-9a-f] for each byte, and reading it gives what
    decoding the bytes gives: the same message or the same error. The same
    holds for the text in upper case, and for the text with ASCII whitespace
    between any two bytes or after the last. *)
Theorem hex_round_trip now (m : BristlemouthMessage.t) (bs : list byte) :
  BristlemouthMessage.to_bytes m = Ok bs ->
  to_hex m = Ok (hex bs)
  /\ len (hex bs) = 2 * len bs
  /\ forallb is_lower_hex (hex bs) = true
  /\ from_hex now (hex bs) = Some (BristlemouthMessage.from_bytes now bs)
  /\ from_hex now (map upper (hex bs)) = Some (BristlemouthMessage.from_bytes now bs)
  /\ forall k ws, forallb is_ascii_space ws = true ->
       from_hex now (hex (firstn k bs) ++ ws ++ hex (skipn k bs))
       = Some (BristlemouthMessage.from_bytes now bs).
Proof.
  intros Hbs. unfold to_hex, from_hex. rewrite Hbs. cbn [bind].
  assert (Hrt : forall l, fromhex (hex l) = Some l).
  { intros l. rewrite <- (app_nil_r (hex l)), fromhex_hex_app. cbn [fromhex].
    now rewrite app_nil_r. }
  split; [reflexivity |]. split; [| split; [| split; [| split]]].
  - unfold len, hex. clear. induction bs as [| b bs IH]; [reflexivity |].
    cbn [flat_map]. rewrite length_app. cbn [length]. lia.
  - unfold hex. clear. induction bs as [| b bs IH]; [reflexivity |].
    pose proof (Z_of_byte_range b) as Hb.
    destruct (hex_digit_spec (Z_of_byte b / 16) ltac:(divmod_lia)) as (_ & _ & L1).
    destruct (hex_digit_spec (Z_of_byte b mod 16) ltac:(divmod_lia)) as (_ & _ & L2).
    cbn [flat_map app forallb]. now rewrite L1, L2, IH.
  - now rewrite Hrt.
  - now rewrite fromhex_upper, Hrt.
  - intros k ws Hws. rewrite fromhex_hex_app, (fromhex_spaces ws _ Hws), Hrt.
    now rewrite firstn_skipn.
Qed.

Lemma hex_round_trip_witness :
  from_hex (float_lit 0) (hex encoded_in_2009)
  = Some (Ok (BristlemouthMessage.mk MessageExamples.topic MessageExamples.payload
                MessageType.SENSOR_DATA 1 42 (float_lit 1234567890)
                (Some (repeat x00 6)))).
Proof.
  destruct (hex_round_trip (float_lit 0) MessageExamples.in_2009 encoded_in_2009)
    as (_ & _ & _ & H & _); [vm_compute; reflexivity |].
  rewrite H. vm_compute. reflexivity.
Defined.

(** ** Bytes and numbers, the other way round *)

Lemma byte_of_Z_mod (z : Z) : byte_of_Z (z mod 256) = byte_of_Z z.
Proof.
  apply Z_of_byte_inj. rewrite !Z_of_byte_of_Z. apply Z.mod_mod. lia.
Qed.

Lemma byte_of_Z_add_multiple (a z : Z) : byte_of_Z (a * 256 + z) = byte_of_Z z.
Proof.
  apply Z_of_byte_inj. rewrite !Z_of_byte_of_Z.
  rewrite Z.add_comm. apply Z.mod_add. lia.
Qed.

(** Only the low [n] bytes of a number are written. *)
Lemma be_bytes_high (n : nat) (a z : Z) :
  be_bytes n (a * 256 ^ Z.of_nat n + z) = be_bytes n z.
Proof.
  revert a. induction n as [| n IH]; intros a; [reflexivity |].
  cbn [be_bytes]. rewrite pow256_succ. pose proof (pow256_pos n) as Hp.
  f_equal.
  - replace (a * (256 ^ Z.of_nat n * 256) + z) with (z + (a * 256) * 256 ^ Z.of_nat n) by ring.
    rewrite Z.div_add by lia. rewrite Z.add_comm. apply byte_of_Z_add_multiple.
  - replace (a * (256 ^ Z.of_nat n * 256)) with ((a * 256) * 256 ^ Z.of_nat n) by ring.
    apply IH.
Qed.

Lemma be_bytes_mod (n : nat) (z : Z) : be_bytes n (z mod 256 ^ Z.of_nat n) = be_bytes n z.
Proof.
  pose proof (pow256_pos n) as Hp.
  rewrite (Z.div_mod z (256 ^ Z.of_nat n)) at 2 by lia.
  rewrite (Z.mul_comm (256 ^ Z.of_nat n)). now rewrite be_bytes_high.
Qed.

(** The bytes of the number that bytes denote are these bytes. *)
Lemma be_bytes_of_value (bs : list byte) : be_bytes (length bs) (be_value bs) = bs.
Proof.
  induction bs as [| b bs IH]; [reflexivity |].
  cbn [length be_bytes]. rewrite be_value_cons.
  pose proof (be_value_range bs) as Hr. pose proof (pow256_pos (length bs)) as Hp.
  f_equal.
  - rewrite Z.div_add_l by lia. rewrite Z.div_small by lia. rewrite Z.add_0_r.
    apply byte_of_Z_of_byte.
  - rewrite be_bytes_high. exact IH.
Qed.

Lemma pack_unpack_uint (n : nat) (bs : list byte) (z : Z) :
  unpack_uint n bs = Ok z -> pack_uint n z = Ok bs.
Proof.
  intros H. apply unpack_uint_ok_length in H as [<- ->].
  rewrite pack_uint_in_range by apply be_value_range.
  now rewrite be_bytes_of_value.
Qed.

Lemma pack_unpack_sint (n : nat) (bs : list byte) (z : Z) :
  256 ^ Z.of_nat n = 2 * (256 ^ Z.of_nat n / 2) ->
  unpack_sint n bs = Ok z -> pack_sint n z = Ok bs.
Proof.
  intros Heven. unfold unpack_sint, pack_sint. cbv zeta.
  destruct (Nat.eqb_spec (length bs) n) as [Hl | Hl]; [| discriminate].
  intros H. apply Ok_inj in H. subst z n.
  pose proof (be_value_range bs) as Hr. set (M := 256 ^ Z.of_nat (length bs)) in *.
  set (u := be_value bs) in *.
  assert (Hmod : (if u <? M / 2 then u else u - M) mod M = u).
  { destruct (Z.ltb_spec u (M / 2)).
    - apply Z.mod_small. lia.
    - replace (u - M) with (u + (-1) * M) by ring. rewrite Z.mod_add by lia.
      apply Z.mod_small. lia. }
  assert (Hin : (- (M / 2) <=? (if u <? M / 2 then u else u - M))
                && ((if u <? M / 2 then u else u - M) <? M / 2) = true).
  { apply andb_true_iff. destruct (Z.ltb_spec u (M / 2)); split;
      first [apply Z.leb_le | apply Z.ltb_lt]; lia. }
  rewrite Hin, Hmod. unfold u. now rewrite be_bytes_of_value.
Qed.

(** ** Floats from their bits *)

Section BitsOfAnyPattern.
Variables mw ew : Z.
Hypothesis mw_pos : 1 <= mw.
Hypothesis ew_pos : 2 <= ew.

Let prec := mw + 1.
Let emax := 2 ^ (ew - 1).

(** The three fields of a bit pattern. *)
Lemma fields_of_bits (x : Z) :
  0 <= x < 2 ^ (1 + ew + mw) ->
  let sgn := x / 2 ^ (mw + ew) in
  let biased := (x / 2 ^ mw) mod 2 ^ ew in
  let frac := x mod 2 ^ mw in
  (sgn = 0 \/ sgn = 1) /\ 0 <= biased < 2 ^ ew /\ 0 <= frac < 2 ^ mw
  /\ x = sgn * 2 ^ (mw + ew) + biased * 2 ^ mw + frac.
Proof.
  intros Hx sgn biased frac.
  assert (HM : 0 < 2 ^ mw) by (apply Z.pow_pos_nonneg; lia).
  assert (HE : 0 < 2 ^ ew) by (apply Z.pow_pos_nonneg; lia).
  assert (Hsum : 2 ^ (mw + ew) = 2 ^ mw * 2 ^ ew) by (apply Z.pow_add_r; lia).
  assert (Htot : 2 ^ (1 + ew + mw) = 2 * (2 ^ mw * 2 ^ ew)).
  { rewrite <- Hsum. replace (1 + ew + mw) with (Z.succ (mw + ew)) by lia.
    rewrite Z.pow_succ_r by lia. reflexivity. }
  assert (Hs : 0 <= sgn < 2).
  { unfold sgn. rewrite Hsum. split; [apply Z.div_pos; lia |].
    apply Z.div_lt_upper_bound; lia. }
  split; [lia |]. split; [apply Z.mod_pos_bound; lia |].
  split; [apply Z.mod_pos_bound; lia |].
  unfold sgn, biased, frac. rewrite Hsum. rewrite <- Z.div_div by lia.
  pose proof (Z.div_mod x (2 ^ mw) ltac:(lia)) as D1.
  pose proof (Z.div_mod (x / 2 ^ mw) (2 ^ ew) ltac:(lia)) as D2.
  rewrite D1 at 1. rewrite D2 at 1. ring.
Qed.

Lemma digits_below (m : positive) (k : Z) :
  0 <= k -> Zpos m < 2 ^ k -> Zpos (digits2_pos m) <= k.
Proof.
  intros Hk Hm. pose proof (digits2_pos_bounds m) as [Hlo _].
  destruct (Z_le_gt_dec (Zpos (digits2_pos m)) k) as [H | H]; [exact H | exfalso].
  assert (2 ^ k <= 2 ^ (Zpos (digits2_pos m) - 1)) by (apply Z.pow_le_mono_r; lia). lia.
Qed.

(** Every pattern of bits is a valid number of the format. *)
Lemma float_of_bits_valid (x : Z) :
  0 <= x < 2 ^ (1 + ew + mw) ->
  valid_binary prec emax (float_of_bits mw ew x) = true.
Proof.
  intros Hx. destruct (fields_of_bits x Hx) as (_ & Hb & Hf & _).
  assert (HM : 0 < 2 ^ mw) by (apply Z.pow_pos_nonneg; lia).
  pose proof (emax_double mw ew ew_pos) as Hed. pose proof (emax_ge_2 mw ew ew_pos) as He2.
  fold emax in Hed, He2.
  unfold float_of_bits. fold prec emax.
  set (biased := (x / 2 ^ mw) mod 2 ^ ew) in *. set (frac := x mod 2 ^ mw) in *.
  destruct (Z.eqb_spec biased 0) as [Hb0 | Hb0].
  - destruct frac as [| m | m] eqn:Ef; try reflexivity.
    unfold valid_binary, bounded, canonical_mantissa.
    pose proof (digits_below m mw ltac:(lia) ltac:(lia)) as Hd.
    apply andb_true_iff. split; [apply Z.eqb_eq | apply Z.leb_le];
      unfold fexp, emin, prec in *; lia.
  - destruct (Z.eqb_spec biased (2 ^ ew - 1)) as [Hb1 | Hb1].
    + destruct (frac =? 0); reflexivity.
    + destruct (frac + 2 ^ mw) as [| m | m] eqn:Em; try reflexivity.
      unfold valid_binary, bounded, canonical_mantissa.
      assert (Hd : Zpos (digits2_pos m) = mw + 1).
      { apply digits2_pos_unique. replace (mw + 1 - 1) with mw by lia.
        replace (mw + 1) with (Z.succ mw) by lia. rewrite Z.pow_succ_r by lia. lia. }
      apply andb_true_iff. split; [apply Z.eqb_eq | apply Z.leb_le];
        unfold fexp, emin, prec in *; lia.
Qed.

(** The bits of the number a pattern denotes are the pattern, unless it
    denotes NaN. *)
Lemma bits_of_float_of_bits (x : Z) :
  0 <= x < 2 ^ (1 + ew + mw) ->
  float_of_bits mw ew x <> S754_nan ->
  bits_of_float mw ew (float_of_bits mw ew x) = x.
Proof.
  intros Hx Hnan. destruct (fields_of_bits x Hx) as (Hs & Hb & Hf & Heq).
  assert (HM : 0 < 2 ^ mw) by (apply Z.pow_pos_nonneg; lia).
  assert (Hodd : (if Z.odd (x / 2 ^ (mw + ew)) then 2 ^ (mw + ew) else 0)
                 = x / 2 ^ (mw + ew) * 2 ^ (mw + ew)).
  { destruct Hs as [-> | ->]; cbn [Z.odd]; lia. }
  revert Hnan. unfold float_of_bits, bits_of_float. fold prec emax.
  set (sgn := x / 2 ^ (mw + ew)) in *.
  set (biased := (x / 2 ^ mw) mod 2 ^ ew) in *. set (frac := x mod 2 ^ mw) in *.
  destruct (Z.eqb_spec biased 0) as [Hb0 | Hb0].
  - destruct frac as [| m | m] eqn:Ef; intros _; try lia.
    destruct (Z.ltb_spec (Zpos m) (2 ^ mw)); lia.
  - destruct (Z.eqb_spec biased (2 ^ ew - 1)) as [Hb1 | Hb1].
    + destruct (Z.eqb_spec frac 0) as [Hf0 | Hf0]; intros Hnan; [| congruence]. lia.
    + destruct (frac + 2 ^ mw) as [| m | m] eqn:Em; intros Hnan; try lia.
      destruct (Z.ltb_spec (Zpos m) (2 ^ mw)); [lia |].
      unfold emin. lia.
Qed.

End BitsOfAnyPattern.

(** What [struct] unpacks is a float. *)
Lemma unpack_d_valid (bs : list byte) (f : float) : unpack_d bs = Ok f -> valid_float f.
Proof.
  unfold unpack_d. destruct (Nat.eqb_spec (length bs) 8) as [Hl | Hl]; [| discriminate].
  intros H. apply Ok_inj in H. subst f.
  apply (float_of_bits_valid 52 11); [lia | lia |].
  pose proof (be_value_range bs) as R. rewrite Hl in R. exact R.
Qed.

Lemma unpack_f_valid (bs : list byte) (f : float) : unpack_f bs = Ok f -> valid_float f.
Proof.
  unfold unpack_f. destruct (Nat.eqb_spec (length bs) 4) as [Hl | Hl]; [| discriminate].
  intros H. apply Ok_inj in H. subst f. apply of_single_valid.
Qed.

Lemma pack_unpack_d (bs : list byte) (f : float) :
  unpack_d bs = Ok f -> f <> S754_nan -> pack_d f = bs.
Proof.
  unfold unpack_d, pack_d. destruct (Nat.eqb_spec (length bs) 8) as [Hl | Hl]; [| discriminate].
  intros H Hnan. apply Ok_inj in H. subst f.
  pose proof (be_value_range bs) as R. rewrite Hl in R.
  rewrite (bits_of_float_of_bits 52 11) by (first [lia | exact R | exact Hnan]).
  rewrite <- Hl. apply be_bytes_of_value.
Qed.

Lemma of_single_nan (r : spec_float) : of_single r = S754_nan -> r = S754_nan.
Proof.
  destruct r as [s | s | | s m e]; try discriminate; [reflexivity |].
  unfold of_single. intros H.
  pose proof (binary_round_error prec64 emax64 ltac:(reflexivity) s m e) as He.
  rewrite H in He. destruct He.
Qed.

Lemma pack_unpack_f (bs : list byte) (f : float) :
  unpack_f bs = Ok f -> f <> S754_nan -> pack_f f = Ok bs.
Proof.
  unfold unpack_f, pack_f. destruct (Nat.eqb_spec (length bs) 4) as [Hl | Hl]; [| discriminate].
  intros H Hnan. apply Ok_inj in H. subst f.
  pose proof (be_value_range bs) as R. rewrite Hl in R.
  assert (Hv : valid_single (float_of_bits 23 8 (be_value bs))).
  { apply (float_of_bits_valid 23 8); [lia | lia | exact R]. }
  rewrite (to_single_of_single _ Hv). cbn [bind].
  rewrite (bits_of_float_of_bits 23 8); [| lia | lia | exact R |].
  - rewrite <- Hl. now rewrite be_bytes_of_value.
  - intros E. apply Hnan. now rewrite E.
Qed.

(** ** Decoding a scalar value out of a longer buffer *)

Lemma unpack_sint_ok_length (n : nat) (bs : list byte) (z : Z) :
  unpack_sint n bs = Ok z -> length bs = n.
Proof. unfold unpack_sint. now destruct (Nat.eqb_spec (length bs) n). Qed.

Lemma unpack_uint_length (n : nat) (bs : list byte) (z : Z) :
  unpack_uint n bs = Ok z -> length bs = n.
Proof. intros H. now apply unpack_uint_ok_length in H. Qed.

Lemma unpack_d_ok_length (bs : list byte) (f : float) : unpack_d bs = Ok f -> length bs = 8%nat.
Proof. unfold unpack_d. now destruct (Nat.eqb_spec (length bs) 8). Qed.

Lemma unpack_f_ok_length (bs : list byte) (f : float) : unpack_f bs = Ok f -> length bs = 4%nat.
Proof. unfold unpack_f. now destruct (Nat.eqb_spec (length bs) 4). Qed.

Lemma unpack_bool_ok_length (bs : list byte) (b : bool) :
  unpack_bool bs = Ok b -> length bs = 1%nat.
Proof. destruct bs as [| x [| y bs]]; try discriminate. reflexivity. Qed.

Lemma firstn_then_slice {A} (l : list A) (a b : nat) :
  (a <= b)%nat -> firstn a l ++ slice l a b = firstn b l.
Proof.
  unfold slice. revert b l. induction a as [| a IH]; intros b l H.
  - now rewrite Nat.sub_0_r.
  - destruct b as [| b]; [lia |]. destruct l as [| x l]; [now rewrite !firstn_nil |].
    cbn [firstn skipn app Nat.sub]. f_equal. apply IH. lia.
Qed.

Lemma slice_beyond {A} (l : list A) (a b : nat) :
  (length l <= b)%nat -> slice l a b = skipn a l.
Proof. intros H. unfold slice. apply firstn_all2. rewrite length_skipn. lia. Qed.

Lemma slice_firstn {A} (l : list A) (n a b : nat) :
  (b <= n)%nat -> slice (firstn n l) a b = slice l a b.
Proof. intros H. rewrite <- (slice_0 l n). now apply slice_slice_0. Qed.

(** A reader of [n] bytes: what it makes of a buffer depends on the first
    [n] bytes alone, and there are that many. *)
Lemma fixed_reader {A} (unpack : list byte -> result A) (n : nat) (inj : A -> PyValue)
      (data : list byte) (v : PyValue) (w : Z) :
  (forall bs x, unpack bs = Ok x -> length bs = n) -> (0 < n)%nat ->
  (x <- unpack (slice data 0 n) ;; Ok (inj x, Z.of_nat n)) = Ok (v, w) ->
  exists x, unpack (firstn n data) = Ok x /\ v = inj x /\ w = Z.of_nat n
            /\ (n <= length data)%nat.
Proof.
  intros Hlen Hn H. destruct (unpack (slice data 0 n)) as [x | e] eqn:E; [| discriminate].
  cbn [bind] in H. apply Ok_inj in H. injection H as <- <-.
  pose proof (Hlen _ _ E) as Hl. exists x. rewrite <- slice_0.
  split; [exact E |]. split; [reflexivity |]. split; [reflexivity |].
  apply (slice_full data 0 n Hl Hn).
Qed.

(** What follows for a decoder that reads [n] bytes. *)
Lemma fixed_reader_prefix {A} (unpack : list byte -> result A) (n : nat) (inj : A -> PyValue)
      (data : list byte) (v : PyValue) (w : Z) :
  (forall bs x, unpack bs = Ok x -> length bs = n) -> (0 < n)%nat ->
  (x <- unpack (slice data 0 n) ;; Ok (inj x, Z.of_nat n)) = Ok (v, w) ->
  w = Z.of_nat n /\ 1 <= w <= len data
  /\ (x <- unpack (slice (firstn (Z.to_nat w) data) 0 n) ;; Ok (inj x, Z.of_nat n)) = Ok (v, w)
  /\ (forall rest,
        (x <- unpack (slice (data ++ rest) 0 n) ;; Ok (inj x, Z.of_nat n)) = Ok (v, w)).
Proof.
  intros Hlen Hn H. destruct (fixed_reader unpack n inj data v w Hlen Hn H)
    as (x & Hx & -> & -> & Hl).
  split; [reflexivity |]. split; [unfold len; lia |]. split.
  - rewrite Nat2Z.id, slice_firstn by lia. rewrite slice_0, Hx. reflexivity.
  - intros rest. rewrite slice_app_left by lia. rewrite slice_0, Hx. reflexivity.
Qed.

(** The two kinds with a length prefix. *)
Lemma prefixed_reader (data : list byte) (L : Z) :
  unpack_uint 2 (slice data 0 2) = Ok L ->
  (2 <= length data)%nat /\ 0 <= L < 2 ^ 16 /\ L = be_value (firstn 2 data)
  /\ pack_uint 2 L = Ok (firstn 2 data)
  /\ (forall n, (2 <= n)%nat -> unpack_uint 2 (slice (firstn n data) 0 2) = Ok L)
  /\ (forall rest, unpack_uint 2 (slice (data ++ rest) 0 2) = Ok L)
  /\ len (slice data 2 (2 + Z.to_nat L)) = Z.min L (len data - 2).
Proof.
  intros H. pose proof (pack_unpack_uint 2 _ _ H) as Hp.
  pose proof (unpack_uint_ok_length 2 _ _ H) as [Hl HL].
  pose proof (slice_full data 0 2 Hl ltac:(lia)) as H2. cbn [Nat.add] in H2.
  pose proof (be_value_range (slice data 0 2)) as Hr. rewrite Hl, <- HL in Hr.
  change (256 ^ Z.of_nat 2) with (2 ^ 16) in Hr.
  rewrite slice_0 in HL, Hp.
  split; [exact H2 |]. split; [exact Hr |]. split; [exact HL |]. split; [exact Hp |].
  split; [| split].
  - intros n Hn. now rewrite slice_firstn.
  - intros rest. now rewrite slice_app_left.
  - unfold len, slice. rewrite length_firstn, length_skipn. lia.
Qed.

Section ScalarDecoding.
Variable float_of_text : PyValue -> result float.
Variable int_of_text : PyValue -> result Z.
Variable str_of : PyValue -> pystr.

Let encode := encode_sensor_value float_of_text int_of_text str_of.

Lemma decoded_kind (data : list byte) (k : Z) (v : PyValue) (w : Z) :
  decode_sensor_value data k = Ok (v, w) ->
  k = DataType.FLOAT32 \/ k = DataType.FLOAT64 \/ k = DataType.INT8 \/ k = DataType.INT16
  \/ k = DataType.INT32 \/ k = DataType.INT64 \/ k = DataType.UINT8 \/ k = DataType.UINT16
  \/ k = DataType.UINT32 \/ k = DataType.UINT64 \/ k = DataType.STRING \/ k = DataType.BYTES
  \/ k = DataType.BOOL.
Proof.
  intros H. apply known_kinds.
  destruct (Z_le_gt_dec 1 k) as [H1 | H1]; [destruct (Z_le_gt_dec k 13) as [H2 | H2] |];
    [lia | exfalso | exfalso];
    (destruct (unknown_kind_raises float_of_text int_of_text str_of k v data ltac:(lia))
       as [_ Hr]; rewrite Hr in H; discriminate).
Qed.

Ltac fixed_prefix H unpack n inj Hlen :=
  destruct (fixed_reader_prefix unpack n inj _ _ _ Hlen ltac:(lia) H)
    as (-> & Hw & Hfirst & Hrest);
  split; [lia |]; split; [exact Hfirst |]; split; [intros _; exact Hrest |];
  left; split; [reflexivity | lia].

(** X11. A scalar value is decoded from the front of the buffer: when
    decoding succeeds, the reported number of bytes is at least one, the
    same value and number come out of the buffer cut to that many bytes,
    and, when the buffer has that many, out of the buffer with anything
    appended. For the kinds of fixed width the number is the width and the
    buffer has that many bytes. For strings and byte blocks it is two more
    than the length the first two bytes announce, also when the buffer ends
    before: the value then holds what was there, and the number reported
    exceeds the length of the buffer. *)
Theorem decode_reads_a_prefix (data : list byte) (k : Z) (v : PyValue) (w : Z) :
  decode_sensor_value data k = Ok (v, w) ->
  1 <= w
  /\ decode_sensor_value (firstn (Z.to_nat w) data) k = Ok (v, w)
  /\ (w <= len data -> forall rest, decode_sensor_value (data ++ rest) k = Ok (v, w))
  /\ ((fixed_width k = Some w /\ w <= len data)
      \/ (fixed_width k = None /\ (k = DataType.STRING \/ k = DataType.BYTES)
          /\ 2 <= len data
          /\ w = 2 + be_value (firstn 2 data)
          /\ content_length v = Z.min (w - 2) (len data - 2))).
Proof.
  intros H.
  destruct (decoded_kind data k v w H)
    as [-> | [-> | [-> | [-> | [-> | [-> | [-> | [-> | [-> | [-> | [-> | [-> | ->]]]]]]]]]]]].
  - fixed_prefix H unpack_f 4%nat PyFloat unpack_f_ok_length.
  - fixed_prefix H unpack_d 8%nat PyFloat unpack_d_ok_length.
  - fixed_prefix H (unpack_sint 1) 1%nat PyInt (unpack_sint_ok_length 1).
  - fixed_prefix H (unpack_sint 2) 2%nat PyInt (unpack_sint_ok_length 2).
  - fixed_prefix H (unpack_sint 4) 4%nat PyInt (unpack_sint_ok_length 4).
  - fixed_prefix H (unpack_sint 8) 8%nat PyInt (unpack_sint_ok_length 8).
  - fixed_prefix H (unpack_uint 1) 1%nat PyInt (unpack_uint_length 1).
  - fixed_prefix H (unpack_uint 2) 2%nat PyInt (unpack_uint_length 2).
  - fixed_prefix H (unpack_uint 4) 4%nat PyInt (unpack_uint_length 4).
  - fixed_prefix H (unpack_uint 8) 8%nat PyInt (unpack_uint_length 8).
  - change (decode_sensor_value data DataType.STRING)
      with (length <- unpack_uint 2 (slice data 0 2) ;;
            s <- utf8_decode (slice data 2 (2 + Z.to_nat length)) ;;
            Ok (PyStr s, 2 + length)) in H.
    destruct (unpack_uint 2 (slice data 0 2)) as [L | e] eqn:EL; [| discriminate].
    cbn [bind] in H.
    destruct (utf8_decode (slice data 2 (2 + Z.to_nat L))) as [s | e] eqn:Es; [| discriminate].
    cbn [bind] in H.
    assert (Hv : v = PyStr s) by congruence. assert (Hw : w = 2 + L) by congruence.
    subst v w. clear H.
    destruct (prefixed_reader data L EL) as (H2 & HL & Hval & _ & Hcut & Happ & Hlen).
    assert (Hn : Z.to_nat (2 + L) = (2 + Z.to_nat L)%nat) by lia.
    split; [lia |]. split; [| split].
    + change (decode_sensor_value (firstn (Z.to_nat (2 + L)) data) DataType.STRING)
        with (length <- unpack_uint 2 (slice (firstn (Z.to_nat (2 + L)) data) 0 2) ;;
              s <- utf8_decode (slice (firstn (Z.to_nat (2 + L)) data) 2 (2 + Z.to_nat length)) ;;
              Ok (PyStr s, 2 + length)).
      rewrite Hcut by lia. cbn [bind]. rewrite Hn, slice_firstn by lia. now rewrite Es.
    + intros Hw rest.
      change (decode_sensor_value (data ++ rest) DataType.STRING)
        with (length <- unpack_uint 2 (slice (data ++ rest) 0 2) ;;
              s <- utf8_decode (slice (data ++ rest) 2 (2 + Z.to_nat length)) ;;
              Ok (PyStr s, 2 + length)).
      rewrite Happ. cbn [bind]. rewrite slice_app_left by (unfold len in Hw; lia).
      now rewrite Es.
    + right. split; [reflexivity |]. split; [now left |]. split; [unfold len; lia |].
      split; [lia |]. cbn [content_length].
      rewrite (utf8_encode_decoded _ _ Es). rewrite Hlen. f_equal. lia.
  - change (decode_sensor_value data DataType.BYTES)
      with (length <- unpack_uint 2 (slice data 0 2) ;;
            Ok (PyBytes (slice data 2 (2 + Z.to_nat length)), 2 + length)) in H.
    destruct (unpack_uint 2 (slice data 0 2)) as [L | e] eqn:EL; [| discriminate].
    cbn [bind] in H.
    assert (Hv : v = PyBytes (slice data 2 (2 + Z.to_nat L))) by congruence.
    assert (Hw : w = 2 + L) by congruence. subst v w. clear H.
    destruct (prefixed_reader data L EL) as (H2 & HL & Hval & _ & Hcut & Happ & Hlen).
    assert (Hn : Z.to_nat (2 + L) = (2 + Z.to_nat L)%nat) by lia.
    split; [lia |]. split; [| split].
    + change (decode_sensor_value (firstn (Z.to_nat (2 + L)) data) DataType.BYTES)
        with (length <- unpack_uint 2 (slice (firstn (Z.to_nat (2 + L)) data) 0 2) ;;
              Ok (PyBytes (slice (firstn (Z.to_nat (2 + L)) data) 2 (2 + Z.to_nat length)),
                  2 + length)).
      rewrite Hcut by lia. cbn [bind]. rewrite Hn, slice_firstn by lia. reflexivity.
    + intros Hw rest.
      change (decode_sensor_value (data ++ rest) DataType.BYTES)
        with (length <- unpack_uint 2 (slice (data ++ rest) 0 2) ;;
              Ok (PyBytes (slice (data ++ rest) 2 (2 + Z.to_nat length)), 2 + length)).
      rewrite Happ. cbn [bind]. rewrite slice_app_left by (unfold len in Hw; lia).
      reflexivity.
    + right. split; [reflexivity |]. split; [now right |]. split; [unfold len; lia |].
      split; [lia |]. cbn [content_length]. rewrite Hlen. f_equal. lia.
  - fixed_prefix H unpack_bool 1%nat PyBool unpack_bool_ok_length.
Qed.

Ltac fixed_encode H unpack n inj Hlen :=
  destruct (fixed_reader unpack n inj _ _ _ Hlen ltac:(lia) H) as (x & Hx & -> & -> & Hl);
  split; [intros _ _; rewrite Nat2Z.id
         | split; [intros E; vm_compute in E; discriminate | unfold len; lia]].

(** X12. Encoding what was decoded writes the bytes that were read: for
    every kind but BOOL, and every value but a NaN, a value decoded from a
    buffer that holds the reported number of bytes encodes to exactly these
    bytes. A BOOL byte other than 0 decodes to true, which encodes as 1.
    When a string or a byte block was announced longer than the buffer, the
    value encodes with its true length in front, so to a buffer that differs
    from the one read in its first two bytes. *)
Theorem decode_then_encode (data : list byte) (k : Z) (v : PyValue) (w : Z) :
  decode_sensor_value data k = Ok (v, w) ->
  v <> PyFloat S754_nan ->
  (k <> DataType.BOOL -> w <= len data -> encode v k = Ok (firstn (Z.to_nat w) data))
  /\ (k = DataType.BOOL ->
        exists b, v = PyBool b /\ encode v k = Ok [if b then x01 else x00]
                  /\ (b = false <-> firstn 1 data = [x00]))
  /\ (len data < w -> encode v k = Ok (be_bytes 2 (len data - 2) ++ skipn 2 data)).
Proof.
  intros H Hnan.
  destruct (decoded_kind data k v w H)
    as [-> | [-> | [-> | [-> | [-> | [-> | [-> | [-> | [-> | [-> | [-> | [-> | ->]]]]]]]]]]]].
  - fixed_encode H unpack_f 4%nat PyFloat unpack_f_ok_length.
    exact (pack_unpack_f _ _ Hx (fun E => Hnan (f_equal PyFloat E))).
  - fixed_encode H unpack_d 8%nat PyFloat unpack_d_ok_length.
    change (encode (PyFloat x) DataType.FLOAT64) with (Ok (pack_d x)).
    f_equal. exact (pack_unpack_d _ _ Hx (fun E => Hnan (f_equal PyFloat E))).
  - fixed_encode H (unpack_sint 1) 1%nat PyInt (unpack_sint_ok_length 1).
    exact (pack_unpack_sint 1 _ _ eq_refl Hx).
  - fixed_encode H (unpack_sint 2) 2%nat PyInt (unpack_sint_ok_length 2).
    exact (pack_unpack_sint 2 _ _ eq_refl Hx).
  - fixed_encode H (unpack_sint 4) 4%nat PyInt (unpack_sint_ok_length 4).
    exact (pack_unpack_sint 4 _ _ eq_refl Hx).
  - fixed_encode H (unpack_sint 8) 8%nat PyInt (unpack_sint_ok_length 8).
    exact (pack_unpack_sint 8 _ _ eq_refl Hx).
  - fixed_encode H (unpack_uint 1) 1%nat PyInt (unpack_uint_length 1).
    exact (pack_unpack_uint 1 _ _ Hx).
  - fixed_encode H (unpack_uint 2) 2%nat PyInt (unpack_uint_length 2).
    exact (pack_unpack_uint 2 _ _ Hx).
  - fixed_encode H (unpack_uint 4) 4%nat PyInt (unpack_uint_length 4).
    exact (pack_unpack_uint 4 _ _ Hx).
  - fixed_encode H (unpack_uint 8) 8%nat PyInt (unpack_uint_length 8).
    exact (pack_unpack_uint 8 _ _ Hx).
  - change (decode_sensor_value data DataType.STRING)
      with (length <- unpack_uint 2 (slice data 0 2) ;;
            s <- utf8_decode (slice data 2 (2 + Z.to_nat length)) ;;
            Ok (PyStr s, 2 + length)) in H.
    destruct (unpack_uint 2 (slice data 0 2)) as [L | e] eqn:EL; [| discriminate].
    cbn [bind] in H.
    destruct (utf8_decode (slice data 2 (2 + Z.to_nat L))) as [s | e] eqn:Es; [| discriminate].
    cbn [bind] in H.
    assert (Hv : v = PyStr s) by congruence. assert (Hw : w = 2 + L) by congruence.
    subst v w. clear H.
    destruct (prefixed_reader data L EL) as (H2 & HL & _ & Hp & _ & _ & Hlen).
    apply utf8_encode_decoded in Es.
    change (encode (PyStr s) DataType.STRING)
      with (encoded <- utf8_encode s ;; l <- pack_uint 2 (len encoded) ;; Ok (l ++ encoded)).
    rewrite Es. cbn [bind]. rewrite Hlen.
    split; [| split].
    + intros _ Hw. rewrite Z.min_l by lia. rewrite Hp. cbn [bind]. f_equal.
      replace (Z.to_nat (2 + L)) with (2 + Z.to_nat L)%nat by lia.
      apply firstn_then_slice. lia.
    + intros E. vm_compute in E. discriminate.
    + intros Hw. rewrite Z.min_r by lia.
      rewrite pack_uint_in_range
        by (change (256 ^ Z.of_nat 2) with (2 ^ 16); unfold len in *; lia).
      cbn [bind]. f_equal. f_equal. apply slice_beyond. unfold len in Hw. lia.
  - change (decode_sensor_value data DataType.BYTES)
      with (length <- unpack_uint 2 (slice data 0 2) ;;
            Ok (PyBytes (slice data 2 (2 + Z.to_nat length)), 2 + length)) in H.
    destruct (unpack_uint 2 (slice data 0 2)) as [L | e] eqn:EL; [| discriminate].
    cbn [bind] in H.
    assert (Hv : v = PyBytes (slice data 2 (2 + Z.to_nat L))) by congruence.
    assert (Hw : w = 2 + L) by congruence. subst v w. clear H.
    destruct (prefixed_reader data L EL) as (H2 & HL & _ & Hp & _ & _ & Hlen).
    change (encode (PyBytes (slice data 2 (2 + Z.to_nat L))) DataType.BYTES)
      with (l <- pack_uint 2 (len (slice data 2 (2 + Z.to_nat L))) ;;
            Ok (l ++ slice data 2 (2 + Z.to_nat L))).
    rewrite Hlen.
    split; [| split].
    + intros _ Hw. rewrite Z.min_l by lia. rewrite Hp. cbn [bind]. f_equal.
      replace (Z.to_nat (2 + L)) with (2 + Z.to_nat L)%nat by lia.
      apply firstn_then_slice. lia.
    + intros E. vm_compute in E. discriminate.
    + intros Hw. rewrite Z.min_r by lia.
      rewrite pack_uint_in_range
        by (change (256 ^ Z.of_nat 2) with (2 ^ 16); unfold len in *; lia).
      cbn [bind]. f_equal. f_equal. apply slice_beyond. unfold len in Hw. lia.
  - destruct (fixed_reader unpack_bool 1%nat PyBool _ _ _ unpack_bool_ok_length ltac:(lia) H)
      as (x & Hx & -> & -> & Hl).
    split; [intros E; now elim E |]. split; [| unfold len; lia].
    intros _. exists x. split; [reflexivity |]. split; [reflexivity |].
    destruct (firstn 1 data) as [| b0 [| b1 rest]]; try discriminate.
    cbn [unpack_bool] in Hx. apply Ok_inj in Hx. subst x.
    destruct (Byte.eqb b0 x00) eqn:E0; cbn [negb]; split; intros E;
      try discriminate; try reflexivity.
    + apply Byte.byte_dec_bl in E0. now subst b0.
    + injection E as ->. vm_compute in E0. discriminate.
Qed.

End ScalarDecoding.

Lemma decode_reads_a_prefix_witness :
  decode_sensor_value [x00; x05; x68; x69] DataType.BYTES = Ok (PyBytes [x68; x69], 7)
  /\ decode_sensor_value (firstn 7 [x00; x05; x68; x69]) DataType.BYTES
     = Ok (PyBytes [x68; x69], 7)
  /\ content_length (PyBytes [x68; x69]) = Z.min (7 - 2) (len [x00; x05; x68; x69] - 2).
Proof.
  assert (H : decode_sensor_value [x00; x05; x68; x69] DataType.BYTES
              = Ok (PyBytes [x68; x69], 7)) by reflexivity.
  destruct (decode_reads_a_prefix ScalarExamples.no_text ScalarExamples.no_text
              ScalarExamples.no_str _ _ _ _ H) as (_ & Hcut & _ & [[Hf _] | (_ & _ & _ & _ & Hc)]).
  - discriminate Hf.
  - split; [exact H |]. split; [exact Hcut | exact Hc].
Defined.

Lemma decode_then_encode_witness :
  decode_sensor_value [xfc; x18; x07] DataType.INT16 = Ok (PyInt (-1000), 2)
  /\ ScalarExamples.encode (PyInt (-1000)) DataType.INT16 = Ok [xfc; x18].
Proof.
  assert (H : decode_sensor_value [xfc; x18; x07] DataType.INT16 = Ok (PyInt (-1000), 2))
    by reflexivity.
  destruct (decode_then_encode ScalarExamples.no_text ScalarExamples.no_text
              ScalarExamples.no_str _ _ _ _ H ltac:(discriminate)) as (He & _ & _).
  split; [exact H |]. apply He; [discriminate | vm_compute; discriminate].
Defined.

(** ** Readings off the wire *)

Lemma slice_of_enough {A} (l : list A) (n : nat) :
  (n <= length l)%nat -> length (slice l 0 n) = n.
Proof. intros H. rewrite slice_0, length_firstn. lia. Qed.

(** The fields of the 21 bytes of a reading. *)
Lemma reading_fields (data : list byte) :
  21 <= len data ->
  exists v ms depth,
    unpack_d (slice data 0 8) = Ok v /\ valid_float v
    /\ float_of_int (be_value (slice data 8 16)) = Ok ms
    /\ unpack_f (slice data 17 21) = Ok depth /\ valid_float depth
    /\ 0 <= be_value (slice data 16 17) < 256.
Proof.
  unfold len. intros H.
  assert (H8 : length (slice data 0 8) = 8%nat) by (rewrite slice_length; lia).
  assert (H16 : length (slice data 8 16) = 8%nat) by (rewrite slice_length; lia).
  assert (H17 : length (slice data 16 17) = 1%nat) by (rewrite slice_length; lia).
  assert (H21 : length (slice data 17 21) = 4%nat) by (rewrite slice_length; lia).
  destruct (float_of_int_u64 (be_value (slice data 8 16))) as [ms Hms].
  { pose proof (be_value_range (slice data 8 16)) as R. rewrite H16 in R. exact R. }
  assert (Hv : unpack_d (slice data 0 8) = Ok (float_of_bits 52 11 (be_value (slice data 0 8))))
    by (unfold unpack_d; now rewrite H8).
  assert (Hd : unpack_f (slice data 17 21)
               = Ok (of_single (float_of_bits 23 8 (be_value (slice data 17 21)))))
    by (unfold unpack_f; now rewrite H21).
  eexists _, ms, _. split; [exact Hv |]. split; [exact (unpack_d_valid _ _ Hv) |].
  split; [exact Hms |]. split; [exact Hd |]. split; [exact (unpack_f_valid _ _ Hd) |].
  pose proof (be_value_range (slice data 16 17)) as R. rewrite H17 in R. exact R.
Qed.

(** X13. Decoding a reading fails with [struct.error] exactly on fewer than
    21 bytes and with "Quality must be between 0 and 100" exactly when there
    are 21 and the byte at index 16 is above 100; it fails in no other way.
    Otherwise the reading has the float of the first eight bytes as its
    value, the millisecond count of the next eight, divided by 1000, as its
    timestamp, the byte at index 16 as its quality, the unit it was given,
    no sensor id, and the single precision number of the last four bytes as
    its depth unless that compares below zero or is a NaN, when it has none.
    Bytes after the 21st are not looked at. What comes out is a well-formed
    reading. *)
Theorem reading_from_bytes_cases now (data : list byte) (unit : SensorUnit.t) :
  (len data < 21 -> SensorReading.from_bytes now data unit = Raise StructError)
  /\ (21 <= len data ->
      exists v ms depth,
        unpack_d (slice data 0 8) = Ok v
        /\ float_of_int (be_value (slice data 8 16)) = Ok ms
        /\ unpack_f (slice data 17 21) = Ok depth
        /\ SensorReading.from_bytes now data unit
           = if be_value (slice data 16 17) <=? 100 then
               Ok (SensorReading.mk (PyFloat v) unit (fdiv ms (float_lit 1000))
                     (be_value (slice data 16 17)) None
                     (if fle (float_lit 0) depth then Some depth else None))
             else Raise QualityOutOfRange)
  /\ (21 <= len data ->
      forall rest, SensorReading.from_bytes now (data ++ rest) unit
                   = SensorReading.from_bytes now data unit)
  /\ (forall r, SensorReading.from_bytes now data unit = Ok r ->
        21 <= len data /\ well_formed r
        /\ SensorReading.sensor_id r = None /\ SensorReading.unit r = unit
        /\ (forall d, SensorReading.depth_m r = Some d -> fle (float_lit 0) d = true)).
Proof.
  assert (Hshort : len data < 21 -> SensorReading.from_bytes now data unit = Raise StructError).
  { unfold len. intros H. unfold SensorReading.from_bytes. cbv zeta.
    rewrite slice_0, length_firstn.
    destruct (Nat.eqb_spec (Nat.min 21 (length data)) 21) as [E | E]; [lia | reflexivity]. }
  assert (Hlong : 21 <= len data ->
            exists v ms depth,
              unpack_d (slice data 0 8) = Ok v /\ valid_float v
              /\ float_of_int (be_value (slice data 8 16)) = Ok ms
              /\ unpack_f (slice data 17 21) = Ok depth /\ valid_float depth
              /\ 0 <= be_value (slice data 16 17) < 256
              /\ SensorReading.from_bytes now data unit
                 = if be_value (slice data 16 17) <=? 100 then
                     Ok (SensorReading.mk (PyFloat v) unit (fdiv ms (float_lit 1000))
                           (be_value (slice data 16 17)) None
                           (if fle (float_lit 0) depth then Some depth else None))
                   else Raise QualityOutOfRange).
  { intros H. destruct (reading_fields data H) as (v & ms & depth & Hv & Hvv & Hms & Hd & Hvd & Hq).
    exists v, ms, depth. repeat (split; [assumption |]).
    unfold SensorReading.from_bytes. cbv zeta.
    rewrite slice_of_enough by (unfold len in H; lia). cbn [Nat.eqb negb].
    rewrite !slice_slice_0 by lia. rewrite Hv. cbn [bind]. rewrite Hd. cbn [bind].
    rewrite Hms. cbn [bind]. unfold SensorReading.init.
    assert (E0 : (0 <=? be_value (slice data 16 17)) = true) by (apply Z.leb_le; lia).
    rewrite E0. cbn [andb].
    destruct (be_value (slice data 16 17) <=? 100); reflexivity. }
  split; [exact Hshort |]. split; [| split].
  - intros H. destruct (Hlong H) as (v & ms & depth & Hv & _ & Hms & Hd & _ & _ & Hr).
    exists v, ms, depth. auto.
  - intros H rest.
    assert (H' : 21 <= len (data ++ rest)) by (rewrite len_app; pose proof (len_nonneg rest); lia).
    destruct (Hlong H) as (v & ms & depth & Hv & _ & Hms & Hd & _ & _ & ->).
    unfold SensorReading.from_bytes. cbv zeta.
    rewrite (slice_app_left data rest 0 21) by (unfold len in H; lia).
    rewrite slice_of_enough by (unfold len in H; lia). cbn [Nat.eqb negb].
    rewrite !slice_slice_0 by lia. rewrite Hv. cbn [bind]. rewrite Hd. cbn [bind].
    rewrite Hms. cbn [bind]. unfold SensorReading.init.
    destruct (reading_fields data H) as (_ & _ & _ & _ & _ & _ & _ & _ & Hq).
    assert (E0 : (0 <=? be_value (slice data 16 17)) = true) by (apply Z.leb_le; lia).
    rewrite E0. cbn [andb].
    destruct (be_value (slice data 16 17) <=? 100); reflexivity.
  - intros r Hr.
    destruct (Z_lt_le_dec (len data) 21) as [H | H];
      [rewrite (Hshort H) in Hr; discriminate |].
    split; [exact H |].
    destruct (Hlong H) as (v & ms & depth & Hv & Hvv & Hms & Hd & Hvd & Hq & E).
    rewrite E in Hr.
    destruct (Z.leb_spec (be_value (slice data 16 17)) 100) as [Hle | Hgt]; [| discriminate].
    apply Ok_inj in Hr. subst r. unfold well_formed.
    cbn [SensorReading.quality SensorReading.value SensorReading.depth_m
         SensorReading.sensor_id SensorReading.unit].
    split; [| split; [reflexivity | split; [reflexivity |]]].
    + split; [lia |]. split.
      * intros x Hx. injection Hx as <-. exact Hvv.
      * intros d. destruct (fle (float_lit 0) depth); [| discriminate].
        intros Hx. injection Hx as <-. exact Hvd.
    + intros d. destruct (fle (float_lit 0) depth) eqn:Ef; [| discriminate].
      intros Hx. injection Hx as <-. exact Ef.
Qed.

Lemma reading_from_bytes_cases_witness :
  SensorReading.from_bytes (float_lit 0) (repeat x00 16 ++ [xc8] ++ repeat x00 4)
                           SensorUnit.CELSIUS
  = Raise QualityOutOfRange.
Proof.
  destruct (reading_from_bytes_cases (float_lit 0) (repeat x00 16 ++ [xc8] ++ repeat x00 4)
              SensorUnit.CELSIUS) as (_ & H & _).
  destruct (H ltac:(vm_compute; discriminate)) as (v & ms & depth & _ & _ & _ & E).
  exact E.
Defined.

Lemma as_double_raises (v : PyValue) (e : PyError) : as_double v = Raise e -> e = StructError.
Proof.
  destruct v as [f | z | b | s | b |]; cbn [as_double]; try congruence.
  destruct (float_of_int z); congruence.
Qed.

Lemma to_single_raises (f : float) (e : PyError) : to_single f = Raise e -> e = OverflowError.
Proof.
  destruct f as [s | s | | s m x]; cbn [to_single]; try discriminate.
  destruct (binary_round prec32 emax32 s m x); congruence.
Qed.

Lemma timestamp_ms_errors (ts : float) (e : PyError) :
  BristlemouthMessage.timestamp_ms ts = Raise e -> e = FloatNaNToInt \/ e = OverflowError.
Proof.
  unfold BristlemouthMessage.timestamp_ms, int_of_float.
  destruct (fmul ts _); intros H; inversion H; auto.
Qed.

Lemma pack_f_raises (f : float) (e : PyError) : pack_f f = Raise e -> e = OverflowError.
Proof.
  unfold pack_f. intros H. apply bind_raise in H as [H | (s & _ & H)]; [| discriminate].
  now apply to_single_raises in H.
Qed.

Lemma reading_to_bytes_raises (r : SensorReading.t) (e : PyError) :
  SensorReading.to_bytes r = Raise e ->
  e = StructError \/ e = OverflowError \/ e = FloatNaNToInt.
Proof.
  intros H. unfold SensorReading.to_bytes in H.
  apply bind_raise in H as [H | (ms & _ & H)]; [apply timestamp_ms_errors in H; tauto |].
  apply bind_raise in H as [H | (v & _ & H)]; [apply as_double_raises in H; tauto |].
  apply bind_raise in H as [H | (t & _ & H)]; [apply pack_uint_raises in H; tauto |].
  apply bind_raise in H as [H | (q & _ & H)]; [apply pack_uint_raises in H; tauto |].
  apply bind_raise in H as [H | (d & _ & H)]; [| discriminate].
  apply pack_f_raises in H. tauto.
Qed.

(** X14. A reading encodes exactly when its timestamp, times 1000 and cut
    to an integer, is a count of milliseconds from 0 to [2 ^ 64 - 1], its
    value is one [struct] takes for a double, its quality fits one byte and
    its depth, or -1.0 in its place, is within the single precision range.
    The encoding then has 21 bytes: the double, the eight bytes of the
    count, the quality byte and the four bytes of the depth. A failure is a
    [struct.error], an [OverflowError] or the [ValueError] of converting a
    NaN to an integer: none of the format, integrity or validation errors. *)
Theorem reading_encodes_iff (r : SensorReading.t) :
  ((exists bs, SensorReading.to_bytes r = Ok bs) <->
   (exists ms, BristlemouthMessage.timestamp_ms (SensorReading.timestamp r) = Ok ms
               /\ 0 <= ms < 2 ^ 64)
   /\ (exists v, as_double (SensorReading.value r) = Ok v)
   /\ 0 <= SensorReading.quality r < 256
   /\ (exists single, to_single (packed_depth r) = Ok single))
  /\ (forall bs, SensorReading.to_bytes r = Ok bs ->
        exists ms v single,
          BristlemouthMessage.timestamp_ms (SensorReading.timestamp r) = Ok ms
          /\ as_double (SensorReading.value r) = Ok v
          /\ to_single (packed_depth r) = Ok single
          /\ bs = pack_d v ++ be_bytes 8 ms ++ [byte_of_Z (SensorReading.quality r)]
                  ++ be_bytes 4 (bits_of_float 23 8 single)
          /\ length bs = 21%nat)
  /\ (forall e, SensorReading.to_bytes r = Raise e ->
        (e = StructError \/ e = OverflowError \/ e = FloatNaNToInt)
        /\ error_kind e = None).
Proof.
  assert (Hok : forall bs, SensorReading.to_bytes r = Ok bs ->
            exists ms v single,
              BristlemouthMessage.timestamp_ms (SensorReading.timestamp r) = Ok ms
              /\ as_double (SensorReading.value r) = Ok v
              /\ to_single (packed_depth r) = Ok single
              /\ bs = pack_d v ++ be_bytes 8 ms ++ [byte_of_Z (SensorReading.quality r)]
                      ++ be_bytes 4 (bits_of_float 23 8 single)
              /\ length bs = 21%nat
              /\ 0 <= ms < 2 ^ 64 /\ 0 <= SensorReading.quality r < 256).
  { intros bs H. unfold SensorReading.to_bytes in H. fold (packed_depth r) in H.
    apply bind_ok in H as (ms & Hms & H). apply bind_ok in H as (v & Hv & H).
    apply bind_ok in H as (t & Ht & H). apply bind_ok in H as (q & Hq & H).
    apply bind_ok in H as (d & Hd & H). apply Ok_inj in H. subst bs.
    apply pack_uint_ok in Ht as (-> & Ht & _). apply pack_uint_ok in Hq as (-> & Hq & _).
    unfold pack_f in Hd. apply bind_ok in Hd as (single & Hs & Hd). apply Ok_inj in Hd.
    subst d. exists ms, v, single.
    change (256 ^ Z.of_nat 8) with (2 ^ 64) in Ht. change (256 ^ Z.of_nat 1) with 256 in Hq.
    repeat (split; [assumption |]). split; [| split; [| split; assumption]].
    - do 2 f_equal. cbn [be_bytes]. change (256 ^ Z.of_nat 0) with 1.
      now rewrite Z.div_1_r.
    - rewrite !length_app, pack_d_length, !be_bytes_length. reflexivity. }
  split; [| split].
  - split.
    + intros [bs H]. destruct (Hok bs H) as (ms & v & single & Hms & Hv & Hs & _ & _ & Ht & Hq).
      eauto 10.
    + intros ((ms & Hms & Ht) & (v & Hv) & Hq & (single & Hs)).
      unfold SensorReading.to_bytes. fold (packed_depth r).
      rewrite Hms, Hv. cbn [bind].
      rewrite (pack_uint_in_range 8 ms) by (change (256 ^ Z.of_nat 8) with (2 ^ 64); lia).
      rewrite (pack_uint_in_range 1 _) by (change (256 ^ Z.of_nat 1) with 256; lia).
      unfold pack_f. rewrite Hs. cbn [bind]. eauto.
  - intros bs H. destruct (Hok bs H) as (ms & v & single & Hms & Hv & Hs & Hbs & Hl & _).
    exists ms, v, single. auto.
  - intros e H.
    pose proof (reading_to_bytes_raises r e H) as He.
    split; [exact He |]. destruct He as [-> | [-> | ->]]; reflexivity.
Qed.

Lemma reading_encodes_iff_witness :
  exists bs, SensorReading.to_bytes ReadingExamples.submerged = Ok bs /\ length bs = 21%nat.
Proof.
  destruct (reading_encodes_iff ReadingExamples.submerged) as (_ & H & _).
  destruct (SensorReading.to_bytes ReadingExamples.submerged) as [bs | e] eqn:E;
    [| vm_compute in E; discriminate].
  exists bs. split; [reflexivity |].
  destruct (H bs eq_refl) as (ms & v & single & _ & _ & _ & _ & Hl). exact Hl.
Defined.

(** ** Sensors and their messages *)

Lemma reading_bytes_length (r : SensorReading.t) (bs : list byte) :
  SensorReading.to_bytes r = Ok bs -> len bs = 21.
Proof.
  intros H. destruct (reading_to_bytes_ok r bs H) as (ms & v & d & _ & _ & Hd & _ & _ & ->).
  unfold pack_f in Hd. apply bind_ok in Hd as (single & _ & Hd). apply Ok_inj in Hd. subst d.
  unfold len. rewrite !length_app, pack_d_length, !be_bytes_length. reflexivity.
Qed.

Lemma pack_f_ok_length (f : float) (bs : list byte) : pack_f f = Ok bs -> len bs = 4.
Proof.
  unfold pack_f. intros H. apply bind_ok in H as (single & _ & H). apply Ok_inj in H.
  subst bs. unfold len. now rewrite be_bytes_length.
Qed.

Lemma init_small_payload now topic payload mt v sq ts src :
  len payload <= MAX_PAYLOAD_SIZE ->
  BristlemouthMessage.init now topic payload mt v sq (Some ts) src
  = Ok (BristlemouthMessage.mk topic payload mt v sq ts src).
Proof.
  intros H. unfold BristlemouthMessage.init.
  destruct (Z.ltb_spec MAX_PAYLOAD_SIZE (len payload)) as [Hgt | Hle]; [lia | reflexivity].
Qed.

(** [wrap_reading] by cases. *)
Lemma wrap_reading_outcome now (s : Sensor.t) (r : SensorReading.t) :
  (exists e, SensorReading.to_bytes r = Raise e
             /\ Sensor.wrap_reading now s r = (Raise e, s))
  \/ (exists payload,
        SensorReading.to_bytes r = Ok payload /\ len payload = 21
        /\ Sensor.wrap_reading now s r
           = (Ok (wrapped s r payload),
              Sensor.set_sequence_number s (Sensor._sequence_number s + 1))).
Proof.
  unfold Sensor.wrap_reading.
  destruct (SensorReading.to_bytes r) as [payload | e] eqn:E; [right | left; eauto].
  pose proof (reading_bytes_length r payload E) as Hl.
  exists payload. split; [reflexivity |]. split; [exact Hl |]. cbv zeta.
  rewrite init_small_payload by (rewrite Hl; vm_compute; discriminate). reflexivity.
Qed.

(** [wrap_current_reading] by cases. *)
Lemma wrap_current_reading_outcome now (s : Sensor.t) (r : SensorReading.t)
    (direction_deg : float) :
  (exists e, (SensorReading.to_bytes r = Raise e
              \/ (exists payload, SensorReading.to_bytes r = Ok payload)
                 /\ pack_f direction_deg = Raise e)
             /\ Sensor.wrap_current_reading now s r direction_deg = (Raise e, s))
  \/ (exists payload d4,
        SensorReading.to_bytes r = Ok payload /\ pack_f direction_deg = Ok d4
        /\ len (payload ++ d4) = 25
        /\ Sensor.wrap_current_reading now s r direction_deg
           = (Ok (wrapped s r (payload ++ d4)),
              Sensor.set_sequence_number s (Sensor._sequence_number s + 1))).
Proof.
  unfold Sensor.wrap_current_reading.
  destruct (SensorReading.to_bytes r) as [payload | e] eqn:E; cbn [bind];
    [| left; exists e; split; [now left | reflexivity]].
  destruct (pack_f direction_deg) as [d4 | e] eqn:Ed; cbn [bind];
    [| left; exists e; split; [right; eauto | reflexivity]].
  right. exists payload, d4.
  assert (Hl : len (payload ++ d4) = 25).
  { rewrite len_app, (reading_bytes_length r payload E), (pack_f_ok_length _ _ Ed).
    reflexivity. }
  split; [reflexivity |]. split; [reflexivity |]. split; [exact Hl |]. cbv zeta.
  rewrite init_small_payload by (rewrite Hl; vm_compute; discriminate). reflexivity.
Qed.

(** A message whose topic encodes and whose numbers fit is written. *)
Lemma message_encodes (m : BristlemouthMessage.t) (tb : list byte) (ms : Z) :
  BristlemouthTopic.to_bytes (BristlemouthMessage.topic m) = Ok tb -> len tb < 65536 ->
  BristlemouthMessage.timestamp_ms (BristlemouthMessage.timestamp m) = Ok ms ->
  0 <= ms < 2 ^ 64 ->
  0 <= BristlemouthMessage.version m < 256 ->
  0 <= BristlemouthMessage.sequence_number m < 2 ^ 32 ->
  len (BristlemouthMessage.payload m) < 65536 ->
  exists bs, BristlemouthMessage.to_bytes m = Ok bs
             /\ len bs = 30 + len tb + len (BristlemouthMessage.payload m).
Proof.
  intros Htb Htl Hms Hm Hv Hs Hpl.
  pose proof (len_nonneg tb) as Hn0.
  pose proof (len_nonneg (BristlemouthMessage.payload m)) as Hp0.
  pose proof (MessageType_value_range (BristlemouthMessage.message_type m)) as Hty.
  assert (Hpack : BristlemouthMessage._pack_without_checksum m
                  = Ok (header_of m ms ++ be_bytes 2 (len tb) ++ tb
                        ++ be_bytes 2 (len (BristlemouthMessage.payload m))
                        ++ BristlemouthMessage.payload m)).
  { unfold BristlemouthMessage._pack_without_checksum. rewrite Htb. cbn [bind].
    rewrite Hms. cbn [bind].
    rewrite (pack_uint_in_range 1 BCMP_HEADER_MAGIC) by (vm_compute; split; congruence).
    rewrite (pack_uint_in_range 1 (BristlemouthMessage.version m))
      by (change (256 ^ Z.of_nat 1) with 256; lia).
    rewrite (pack_uint_in_range 2 (MessageType.value (BristlemouthMessage.message_type m)))
      by (change (256 ^ Z.of_nat 2) with 65536; lia).
    rewrite (pack_uint_in_range 4 (BristlemouthMessage.sequence_number m))
      by (change (256 ^ Z.of_nat 4) with (2 ^ 32); lia).
    rewrite (pack_uint_in_range 8 ms) by (change (256 ^ Z.of_nat 8) with (2 ^ 64); lia).
    cbn [bind].
    rewrite (pack_uint_in_range 2 (len tb)) by (change (256 ^ Z.of_nat 2) with 65536; lia).
    rewrite (pack_uint_in_range 2 (len (BristlemouthMessage.payload m)))
      by (change (256 ^ Z.of_nat 2) with 65536; lia).
    cbn [bind]. unfold header_of, source_id_of. rewrite <- !app_assoc. reflexivity. }
  eexists. unfold BristlemouthMessage.to_bytes, BristlemouthMessage.calculate_checksum.
  rewrite Hpack. cbn [bind]. split; [reflexivity |].
  unfold len in *.
  rewrite !length_app, length_firstn, md5_length, header_of_length, !be_bytes_length. lia.
Qed.

(** X15. [wrap_reading] fails exactly when the reading does not encode,
    with the encoder's error (never a validation error) and without touching
    the sensor: a failed call consumes no sequence number. Otherwise it
    advances the counter by one and returns a sensor-data message with the
    sensor's topic, the new count as sequence number, the reading's
    timestamp, no source id and the 21 bytes of the reading as payload. The
    reading need not be one of the sensor's. This message encodes exactly
    when the sensor's topic does and the new count is below [2 ^ 32]: the
    counter itself is not bounded. [wrap_current_reading] does the same with
    the four bytes of the direction appended, and fails also, again without
    a trace, when the direction is beyond the single precision range. *)
Theorem wrap_reading_numbers_messages now (s : Sensor.t) (r : SensorReading.t) :
  (forall e, SensorReading.to_bytes r = Raise e ->
     Sensor.wrap_reading now s r = (Raise e, s) /\ error_kind e = None)
  /\ (forall payload, SensorReading.to_bytes r = Ok payload ->
        len payload = 21
        /\ Sensor.wrap_reading now s r
           = (Ok (wrapped s r payload),
              Sensor.set_sequence_number s (Sensor._sequence_number s + 1))
        /\ ((exists bs, BristlemouthMessage.to_bytes (wrapped s r payload) = Ok bs)
            <-> (exists tb, BristlemouthTopic.to_bytes (Sensor.topic s) = Ok tb
                            /\ len tb < 65536)
                /\ 0 <= Sensor._sequence_number s + 1 < 2 ^ 32)
        /\ (forall direction_deg d4, pack_f direction_deg = Ok d4 ->
              len (payload ++ d4) = 25
              /\ Sensor.wrap_current_reading now s r direction_deg
                 = (Ok (wrapped s r (payload ++ d4)),
                    Sensor.set_sequence_number s (Sensor._sequence_number s + 1)))
        /\ (forall direction_deg e, pack_f direction_deg = Raise e ->
              e = OverflowError
              /\ Sensor.wrap_current_reading now s r direction_deg = (Raise e, s))).
Proof.
  split.
  - intros e He. split.
    + destruct (wrap_reading_outcome now s r) as [(e' & He' & ->) | (p & Hp & _)];
        congruence.
    + destruct (reading_to_bytes_raises r e He) as [-> | [-> | ->]]; reflexivity.
  - intros payload Hp.
    pose proof (reading_bytes_length r payload Hp) as Hl.
    split; [exact Hl |]. split; [| split; [| split]].
    + destruct (wrap_reading_outcome now s r) as [(e' & He' & _) | (p & Hp' & _ & ->)];
        congruence.
    + split.
      * intros [bs H]. apply to_bytes_ok in H as (data & cs & Hpack & _).
        apply pack_without_checksum_ok in Hpack
          as (tb & ms & Htb & _ & _ & Hs & _ & Htl & _).
        cbn [wrapped BristlemouthMessage.topic BristlemouthMessage.sequence_number] in *.
        split; [exists tb; split; assumption | exact Hs].
      * intros [(tb & Htb & Htl) Hs].
        destruct (reading_to_bytes_ok r payload Hp) as (ms & _ & _ & Hms & _ & _ & Hm & _).
        destruct (message_encodes (wrapped s r payload) tb ms) as (bs & Hbs & _);
          try assumption; [vm_compute; split; congruence | | eauto].
        cbn [wrapped BristlemouthMessage.payload]. lia.
    + intros direction_deg d4 Hd.
      destruct (wrap_current_reading_outcome now s r direction_deg)
        as [(e' & [He' | [_ He']] & _) | (p & d & Hp' & Hd' & Hl' & ->)]; try congruence.
      assert (p = payload) by congruence. assert (d = d4) by congruence. subst p d.
      split; [exact Hl' | reflexivity].
    + intros direction_deg e He. split; [exact (pack_f_raises _ _ He) |].
      destruct (wrap_current_reading_outcome now s r direction_deg)
        as [(e' & [He' | [_ He']] & ->) | (p & d & _ & Hd' & _)]; congruence.
Qed.

Lemma wrap_reading_numbers_messages_witness :
  exists payload,
    SensorReading.to_bytes ReadingExamples.submerged = Ok payload
    /\ Sensor.wrap_reading (float_lit 0)
         (Sensor.set_sequence_number SensorExamples.thermometer (2 ^ 32 - 1))
         ReadingExamples.submerged
       = (Ok (wrapped (Sensor.set_sequence_number SensorExamples.thermometer (2 ^ 32 - 1))
                      ReadingExamples.submerged payload),
          Sensor.set_sequence_number SensorExamples.thermometer (2 ^ 32))
    /\ ~ exists bs,
           BristlemouthMessage.to_bytes
             (wrapped (Sensor.set_sequence_number SensorExamples.thermometer (2 ^ 32 - 1))
                      ReadingExamples.submerged payload) = Ok bs.
Proof.
  destruct (SensorReading.to_bytes ReadingExamples.submerged) as [payload | e] eqn:E;
    [| vm_compute in E; discriminate].
  exists payload. split; [reflexivity |].
  destruct (wrap_reading_numbers_messages (float_lit 0)
              (Sensor.set_sequence_number SensorExamples.thermometer (2 ^ 32 - 1))
              ReadingExamples.submerged) as (_ & H).
  destruct (H payload E) as (_ & Hw & Henc & _).
  split; [exact Hw |]. intros Hbs. apply Henc in Hbs as [_ Hs].
  cbn [Sensor._sequence_number Sensor.set_sequence_number] in Hs. lia.
Defined.

(** X16. [create_and_wrap] is not one step. It fails with a validation
    error exactly as [create_reading] does, and then leaves the sensor as it
    was. It fails with any other error when the reading was created and
    logged but does not encode (a timestamp before 1970 or not a number, a
    depth beyond the single precision range, an integer value too large for
    a float): the reading then stays in the log although the call raised,
    and no sequence number is consumed. When it returns, the log has grown
    by the reading, the counter by one, and the message carries the new
    count, the reading's timestamp and the reading's 21 bytes. *)
Theorem create_and_wrap_is_two_steps now (s : Sensor.t) (value : PyValue)
    (unit : option SensorUnit.t) (timestamp : option float) (quality : Z)
    (depth_m : option float) :
  let out := Sensor.create_and_wrap now s value unit timestamp quality depth_m in
  let created := Sensor.create_reading now s value unit timestamp quality depth_m in
  (forall e, fst created = Raise e ->
     out = (Raise e, s) /\ error_kind e = Some ValidationError)
  /\ (forall r, fst created = Ok r ->
        let logged := Sensor.set_readings s (Sensor._readings s ++ [r]) in
        snd created = logged
        /\ (forall e, SensorReading.to_bytes r = Raise e ->
              out = (Raise e, logged) /\ error_kind e = None)
        /\ (forall payload, SensorReading.to_bytes r = Ok payload ->
              out = (Ok (wrapped s r payload),
                     Sensor.set_sequence_number logged (Sensor._sequence_number s + 1))))
  /\ (forall e, fst out = Raise e ->
        (error_kind e = Some ValidationError /\ snd out = s)
        \/ (error_kind e = None
            /\ Sensor._sequence_number (snd out) = Sensor._sequence_number s
            /\ exists r, Sensor._readings (snd out) = Sensor._readings s ++ [r])).
Proof.
  intros out created.
  assert (Hfail : forall e, fst created = Raise e ->
            out = (Raise e, s) /\ error_kind e = Some ValidationError).
  { intros e He. subst out created. unfold Sensor.create_and_wrap.
    pose proof (create_reading_cases now s value unit timestamp quality depth_m) as Hc.
    cbv zeta in Hc. rewrite Hc in He |- *.
    destruct (negb (is_numeric value) || num_lt value (Sensor.min_value s)
              || num_gt value (Sensor.max_value s)).
    - cbn [fst] in He. injection He as <-. split; reflexivity.
    - destruct ((0 <=? quality) && (quality <=? 100)); [discriminate |].
      cbn [fst] in He. injection He as <-. split; reflexivity. }
  assert (Hok : forall r, fst created = Ok r ->
            snd created = Sensor.set_readings s (Sensor._readings s ++ [r])
            /\ out = Sensor.wrap_reading now
                       (Sensor.set_readings s (Sensor._readings s ++ [r])) r).
  { intros r Hr. subst out created. unfold Sensor.create_and_wrap.
    pose proof (create_reading_cases now s value unit timestamp quality depth_m) as Hc.
    cbv zeta in Hc. rewrite Hc in Hr |- *.
    destruct (negb (is_numeric value) || num_lt value (Sensor.min_value s)
              || num_gt value (Sensor.max_value s)); [discriminate |].
    destruct ((0 <=? quality) && (quality <=? 100)); [| discriminate].
    cbn [fst] in Hr. injection Hr as <-. split; reflexivity. }
  split; [exact Hfail |]. split.
  - intros r Hr logged. destruct (Hok r Hr) as [Hs Hout]. fold logged in Hs, Hout.
    split; [exact Hs |]. split.
    + intros e He. rewrite Hout.
      destruct (wrap_reading_outcome now logged r) as [(e' & He' & ->) | (p & Hp & _)];
        [| congruence].
      assert (e' = e) by congruence. subst e'. split; [reflexivity |].
      destruct (reading_to_bytes_raises r e He) as [-> | [-> | ->]]; reflexivity.
    + intros payload Hp. rewrite Hout.
      destruct (wrap_reading_outcome now logged r) as [(e' & He' & _) | (p & Hp' & _ & ->)];
        [congruence |].
      assert (p = payload) by congruence. subst p. reflexivity.
  - intros e He. destruct (fst created) as [r | e'] eqn:Ec.
    + right. destruct (Hok r eq_refl) as [_ Hout].
      set (logged := Sensor.set_readings s (Sensor._readings s ++ [r])) in *.
      destruct (wrap_reading_outcome now logged r) as [(e' & He' & Hw) | (p & _ & _ & Hw)];
        rewrite Hw in Hout; rewrite Hout in He |- *; cbn [fst snd] in *; [| discriminate].
      injection He as ->. split; [| split; [reflexivity | now exists r]].
      destruct (reading_to_bytes_raises r e He') as [-> | [-> | ->]]; reflexivity.
    + left. destruct (Hfail e' eq_refl) as [Hout Hk]. rewrite Hout in He |- *.
      cbn [fst snd] in *. injection He as <-. split; [exact Hk | reflexivity].
Qed.

Lemma create_and_wrap_is_two_steps_witness :
  exists r,
    Sensor.create_and_wrap (float_lit 0) SensorExamples.thermometer SensorExamples.warm None
      (Some SensorExamples.t0) 95 (Some (float_lit (10 ^ 39)))
    = (Raise OverflowError, Sensor.set_readings SensorExamples.thermometer [r]).
Proof.
  pose proof (create_and_wrap_is_two_steps (float_lit 0) SensorExamples.thermometer
                SensorExamples.warm None (Some SensorExamples.t0) 95
                (Some (float_lit (10 ^ 39)))) as H.
  cbv zeta in H. destruct H as (_ & H & _).
  eexists. destruct (H _ ltac:(vm_compute; reflexivity)) as (_ & Hr & _).
  destruct (Hr OverflowError ltac:(vm_compute; reflexivity)) as [Hout _].
  exact Hout.
Defined.

(** *** Runs of calls on a sensor *)

Lemma same_sensor_refl (s : Sensor.t) : same_sensor s s.
Proof. repeat split. Qed.

Lemma same_sensor_trans (a b c : Sensor.t) : same_sensor a b -> same_sensor b c -> same_sensor a c.
Proof.
  unfold same_sensor. intros (H1 & H2 & H3 & H4 & H5 & H6) (G1 & G2 & G3 & G4 & G5 & G6).
  repeat split; congruence.
Qed.

Lemma same_sensor_logged (s s' : Sensor.t) (r : SensorReading.t) :
  same_sensor s s' -> logged_by s r -> logged_by s' r.
Proof.
  unfold same_sensor, logged_by, Sensor.validate_reading.
  intros (H1 & H2 & H3 & H4 & H5 & H6) (G1 & G2 & G3).
  rewrite H1, H2, H5, H6. auto.
Qed.

Lemma effect_of_nothing (s : Sensor.t) : step_effect s [] s.
Proof.
  split; [apply same_sensor_refl |]. split; [unfold len; simpl; lia |].
  split; [now left |]. split; [auto |]. exists []. now rewrite app_nil_r.
Qed.

Lemma effect_of_logging (s : Sensor.t) (r : SensorReading.t) :
  logged_by s r -> step_effect s [] (Sensor.set_readings s (Sensor._readings s ++ [r])).
Proof.
  intros Hr. split; [repeat split |]. split; [unfold len; simpl; lia |].
  split; [now left |]. split.
  - intros H. cbn [Sensor._readings Sensor.set_readings]. apply Forall_app. split; [exact H |].
    constructor; [exact Hr | constructor].
  - exists []. now rewrite app_nil_r.
Qed.

Lemma effect_of_wrapping (s : Sensor.t) (r : SensorReading.t) (payload : list byte) :
  len payload = 21 \/ len payload = 25 ->
  step_effect s [wrapped s r payload]
              (Sensor.set_sequence_number s (Sensor._sequence_number s + 1)).
Proof.
  intros Hl. split; [repeat split |]. split; [reflexivity |].
  split; [right; exists (wrapped s r payload); repeat split; exact Hl |].
  split; [auto |]. exists []. now rewrite app_nil_r.
Qed.

Lemma effect_then (s s1 s2 : Sensor.t) (ms : list BristlemouthMessage.t) :
  step_effect s [] s1 -> step_effect s1 ms s2 -> step_effect s ms s2.
Proof.
  intros (A1 & A2 & _ & A4 & (d1 & A5)) (B1 & B2 & B3 & B4 & (d2 & B5)).
  unfold len in A2. cbn [length] in A2. rewrite Z.add_0_r in A2.
  destruct A1 as (K1 & K2 & K3 & K4 & K5 & K6).
  split; [apply (same_sensor_trans s s1 s2); [repeat split; assumption | exact B1] |].
  split; [lia |]. split; [| split].
  - destruct B3 as [-> | (m & -> & M1 & M2 & M3)]; [now left |].
    right. exists m. split; [reflexivity |]. split; [lia |]. split; [congruence | exact M3].
  - intros H. specialize (A4 H).
    assert (S1 : same_sensor s s1) by (repeat split; assumption).
    assert (S2 : same_sensor s1 s).
    { destruct S1 as (? & ? & ? & ? & ? & ?). repeat split; congruence. }
    eapply Forall_impl; [intros r; apply (same_sensor_logged s1 s r S2) |].
    apply B4. eapply Forall_impl; [intros r; apply (same_sensor_logged s s1 r S1) | exact A4].
  - exists (d1 ++ d2). rewrite B5, A5. now rewrite app_assoc.
Qed.

Lemma created_is_logged now (s : Sensor.t) value unit timestamp quality depth_m :
  step_effect s [] (snd (Sensor.create_reading now s value unit timestamp quality depth_m)).
Proof.
  pose proof (create_reading_cases now s value unit timestamp quality depth_m) as Hc.
  cbv zeta in Hc. rewrite Hc.
  destruct (validate_reading_spec s value) as [Hv Hmsg]. cbv zeta in Hv, Hmsg.
  destruct (negb (is_numeric value) || num_lt value (Sensor.min_value s)
            || num_gt value (Sensor.max_value s)) eqn:Er; [apply effect_of_nothing |].
  destruct (Z.leb_spec 0 quality) as [H0 | H0]; [| apply effect_of_nothing].
  destruct (Z.leb_spec quality 100) as [H1 | H1]; [| apply effect_of_nothing].
  cbn [andb snd]. apply effect_of_logging.
  split; [reflexivity |]. split; [cbn; lia |].
  cbn [SensorReading.value]. specialize (Hmsg eq_refl).
  destruct (Sensor.validate_reading s value) as [ok msg]. cbn [fst snd negb] in *.
  now subst.
Qed.

Lemma step_has_effect (k : sensor_call) (s : Sensor.t) :
  step_effect s (fst (sensor_step k s)) (snd (sensor_step k s)).
Proof.
  destruct k as [now value unit timestamp quality depth_m | now r
                 | now value unit timestamp quality depth_m |
                 | now speed direction timestamp quality depth_m | now r direction];
    cbn [sensor_step fst snd].
  - apply created_is_logged.
  - destruct (wrap_reading_outcome now s r) as [(e & _ & ->) | (p & _ & Hl & ->)];
      cbn [fst snd message_of]; [apply effect_of_nothing | apply effect_of_wrapping; now left].
  - unfold Sensor.create_and_wrap.
    pose proof (created_is_logged now s value unit timestamp quality depth_m) as Hc.
    destruct (Sensor.create_reading now s value unit timestamp quality depth_m)
      as [[r | e] s1]; cbn [snd] in Hc; [| exact Hc].
    destruct (wrap_reading_outcome now s1 r) as [(e & _ & ->) | (p & _ & Hl & ->)];
      cbn [fst snd message_of]; [exact Hc |].
    eapply effect_then; [exact Hc | apply effect_of_wrapping; now left].
  - split; [repeat split |]. split; [unfold len; simpl; lia |]. split; [now left |].
    split; [intros _; constructor |]. exists []. now rewrite app_nil_r.
  - destruct (Sensor.kind s) eqn:Ek; cbn [fst snd]; try apply effect_of_nothing.
    unfold Sensor.create_current_reading.
    destruct (fle (float_lit 0) direction && fle direction (float_lit 360));
      cbn [negb snd]; [| apply effect_of_nothing].
    pose proof (created_is_logged now s speed None timestamp quality depth_m) as Hc.
    destruct (Sensor.create_reading now s speed None timestamp quality depth_m)
      as [[r | e] s1]; cbn [snd] in Hc |- *; [| exact Hc].
    destruct Hc as (A1 & A2 & A3 & A4 & (d & A5)).
    split; [exact A1 |]. split; [exact A2 |]. split; [now left |].
    split; [exact A4 |]. cbn [Sensor._direction_readings Sensor.set_direction_readings].
    exists (d ++ [(speed, direction)]). rewrite A5. now rewrite app_assoc.
  - destruct (Sensor.kind s) eqn:Ek; cbn [fst snd]; try apply effect_of_nothing.
    destruct (wrap_current_reading_outcome now s r direction)
      as [(e & _ & ->) | (p & d4 & _ & _ & Hl & ->)];
      cbn [fst snd message_of]; [apply effect_of_nothing | apply effect_of_wrapping; now right].
Qed.

Lemma map_seq_from {A} (f : nat -> A) (n k : nat) :
  map f (seq n k) = map (fun i => f (n + i)%nat) (seq 0 k).
Proof.
  revert n. induction k as [| k IH]; intros n; [reflexivity |].
  cbn [seq map]. rewrite Nat.add_0_r. f_equal.
  rewrite IH, <- seq_shift, map_map. apply map_ext. intros i. f_equal. lia.
Qed.

(** X17. Whatever is called on a sensor, in whatever order, the messages
    it returns are numbered without gap or repetition from one more than
    its counter, and the counter ends as many higher as messages were
    returned: a call that raises consumes no number. Each message is a
    sensor-data message with the sensor's topic, no source id and a payload
    of 21 bytes, or 25 from the current meter. *)
Theorem sensor_numbers_its_messages (ks : list sensor_call) (s : Sensor.t) :
  let out := sensor_run ks s in
  Sensor._sequence_number (snd out) = Sensor._sequence_number s + len (fst out)
  /\ map BristlemouthMessage.sequence_number (fst out)
     = map (fun i => Sensor._sequence_number s + 1 + Z.of_nat i) (seq 0 (length (fst out)))
  /\ Forall (fun m => BristlemouthMessage.topic m = Sensor.topic s
                      /\ BristlemouthMessage.message_type m = MessageType.SENSOR_DATA
                      /\ BristlemouthMessage.source_node_id m = None
                      /\ (len (BristlemouthMessage.payload m) = 21
                          \/ len (BristlemouthMessage.payload m) = 25))
            (fst out).
Proof.
  revert s. induction ks as [| k ks IH]; intros s; cbn [sensor_run fst snd].
  - split; [unfold len; simpl; lia |]. split; [reflexivity | constructor].
  - destruct (step_has_effect k s) as (Hsame & Hseq & Hms & _ & _).
    destruct (IH (snd (sensor_step k s))) as (I1 & I2 & I3).
    destruct Hsame as (_ & _ & Htopic & _).
    cbv zeta in *. split; [rewrite I1, Hseq, len_app; lia |]. split.
    + rewrite map_app, length_app, seq_app, map_app. f_equal.
      * destruct Hms as [-> | (m & -> & M1 & _)]; [reflexivity |].
        cbn. rewrite M1. f_equal. lia.
      * rewrite I2, (map_seq_from _ (0 + length (fst (sensor_step k s)))).
        apply map_ext. intros i. rewrite Hseq. unfold len. lia.
    + apply Forall_app. split.
      * destruct Hms as [-> | (m & -> & _ & M2 & M3)]; [constructor |].
        constructor; [| constructor]. split; [exact M2 | exact M3].
      * eapply Forall_impl; [| exact I3]. intros m (T1 & T2). split; [congruence | exact T2].
Qed.

Lemma sensor_numbers_its_messages_witness :
  map BristlemouthMessage.sequence_number
      (fst (sensor_run
              [Wrap_reading (float_lit 0) ReadingExamples.submerged;
               Create_and_wrap (float_lit 0) SensorExamples.warm None
                 (Some SensorExamples.t0) 95 (Some (float_lit (10 ^ 39)));
               Clear_readings;
               Wrap_reading (float_lit 0) ReadingExamples.airborne]
              SensorExamples.thermometer))
  = [1; 2].
Proof.
  pose proof (sensor_numbers_its_messages
                [Wrap_reading (float_lit 0) ReadingExamples.submerged;
                 Create_and_wrap (float_lit 0) SensorExamples.warm None
                   (Some SensorExamples.t0) 95 (Some (float_lit (10 ^ 39)));
                 Clear_readings;
                 Wrap_reading (float_lit 0) ReadingExamples.airborne]
                SensorExamples.thermometer) as H.
  cbv zeta in H. destruct H as (_ & H & _). rewrite H.
  vm_compute. reflexivity.
Defined.

(** X18. A sensor's log holds what its own validator let through: after
    any calls, every reading in the log of a sensor that started with such a
    log carries the sensor's id, a quality from 0 to 100 and a value the
    validator accepts. No call changes the sensor's kind, id, topic, unit or
    bounds, and none shortens the current meter's list of speed and
    direction pairs, which [clear_readings] leaves alone: it empties the log
    and keeps the counter. *)
Theorem sensor_log_invariant (ks : list sensor_call) (s : Sensor.t) :
  let s' := snd (sensor_run ks s) in
  same_sensor s s'
  /\ (Forall (logged_by s) (Sensor._readings s) ->
      Forall (logged_by s') (Sensor._readings s'))
  /\ (exists more, Sensor._direction_readings s' = Sensor._direction_readings s ++ more)
  /\ Sensor._readings (snd (sensor_run (ks ++ [Clear_readings]) s)) = []
  /\ Sensor._sequence_number (snd (sensor_run (ks ++ [Clear_readings]) s))
     = Sensor._sequence_number s'
  /\ Sensor._direction_readings (snd (sensor_run (ks ++ [Clear_readings]) s))
     = Sensor._direction_readings s'.
Proof.
  assert (Hrun : forall ks s,
            same_sensor s (snd (sensor_run ks s))
            /\ (Forall (logged_by s) (Sensor._readings s) ->
                Forall (logged_by s) (Sensor._readings (snd (sensor_run ks s))))
            /\ (exists more, Sensor._direction_readings (snd (sensor_run ks s))
                             = Sensor._direction_readings s ++ more)).
  { clear. induction ks as [| k ks IH]; intros s; cbn [sensor_run fst snd].
    - split; [apply same_sensor_refl |]. split; [auto |]. exists []. now rewrite app_nil_r.
    - destruct (step_has_effect k s) as (Hsame & _ & _ & Hlog & (d1 & Hd1)).
      destruct (IH (snd (sensor_step k s))) as (I1 & I2 & (d2 & I3)).
      split; [apply (same_sensor_trans s (snd (sensor_step k s)) _ Hsame I1) |]. split.
      + intros H. specialize (Hlog H).
        assert (S2 : same_sensor (snd (sensor_step k s)) s).
        { destruct Hsame as (? & ? & ? & ? & ? & ?). repeat split; congruence. }
        eapply Forall_impl; [intros r; apply (same_sensor_logged _ s r S2) |].
        apply I2. eapply Forall_impl; [intros r; apply (same_sensor_logged s _ r Hsame) |].
        exact Hlog.
      + exists (d1 ++ d2). rewrite I3, Hd1. now rewrite app_assoc. }
  assert (Hsnoc : forall ks s,
            snd (sensor_run (ks ++ [Clear_readings]) s)
            = Sensor.clear_readings (snd (sensor_run ks s))).
  { clear. induction ks as [| k ks IH]; intros s; cbn [sensor_run app fst snd];
      [reflexivity | apply IH]. }
  intros s'. destruct (Hrun ks s) as (H1 & H2 & H3). fold s' in H1, H2, H3.
  split; [exact H1 |]. split; [| split; [exact H3 |]].
  - intros H. eapply Forall_impl; [intros r; apply (same_sensor_logged s s' r H1) |].
    now apply H2.
  - rewrite Hsnoc. fold s'. repeat split.
Qed.

Lemma sensor_log_invariant_witness :
  Forall (logged_by SensorExamples.thermometer)
         (Sensor._readings
            (snd (sensor_run
                    [Create_reading (float_lit 0) SensorExamples.warm None
                       (Some SensorExamples.t0) 95 None;
                     Create_reading (float_lit 0) (PyFloat (float_lit 60)) None None 95 None]
                    SensorExamples.thermometer))).
Proof.
  pose proof (sensor_log_invariant
                [Create_reading (float_lit 0) SensorExamples.warm None
                   (Some SensorExamples.t0) 95 None;
                 Create_reading (float_lit 0) (PyFloat (float_lit 60)) None None 95 None]
                SensorExamples.thermometer) as H.
  cbv zeta in H. destruct H as (_ & H & _).
  eapply Forall_impl; [| apply H; constructor].
  intros r (A & B & C). split; [exact A | split; [exact B | exact C]].
Defined.

(** ** The registry of sensors *)

Lemma pystr_eqb_eq (a b : pystr) : pystr_eqb a b = true <-> a = b.
Proof.
  revert b. induction a as [| x a IH]; intros [| y b]; cbn [pystr_eqb]; split;
    try congruence; try discriminate.
  - intros H. apply andb_true_iff in H as [H1 H2]. apply Z.eqb_eq in H1. apply IH in H2.
    congruence.
  - intros H. injection H as -> ->. rewrite Z.eqb_refl. cbn [andb]. now apply IH.
Qed.

Lemma pystr_eqb_refl (a : pystr) : pystr_eqb a a = true.
Proof. now apply pystr_eqb_eq. Qed.

Lemma pystr_eqb_neq (a b : pystr) : a <> b -> pystr_eqb a b = false.
Proof.
  intros H. destruct (pystr_eqb a b) eqn:E; [| reflexivity].
  apply pystr_eqb_eq in E. contradiction.
Qed.

Section Dict.
Context {V : Type}.
Implicit Types (d : list (pystr * V)) (k : pystr) (v : V).

Lemma dict_get_set_same d k v : dict_get (dict_set d k v) k = Some v.
Proof.
  induction d as [| [k' v'] d IH]; cbn [dict_set dict_get].
  - now rewrite pystr_eqb_refl.
  - destruct (pystr_eqb k' k) eqn:E; cbn [dict_get]; rewrite E; [reflexivity | exact IH].
Qed.

Lemma dict_get_set_other d k k0 v : k0 <> k -> dict_get (dict_set d k v) k0 = dict_get d k0.
Proof.
  intros H. induction d as [| [k' v'] d IH]; cbn [dict_set dict_get].
  - now rewrite (pystr_eqb_neq k k0) by congruence.
  - destruct (pystr_eqb k' k) eqn:E; cbn [dict_get].
    + apply pystr_eqb_eq in E. subst k'. now rewrite (pystr_eqb_neq k k0) by congruence.
    + now rewrite IH.
Qed.

Lemma dict_get_in d k : dict_get d k <> None <-> In k (map fst d).
Proof.
  induction d as [| [k' v'] d IH]; cbn [dict_get map fst In]; [tauto |].
  destruct (pystr_eqb k' k) eqn:E.
  - apply pystr_eqb_eq in E. split; [now left | discriminate].
  - rewrite IH. split; [now right | intros [H | H]; [| exact H]].
    subst k'. now rewrite pystr_eqb_refl in E.
Qed.

Lemma dict_keys_set d k v :
  map fst (dict_set d k v)
  = match dict_get d k with Some _ => map fst d | None => map fst d ++ [k] end.
Proof.
  induction d as [| [k' v'] d IH]; cbn [dict_set dict_get map fst app]; [reflexivity |].
  destruct (pystr_eqb k' k) eqn:E; cbn [map fst]; [reflexivity |].
  rewrite IH. now destruct (dict_get d k).
Qed.

Lemma dict_get_del_other d k k0 : k0 <> k -> dict_get (dict_del d k) k0 = dict_get d k0.
Proof.
  intros H. induction d as [| [k' v'] d IH]; cbn [dict_del dict_get]; [reflexivity |].
  destruct (pystr_eqb k' k) eqn:E; cbn [dict_get].
  - apply pystr_eqb_eq in E. subst k'. now rewrite (pystr_eqb_neq k k0) by congruence.
  - now rewrite IH.
Qed.

Lemma filter_absent (l : list pystr) k :
  ~ In k l -> filter (fun k' => negb (pystr_eqb k' k)) l = l.
Proof.
  induction l as [| x l IH]; cbn [filter In]; [reflexivity |]. intros H.
  rewrite (pystr_eqb_neq x k) by tauto. cbn [negb]. f_equal. apply IH. tauto.
Qed.

Lemma dict_keys_del d k :
  NoDup (map fst d) ->
  map fst (dict_del d k) = filter (fun k' => negb (pystr_eqb k' k)) (map fst d).
Proof.
  induction d as [| [k' v'] d IH]; cbn [dict_del map fst filter]; [reflexivity |].
  intros H. inversion H as [| ? ? Hin Hnd]. subst.
  destruct (pystr_eqb k' k) eqn:E; cbn [negb map fst].
  - apply pystr_eqb_eq in E. subst k'. symmetry. now apply filter_absent.
  - f_equal. now apply IH.
Qed.

Lemma dict_get_del_same d k : NoDup (map fst d) -> dict_get (dict_del d k) k = None.
Proof.
  intros H. destruct (dict_get (dict_del d k) k) as [v |] eqn:E; [exfalso | reflexivity].
  assert (Hin : In k (map fst (dict_del d k))) by (apply dict_get_in; congruence).
  rewrite dict_keys_del in Hin by exact H. apply filter_In in Hin as [_ Hk].
  now rewrite pystr_eqb_refl in Hk.
Qed.

Lemma dict_set_nodup d k v : NoDup (map fst d) -> NoDup (map fst (dict_set d k v)).
Proof.
  intros H. rewrite dict_keys_set. destruct (dict_get d k) eqn:E; [exact H |].
  apply NoDup_app; [exact H | repeat constructor; intros [] |].
  intros x Hx [<- | []]. apply dict_get_in in Hx. congruence.
Qed.

Lemma dict_del_nodup d k : NoDup (map fst d) -> NoDup (map fst (dict_del d k)).
Proof. intros H. rewrite dict_keys_del by exact H. now apply NoDup_filter. Qed.
End Dict.

Section Registry.
Variable W : Type.
Variable json_dumps : Status.t -> pystr.

Let client := SpotterBuoyClient.t W.

Import SpotterBuoyClient.

(** No two entries of the registry have the same id. *)
Lemma run_keeps_registry_keys (k : call W) (c : client) (w : W) :
  NoDup (list_sensors c) -> NoDup (list_sensors (fst (run json_dumps k c w))).
Proof.
  unfold list_sensors. intros H.
  destruct k; try rewrite run_set_state; try rewrite run_transmit; cbn [run fst snd];
    try exact H.
  - now apply dict_set_nodup.
  - unfold unregister_sensor. destruct (dict_get _ _); [now apply dict_del_nodup | exact H].
  - unfold queue_reading. destruct (Sensor.wrap_reading _ _ _) as [[m | e] s]; exact H.
  - unfold queue_raw_data. destruct (BristlemouthMessage.init _ _ _ _ _ _ _ _); exact H.
  - destruct (transmit_client W now c mode max_messages w) as (q & h & ->). exact H.
  - unfold create_status_message. destruct (utf8_encode _); exact H.
Qed.

Lemma run_all_keeps_registry_keys (ks : list (call W)) (c : client) (w : W) :
  NoDup (list_sensors c) -> NoDup (list_sensors (fst (run_all json_dumps ks c w))).
Proof.
  unfold run_all. revert c w. induction ks as [| k ks IH]; intros c w H; cbn [fold_left];
    [exact H |].
  pose proof (run_keeps_registry_keys k c w H) as H1. cbn [fst snd].
  destruct (run json_dumps k c w) as [c1 w1]. now apply IH.
Qed.

(** X19. The registry is a dictionary keyed by sensor id. In a client
    reached from the constructor by any calls, no id is listed twice and the
    ids listed are those [get_sensor] finds. Registering a sensor makes it
    the one found under its id, silently replacing a sensor registered under
    the same id, whose place in the list it takes; a new id goes to the end;
    no other id is affected. Unregistering reports whether the id was
    there, after which it is not found and not listed, the others staying as
    they were, in order. *)
Theorem sensor_registry device_id cfg (c0 : client) (ks : list (call W)) (w : W) :
  init W device_id cfg = Ok c0 ->
  let c := fst (run_all json_dumps ks c0 w) in
  NoDup (list_sensors c)
  /\ (forall id, get_sensor c id <> None <-> In id (list_sensors c))
  /\ (forall sensor ref,
        let id := Sensor.sensor_id sensor in
        let c' := register_sensor c sensor ref in
        get_sensor c' id = Some ref
        /\ (forall id', id' <> id -> get_sensor c' id' = get_sensor c id')
        /\ list_sensors c'
           = match get_sensor c id with
             | Some _ => list_sensors c
             | None => list_sensors c ++ [id]
             end)
  /\ (forall id,
        let out := unregister_sensor c id in
        fst out = match get_sensor c id with Some _ => true | None => false end
        /\ get_sensor (snd out) id = None
        /\ (forall id', id' <> id -> get_sensor (snd out) id' = get_sensor c id')
        /\ list_sensors (snd out)
           = filter (fun k => negb (pystr_eqb k id)) (list_sensors c)).
Proof.
  intros Hinit c.
  assert (Hnd : NoDup (list_sensors c)).
  { apply run_all_keeps_registry_keys. unfold init in Hinit.
    apply bind_ok in Hinit as (q & _ & Hc). apply Ok_inj in Hc. subst c0. constructor. }
  split; [exact Hnd |]. split; [intros id; apply dict_get_in |]. split.
  - intros sensor ref id c'. unfold c', get_sensor, list_sensors, register_sensor.
    cbn [_sensors set_sensors].
    split; [apply dict_get_set_same |]. split; [intros id' H; now apply dict_get_set_other |].
    apply dict_keys_set.
  - intros id out. unfold out, unregister_sensor, get_sensor, list_sensors in *.
    destruct (dict_get (_sensors c) id) as [ref |] eqn:E; cbn [fst snd _sensors set_sensors].
    + split; [reflexivity |]. split; [now apply dict_get_del_same |].
      split; [intros id' H; now apply dict_get_del_other | now apply dict_keys_del].
    + split; [reflexivity |]. split; [exact E |]. split; [reflexivity |].
      symmetry. apply filter_absent. intros Hin. apply dict_get_in in Hin. congruence.
Qed.

End Registry.

Lemma sensor_registry_witness :
  exists c0,
    SpotterBuoyClient.init Examples.state_log Examples.device None = Ok c0
    /\ let c := fst (SpotterBuoyClient.run_all Examples.no_json
                       [SpotterBuoyClient.Register_sensor _ SensorExamples.thermometer 0%nat]
                       c0 []) in
       SpotterBuoyClient.list_sensors
         (SpotterBuoyClient.register_sensor c SensorExamples.thermometer 1%nat)
       = [lit "temp_sensor_01"]
       /\ SpotterBuoyClient.get_sensor
            (SpotterBuoyClient.register_sensor c SensorExamples.thermometer 1%nat)
            (lit "temp_sensor_01")
          = Some 1%nat.
Proof.
  destruct (SpotterBuoyClient.init Examples.state_log Examples.device None) as [c0 | e] eqn:E;
    [| vm_compute in E; discriminate].
  exists c0. split; [reflexivity |].
  pose proof (sensor_registry Examples.state_log Examples.no_json Examples.device None c0
                [SpotterBuoyClient.Register_sensor _ SensorExamples.thermometer 0%nat]
                [] E) as H.
  cbv zeta in H. destruct H as (_ & _ & H & _).
  destruct (H SensorExamples.thermometer 1%nat) as (Hget & _ & Hlist).
  cbv zeta. split; [| exact Hget].
  rewrite Hlist. vm_compute in E. injection E as <-. reflexivity.
Defined.

(** ** Transmission, at its edges *)

Section Transmission.
Variable W : Type.

Let client := SpotterBuoyClient.t W.

Import SpotterBuoyClient.

(** The loop stops at the first message that does not encode, which it
    has taken off the queue by then. *)
Lemma transmit_loop_fails n (q : deque.t BristlemouthMessage.t) sent total
      (before after : list BristlemouthMessage.t) (msg : BristlemouthMessage.t) (e : PyError) s :
  deque.items q = before ++ msg :: after ->
  (length before < n)%nat ->
  encoded_size before = Ok s ->
  BristlemouthMessage.to_bytes msg = Raise e ->
  transmit_loop n q sent total = (Raise e, deque.mk after (deque.maxlen q)).
Proof.
  revert q sent total before s.
  induction n as [| n IH]; intros [items maxlen] sent total before s Hq Hn Hs He; [lia |].
  cbn [deque.items deque.maxlen] in *. subst items.
  destruct before as [| b before]; cbn [transmit_loop deque.items deque.maxlen app].
  - rewrite He. reflexivity.
  - cbn [encoded_size] in Hs. apply bind_ok in Hs as (bs & Hbs & Hs).
    apply bind_ok in Hs as (s' & Hs' & _). rewrite Hbs.
    apply (IH (deque.mk (before ++ msg :: after) maxlen) _ _ before s');
      [reflexivity | cbn [length] in Hn; lia | exact Hs' | exact He].
Qed.

(** X20. On a queue that is not empty, [transmit] makes
    [min(max_messages or n, n)] rounds: a maximum of 0 counts as none given
    and drains the queue, a maximum beyond the length drains it too, and a
    negative maximum makes no round. When the messages of these rounds
    encode, they leave the head of the queue in order, and a successful
    result with their number and total size is appended to the history and
    handed to the transmit listeners, in order and up to the first that
    raises, whose exception is then the call's: also when no round was
    made, unlike on an empty queue, where nothing is recorded. When the
    listeners all return, every one has been called and the result is
    returned. For a maximum of 1 or more the messages sent are those
    [peek_queue] shows for that count; [peek_queue(0)] shows none where
    [transmit(max_messages=0)] sends all, and [peek_queue] of a negative
    count shows all but that many of the newest messages where [transmit]
    sends none. *)
Theorem transmit_counts now (c : client) mode (w : W) :
  let q := deque.items (_message_queue c) in
  let used := match mode with
              | Some m => m
              | None => SpotterConfig.transmission_mode (config c)
              end in
  let notify (result : TransmissionResult.t) :=
    for_each (fun callback : transmit_listener W => callback result)
             (on_transmit_callbacks c) w in
  let sent (k : nat) (total : Z) :=
    let result := TransmissionResult.mk true (Z.of_nat k) total now None (Some used) in
    (match snd (notify result) with None => Ok result | Some e => Raise e end,
     set_transmission_history
       (set_message_queue c (deque.mk (skipn k q) (deque.maxlen (_message_queue c))))
       (_transmission_history c ++ [result]),
     fst (notify result)) in
  q <> [] ->
  (forall max_messages total,
     encoded_size (firstn (rounds max_messages (len q)) q) = Ok total ->
     transmit now c mode max_messages w = sent (rounds max_messages (len q)) total)
  /\ (forall k, k < 0 -> transmit now c mode (Some k) w = sent 0%nat 0)
  /\ (forall k total, k = 0 \/ len q <= k -> encoded_size q = Ok total ->
        transmit now c mode (Some k) w = sent (length q) total)
  /\ (forall result,
        snd (notify result) = None ->
        fst (notify result)
        = fold_left (fun w (callback : transmit_listener W) => fst (callback result w))
                    (on_transmit_callbacks c) w)
  /\ (forall k, 1 <= k -> peek_queue c k = firstn (rounds (Some k) (len q)) q)
  /\ peek_queue c 0 = []
  /\ (forall k, k < 0 -> peek_queue c k = firstn (length q - Z.to_nat (- k)) q).
Proof.
  intros q used notify sent Hq.
  assert (Hgen : forall max_messages total,
            encoded_size (firstn (rounds max_messages (len q)) q) = Ok total ->
            transmit now c mode max_messages w = sent (rounds max_messages (len q)) total).
  { intros mm total Hs. subst sent notify q. cbv beta zeta in *.
    destruct (deque.items (_message_queue c)) as [| m0 rest] eqn:Eq; [congruence |].
    rewrite (transmit_rounds W now c mode mm w m0 rest Eq).
    rewrite (transmit_loop_drains (rounds mm (len (m0 :: rest))) (_message_queue c) [] 0
               total).
    - rewrite Eq. cbn [app]. fold used.
      assert (Hl : len (firstn (rounds mm (len (m0 :: rest))) (m0 :: rest))
                   = Z.of_nat (rounds mm (len (m0 :: rest)))).
      { unfold len, rounds. rewrite length_firstn. lia. }
      rewrite Hl. reflexivity.
    - rewrite Eq. unfold rounds, len. lia.
    - rewrite Eq. exact Hs. }
  pose proof (len_nonneg q) as Hn.
  split; [exact Hgen |]. split; [| split; [| split; [| split; [| split]]]].
  - intros k Hk.
    assert (Hr : rounds (Some k) (len q) = 0%nat) by (unfold rounds; destruct k; lia).
    specialize (Hgen (Some k) 0). rewrite Hr in Hgen. now apply Hgen.
  - intros k total Hk Hs.
    assert (Hr : rounds (Some k) (len q) = length q).
    { unfold rounds, len in *. destruct Hk as [-> | Hk]; [lia | destruct k; lia]. }
    specialize (Hgen (Some k) total). rewrite Hr in Hgen. apply Hgen.
    now rewrite firstn_all.
  - intros result Hr. subst notify. cbv beta in *.
    destruct (for_each _ (on_transmit_callbacks c) w) as [w' r] eqn:E.
    cbn [fst snd] in *. subst r. exact (for_each_returned W _ _ _ _ E).
  - intros k Hk. unfold peek_queue. fold q.
    destruct (Z.ltb_spec k 0) as [Hneg | _]; [lia |].
    unfold rounds. destruct k as [| p | p]; try lia.
    destruct (Z.le_gt_cases (Z.pos p) (len q)) as [Hle | Hgt].
    + now rewrite Z.min_l by lia.
    + rewrite Z.min_r by lia. unfold len in *. rewrite Nat2Z.id, firstn_all.
      apply firstn_all2. lia.
  - reflexivity.
  - intros k Hk. unfold peek_queue. fold q.
    destruct (Z.ltb_spec k 0) as [_ | Hpos]; [| lia].
    f_equal. unfold len. lia.
Qed.

(** X21. When a message within the rounds of [transmit] does not encode,
    the call raises the encoder's error, and the messages taken off the
    queue up to and including that one are gone: they are neither sent nor
    put back. Nothing else has happened: the history is as it was and no
    listener is called, neither a transmit listener nor an error
    listener. *)
Theorem transmit_failure_loses_messages now (c : client) mode max_messages (w : W)
    (before after : list BristlemouthMessage.t) (msg : BristlemouthMessage.t)
    (e : PyError) (total : Z) :
  deque.items (_message_queue c) = before ++ msg :: after ->
  (length before < rounds max_messages (len (before ++ msg :: after)))%nat ->
  encoded_size before = Ok total ->
  BristlemouthMessage.to_bytes msg = Raise e ->
  transmit now c mode max_messages w
  = (Raise e,
     set_message_queue c (deque.mk after (deque.maxlen (_message_queue c))),
     w)
  /\ _transmission_history (snd (fst (transmit now c mode max_messages w)))
     = _transmission_history c
  /\ get_queue_size (snd (fst (transmit now c mode max_messages w)))
     = get_queue_size c - len before - 1.
Proof.
  intros Hq Hn Hs He.
  assert (Ht : transmit now c mode max_messages w
               = (Raise e,
                  set_message_queue c (deque.mk after (deque.maxlen (_message_queue c))),
                  w)).
  { destruct before as [| b before].
    - cbn [app] in *. rewrite (transmit_rounds W now c mode max_messages w msg after Hq).
      now rewrite (transmit_loop_fails _ (_message_queue c) [] 0 [] after msg e 0 Hq Hn).
    - cbn [app] in *.
      rewrite (transmit_rounds W now c mode max_messages w b (before ++ msg :: after) Hq).
      now rewrite (transmit_loop_fails _ (_message_queue c) [] 0 (b :: before) after msg e
                     total Hq Hn Hs He). }
  rewrite Ht. cbn [fst snd]. split; [reflexivity |]. split; [reflexivity |].
  unfold get_queue_size. cbn [_message_queue set_message_queue deque.items].
  rewrite Hq. rewrite len_app. unfold len. cbn [length]. lia.
Qed.

End Transmission.

Lemma transmit_counts_witness :
  snd (SpotterBuoyClient.transmit QueueExamples.t0 QueueExamples.loaded None (Some (-1)) [])
  = [(1%nat, TransmissionResult.mk true 0 0 QueueExamples.t0 None
               (Some TransmissionMode.HYBRID));
     (2%nat, TransmissionResult.mk true 0 0 QueueExamples.t0 None
               (Some TransmissionMode.HYBRID))].
Proof.
  pose proof (transmit_counts QueueExamples.transmit_log QueueExamples.t0
                QueueExamples.loaded None []) as H.
  cbv zeta in H. destruct (H ltac:(discriminate)) as (_ & Hneg & _).
  rewrite (Hneg (-1) ltac:(lia)). reflexivity.
Defined.

Lemma transmit_failure_loses_messages_witness :
  let late := BristlemouthMessage.mk QueueExamples.topic [] MessageType.SENSOR_DATA 1
                (2 ^ 32) QueueExamples.t0 None in
  let c := SpotterBuoyClient.queue_message
             (SpotterBuoyClient.queue_message
                (SpotterBuoyClient.queue_message (QueueExamples.fresh 1000)
                   (QueueExamples.message 1))
                late)
             (QueueExamples.message 3) in
  SpotterBuoyClient.transmit QueueExamples.t0 c None None []
  = (Raise StructError,
     SpotterBuoyClient.set_message_queue c (deque.mk [QueueExamples.message 3] 1000), []).
Proof.
  intros late c.
  destruct (BristlemouthMessage.to_bytes (QueueExamples.message 1)) as [bs | e] eqn:E;
    [| vm_compute in E; discriminate].
  destruct (transmit_failure_loses_messages QueueExamples.transmit_log QueueExamples.t0 c
              None None [] [QueueExamples.message 1] [QueueExamples.message 3] late
              StructError (len bs + 0)) as (H & _).
  - reflexivity.
  - vm_compute. lia.
  - cbn [encoded_size]. rewrite E. reflexivity.
  - vm_compute. reflexivity.
  - exact H.
Defined.

(** ** The history and the numbers of a client *)

Section ClientRuns.
Variable W : Type.
Variable json_dumps : Status.t -> pystr.

Let client := SpotterBuoyClient.t W.

Import SpotterBuoyClient.

Lemma run_all_cons (k : call W) (ks : list (call W)) (c : client) (w : W) :
  run_all json_dumps (k :: ks) c w
  = run_all json_dumps ks (fst (run json_dumps k c w)) (snd (run json_dumps k c w)).
Proof. unfold run_all. cbn [fold_left fst snd]. now destruct (run json_dumps k c w). Qed.

Lemma transmit_loop_total n (q q' : deque.t BristlemouthMessage.t) sent total tm tb :
  transmit_loop n q sent total = (Ok (tm, tb), q') -> total <= tb.
Proof.
  revert q sent total. induction n as [| n IH]; intros q sent total H; cbn [transmit_loop] in H.
  - injection H as _ <- _. lia.
  - destruct (deque.items q) as [| msg rest]; [now apply IH in H |].
    destruct (BristlemouthMessage.to_bytes msg) as [bs | e]; [| discriminate].
    apply IH in H. pose proof (len_nonneg bs). lia.
Qed.

(** What one call adds to the history. *)
Lemma run_history (k : call W) (c : client) (w : W) :
  exists new,
    _transmission_history (fst (run json_dumps k c w)) = _transmission_history c ++ new
    /\ Forall recorded_success new
    /\ (length new <= if is_transmit k then 1 else 0)%nat.
Proof.
  assert (Hsame : forall c' : client,
            _transmission_history c' = _transmission_history c ->
            exists new, _transmission_history c' = _transmission_history c ++ new
                        /\ Forall recorded_success new /\ (length new <= 0)%nat).
  { intros c' ->. exists []. rewrite app_nil_r. split; [reflexivity |].
    split; [constructor | reflexivity]. }
  destruct k; try rewrite run_set_state; try rewrite run_transmit;
    cbn [run fst snd is_transmit]; try (apply Hsame; reflexivity).
  - apply Hsame. unfold unregister_sensor. destruct (dict_get _ _); reflexivity.
  - apply Hsame. unfold queue_reading.
    destruct (Sensor.wrap_reading _ _ _) as [[m | e] s]; reflexivity.
  - apply Hsame. unfold queue_raw_data.
    destruct (BristlemouthMessage.init _ _ _ _ _ _ _ _); reflexivity.
  - destruct (deque.items (_message_queue c)) as [| m0 rest] eqn:Eq.
    + unfold transmit. rewrite Eq.
      exists []. rewrite app_nil_r. split; [reflexivity |]. split; [constructor | cbn; lia].
    + rewrite (transmit_rounds W now c mode max_messages w m0 rest Eq).
      destruct (transmit_loop _ _ _ _) as [[[tm tb] | e] q] eqn:El.
      * eexists [_]. cbn [fst snd _transmission_history set_transmission_history].
        split; [reflexivity |]. split; [| cbn; lia].
        constructor; [| constructor]. unfold recorded_success.
        cbn [TransmissionResult.success TransmissionResult.error_message
             TransmissionResult.message_count TransmissionResult.bytes_transmitted
             TransmissionResult.transmission_mode].
        split; [reflexivity |]. split; [reflexivity |]. split; [apply len_nonneg |].
        split; [exact (transmit_loop_total _ _ _ _ _ _ _ El) | discriminate].
      * exists []. rewrite app_nil_r. split; [reflexivity |]. split; [constructor | cbn; lia].
  - apply Hsame. unfold create_status_message. destruct (utf8_encode _); reflexivity.
Qed.

(** X22. The history only grows, and only by successes. Whatever is
    called on a client, its history afterwards is the one before followed
    by at most one new result per call of [transmit]; each new result
    reports success, no error message, a transmission mode, and counts of
    messages and bytes that are not negative. A transmission that fails
    raises and is not recorded, so no result in the history ever reports a
    failure. A negative limit to [get_transmission_history] counts from the
    front: [-n] returns the history without its [n] oldest results. *)
Theorem history_only_grows (ks : list (call W)) (c : client) (w : W) :
  let c' := fst (run_all json_dumps ks c w) in
  (exists new,
     _transmission_history c' = _transmission_history c ++ new
     /\ Forall recorded_success new
     /\ (length new <= length (filter (@is_transmit W) ks))%nat)
  /\ (Forall recorded_success (_transmission_history c) ->
      Forall recorded_success (_transmission_history c'))
  /\ (forall n : nat, (1 <= n)%nat ->
        get_transmission_history c' (Some (- Z.of_nat n))
        = skipn n (_transmission_history c')).
Proof.
  intros c'.
  assert (Hgrow : exists new,
            _transmission_history c' = _transmission_history c ++ new
            /\ Forall recorded_success new
            /\ (length new <= length (filter (@is_transmit W) ks))%nat).
  { subst c'. revert c w. induction ks as [| k ks IH]; intros c w.
    - exists []. rewrite app_nil_r. split; [reflexivity |]. split; [constructor | cbn; lia].
    - rewrite run_all_cons. destruct (run_history k c w) as (n1 & H1 & G1 & L1).
      destruct (IH (fst (run json_dumps k c w)) (snd (run json_dumps k c w)))
        as (n2 & H2 & G2 & L2).
      exists (n1 ++ n2). rewrite H2, H1, app_assoc. split; [reflexivity |].
      split; [apply Forall_app; split; assumption |].
      rewrite length_app. cbn [filter]. destruct (is_transmit k); cbn [length]; lia. }
  split; [exact Hgrow |]. split.
  - intros H. destruct Hgrow as (new & -> & G & _). apply Forall_app. split; assumption.
  - intros n Hn. unfold get_transmission_history.
    destruct (- Z.of_nat n) as [| p | p] eqn:E; try lia.
    unfold slice_from. rewrite <- E.
    destruct (Z.ltb_spec (- - Z.of_nat n) 0) as [Hneg | _]; [lia |].
    f_equal. lia.
Qed.

End ClientRuns.

Lemma history_only_grows_witness :
  SpotterBuoyClient.get_transmission_history
    (fst (SpotterBuoyClient.run_all Examples.no_json
            [SpotterBuoyClient.Transmit _ QueueExamples.t0 None None;
             SpotterBuoyClient.Transmit _ QueueExamples.t0 None None]
            QueueExamples.loaded []))
    (Some (-1))
  = [].
Proof.
  pose proof (history_only_grows QueueExamples.transmit_log Examples.no_json
                [SpotterBuoyClient.Transmit _ QueueExamples.t0 None None;
                 SpotterBuoyClient.Transmit _ QueueExamples.t0 None None]
                QueueExamples.loaded []) as H.
  cbv zeta in H. destruct H as (_ & _ & H).
  change (-1) with (- Z.of_nat 1). rewrite (H 1%nat ltac:(lia)).
  vm_compute. reflexivity.
Defined.

Section ClientNumbers.
Variable W : Type.
Variable json_dumps : Status.t -> pystr.

Let client := SpotterBuoyClient.t W.

Import SpotterBuoyClient.

(** What one call does to the counter. *)
Lemma run_counter (k : call W) (c : client) (w : W) :
  let c' := fst (run json_dumps k c w) in
  (numbered json_dumps k c = []
   /\ (_sequence_number c' = _sequence_number c
       \/ _sequence_number c' = _sequence_number c + 1))
  \/ (exists m, numbered json_dumps k c = [m]
                /\ BristlemouthMessage.sequence_number m = _sequence_number c + 1
                /\ _sequence_number c' = _sequence_number c + 1).
Proof.
  destruct k; try rewrite run_set_state; try rewrite run_transmit;
    cbn [run fst snd numbered]; try (left; split; [reflexivity | now left]).
  - left. split; [reflexivity |]. left. unfold unregister_sensor.
    destruct (dict_get _ _); reflexivity.
  - left. split; [reflexivity |]. left. unfold queue_reading.
    destruct (Sensor.wrap_reading _ _ _) as [[m | e] s]; reflexivity.
  - unfold queue_raw_data, BristlemouthMessage.init. cbv zeta.
    destruct (MAX_PAYLOAD_SIZE <? len data); cbn [fst snd message_of].
    + left. split; [reflexivity | now right].
    + right. eexists. split; [reflexivity |]. split; reflexivity.
  - left. split; [reflexivity |]. left.
    destruct (transmit_client W now c mode max_messages w) as (q & h & ->). reflexivity.
  - unfold create_status_message, BristlemouthMessage.init. cbv zeta.
    destruct (utf8_encode _) as [payload | e]; cbn [fst snd message_of];
      [| left; split; [reflexivity | now left]].
    destruct (MAX_PAYLOAD_SIZE <? len payload); cbn [fst snd message_of].
    + left. split; [reflexivity | now right].
    + right. eexists. split; [reflexivity |]. split; reflexivity.
Qed.

(** X23. The client numbers the messages it builds itself, those of
    [queue_raw_data] and [create_status_message], with a counter of its own
    that no other call touches: [queue_reading] leaves it alone, its
    messages carrying the sensor's number. Whatever is called, in whatever
    order, the numbers of the messages these two calls return are strictly
    increasing, each above the counter before the calls and at most the
    counter after them, which has advanced by at most one per call. Numbers
    can be skipped: [queue_raw_data] with more than 1400 bytes raises
    "Payload size ... exceeds maximum", queues nothing, and has consumed a
    number all the same. *)
Theorem client_numbers_its_messages (ks : list (call W)) (c : client) (w : W) :
  let c' := fst (run_all json_dumps ks c w) in
  let ms := numbered_all json_dumps ks c w in
  _sequence_number c + len ms <= _sequence_number c' <= _sequence_number c + len ks
  /\ StronglySorted Z.lt (map BristlemouthMessage.sequence_number ms)
  /\ Forall (fun m => _sequence_number c < BristlemouthMessage.sequence_number m
                      <= _sequence_number c') ms
  /\ (forall now topic data message_type,
        MAX_PAYLOAD_SIZE < len data ->
        queue_raw_data now c' topic data message_type
        = (Raise (PayloadTooLarge (len data)),
           set_sequence_number c' (_sequence_number c' + 1)))
  /\ (forall now sensor reading,
        _sequence_number (snd (fst (queue_reading now c' sensor reading)))
        = _sequence_number c').
Proof.
  intros c' ms.
  assert (Hrun : _sequence_number c + len ms <= _sequence_number c'
                 <= _sequence_number c + len ks
                 /\ StronglySorted Z.lt (map BristlemouthMessage.sequence_number ms)
                 /\ Forall (fun m => _sequence_number c
                                     < BristlemouthMessage.sequence_number m
                                     <= _sequence_number c') ms).
  { subst c' ms. revert c w. induction ks as [| k ks IH]; intros c w.
    - cbn [numbered_all map]. unfold run_all, len. cbn [fold_left fst length].
      split; [lia |]. split; constructor.
    - rewrite run_all_cons. cbn [numbered_all].
      destruct (IH (fst (run json_dumps k c w)) (snd (run json_dumps k c w)))
        as (I1 & I2 & I3).
      set (c1 := fst (run json_dumps k c w)) in *.
      set (w1 := snd (run json_dumps k c w)) in *.
      assert (Hlen : len (k :: ks) = 1 + len ks) by (unfold len; cbn [length]; lia).
      pose proof (len_nonneg (numbered_all json_dumps ks c1 w1)) as Hnn.
      rewrite Hlen.
      destruct (run_counter k c w) as [[-> Hc] | (m & -> & Hm & Hc)]; fold c1 in Hc.
      + cbn [app]. split; [lia |]. split; [exact I2 |].
        eapply Forall_impl; [| exact I3]. cbn beta. intros m Hm. lia.
      + cbn [app map]. assert (Hl : len (m :: numbered_all json_dumps ks c1 w1)
                                   = 1 + len (numbered_all json_dumps ks c1 w1))
          by (unfold len; cbn [length]; lia).
        rewrite Hl. split; [lia |]. split.
        * constructor; [exact I2 |]. apply Forall_map.
          eapply Forall_impl; [| exact I3]. cbn beta. intros m' Hm'. lia.
        * constructor; [lia |].
          eapply Forall_impl; [| exact I3]. cbn beta. intros m' Hm'. lia. }
  destruct Hrun as (H1 & H2 & H3).
  split; [exact H1 |]. split; [exact H2 |]. split; [exact H3 |]. split.
  - intros now topic data message_type Hbig.
    unfold queue_raw_data, BristlemouthMessage.init. cbv zeta.
    destruct (Z.ltb_spec MAX_PAYLOAD_SIZE (len data)) as [_ | Hle]; [reflexivity | lia].
  - intros now sensor reading. unfold queue_reading.
    destruct (Sensor.wrap_reading _ _ _) as [[m | e] s]; reflexivity.
Qed.

End ClientNumbers.

Lemma client_numbers_its_messages_witness :
  let ks := [SpotterBuoyClient.Queue_raw_data _ QueueExamples.t0 QueueExamples.topic [x01]
               MessageType.SENSOR_DATA;
             SpotterBuoyClient.Queue_raw_data _ QueueExamples.t0 QueueExamples.topic
               (repeat x00 1401) MessageType.SENSOR_DATA;
             SpotterBuoyClient.Create_status_message _ QueueExamples.t0 QueueExamples.t0] in
  let numbers := map BristlemouthMessage.sequence_number
                     (numbered_all Examples.no_json ks (QueueExamples.fresh 5) []) in
  StronglySorted Z.lt numbers /\ numbers = [1; 3].
Proof.
  intros ks numbers.
  pose proof (client_numbers_its_messages QueueExamples.transmit_log Examples.no_json ks
                (QueueExamples.fresh 5) []) as H.
  cbv zeta in H. destruct H as (_ & Hsorted & _).
  split; [exact Hsorted | vm_compute; reflexivity].
Defined.

(** ** Listeners *)

Section Listeners.
Variable W : Type.
Variable json_dumps : Status.t -> pystr.

Let client := SpotterBuoyClient.t W.

Import SpotterBuoyClient.

(** Two clients that differ in their error listeners at most. *)
Let alike (c1 c2 : client) : Prop := with_error_listeners c1 [] = with_error_listeners c2 [].

Lemma run_alike (k : call W) (c1 c2 : client) (w : W) :
  alike c1 c2 ->
  alike (fst (run json_dumps k c1 w)) (fst (run json_dumps k c2 w))
  /\ snd (run json_dumps k c1 w) = snd (run json_dumps k c2 w).
Proof.
  unfold alike, with_error_listeners.
  destruct c1 as [cfg1 id1 ss1 q1 h1 st1 n1 t1 e1 sc1], c2 as [cfg2 id2 ss2 q2 h2 st2 n2 t2 e2 sc2].
  cbn [config device_id _sensors _message_queue _transmission_history _state
       _sequence_number on_transmit_callbacks on_state_change_callbacks].
  intros H. injection H as <- <- <- <- <- <- <- <- <-.
  destruct k; cbn [run fst snd]; try (split; reflexivity).
  - unfold set_state. cbn. destruct (negb _); [| split; reflexivity].
    destruct (for_each _ _ _) as [w' [e |]]; split; reflexivity.
  - unfold unregister_sensor. cbn. destruct (dict_get _ _); split; reflexivity.
  - unfold queue_reading. destruct (Sensor.wrap_reading _ _ _) as [[m | e] s]; split; reflexivity.
  - unfold queue_raw_data. cbn. destruct (BristlemouthMessage.init _ _ _ _ _ _ _ _);
      split; reflexivity.
  - unfold transmit. cbn. destruct (deque.items q1); [split; reflexivity |].
    destruct (transmit_loop _ _ _ _) as [[[tm tb] | e] q]; [| split; reflexivity].
    destruct (for_each _ _ _) as [w' [e |]]; split; reflexivity.
  - unfold create_status_message. cbn. destruct (utf8_encode _); split; reflexivity.
Qed.

(** X24. No call of the client ever runs an error listener: what the
    calls do to the world outside, and to the client, is the same whatever
    error listeners are registered, before the calls or by [on_error] among
    them. In particular a [transmit] that raises tells no error listener.
    Either a message did not encode, and then no listener at all has been
    called and the history is as it was; or a transmit listener raised,
    after the result was appended to the history, and the world is as that
    listener and those called before it have left it. *)
Theorem error_listeners_are_never_called (ks : list (call W)) (c : client) (w : W) :
  (forall ls, snd (run_all json_dumps ks (with_error_listeners c ls) w)
              = snd (run_all json_dumps ks c w))
  /\ (forall ls,
        with_error_listeners (fst (run_all json_dumps ks (with_error_listeners c ls) w)) []
        = with_error_listeners (fst (run_all json_dumps ks c w)) [])
  /\ (forall now mode max_messages (c0 : client) w0 e c1 w1,
        transmit now c0 mode max_messages w0 = (Raise e, c1, w1) ->
        on_error_callbacks c1 = on_error_callbacks c0
        /\ ((w1 = w0 /\ _transmission_history c1 = _transmission_history c0)
            \/ (exists result before callback after w',
                  _transmission_history c1 = _transmission_history c0 ++ [result]
                  /\ on_transmit_callbacks c0 = before ++ callback :: after
                  /\ for_each (fun callback : transmit_listener W => callback result)
                              before w0 = (w', None)
                  /\ callback result w' = (w1, Some e)))).
Proof.
  assert (Hgen : forall ks c1 c2 w, alike c1 c2 ->
            alike (fst (run_all json_dumps ks c1 w)) (fst (run_all json_dumps ks c2 w))
            /\ snd (run_all json_dumps ks c1 w) = snd (run_all json_dumps ks c2 w)).
  { clear. induction ks as [| k ks IH]; intros c1 c2 w H; [split; [exact H | reflexivity] |].
    rewrite !run_all_cons. destruct (run_alike k c1 c2 w H) as [H1 H2].
    rewrite H2. now apply IH. }
  assert (Hc : forall ls, alike (with_error_listeners c ls) c).
  { intros ls. unfold alike. now destruct c. }
  split; [| split].
  - intros ls. apply Hgen, Hc.
  - intros ls. apply Hgen, Hc.
  - intros now mode max_messages c0 w0 e c1 w1.
    destruct (deque.items (_message_queue c0)) as [| m0 rest] eqn:Eq.
    { unfold transmit. rewrite Eq. discriminate. }
    rewrite (transmit_rounds W now c0 mode max_messages w0 m0 rest Eq).
    destruct (transmit_loop _ _ _ _) as [[[tm tb] | e'] q].
    + cbv zeta.
      destruct (for_each _ (on_transmit_callbacks c0) w0) as [w' [e' |]] eqn:E;
        cbn [fst snd]; [| discriminate].
      intros H. injection H as <- <- <-. split; [reflexivity |]. right.
      destruct (for_each_raised W _ _ _ _ _ E) as (before & cb & after & w2 & Hl & Hb & Hcb).
      eexists _, before, cb, after, w2. split; [reflexivity |].
      split; [exact Hl |]. split; [exact Hb | exact Hcb].
    + intros H. injection H as <- <- <-. split; [reflexivity |]. left.
      split; reflexivity.
Qed.

End Listeners.

Lemma error_listeners_are_never_called_witness :
  snd (SpotterBuoyClient.run_all Examples.no_json
         [SpotterBuoyClient.Transmit _ QueueExamples.t0 None (Some 1)]
         (with_error_listeners QueueExamples.loaded
            [fun e w => (w ++ [(0%nat, Examples.one_result)], None)]) [])
  = snd (SpotterBuoyClient.run_all Examples.no_json
           [SpotterBuoyClient.Transmit _ QueueExamples.t0 None (Some 1)]
           QueueExamples.loaded []).
Proof.
  destruct (error_listeners_are_never_called QueueExamples.transmit_log Examples.no_json
              [SpotterBuoyClient.Transmit _ QueueExamples.t0 None (Some 1)]
              QueueExamples.loaded []) as (H & _).
  apply H.
Defined.

(** ** From the sensor to the wire and back *)

(** The reading a receiver decodes from the bytes of a reading. *)
Lemma reading_bytes_decode now (r : SensorReading.t) (unit : SensorUnit.t) (bs : list byte) :
  well_formed r ->
  SensorReading.to_bytes r = Ok bs ->
  exists v ms msf single,
    as_double (SensorReading.value r) = Ok v
    /\ BristlemouthMessage.timestamp_ms (SensorReading.timestamp r) = Ok ms
    /\ float_of_int ms = Ok msf
    /\ to_single (packed_depth r) = Ok single
    /\ SensorReading.from_bytes now bs unit
       = Ok (SensorReading.mk (PyFloat v) unit (fdiv msf (float_lit 1000))
               (SensorReading.quality r) None
               (if fle (float_lit 0) (of_single single) then Some (of_single single)
                else None)).
Proof.
  intros (Hq & Hval & Hdepth) Hbs.
  destruct (reading_to_bytes_ok r bs Hbs) as (ms & v & d & Hms & Hv & Hd & Hmsr & _ & ->).
  assert (Hvd : valid_float (packed_depth r)).
  { unfold packed_depth. destruct (SensorReading.depth_m r) as [x |] eqn:E;
      [now apply Hdepth | apply fopp_one_valid]. }
  destruct (pack_f_ok _ _ Hvd Hd) as (single & Hsingle & Hvs & Hlen4 & Hunpack).
  destruct (float_of_int_u64 ms Hmsr) as [msf Hmsf].
  pose proof (as_double_valid _ _ Hval Hv) as Hvv.
  set (q := SensorReading.quality r) in *.
  assert (Hlen : length (pack_d v ++ be_bytes 8 ms ++ be_bytes 1 q ++ d) = 21%nat).
  { rewrite !length_app, pack_d_length, !be_bytes_length, Hlen4. reflexivity. }
  exists v, ms, msf, single. repeat (split; [assumption |]).
  unfold SensorReading.from_bytes.
  rewrite slice_all by (symmetry; exact Hlen). rewrite Hlen. cbn [Nat.eqb negb].
  assert (S1 : slice (pack_d v ++ be_bytes 8 ms ++ be_bytes 1 q ++ d) 0 8 = pack_d v).
  { rewrite slice_app_left by (rewrite pack_d_length; lia).
    apply slice_all. now rewrite pack_d_length. }
  assert (S2 : slice (pack_d v ++ be_bytes 8 ms ++ be_bytes 1 q ++ d) 8 16 = be_bytes 8 ms).
  { rewrite slice_app_right by (rewrite pack_d_length; lia). rewrite pack_d_length.
    rewrite slice_app_left by (rewrite be_bytes_length; lia).
    apply slice_all. now rewrite be_bytes_length. }
  assert (S3 : slice (pack_d v ++ be_bytes 8 ms ++ be_bytes 1 q ++ d) 16 17 = be_bytes 1 q).
  { rewrite slice_app_right by (rewrite pack_d_length; lia). rewrite pack_d_length.
    rewrite slice_app_right by (rewrite be_bytes_length; lia). rewrite be_bytes_length.
    rewrite slice_app_left by (rewrite be_bytes_length; lia).
    apply slice_all. now rewrite be_bytes_length. }
  assert (S4 : slice (pack_d v ++ be_bytes 8 ms ++ be_bytes 1 q ++ d) 17 21 = d).
  { rewrite slice_app_right by (rewrite pack_d_length; lia). rewrite pack_d_length.
    rewrite slice_app_right by (rewrite be_bytes_length; lia). rewrite be_bytes_length.
    rewrite slice_app_right by (rewrite be_bytes_length; lia). rewrite be_bytes_length.
    apply slice_all. cbn [Nat.sub]. now rewrite Hlen4. }
  rewrite S1, S2, S3, S4.
  rewrite (unpack_pack_d v Hvv). cbn [bind].
  rewrite Hunpack. cbn [bind].
  rewrite be_value_be_bytes by exact Hmsr.
  rewrite be_value_be_bytes by (change (256 ^ Z.of_nat 1) with 256; lia).
  rewrite Hmsf. cbn [bind]. unfold SensorReading.init.
  assert (Hqok : (0 <=? q) && (q <=? 100) = true).
  { apply andb_true_iff. split; apply Z.leb_le; lia. }
  rewrite Hqok. reflexivity.
Qed.

(** X25. What a receiver gets of a reading a sensor has wrapped. Let a
    sensor whose topic has a name of 1 to 64 characters wrap a well-formed
    reading, and the message be encoded. Whenever these bytes decode, the
    decoded message has the sensor's topic name and the number the sensor
    gave it, and its payload decodes to a reading with the value of the
    original as a float, its quality, its depth in single precision if that
    is not below zero, no sensor id, and a timestamp that is the one of the
    decoded message: the original cut to whole milliseconds. The bytes do
    decode when the millisecond count survives the division by 1000.0 and
    the multiplication by 1000. *)
Theorem sensor_reading_over_the_wire now now' (s s' : Sensor.t) (r : SensorReading.t)
    (msg : BristlemouthMessage.t) (bs : list byte) (unit : SensorUnit.t) :
  well_formed r ->
  1 <= len (BristlemouthTopic.name (Sensor.topic s)) <= 64 ->
  Sensor.wrap_reading now s r = (Ok msg, s') ->
  BristlemouthMessage.to_bytes msg = Ok bs ->
  exists v ms msf single,
    as_double (SensorReading.value r) = Ok v
    /\ BristlemouthMessage.timestamp_ms (SensorReading.timestamp r) = Ok ms
    /\ float_of_int ms = Ok msf
    /\ to_single (packed_depth r) = Ok single
    /\ (forall m', BristlemouthMessage.from_bytes now' bs = Ok m' ->
          BristlemouthTopic.name (BristlemouthMessage.topic m')
          = BristlemouthTopic.name (Sensor.topic s)
          /\ BristlemouthMessage.sequence_number m' = Sensor._sequence_number s + 1
          /\ BristlemouthMessage.message_type m' = MessageType.SENSOR_DATA
          /\ BristlemouthMessage.timestamp m' = fdiv msf (float_lit 1000)
          /\ SensorReading.from_bytes now' (BristlemouthMessage.payload m') unit
             = Ok (SensorReading.mk (PyFloat v) unit (fdiv msf (float_lit 1000))
                     (SensorReading.quality r) None
                     (if fle (float_lit 0) (of_single single)
                      then Some (of_single single) else None)))
    /\ (BristlemouthMessage.timestamp_ms (fdiv msf (float_lit 1000)) = Ok ms ->
        exists m', BristlemouthMessage.from_bytes now' bs = Ok m').
Proof.
  intros Hwf Hname Hwrap Hbs.
  destruct (wrap_reading_outcome now s r) as [(e & _ & Hw) | (payload & Hp & Hl & Hw)];
    rewrite Hw in Hwrap; [discriminate |].
  injection Hwrap as <- <-.
  destruct (reading_bytes_decode now' r unit payload Hwf Hp)
    as (v & ms & msf & single & Hv & Hms & Hmsf & Hsingle & Hfrom).
  exists v, ms, msf, single. repeat (split; [assumption |]).
  assert (Hsmall : len (BristlemouthMessage.payload (wrapped s r payload)) <= MAX_PAYLOAD_SIZE)
    by (cbn [wrapped BristlemouthMessage.payload]; rewrite Hl; vm_compute; discriminate).
  split.
  - intros m' Hm'.
    pose proof Hbs as Hbs'.
    apply to_bytes_ok in Hbs' as (data & cs & Hpack & _ & _ & Hcs & ->).
    rewrite from_bytes_split in Hm'.
    rewrite (decode_fields_packed now' (wrapped s r payload) data cs ms Hpack Hms Hcs) in Hm'.
    cbn [wrapped BristlemouthMessage.topic BristlemouthMessage.payload
         BristlemouthMessage.message_type BristlemouthMessage.version
         BristlemouthMessage.sequence_number] in Hm'.
    rewrite init_topic_ok in Hm' by exact Hname. cbn [bind] in Hm'.
    rewrite Hmsf in Hm'. cbn [bind] in Hm'.
    rewrite init_small_payload in Hm' by exact Hsmall. cbn [bind fst snd] in Hm'.
    apply bind_ok in Hm' as (expected & _ & Hm').
    destruct (negb (bytes_eqb cs expected)); [discriminate |].
    apply Ok_inj in Hm'. subst m'.
    cbn [BristlemouthMessage.topic BristlemouthMessage.payload BristlemouthMessage.message_type
         BristlemouthMessage.sequence_number BristlemouthMessage.timestamp
         BristlemouthTopic.name].
    repeat (split; [reflexivity |]). exact Hfrom.
  - intros Hstable. eexists.
    apply (message_round_trip now' (wrapped s r payload) bs ms msf Hbs Hname Hsmall Hms Hmsf
             Hstable).
Qed.

Lemma sensor_reading_over_the_wire_witness :
  exists msg s' bs m',
    Sensor.wrap_reading (float_lit 0) SensorExamples.thermometer ReadingExamples.airborne
    = (Ok msg, s')
    /\ BristlemouthMessage.to_bytes msg = Ok bs
    /\ BristlemouthMessage.from_bytes (float_lit 0) bs = Ok m'
    /\ exists received,
         SensorReading.from_bytes (float_lit 0) (BristlemouthMessage.payload m')
                                  SensorUnit.CELSIUS = Ok received
         /\ SensorReading.depth_m received = None
         /\ SensorReading.quality received = 95.
Proof.
  destruct (Sensor.wrap_reading (float_lit 0) SensorExamples.thermometer
              ReadingExamples.airborne) as [[msg | e] s'] eqn:Ew;
    [| vm_compute in Ew; discriminate].
  destruct (BristlemouthMessage.to_bytes msg) as [bs | e] eqn:Eb;
    [| vm_compute in Ew; injection Ew as <- <-; vm_compute in Eb; discriminate].
  destruct (sensor_reading_over_the_wire (float_lit 0) (float_lit 0)
              SensorExamples.thermometer s' ReadingExamples.airborne msg bs
              SensorUnit.CELSIUS) as (v & ms & msf & single & Hv & Hms & Hmsf & Hs & Hall & Hex).
  - split; [vm_compute; split; discriminate |]. split.
    + intros x Hx. injection Hx as <-. reflexivity.
    + intros d Hd. injection Hd as <-. reflexivity.
  - vm_compute. split; discriminate.
  - exact Ew.
  - exact Eb.
  - vm_compute in Hms. apply Ok_inj in Hms. subst ms.
    vm_compute in Hmsf. apply Ok_inj in Hmsf. subst msf.
    vm_compute in Hs. apply Ok_inj in Hs. subst single.
    destruct (Hex ltac:(vm_compute; reflexivity)) as [m' Hm'].
    exists msg, s', bs, m'. split; [reflexivity |]. split; [exact Eb |].
    split; [exact Hm' |].
    destruct (Hall m' Hm') as (_ & _ & _ & _ & Hr).
    eexists. split; [exact Hr |]. split; reflexivity.
Defined.

(** ** Messages cut short *)

(** The two length fields of an encoded message, where a decoder looks
    for them. *)
Lemma encoded_lengths (m : BristlemouthMessage.t) (bs : list byte) :
  BristlemouthMessage.to_bytes m = Ok bs ->
  exists tl pl : nat,
    be_value (slice bs 22 (22 + 2)) = Z.of_nat tl
    /\ be_value (slice bs (22 + 2 + tl) (22 + 2 + tl + 2)) = Z.of_nat pl
    /\ length bs = (22 + 2 + tl + 2 + pl + 4)%nat.
Proof.
  intros H. apply to_bytes_ok in H as (data & cs & Hpack & _ & _ & Hcs & ->).
  apply pack_without_checksum_ok in Hpack
    as (tb & ms & _ & _ & _ & _ & _ & Htl & Hpl & ->).
  set (payload := BristlemouthMessage.payload m) in *.
  exists (length tb), (length payload).
  pose proof (header_of_length m ms) as Hh.
  assert (R2 : forall z, 0 <= z < 65536 -> be_value (be_bytes 2 z) = z).
  { intros z Hz. apply be_value_be_bytes. change (256 ^ Z.of_nat 2) with 65536. exact Hz. }
  pose proof (len_nonneg tb) as Ht0. pose proof (len_nonneg payload) as Hp0.
  repeat rewrite <- app_assoc. unfold len in *. split; [| split].
  - rewrite slice_app_right by lia. rewrite Hh.
    rewrite slice_app_left by (rewrite be_bytes_length; lia).
    rewrite slice_all by (rewrite be_bytes_length; lia). apply R2. lia.
  - rewrite slice_app_right by lia. rewrite Hh.
    rewrite slice_app_right by (rewrite be_bytes_length; lia). rewrite be_bytes_length.
    rewrite slice_app_right by lia.
    rewrite slice_app_left by (rewrite be_bytes_length; lia).
    replace (22 + 2 + length tb - 22 - 2 - length tb)%nat with 0%nat by lia.
    rewrite slice_all by (rewrite be_bytes_length; lia). apply R2. lia.
  - rewrite !length_app, Hh, !be_bytes_length, Hcs. lia.
Qed.

(** X26. An encoded message cut short does not decode: [from_bytes] raises
    on every proper prefix of the bytes [to_bytes] has written, with
    "Message too short" when fewer than 22 bytes are left. *)
Theorem truncated_message_fails now (m : BristlemouthMessage.t) (bs : list byte) (n : nat) :
  BristlemouthMessage.to_bytes m = Ok bs ->
  (n < length bs)%nat ->
  exists e,
    BristlemouthMessage.from_bytes now (firstn n bs) = Raise e
    /\ ((n < 22)%nat -> e = MessageTooShort).
Proof.
  intros Hbs Hn.
  assert (Hlen : length (firstn n bs) = n) by (rewrite length_firstn; lia).
  destruct (BristlemouthMessage.from_bytes now (firstn n bs)) as [m' | e] eqn:E.
  - exfalso.
    destruct (from_bytes_ok_inv now _ _ E)
      as (magic & v & ty & sq & tms & src & tl & topic & pl & mt & f
          & _ & _ & Htl & _ & Hpl & _ & _ & _ & _ & Hall).
    rewrite Hlen in Hall.
    destruct (encoded_lengths m bs Hbs) as (tl0 & pl0 & Htl0 & Hpl0 & Hl0).
    apply unpack_uint_ok_length in Htl as [_ Htl].
    rewrite slice_firstn in Htl by lia. rewrite Htl0 in Htl. subst tl.
    rewrite Nat2Z.id in *.
    apply unpack_uint_ok_length in Hpl as [_ Hpl].
    rewrite slice_firstn in Hpl by lia. rewrite Hpl0 in Hpl. subst pl.
    rewrite Nat2Z.id in *. lia.
  - exists e. split; [reflexivity |]. intros Hshort.
    unfold BristlemouthMessage.from_bytes in E. rewrite Hlen in E.
    destruct (Nat.ltb_spec n 22) as [_ | Hge]; [| lia]. now injection E.
Qed.

Lemma truncated_message_fails_witness :
  exists bs e,
    BristlemouthMessage.to_bytes MessageExamples.in_2009 = Ok bs
    /\ BristlemouthMessage.from_bytes (float_lit 0) (firstn 38 bs) = Raise e.
Proof.
  destruct (BristlemouthMessage.to_bytes MessageExamples.in_2009) as [bs | e] eqn:E;
    [| vm_compute in E; discriminate].
  assert (Hl : (38 < length bs)%nat).
  { vm_compute in E. apply Ok_inj in E. subst bs. vm_compute. lia. }
  destruct (truncated_message_fails (float_lit 0) MessageExamples.in_2009 bs 38 E Hl)
    as (e & He & _).
  exists bs, e. split; [reflexivity | exact He].
Defined.

(** After the header: what [from_bytes] does once the length and the magic
    byte are right. *)
Lemma from_bytes_after_header now (data : list byte) :
  (22 <= length data)%nat -> Z_of_byte (hd x00 data) = BCMP_HEADER_MAGIC ->
  forall e,
    (topic_len <- unpack_uint 2 (slice data 22 (22 + 2)) ;;
     BristlemouthTopic.from_bytes (slice data (22 + 2) (22 + 2 + Z.to_nat topic_len)))
    = Raise e ->
    BristlemouthMessage.from_bytes now data = Raise e.
Proof.
  intros Hl Hm e He. unfold BristlemouthMessage.from_bytes. cbv zeta.
  destruct (Nat.ltb_spec (length data) 22) as [Hs | _]; [lia |].
  assert (Hh : length (slice data 0 22) = 22%nat) by (rewrite slice_0, length_firstn; lia).
  assert (Hhd : hd x00 (slice data 0 22) = hd x00 data)
    by (rewrite slice_0; destruct data; reflexivity).
  destruct (BristlemouthMessage.unpack_header (slice data 0 22))
    as [[[[[[mg v] ty] sq] ms] src] | e'] eqn:Eh.
  2:{ unfold BristlemouthMessage.unpack_header in Eh. rewrite Hh in Eh. discriminate. }
  apply unpack_header_magic in Eh. rewrite Hhd, Hm in Eh. subst mg.
  cbn [bind]. rewrite Z.eqb_refl. cbn [negb].
  apply bind_raise in He as [He | (tl & Htl & He)]; [now rewrite He |].
  rewrite Htl. cbn [bind]. now rewrite He.
Qed.

(** X27. Not every failure of [from_bytes] is a [ValueError]. On an input
    that starts with the magic byte and has 22 or 23 bytes it raises
    [struct.error]; with 24 bytes or more it raises [IndexError] when no
    byte of the topic is there (the topic is announced empty, or the input
    ends with the 24th byte), and [struct.error] when only one or two are
    (so announced, or the input ends there). Neither is one of the format
    or integrity errors. *)
Theorem frames_cut_in_the_topic now (data : list byte) :
  (22 <= length data)%nat -> Z_of_byte (hd x00 data) = BCMP_HEADER_MAGIC ->
  let announced := be_value (slice data 22 24) in
  ((length data < 24)%nat -> BristlemouthMessage.from_bytes now data = Raise StructError)
  /\ ((24 <= length data)%nat -> announced = 0 \/ length data = 24%nat ->
      BristlemouthMessage.from_bytes now data = Raise IndexError)
  /\ ((25 <= length data)%nat -> 1 <= announced ->
      announced <= 2 \/ (length data <= 26)%nat ->
      BristlemouthMessage.from_bytes now data = Raise StructError)
  /\ error_kind StructError = None /\ error_kind IndexError = None.
Proof.
  intros Hl Hm announced.
  split; [| split; [| split; [| split; reflexivity]]].
  - intros Hs. apply (from_bytes_after_header now data Hl Hm).
    unfold unpack_uint. cbn [Nat.add]. unfold slice at 1.
    rewrite length_firstn, length_skipn.
    destruct (Nat.eqb_spec (Nat.min (24 - 22) (length data - 22)) 2) as [E | _]; [lia |].
    reflexivity.
  - intros H24 Hc. apply (from_bytes_after_header now data Hl Hm).
    assert (Htl : unpack_uint 2 (slice data 22 (22 + 2)) = Ok announced).
    { unfold unpack_uint. rewrite slice_length by (cbn [Nat.add]; lia). reflexivity. }
    rewrite Htl. cbn [bind].
    assert (He : slice data (22 + 2) (22 + 2 + Z.to_nat announced) = []).
    { apply length_zero_iff_nil. unfold slice. rewrite length_firstn, length_skipn.
      destruct Hc as [Hc | Hc]; [rewrite Hc |]; cbn [Nat.add]; lia. }
    rewrite He. reflexivity.
  - intros H25 H1 Hc. apply (from_bytes_after_header now data Hl Hm).
    assert (Htl : unpack_uint 2 (slice data 22 (22 + 2)) = Ok announced).
    { unfold unpack_uint. rewrite slice_length by (cbn [Nat.add]; lia). reflexivity. }
    rewrite Htl. cbn [bind].
    assert (Hlen : (1 <= length (slice data (22 + 2) (22 + 2 + Z.to_nat announced)) <= 2)%nat).
    { unfold slice. rewrite length_firstn, length_skipn. cbn [Nat.add]. lia. }
    destruct (slice data (22 + 2) (22 + 2 + Z.to_nat announced)) as [| b0 rest] eqn:Es;
      [cbn [length] in Hlen; lia |].
    cbn [BristlemouthTopic.from_bytes]. unfold unpack_uint, slice.
    rewrite length_firstn, length_skipn. cbn [length Nat.sub] in *.
    destruct (Nat.eqb_spec (Nat.min 2 (length rest - 0)) 2) as [E | _]; [lia |].
    reflexivity.
Qed.

Lemma frames_cut_in_the_topic_witness :
  BristlemouthMessage.from_bytes (float_lit 0) (xbc :: repeat x00 21) = Raise StructError
  /\ BristlemouthMessage.from_bytes (float_lit 0) (xbc :: repeat x00 40) = Raise IndexError.
Proof.
  split.
  - destruct (frames_cut_in_the_topic (float_lit 0) (xbc :: repeat x00 21))
      as (H & _); [cbn; lia | reflexivity |].
    apply H. cbn. lia.
  - destruct (frames_cut_in_the_topic (float_lit 0) (xbc :: repeat x00 40))
      as (_ & H & _); [cbn; lia | reflexivity |].
    apply H; [cbn; lia | left; reflexivity].
Defined.
